(* ===== verification/_CoqProject ===== *)
-Q . S2P
Prelude.v
UserMem.v
KernelObj.v
MemoryLimits.v
LimitsRaces.v
Tamalloc.v
SysInfo.v
SeqFile.v
Project1.v
Terminal.v
UserPrograms.v
Credentials.v
ProcessGroup.v
Rlimit.v
Priority.v
PrctlMM.v
CString.v
Uts.v
BootParams.v
CommandLine.v
Threads.v
Initcalls.v
Startup.v
StartupFacts.v
Accounting.v
Prctl.v
Vfs.v
Seek.v
ReadWrite.v
CopyRange.v
SyscallDecls.v
Syscalls.v
ProjectCalls.v
