(* ===== verification/Prelude.v ===== *)
(** * A verification of the customised kernel sources

    The repository is a part of Linux 6.5 on x86-64 with a student's system
    calls and modules added to it.  This library models its C code as
    executable functions on explicit state and proves what makes it correct.

    ** How the code is modelled

    A C integer is a [Z] with the conversions of the language written out
    ([u32], [s64], ...); a pointer is an address; a byte buffer is a list of
    values below 256; a C string is a buffer with a NUL ([CString]).  A
    handler that dereferences kernel pointers runs in [kst], a state monad
    whose [None] is an oops; code with a chain of "goto out" runs in the error
    monad [eres]; a system call that only reads and writes user memory is a
    function from that memory to a result and the memory after it.  Code that
    is not in the repository enters as a parameter: as a type class with its
    documented laws where many calls rely on it, or as a field of a record of
    the environment, or as a section variable.  Every class has an instance,
    which the concrete runs at the end of each file use.

    ** The files

    - [Prelude]: integers, error codes, the two monads, automation, list facts.
    - [UserMem]: user memory.  [UserAccess] promises what copy_to_user and
      copy_from_user do, [Paged] implements it with a finite map.
    - [KernelObj]: kernel lists ([ListHead]), the allocator ([Slab]), tasks,
      reference counts.
    - [MemoryLimits], [LimitsRaces]: kernel/usac/project3, the add, get, update
      and remove calls on the list of memory limits; one call at a time, and
      with calls of add that overlap.
    - [Tamalloc]: kernel/usac/project2, the two statistics calls and the lazy
      allocation call.
    - [UserPrograms]: modules/project2, the user programs that run on the
      calls of [Tamalloc].  [Terminal] reads what they print the way a person
      does, so that their theorems are about numbers and not format strings.
    - [Project1]: kernel/usac/project1 and modules/project1, the snapshot and
      I/O calls and the /proc files, written with [SeqFile]; the modules'
      entries in /proc.
    - [SysInfo], [Credentials], [ProcessGroup], [Rlimit], [Priority],
      [Accounting], [Uts], [PrctlMM], [Prctl]: kernel/sys.c.  [SysInfo] is
      sysinfo (class [MemInfo]); [Credentials] the set*id and get*id calls;
      [ProcessGroup] setpgid, setsid and their getters; [Rlimit] the limits,
      native, old and compat; [Priority] setpriority and getpriority;
      [Accounting] the process ids, times, getrusage and umask; [Uts] uname
      and the host and domain name (also include/linux/uts.h); [PrctlMM] the
      option PR_SET_MM of prctl, [Prctl] the other options and getcpu.  The
      specification of prctl is a table of rules, one per setting of the task:
      guards with their errors, and the new value or the answer.
    - [BootParams], [CommandLine], [Initcalls]: init/main.c.  [BootParams] is
      what the options of the command line do to the tables of init;
      [CommandLine] the boot configuration behind the ram disk and the saved
      and parsed copies of the line; [Initcalls] the blacklist, the levels of
      initcalls and the choice of the program that becomes init.  They share
      the tables of [BootParams] and the strings of [CString].
    - [Threads], [Startup], [StartupFacts]: the start-up sequence of
      init/main.c.  [Threads] is a scheduler that interleaves two threads,
      each a list of actions that go on, wait, panic or oops, with the
      invariant rules for such pairs; [Startup] has start_kernel, rest_init,
      kernel_init and kernel_init_freeable as actions on the variables of the
      file (class [StartupEnv] for the other subsystems), composed from the
      operations of [BootParams], [CommandLine] and [Initcalls];
      [StartupFacts] proves what holds in every interleaving (class
      [StartupLaws]).  The creation of a thread may fail, as rest_init does
      not look at it; cpu_startup_entry is an action that never goes on.
    - [Vfs], [Seek], [ReadWrite], [CopyRange]: fs/read_write.c.  [Vfs] holds
      open files, descriptors and the classes for what a file system and an
      address space answer (a method of a file may change the world, the
      accounting, the signals of the task and the events, not the open files); [Seek] the llseek family; [ReadWrite] every read
      and write path, plain, positioned, vectored and compat; [CopyRange]
      sendfile, copy_file_range and the write checks.
    - [SyscallDecls], [Syscalls]: include/linux/syscalls.h and
      arch/x86/entry/syscalls/syscall_64.tbl.  [SyscallDecls] holds the
      prototypes, the SYSCALL_DEFINEn of the repository and the table of
      numbers as data; [Syscalls] the macros (argument lists, metadata, the
      wrapper that converts registers), the inline functions and the lookup of
      a number.  The class [Typedefs] has the types of other headers.
    - [ProjectCalls]: the nine calls of kernel/usac from number and registers
      to the handlers of [MemoryLimits], [Tamalloc] and [Project1], over one
      state with one user memory.

    ** What is proved

    Invariants by induction over sequences of calls: the list of limits (also
    when calls overlap; one entry per pid if adds of one pid do not), the
    credentials, groups within sessions, limits that are only lowered, the
    memory map, the task fields prctl changes (which also never takes back
    no-new-privileges and the executable-memory promise), the tables of init,
    the variables of the start-up in every interleaving of its two threads, and
    the joint state of the project's calls for any numbers and registers.
    Refinements of a specification: the limit calls as operations on a table,
    the seek in unbounded integers, a boot option as an update of a finite
    map, the initcalls as the table of the linker in order, kernel_init as a
    search, the start of init as its command lines specify it, prctl as its
    table of rules, the numbers of the table as the handlers they reach.
    Safety: unprivileged credentials are confined, no read or write call can
    oops while the file system keeps to the contract of synchronous requests,
    an interleaving of the start-up only when a thread could not be created;
    the copies of the command line fit, a wrapper hands its body values of the
    declared types.  Consistency of the
    declarations: prototypes, definitions and numbers agree.  Termination: every
    schedule of the start-up gets to one of its outcomes: init running with the
    boot thread idle, a panic, or the crash after a failed thread creation.
    Round trips, exact arithmetic and error behaviour of the single calls.  The
    theorems numbered C1, C2, ... are the main ones; the others are of the same
    kind and complete the components.

    ** Fuel and bounds

    Loops over lists are structural.  The loop of do_sysinfo that folds the
    memory unit runs at most 32 times, the width of the unit; readv and writev
    run at most as many rounds as there are segments; the blacklist loop as
    many as its line has characters, plus two.  In each case a theorem says
    that the result is reached within that fuel.  The start-up has no fuel: its
    schedules are sequences of steps, bounded by the number of actions.

    ** Atomicity

    A system call is one step, with one exception: the add call on the limits
    takes no lock, and [LimitsRaces] has it as a check and a commit between
    which other calls run (a traversal and an insertion are still one step
    each).  In the
    start-up each call is one action, and the boot thread and the init thread
    interleave between actions in every way that the completion
    kthreadd_done allows.  RCU sections, reference counts and lock depths are
    part of the state, and the theorems say that they are balanced.

    ** Not modelled

    init/main.c: the banner that start_kernel prints, the weak functions
    without a body, the messages of the initcall trace, and the variants of
    functions for kernels without a boot configuration, kallsyms or SMP.
    include/linux/syscalls.h: prototypes of ksys functions that have no body
    there; the header leaves its own sys prototypes out where an architecture,
    like x86-64, brings its own wrapper, and the model of the wrapper is the one
    of the header.  The Makefiles and the documents.  Messages of printk, except
    where a property counts them.  The module binaries of modules/project3.
    Spin locks held around straight-line code, and whether a function may sleep
    where it is called.
    What the functions of other subsystems do inside. *)

(** ** Prelude: shared arithmetic, error codes, effects and automation *)

From Stdlib Require Export ZArith Lia Bool.
From stdpp Require Export base tactics option numbers list gmap sets strings pretty.

#[global] Set Default Goal Selector "!".
#[global] Open Scope Z_scope.

(** ** Machine integers

    A C integer is a [Z]; the casts below are the conversions of the
    language (modulo [2^w], two's complement for the signed types). *)

Definition u8 (z : Z) : Z := z mod 2 ^ 8.
Definition u16 (z : Z) : Z := z mod 2 ^ 16.
Definition u32 (z : Z) : Z := z mod 2 ^ 32.
Definition u64 (z : Z) : Z := z mod 2 ^ 64.
Definition s32 (z : Z) : Z := (z + 2 ^ 31) mod 2 ^ 32 - 2 ^ 31.
Definition s64 (z : Z) : Z := (z + 2 ^ 63) mod 2 ^ 64 - 2 ^ 63.

Definition in_u32 (z : Z) : Prop := 0 <= z < 2 ^ 32.
Definition in_u64 (z : Z) : Prop := 0 <= z < 2 ^ 64.
Definition in_s32 (z : Z) : Prop := - 2 ^ 31 <= z < 2 ^ 31.
Definition in_s64 (z : Z) : Prop := - 2 ^ 63 <= z < 2 ^ 63.

#[export] Instance in_u32_dec z : Decision (in_u32 z).
Proof. unfold in_u32. apply _. Defined.
#[export] Instance in_u64_dec z : Decision (in_u64 z).
Proof. unfold in_u64. apply _. Defined.
#[export] Instance in_s32_dec z : Decision (in_s32 z).
Proof. unfold in_s32. apply _. Defined.
#[export] Instance in_s64_dec z : Decision (in_s64 z).
Proof. unfold in_s64. apply _. Defined.

(** C truth values of the integers the code tests directly. *)
Definition nz (z : Z) : bool := negb (z =? 0).

(** ** Error codes ([include/uapi/asm-generic/errno*.h]) *)

Definition EPERM : Z := 1.
Definition ENOENT : Z := 2.
Definition ESRCH : Z := 3.
Definition EINTR : Z := 4.
Definition ENXIO : Z := 6.
Definition EBADF : Z := 9.
Definition EAGAIN : Z := 11.
Definition ENOMEM : Z := 12.
Definition EACCES : Z := 13.
Definition EFAULT : Z := 14.
Definition EEXIST : Z := 17.
Definition EXDEV : Z := 18.
Definition EISDIR : Z := 21.
Definition EINVAL : Z := 22.
Definition ETXTBSY : Z := 26.
Definition EFBIG : Z := 27.
Definition ESPIPE : Z := 29.
Definition ENOSYS : Z := 38.
Definition EOVERFLOW : Z := 75.
Definition EOPNOTSUPP : Z := 95.
Definition MAX_ERRNO : Z := 4095.

(** x86-64 page geometry. *)
Definition PAGE_SHIFT : Z := 12.
Definition PAGE_SIZE : Z := 4096.

(** [IS_ERR_VALUE]: an unsigned long in the last [MAX_ERRNO] values. *)
Definition IS_ERR_VALUE (x : Z) : bool := 2 ^ 64 - MAX_ERRNO <=? x.

(** ** The state-and-oops monad

    Code that dereferences kernel pointers runs in [kst S]: it threads a
    state and yields [None] when it dereferences a pointer to no live
    object, the use-after-free or wild access the safety theorems rule out. *)

Definition kst (S A : Type) : Type := S → option (A * S).

#[export] Instance kst_ret {S} : MRet (kst S) := λ A a s, Some (a, s).
#[export] Instance kst_bind {S} : MBind (kst S) := λ A B f m s,
  match m s with
  | Some (a, s') => f a s'
  | None => None
  end.

Definition kget {S} : kst S S := λ s, Some (s, s).
Definition kput {S} (s : S) : kst S unit := λ _, Some (tt, s).
Definition kmodify {S} (f : S → S) : kst S unit := λ s, Some (tt, f s).
Definition koops {S A} : kst S A := λ _, None.

(** Dereference: an absent object is an oops. *)
Definition kderef {S A} (o : option A) : kst S A :=
  match o with
  | Some a => mret a
  | None => koops
  end.

(** ** The error monad

    A stretch of code that ends in [goto error] with a return value, or goes
    on with a value. *)
Definition eres (A : Type) : Type := (Z + A)%type.
#[export] Instance eres_ret : MRet eres := λ A a, inr a.
#[export] Instance eres_bind : MBind eres := λ A B f m,
  match m with inl e => inl e | inr a => f a end.
Definition fail {A} (e : Z) : eres A := inl e.
Definition guard_or {A} (b : bool) (e : Z) (k : eres A) : eres A := if b then k else inl e.

Lemma eres_bind_inr {A B} (m : eres A) (f : A → eres B) b :
  m ≫= f = inr b → ∃ a, m = inr a ∧ f a = inr b.
Proof. destruct m; [done|]. intros Hf. eauto. Qed.
Lemma eres_bind_inl {A B} (m : eres A) (f : A → eres B) e :
  m ≫= f = inl e → m = inl e ∨ ∃ a, m = inr a ∧ f a = inl e.
Proof. destruct m; [intros [= ->]; auto|]. intros Hf. eauto. Qed.

(** ** Automation *)

Create HintDb kernel discriminated.
Create Rewrite HintDb kernel.

(** Case analysis on every boolean comparison of the goal and of the
    hypotheses, turned into arithmetic facts. *)
Ltac zcase_one b :=
  match b with
  | Z.eqb ?x ?y => destruct (Z.eqb_spec x y)
  | Z.ltb ?x ?y => destruct (Z.ltb_spec x y)
  | Z.leb ?x ?y => destruct (Z.leb_spec x y)
  | Z.gtb ?x ?y => rewrite (Z.gtb_ltb x y) in *
  | Z.geb ?x ?y => rewrite (Z.geb_leb x y) in *
  end.
Ltac zcase :=
  match goal with
  | |- context [Z.eqb ?x ?y] => zcase_one (Z.eqb x y)
  | |- context [Z.ltb ?x ?y] => zcase_one (Z.ltb x y)
  | |- context [Z.leb ?x ?y] => zcase_one (Z.leb x y)
  | |- context [Z.gtb ?x ?y] => zcase_one (Z.gtb x y)
  | |- context [Z.geb ?x ?y] => zcase_one (Z.geb x y)
  end.
Ltac zcases := repeat (zcase; cbn [andb orb negb] in *; try lia).

(** Arithmetic modulo the word size: unfold the casts and hand the
    quotients to [lia]. *)
Ltac wrap :=
  unfold u8, u16, u32, u64, s32, s64, in_u32, in_u64, in_s32, in_s64 in *;
  change (2 ^ 8) with 256 in *;
  change (2 ^ 16) with 65536 in *;
  change (2 ^ 31) with 2147483648 in *;
  change (2 ^ 32) with 4294967296 in *;
  change (2 ^ 63) with 9223372036854775808 in *;
  change (2 ^ 64) with 18446744073709551616 in *;
  Z.div_mod_to_equations; lia.

(** Equations that run a computation of [kst] one command at a time. *)
Section kst_equations.
Context {S A B : Type}.
Implicit Types (s : S).

Lemma kbind_some (m : kst S A) (f : A → kst S B) s a s' :
  m s = Some (a, s') → (m ≫= f) s = f a s'.
Proof. intros Hm. unfold mbind, kst_bind. by rewrite Hm. Qed.
Lemma kbind_none (m : kst S A) (f : A → kst S B) s :
  m s = None → (m ≫= f) s = None.
Proof. intros Hm. unfold mbind, kst_bind. by rewrite Hm. Qed.
Lemma kbind_ret (a : A) (f : A → kst S B) s : (mret a ≫= f) s = f a s.
Proof. done. Qed.
Lemma kbind_get (f : S → kst S B) s : (kget ≫= f) s = f s s.
Proof. done. Qed.
Lemma kbind_modify (g : S → S) (f : unit → kst S B) s : (kmodify g ≫= f) s = f tt (g s).
Proof. done. Qed.
Lemma kret_run (a : A) s : (mret a : kst S A) s = Some (a, s).
Proof. done. Qed.
Lemma kbind_inv (m : kst S A) (f : A → kst S B) s b s' :
  (m ≫= f) s = Some (b, s') → ∃ a s1, m s = Some (a, s1) ∧ f a s1 = Some (b, s').
Proof. unfold mbind, kst_bind. destruct (m s) as [[a s1]|]; [eauto | done]. Qed.
Lemma kbind_ext (m : kst S A) (f g : A → kst S B) s :
  (∀ a s', f a s' = g a s') → (m ≫= f) s = (m ≫= g) s.
Proof. intros Hfg. unfold mbind, kst_bind. destruct (m s) as [[a s1]|]; [apply Hfg | done]. Qed.
End kst_equations.

Lemma kbind_assoc {S A B C} (m : kst S A) (f : A → kst S B) (g : B → kst S C) s :
  ((m ≫= f) ≫= g) s = (m ≫= λ a, f a ≫= g) s.
Proof. unfold mbind, kst_bind. by destruct (m s) as [[]|]. Qed.

Ltac krun := rewrite ?kbind_ret, ?kbind_get, ?kbind_modify, ?kret_run; cbn beta iota.

(** Inversion of a run that succeeded: one command ([kinv]), a final [mret]
    ([kfin]). *)
Ltac kinv H :=
  let a := fresh "a" in let s := fresh "s" in let Hm := fresh "Hm" in
  apply kbind_inv in H as (a & s & Hm & H).

Ltac kfin := repeat match goal with
  | Hret : mret _ _ = Some _ |- _ => rewrite kret_run in Hret
  end; simplify_eq.

(** ** Facts about the casts *)

Lemma u8_range z : 0 <= u8 z < 256.
Proof. wrap. Qed.
Lemma u32_range z : in_u32 (u32 z).
Proof. wrap. Qed.
Lemma u64_range z : in_u64 (u64 z).
Proof. wrap. Qed.
Lemma s32_range z : in_s32 (s32 z).
Proof. wrap. Qed.
Lemma s64_range z : in_s64 (s64 z).
Proof. wrap. Qed.

Lemma u32_small z : in_u32 z → u32 z = z.
Proof. apply Z.mod_small. Qed.
Lemma u64_small z : in_u64 z → u64 z = z.
Proof. apply Z.mod_small. Qed.
Lemma s32_small z : in_s32 z → s32 z = z.
Proof. wrap. Qed.
Lemma s64_small z : in_s64 z → s64 z = z.
Proof. wrap. Qed.

Lemma u64_idemp z : u64 (u64 z) = u64 z.
Proof. apply u64_small, u64_range. Qed.
Lemma s64_u64 z : s64 (u64 z) = s64 z.
Proof. wrap. Qed.
Lemma u64_s64 z : u64 (s64 z) = u64 z.
Proof. wrap. Qed.
Lemma u64_add_l a b : u64 (u64 a + b) = u64 (a + b).
Proof. wrap. Qed.
Lemma u64_add_r a b : u64 (a + u64 b) = u64 (a + b).
Proof. wrap. Qed.

Lemma s64_mod z : z mod 2 ^ 64 = s64 z mod 2 ^ 64.
Proof. wrap. Qed.

#[export] Hint Resolve u8_range u32_range u64_range s32_range s64_range : kernel.
#[export] Hint Rewrite u64_idemp s64_u64 u64_s64 u64_add_l u64_add_r : kernel.

(** Shifts by a constant are multiplications and divisions by a power of two. *)
Lemma shiftl_mul x k : 0 <= k → Z.shiftl x k = x * 2 ^ k.
Proof. apply Z.shiftl_mul_pow2. Qed.
Lemma shiftr_div x k : 0 <= k → Z.shiftr x k = x / 2 ^ k.
Proof. apply Z.shiftr_div_pow2. Qed.

(** Joining the halves of a 64-bit integer. *)
Lemma lor_shift32 a b : 0 ≤ b < 2 ^ 32 → Z.lor (Z.shiftl a 32) b = a * 2 ^ 32 + b.
Proof.
  intros Hb. rewrite <-Z.shiftl_mul_pow2 by lia.
  rewrite <-Z.add_nocarry_lor; [done|].
  apply Z.bits_inj'. intros n Hn. rewrite Z.land_spec, Z.bits_0.
  destruct (Z.ltb_spec n 32) as [Hlt|Hge].
  - by rewrite Z.shiftl_spec_low.
  - rewrite <-(Z.mod_small b (2 ^ 32)), Z.mod_pow2_bits_high by lia. apply andb_false_r.
Qed.

(** ** Facts of logic and lists *)

Lemma and_iff_same (P Q R : Prop) : (P → Q ↔ R) → (P ∧ Q ↔ P ∧ R).
Proof. tauto. Qed.
Lemma impl_iff_same (P Q R : Prop) : (P → Q ↔ R) → ((P → Q) ↔ (P → R)).
Proof. tauto. Qed.
Lemma forall_iff {A} (P Q : A → Prop) : (∀ x, P x ↔ Q x) → (∀ x, P x) ↔ (∀ x, Q x).
Proof. firstorder. Qed.

Lemma filter_id_Forall {A} (P : A → Prop) `{∀ x, Decision (P x)} (l : list A) :
  Forall P l → filter P l = l.
Proof.
  induction 1 as [|x l Hx Hl IH]; [done|].
  rewrite filter_cons_True by done. by rewrite IH.
Qed.

Lemma Forall_replicate_eq {A} (x : A) n : Forall (x =.) (replicate n x).
Proof. by apply Forall_replicate. Qed.

(** A pair is known from its first part, for runs whose result is evaluated
    and whose final state is only named. *)
Lemma pair_of_fst {A B} (p : A * B) a : p.1 = a → p = (a, p.2).
Proof. destruct p. by intros <-. Qed.

(** Sums of integers. *)
Definition sumZ (l : list Z) : Z := foldr Z.add 0 l.

Arguments sumZ : simpl never.

Lemma sumZ_cons x l : sumZ (x :: l) = x + sumZ l.
Proof. done. Qed.
Lemma sumZ_nonneg l : Forall (λ x, 0 ≤ x) l → 0 ≤ sumZ l.
Proof. induction 1; [done|]. rewrite sumZ_cons. lia. Qed.

(** Adding up quotients loses less than one unit per summand. *)
Lemma sumZ_div k l :
  0 < k →
  sumZ ((λ x, x / k) <$> l) ≤ sumZ l / k ≤
    sumZ ((λ x, x / k) <$> l) + (k - 1) * Z.of_nat (length l) / k.
Proof.
  intros Hk.
  assert (Hs : sumZ l = k * sumZ ((λ x, x / k) <$> l) + sumZ ((λ x, x mod k) <$> l)).
  { unfold sumZ. induction l as [|x l IH]; csimpl; [lia|].
    pose proof (Z.div_mod x k ltac:(lia)). rewrite Z.mul_add_distr_l. lia. }
  assert (Hm : 0 ≤ sumZ ((λ x, x mod k) <$> l) ≤ (k - 1) * Z.of_nat (length l)).
  { clear Hs. unfold sumZ. induction l as [|x l IH]; csimpl; [lia|].
    rewrite Nat2Z.inj_succ, Z.mul_succ_r. pose proof (Z.mod_pos_bound x k Hk). lia. }
  rewrite Hs, Z.mul_comm, Z.div_add_l by lia.
  split.
  - assert (0 ≤ sumZ ((λ x, x mod k) <$> l) / k) by (apply Z.div_pos; lia). lia.
  - apply Z.add_le_mono_l, Z.div_le_mono; lia.
Qed.
