(* ===== verification/UserMem.v ===== *)
(** * UserMem: user memory and the copies across the user/kernel boundary

    [copy_to_user], [copy_from_user], [put_user] and [get_user] are code of the
    architecture and not of this repository: they are the operations of the
    class [UserAccess], with their documented behaviour as its laws.  The
    handlers of the other files are written and proved against the class;
    [paged_user] is an implementation of it, with which the witnesses run.

    Objects are copied as bytes, so the file also has the little-endian layout
    of the C integers ([le_bytes], [le_value]). *)

From S2P Require Import Prelude.

(** ** Little-endian layout of integers *)

Fixpoint le_bytes (n : nat) (z : Z) : list Z :=
  match n with
  | O => []
  | S n => z mod 256 :: le_bytes n (z / 256)
  end.

Fixpoint le_value (bs : list Z) : Z :=
  match bs with
  | [] => 0
  | b :: bs => b + 256 * le_value bs
  end.

Definition bytes_of_u32 (z : Z) : list Z := le_bytes 4 z.
Definition bytes_of_u64 (z : Z) : list Z := le_bytes 8 z.

Lemma le_bytes_length n z : length (le_bytes n z) = n.
Proof. revert z. induction n; intros z; simpl; [done | by rewrite IHn]. Qed.

Lemma le_value_bytes n z : le_value (le_bytes n z) = z mod 256 ^ Z.of_nat n.
Proof.
  revert z. induction n as [|n IH]; intros z; simpl le_bytes; simpl le_value.
  - by rewrite Z.mod_1_r.
  - rewrite IH, Nat2Z.inj_succ, Z.pow_succ_r by lia.
    symmetry. apply Z.rem_mul_r; [lia|]. apply Z.pow_pos_nonneg; lia.
Qed.

Lemma le_value_u64 z : le_value (bytes_of_u64 z) = u64 z.
Proof. unfold bytes_of_u64. by rewrite le_value_bytes. Qed.
Lemma le_value_u32 z : le_value (bytes_of_u32 z) = u32 z.
Proof. unfold bytes_of_u32. by rewrite le_value_bytes. Qed.

(** The signed fields are read back through the two's complement cast. *)
Lemma le_value_s32 z : in_s32 z → s32 (le_value (bytes_of_u32 z)) = z.
Proof. intros Hz. rewrite le_value_u32. wrap. Qed.

(** Only the residue of the integer is laid out. *)
Lemma le_bytes_mod n y z :
  y mod 256 ^ Z.of_nat n = z mod 256 ^ Z.of_nat n → le_bytes n y = le_bytes n z.
Proof.
  revert y z. induction n as [|n IH]; intros y z; [done|].
  rewrite Nat2Z.inj_succ, Z.pow_succ_r by lia. intros Hm.
  assert (0 < 256 ^ Z.of_nat n) by (apply Z.pow_pos_nonneg; lia).
  rewrite !(Z.rem_mul_r _ 256) in Hm by lia.
  pose proof (Z.mod_pos_bound y 256). pose proof (Z.mod_pos_bound z 256).
  simpl. f_equal; [|apply IH]; lia.
Qed.

Lemma le_bytes_app a b z :
  le_bytes (a + b) z = le_bytes a z ++ le_bytes b (z / 256 ^ Z.of_nat a).
Proof.
  revert z. induction a as [|a IH]; intros z; simpl le_bytes.
  - by rewrite Z.div_1_r.
  - rewrite IH, Nat2Z.inj_succ, Z.pow_succ_r by lia.
    by rewrite Z.div_div by (try apply Z.pow_pos_nonneg; lia).
Qed.

(** The high half of a small 64-bit integer is zero. *)
Lemma bytes_of_u64_split z :
  0 ≤ z < 2 ^ 32 → bytes_of_u64 z = bytes_of_u32 z ++ [0; 0; 0; 0].
Proof.
  intros Hz. unfold bytes_of_u64, bytes_of_u32.
  rewrite (le_bytes_app 4 4), (Z.div_small z) by lia. done.
Qed.

Lemma bytes_of_u64_length z : length (bytes_of_u64 z) = 8%nat.
Proof. apply le_bytes_length. Qed.
Lemma bytes_of_u32_length z : length (bytes_of_u32 z) = 4%nat.
Proof. apply le_bytes_length. Qed.
#[export] Hint Rewrite bytes_of_u64_length bytes_of_u32_length le_bytes_length : kernel.

(** ** The copy routines

    [uread m a] is the byte the user program loads from [a], [None] when that
    faults.  [copy_to_user m p bs] returns the number of bytes it could not
    copy with the memory after the call; [user_wr m p n] says the whole range
    is writable by the program, in which case nothing is left uncopied, and
    [user_rd m p n] that it is readable. *)
Class UserAccess (M : Type) := {
  uread : M → Z → option Z;
  user_wr : M → Z → Z → bool;
  user_rd : M → Z → Z → bool;
  copy_to_user : M → Z → list Z → Z * M;
  copy_from_user : M → Z → Z → Z * list Z;

  copy_to_user_left m p bs :
    0 ≤ (copy_to_user m p bs).1 ≤ Z.of_nat (length bs);
  copy_to_user_done m p bs i b :
    (copy_to_user m p bs).1 = 0 → bs !! i = Some b →
    uread (copy_to_user m p bs).2 (p + Z.of_nat i) = Some b;
  copy_to_user_frame m p bs a :
    a < p ∨ p + Z.of_nat (length bs) ≤ a →
    uread (copy_to_user m p bs).2 a = uread m a;
  copy_to_user_ok m p bs :
    (copy_to_user m p bs).1 = 0 ↔ user_wr m p (Z.of_nat (length bs)) = true;
  copy_to_user_wr m p bs q n :
    user_wr (copy_to_user m p bs).2 q n = user_wr m q n;
  copy_to_user_rd m p bs q n :
    user_rd (copy_to_user m p bs).2 q n = user_rd m q n;
  copy_from_user_spec m p n :
    0 ≤ n →
    (copy_from_user m p n).1 = 0 ↔ user_rd m p n = true;
  copy_from_user_bytes m p n i :
    (copy_from_user m p n).1 = 0 → 0 ≤ i < n →
    uread m (p + i) = (copy_from_user m p n).2 !! Z.to_nat i;
  copy_from_user_length m p n :
    0 ≤ n → length (copy_from_user m p n).2 = Z.to_nat n;
}.

#[global] Hint Mode UserAccess ! : typeclass_instances.

(** The bytes of a range, [None] when one of them faults. *)
Definition uread_range {M} `{UserAccess M} (m : M) (p : Z) (n : nat) : option (list Z) :=
  mapM (uread m) ((λ i, p + Z.of_nat i) <$> seq 0 n).

Definition uread_u64 {M} `{UserAccess M} (m : M) (p : Z) : option Z :=
  le_value <$> uread_range m p 8.
Definition uread_u32 {M} `{UserAccess M} (m : M) (p : Z) : option Z :=
  le_value <$> uread_range m p 4.

(** [put_user] of a 32-bit variable: 0 or [-EFAULT]. *)
Definition put_user_u32 {M} `{UserAccess M} (v p : Z) (m : M) : Z * M :=
  let '(rest, m) := copy_to_user m p (bytes_of_u32 v) in
  (if nz rest then - EFAULT else 0, m).

Section facts.
Context {M : Type} `{UserAccess M}.
Implicit Types (m : M) (p : Z) (bs : list Z).

Lemma uread_range_spec m p n bs :
  uread_range m p n = Some bs ↔
  length bs = n ∧ ∀ i b, bs !! i = Some b → uread m (p + Z.of_nat i) = Some b.
Proof.
  unfold uread_range. rewrite mapM_Some, Forall2_fmap_l, Forall2_lookup.
  split.
  - intros Hall. assert (Hlen : length bs = n).
    { rewrite <-(length_seq n 0). symmetry.
      apply Forall2_length with (P := λ i b, uread m (p + Z.of_nat i) = Some b).
      by apply Forall2_lookup. }
    split; [done|]. intros i b Hb. specialize (Hall i).
    apply lookup_lt_Some in Hb as Hi.
    rewrite lookup_seq_lt, Hb in Hall by lia. by inversion Hall.
  - intros [Hlen Hbs] i. destruct (bs !! i) as [b|] eqn:Hb.
    + apply lookup_lt_Some in Hb as Hi. rewrite lookup_seq_lt by lia.
      constructor. by apply Hbs.
    + apply lookup_ge_None in Hb. rewrite lookup_seq_ge by lia. constructor.
Qed.

(** A copy that returned 0 left exactly its bytes in place. *)
Lemma copy_to_user_range m p bs :
  (copy_to_user m p bs).1 = 0 →
  uread_range (copy_to_user m p bs).2 p (length bs) = Some bs.
Proof.
  intros H0. apply uread_range_spec. split; [done|].
  intros i b Hb. by apply copy_to_user_done.
Qed.

(** A copy elsewhere keeps a range. *)
Lemma copy_to_user_range_frame m p bs q n :
  q + Z.of_nat n ≤ p ∨ p + Z.of_nat (length bs) ≤ q →
  uread_range (copy_to_user m p bs).2 q n = uread_range m q n.
Proof.
  intros Hdisj. apply option_eq. intros rs. rewrite !uread_range_spec.
  apply and_iff_same. intros Hlen.
  apply forall_iff. intros i. apply forall_iff. intros b.
  apply impl_iff_same. intros Hi%lookup_lt_Some.
  by rewrite copy_to_user_frame by lia.
Qed.

(** A part of a range that was read. *)
Lemma uread_range_sub m p xs ys zs :
  uread_range m p (length (xs ++ ys ++ zs)) = Some (xs ++ ys ++ zs) →
  uread_range m (p + Z.of_nat (length xs)) (length ys) = Some ys.
Proof.
  rewrite !uread_range_spec. intros [_ Hbs]. split; [done|]. intros i b Hb.
  rewrite <-Z.add_assoc, <-Nat2Z.inj_add. apply Hbs.
  rewrite lookup_app_r by lia. rewrite lookup_app_l by (apply lookup_lt_Some in Hb; lia).
  by rewrite Nat.add_sub_swap, Nat.sub_diag by lia.
Qed.

(** The copy either succeeds (0) or leaves a positive rest. *)
Lemma copy_to_user_cases m p bs :
  (copy_to_user m p bs).1 = 0 ∨ 0 < (copy_to_user m p bs).1.
Proof. pose proof (copy_to_user_left m p bs). lia. Qed.

Lemma copy_to_user_u64 m p z :
  (copy_to_user m p (bytes_of_u64 z)).1 = 0 →
  uread_u64 (copy_to_user m p (bytes_of_u64 z)).2 p = Some (u64 z).
Proof.
  intros H0. unfold uread_u64.
  rewrite <-(bytes_of_u64_length z), (copy_to_user_range m p _ H0).
  by rewrite <-le_value_u64.
Qed.

Lemma copy_to_user_u32 m p z :
  (copy_to_user m p (bytes_of_u32 z)).1 = 0 →
  uread_u32 (copy_to_user m p (bytes_of_u32 z)).2 p = Some (u32 z).
Proof.
  intros Hc. unfold uread_u32.
  rewrite <-(bytes_of_u32_length z), (copy_to_user_range m p _ Hc).
  by rewrite <-le_value_u32.
Qed.

(** [put_user] succeeds when the word is writable, and is then read back;
    words elsewhere and the protection are as before. *)
Lemma put_user_u32_spec v p m r m' :
  put_user_u32 v p m = (r, m') →
  (r = 0 ↔ user_wr m p 4 = true) ∧ (r = 0 ∨ r = - EFAULT) ∧
  (r = 0 → uread_u32 m' p = Some (u32 v)) ∧
  (∀ q n, user_wr m' q n = user_wr m q n) ∧
  (∀ q, q + 4 ≤ p ∨ p + 4 ≤ q → uread_u32 m' q = uread_u32 m q).
Proof.
  unfold put_user_u32. intros Hput.
  pose proof (copy_to_user_ok m p (bytes_of_u32 v)) as Hok.
  pose proof (copy_to_user_u32 m p v) as Hrd.
  pose proof (copy_to_user_wr m p (bytes_of_u32 v)) as Hwr.
  pose proof (copy_to_user_range_frame m p (bytes_of_u32 v)) as Hfr.
  rewrite bytes_of_u32_length in *.
  destruct (copy_to_user m p (bytes_of_u32 v)) as [rest m1]. cbn [fst snd] in *.
  unfold nz in Hput.
  destruct (Z.eqb_spec rest 0) as [Hr|Hr]; injection Hput as <- <-.
  - split; [tauto|]. split; [auto|]. split; [auto|]. split; [done|].
    intros q Hq. unfold uread_u32. rewrite (Hfr q 4%nat); [done | lia].
  - split; [split; [done | tauto]|]. split; [auto|]. split; [done|]. split; [done|].
    intros q Hq. unfold uread_u32. rewrite (Hfr q 4%nat); [done | lia].
Qed.

(** The bytes of a successful [copy_from_user] are what the program reads. *)
Lemma copy_from_user_range m p n k j :
  (copy_from_user m p n).1 = 0 → 0 ≤ n → (k + j ≤ Z.to_nat n)%nat →
  uread_range m (p + Z.of_nat k) j = Some (take j (drop k (copy_from_user m p n).2)).
Proof.
  intros Hc Hn Hkj. pose proof (copy_from_user_length m p n Hn) as Hlen.
  apply uread_range_spec. split; [rewrite length_take, length_drop; lia|].
  intros i b Hi. apply lookup_take_Some in Hi as [Hi Hij].
  rewrite lookup_drop in Hi.
  replace (p + Z.of_nat k + Z.of_nat i) with (p + Z.of_nat (k + i)) by lia.
  rewrite (copy_from_user_bytes m p n) by (done || lia). by rewrite Nat2Z.id.
Qed.

Lemma words_length (zs : list Z) : length (zs ≫= bytes_of_u64) = (8 * length zs)%nat.
Proof.
  induction zs as [|z zs IH]; [done|].
  rewrite bind_cons, length_app, IH, bytes_of_u64_length. simpl. lia.
Qed.

(** An object made of 64-bit words only: each word is read back. *)
Lemma copy_to_user_words m p zs i z :
  (copy_to_user m p (zs ≫= bytes_of_u64)).1 = 0 → zs !! i = Some z →
  uread_u64 (copy_to_user m p (zs ≫= bytes_of_u64)).2 (p + 8 * Z.of_nat i) = Some (u64 z).
Proof.
  intros Hc Hi. pose proof (copy_to_user_range _ _ _ Hc) as Hr.
  set (m' := (copy_to_user _ _ _).2) in *.
  rewrite <-(take_drop_middle zs i z Hi), bind_app, bind_cons in Hr.
  apply uread_range_sub in Hr. rewrite words_length, length_take in Hr.
  apply lookup_lt_Some in Hi as Hlt. rewrite Nat.min_l in Hr by lia.
  rewrite bytes_of_u64_length in Hr. unfold uread_u64.
  replace (p + 8 * Z.of_nat i) with (p + Z.of_nat (8 * i)) by lia.
  rewrite Hr. simpl. by rewrite <-le_value_u64.
Qed.
End facts.

(** ** A memory of mapped bytes

    The mapped addresses are the domain of the map; a copy proceeds byte by
    byte and stops at the first unmapped one. *)
Module Paged.
Definition memory := gmap Z Z.

Fixpoint write (m : gmap Z Z) (p : Z) (bs : list Z) : Z * gmap Z Z :=
  match bs with
  | [] => (0, m)
  | b :: rest =>
      match m !! p with
      | Some _ => write (<[p := b]> m) (p + 1) rest
      | None => (Z.of_nat (length bs), m)
      end
  end.

Fixpoint mapped (m : gmap Z Z) (p : Z) (n : nat) : bool :=
  match n with
  | O => true
  | S n => bool_decide (is_Some (m !! p)) && mapped m (p + 1) n
  end.

Definition load (m : gmap Z Z) (p : Z) (n : Z) : Z * list Z :=
  let bs := (λ i, default 0 (m !! (p + Z.of_nat i))) <$> seq 0 (Z.to_nat n) in
  (if mapped m p (Z.to_nat n) then 0 else n, bs).

Lemma write_dom m p bs a : is_Some ((write m p bs).2 !! a) ↔ is_Some (m !! a).
Proof.
  revert m p. induction bs as [|b bs IH]; intros m p; simpl; [done|].
  destruct (m !! p) eqn:Hp; simpl; [|done].
  rewrite IH, lookup_insert_is_Some'. split; [|by right].
  intros [->|?]; [by eexists | done].
Qed.

Lemma mapped_ext m m' p n :
  (∀ a, is_Some (m' !! a) ↔ is_Some (m !! a)) → mapped m' p n = mapped m p n.
Proof.
  intros Hdom. revert p. induction n as [|n IH]; intros p; simpl; [done|].
  rewrite IH. f_equal. by apply bool_decide_ext.
Qed.

Lemma mapped_spec m p n :
  mapped m p n = true ↔ ∀ i, (i < n)%nat → is_Some (m !! (p + Z.of_nat i)).
Proof.
  revert p. induction n as [|n IH]; intros p; simpl; [split; [lia | done]|].
  rewrite andb_true_iff, bool_decide_eq_true, IH. split.
  - intros [H0 Hn] [|i] Hi; [by rewrite Z.add_0_r|].
    replace (p + Z.of_nat (S i)) with (p + 1 + Z.of_nat i) by lia.
    apply Hn. lia.
  - intros Hall. split.
    + replace p with (p + Z.of_nat 0) by lia. apply Hall. lia.
    + intros i Hi. replace (p + 1 + Z.of_nat i) with (p + Z.of_nat (S i)) by lia.
      apply Hall. lia.
Qed.

Lemma write_left m p bs : 0 ≤ (write m p bs).1 ≤ Z.of_nat (length bs).
Proof.
  revert m p. induction bs as [|b bs IH]; intros m p; simpl; [lia|].
  destruct (m !! p); simpl; [|lia].
  specialize (IH (<[p:=b]> m) (p + 1)). lia.
Qed.

Lemma write_frame m p bs a :
  a < p ∨ p + Z.of_nat (length bs) ≤ a → (write m p bs).2 !! a = m !! a.
Proof.
  revert m p. induction bs as [|b bs IH]; intros m p Ha; simpl in *; [done|].
  destruct (m !! p); simpl; [|done].
  rewrite IH by lia. rewrite lookup_insert_ne by lia. done.
Qed.

Lemma write_done m p bs i b :
  (write m p bs).1 = 0 → bs !! i = Some b →
  (write m p bs).2 !! (p + Z.of_nat i) = Some b.
Proof.
  revert m p i. induction bs as [|b' bs IH]; intros m p i H0 Hi; simpl in *; [done|].
  destruct (m !! p); simpl in *; [|lia].
  destruct i as [|i]; simpl in *.
  - injection Hi as ->. rewrite write_frame by lia.
    rewrite Z.add_0_r. apply lookup_insert_eq.
  - replace (p + Z.of_nat (S i)) with (p + 1 + Z.of_nat i) by lia. by apply IH.
Qed.

Lemma write_ok m p bs :
  (write m p bs).1 = 0 ↔ mapped m p (Z.to_nat (Z.of_nat (length bs))) = true.
Proof.
  rewrite Nat2Z.id.
  revert m p. induction bs as [|b bs IH]; intros m p; simpl; [done|].
  destruct (m !! p) eqn:Hp; simpl.
  - rewrite IH. erewrite (mapped_ext m (<[p:=b]> m)); [done|].
    intros a. rewrite lookup_insert_is_Some'. split; [|by right].
    intros [->|?]; [by eexists | done].
  - split; [lia | done].
Qed.

Lemma load_lookup m p n i :
  (load m p n).1 = 0 → 0 ≤ i < n → m !! (p + i) = (load m p n).2 !! Z.to_nat i.
Proof.
  unfold load. simpl. destruct (mapped m p (Z.to_nat n)) eqn:Hm; [|lia].
  intros _ Hi. rewrite list_lookup_fmap, lookup_seq_lt by lia. simpl.
  rewrite mapped_spec in Hm. destruct (Hm (Z.to_nat i)) as [b Hb]; [lia|].
  rewrite Z2Nat.id in * by lia. by rewrite Hb.
Qed.
End Paged.

#[export] Instance paged_user : UserAccess (gmap Z Z).
Proof.
  refine {|
    uread m a := m !! a;
    user_wr m p n := Paged.mapped m p (Z.to_nat n);
    user_rd m p n := Paged.mapped m p (Z.to_nat n);
    copy_to_user := Paged.write;
    copy_from_user := Paged.load;
  |}.
  - apply Paged.write_left.
  - apply Paged.write_done.
  - apply Paged.write_frame.
  - apply Paged.write_ok.
  - intros. apply Paged.mapped_ext, Paged.write_dom.
  - intros. apply Paged.mapped_ext, Paged.write_dom.
  - intros m p n Hn. unfold Paged.load. simpl.
    destruct (Paged.mapped m p (Z.to_nat n)) eqn:Hm; [done|].
    split; [|done]. intros ->. by simpl in Hm.
  - apply Paged.load_lookup.
  - intros m p n Hn. unfold Paged.load. simpl. by rewrite length_fmap, length_seq.
Defined.

(** A range of mapped zero bytes, for the concrete runs of the witnesses. *)
Definition zero_page (p : Z) (n : nat) : gmap Z Z :=
  list_to_map ((λ i, (p + Z.of_nat i, 0)) <$> seq 0 n).
