(* ===== verification/KernelObj.v ===== *)
(** * KernelObj: kernel lists, the slab allocator and task structures

    [struct list_head], [kmalloc]/[kfree] and the task table are kernel code
    outside this repository.  The classes [ListHead] and [Slab] state what the
    system calls rely on of them, as operations with their documented laws;
    [seq_list] and [bump_slab] implement them for concrete runs. *)

From S2P Require Import Prelude.

(** ** Circular doubly linked lists ([include/linux/list.h])

    A list is seen through the addresses of its entries in the order
    [list_for_each_entry] visits them.  [list_add] inserts right after the
    head; [list_del] unlinks one entry. *)
Class ListHead (L : Type) := {
  list_init : L;
  list_entries : L → list Z;
  list_add : Z → L → L;
  list_del : Z → L → L;
  list_init_entries : list_entries list_init = [];
  list_add_entries e l : list_entries (list_add e l) = e :: list_entries l;
  list_del_entries e l :
    NoDup (list_entries l) → e ∈ list_entries l →
    list_entries (list_del e l) = filter (λ x, x ≠ e) (list_entries l);
}.
#[global] Hint Mode ListHead ! : typeclass_instances.

#[export] Instance seq_list : ListHead (list Z).
Proof.
  refine {|
    list_init := [];
    list_entries l := l;
    list_add e l := e :: l;
    list_del e l := filter (λ x, x ≠ e) l;
  |}; done.
Defined.

(** ** The slab allocator

    The live objects of one type are a finite map from their addresses.
    [kmalloc] yields the address of an object that is not live, or NULL. *)
Definition NULL : Z := 0.

Class Slab (E : Type) := {
  kmalloc : gmap Z E → option Z;
  kmalloc_fresh h p : kmalloc h = Some p → h !! p = None ∧ p ≠ NULL;
}.

Definition kfree {E} (p : Z) (h : gmap Z E) : gmap Z E := delete p h.

(** The first address above every live one; never fails. *)
Definition bump_next {E} (h : gmap Z E) : Z :=
  1 + foldr Z.max 0 (elements (dom h)).

Lemma foldr_max_le (l : list Z) x : x ∈ l → x ≤ foldr Z.max 0 l.
Proof. induction 1; simpl; lia. Qed.
Lemma foldr_max_nonneg (l : list Z) : 0 ≤ foldr Z.max 0 l.
Proof. induction l; simpl; lia. Qed.

#[export] Instance bump_slab {E} : Slab E.
Proof.
  refine {| kmalloc h := Some (bump_next h) |}.
  intros h p [= <-]. unfold bump_next, NULL. split.
  - apply not_elem_of_dom. intros Hin%elem_of_elements%foldr_max_le. lia.
  - pose proof (foldr_max_nonneg (elements (dom h))). lia.
Defined.

(** An allocator that always fails, to exercise the out-of-memory paths. *)
Definition full_slab {E} : Slab E.
Proof. by refine {| kmalloc _ := None |}. Defined.

(** ** Tasks

    The fields of [struct task_struct] and [struct mm_struct] that the system
    calls read.  [get_mm_rss] is a function of the kernel that sums counters
    of the mm; [mm_rss] is the value it returns. *)
Record mm_struct := mk_mm {
  mm_id : Z;
  total_vm : Z;
  mm_rss : Z;
}.

Record task_io_accounting := mk_ioac {
  ioac_rchar : Z;
  ioac_wchar : Z;
  ioac_syscr : Z;
  ioac_syscw : Z;
  ioac_read_bytes : Z;
  ioac_write_bytes : Z;
}.

Record task_struct := mk_task {
  task_addr : Z;
  task_mm : option mm_struct;
  exit_state : Z;
  oom_score_adj : Z;
  ioac : task_io_accounting;
}.

Definition EXIT_ZOMBIE : Z := 32.

(** ** Reference counts

    A counter table indexed by the address of the counted object. *)
Definition ref_get (t : gmap Z Z) (a : Z) : Z := default 0 (t !! a).
Definition ref_inc (a : Z) (t : gmap Z Z) : gmap Z Z := <[a := ref_get t a + 1]> t.
Definition ref_dec (a : Z) (t : gmap Z Z) : gmap Z Z := <[a := ref_get t a - 1]> t.

Lemma ref_get_inc a b t :
  ref_get (ref_inc a t) b = if decide (a = b) then ref_get t b + 1 else ref_get t b.
Proof. unfold ref_get, ref_inc. rewrite lookup_insert. by case_decide; subst. Qed.
Lemma ref_get_dec a b t :
  ref_get (ref_dec a t) b = if decide (a = b) then ref_get t b - 1 else ref_get t b.
Proof. unfold ref_get, ref_dec. rewrite lookup_insert. by case_decide; subst. Qed.

(** Taking a reference and dropping it again restores every count. *)
Lemma ref_dec_inc a t b : ref_get (ref_dec a (ref_inc a t)) b = ref_get t b.
Proof.
  rewrite ref_get_dec, ref_get_inc. case_decide; lia.
Qed.
#[export] Hint Rewrite ref_dec_inc : kernel.
