(* ===== verification/MemoryLimits.v ===== *)
(** * MemoryLimits: the four memory-limit system calls of [kernel/usac/project3]

    [202000173_add_memory_limit.c], [202000173_get_memory_limits.c],
    [202000173_update_memory_limit.c], [202000173_remove_memory_limit.c].

    The state keeps every file-scope list apart: [add] defines the global
    [memory_limited_processes] that [get] names [extern], while [remove] and
    [update] each define a [static LIST_HEAD] of the same name, a list of their
    own.  List entries are heap objects reached through their addresses;
    dereferencing a dead one is an oops of the [kst] monad. *)

From S2P Require Import Prelude UserMem KernelObj.

(** ** Data *)

(** The fields of [struct memory_limitation_entry]; its [list] member is
    represented by the membership of the entry's address in a list. *)
Record memory_limitation_entry := mk_entry {
  entry_pid : Z;           (* pid_t *)
  entry_limit : Z;         (* size_t *)
}.

(** [struct memory_limitation] as [get] lays it out: the pid, four padding
    bytes that no statement assigns, the limit. *)
Definition memory_limitation_bytes (pid limit : Z) (pad : list Z) : list Z :=
  bytes_of_u32 pid ++ pad ++ bytes_of_u64 limit.
Definition sizeof_memory_limitation : Z := 16.

(** What one invocation finds in the kernel around it: the answer of
    [capable(CAP_SYS_ADMIN)], [get_pid_task(find_vpid(pid), PIDTYPE_PID)], and
    the kernel stack bytes under the padding of [tmp] in each iteration. *)
Record callenv := mk_env {
  cap_sys_admin : bool;
  find_get_task : Z → option task_struct;
  stack_pad : Z → list Z;
}.

Record limits_state (M L : Type) := mk_limits {
  heap : gmap Z memory_limitation_entry;
  mlp_add : L;             (* the global list of add.c, extern in get.c *)
  mlp_remove : L;          (* static in remove.c *)
  mlp_update : L;          (* static in update.c *)
  task_usage : gmap Z Z;   (* reference counts of task_structs *)
  user : M;
}.
Arguments mk_limits {M L}.
Arguments heap {M L}.
Arguments mlp_add {M L}.
Arguments mlp_remove {M L}.
Arguments mlp_update {M L}.
Arguments task_usage {M L}.
Arguments user {M L}.

Section limits.
Context {M : Type} `{UserAccess M}.
Context {L : Type} `{ListHead L}.
Context `{Slab memory_limitation_entry}.
Abbreviation st := (limits_state M L).
Implicit Types (s : st) (env : callenv).

Definition set_heap h s : st :=
  mk_limits h (mlp_add s) (mlp_remove s) (mlp_update s) (task_usage s) (user s).
Definition set_mlp_add l s : st :=
  mk_limits (heap s) l (mlp_remove s) (mlp_update s) (task_usage s) (user s).
Definition set_mlp_remove l s : st :=
  mk_limits (heap s) (mlp_add s) l (mlp_update s) (task_usage s) (user s).
Definition set_task_usage t s : st :=
  mk_limits (heap s) (mlp_add s) (mlp_remove s) (mlp_update s) t (user s).
Definition set_user m s : st :=
  mk_limits (heap s) (mlp_add s) (mlp_remove s) (mlp_update s) (task_usage s) m.

(** The state at boot: three empty lists and no entry allocated. *)
Definition limits_init (m : M) : st := mk_limits ∅ list_init list_init list_init ∅ m.

(** *** Operations *)

Definition get_process_memory_usage (task : option task_struct) : Z :=
  match task with
  | None => 0
  | Some t =>
      match task_mm t with
      | None => 0
      | Some mm => s64 (u64 (Z.shiftl (total_vm mm) PAGE_SHIFT))
      end
  end.

Definition get_task_struct (t : task_struct) : kst st unit :=
  kmodify (λ s, set_task_usage (ref_inc (task_addr t) (task_usage s)) s).
Definition put_task_struct (t : task_struct) : kst st unit :=
  kmodify (λ s, set_task_usage (ref_dec (task_addr t) (task_usage s)) s).

(** [entry->field] for an entry at address [e]. *)
Definition deref_entry (e : Z) : kst st memory_limitation_entry :=
  λ s, kderef (heap s !! e) s.

(** The search loop the three writers share: the first entry, in list
    order, whose pid is [process_pid]. *)
Fixpoint list_find_pid (process_pid : Z) (es : list Z) : kst st (option Z) :=
  match es with
  | [] => mret None
  | e :: es =>
      entry ← deref_entry e;
      if entry_pid entry =? process_pid then mret (Some e)
      else list_find_pid process_pid es
  end.

Definition sys_add_memory_limit env (process_pid memory_limit : Z) : kst st Z :=
  if (process_pid <=? 0) || (memory_limit <=? 0) then mret (- EINVAL) else
  if negb (cap_sys_admin env) then mret (- EPERM) else
  match find_get_task env process_pid with
  | None => mret (- ESRCH)
  | Some task =>
      get_task_struct task;;
      if s64 memory_limit <? get_process_memory_usage (Some task) then
        put_task_struct task;;
        mret (- 100)
      else
        s ← kget;
        dup ← list_find_pid process_pid (list_entries (mlp_add s));
        match dup with
        | Some _ => put_task_struct task;; mret (- 101)
        | None =>
            s ← kget;
            match kmalloc (heap s) with
            | None => put_task_struct task;; mret (- ENOMEM)
            | Some entry =>
                kmodify (λ s,
                  set_heap (<[entry := mk_entry process_pid memory_limit]> (heap s)) s);;
                kmodify (λ s, set_mlp_add (list_add entry (mlp_add s)) s);;
                put_task_struct task;;
                mret 0
            end
        end
  end.

(** One [copy_to_user]: the number of bytes left uncopied. *)
Definition do_copy_to_user (p : Z) (bs : list Z) : kst st Z :=
  λ s, let r := copy_to_user (user s) p bs in Some (r.1, set_user r.2 s).

(** The loop of [get]: [inr count] when it ran to its end or to its
    [break], [inl err] when it returned from inside. *)
Fixpoint get_limits_loop env (u_processes_buffer max_entries : Z)
    (es : list Z) (count : Z) : kst st (Z + Z) :=
  match es with
  | [] => mret (inr count)
  | e :: es =>
      if max_entries <=? count then mret (inr count) else
      entry ← deref_entry e;
      left ← do_copy_to_user (u_processes_buffer + sizeof_memory_limitation * count)
        (memory_limitation_bytes (entry_pid entry) (entry_limit entry) (stack_pad env count));
      if nz left then mret (inl (- EFAULT))
      else get_limits_loop env u_processes_buffer max_entries es (count + 1)
  end.

Definition sys_get_memory_limits env
    (u_processes_buffer max_entries processes_returned : Z) : kst st Z :=
  if max_entries <=? 0 then mret (- EINVAL) else
  if (u_processes_buffer =? NULL) || (processes_returned =? NULL) then mret (- EINVAL) else
  s ← kget;
  r ← get_limits_loop env u_processes_buffer max_entries (list_entries (mlp_add s)) 0;
  match r with
  | inl err => mret err
  | inr count =>
      left ← do_copy_to_user processes_returned (bytes_of_u64 count);
      if nz left then mret (- EFAULT) else mret (s64 count)
  end.

Definition sys_update_memory_limit env (process_pid memory_limit : Z) : kst st Z :=
  if (process_pid <=? 0) || (memory_limit <=? 0) then mret (- EINVAL) else
  if negb (cap_sys_admin env) then mret (- EPERM) else
  s ← kget;
  found ← list_find_pid process_pid (list_entries (mlp_update s));
  match found with
  | Some e =>
      entry ← deref_entry e;
      kmodify (λ s, set_heap (<[e := mk_entry (entry_pid entry) memory_limit]> (heap s)) s);;
      mret 0
  | None => mret (- ESRCH)
  end.

Definition sys_remove_memory_limit env (process_pid : Z) : kst st Z :=
  if process_pid <=? 0 then mret (- EINVAL) else
  if negb (cap_sys_admin env) then mret (- EPERM) else
  s ← kget;
  found ← list_find_pid process_pid (list_entries (mlp_remove s));
  match found with
  | Some e =>
      kmodify (λ s, set_mlp_remove (list_del e (mlp_remove s)) s);;
      kmodify (λ s, set_heap (kfree e (heap s)) s);;
      mret 0
  | None => mret (- ESRCH)
  end.

(** [add] cut at the point where it has decided to insert: the body takes
    no lock, so another call can run between its check and its [list_add].
    [inl r] is an early return, [inr task] continues. *)
Definition add_check env (process_pid memory_limit : Z) : kst st (Z + task_struct) :=
  if (process_pid <=? 0) || (memory_limit <=? 0) then mret (inl (- EINVAL)) else
  if negb (cap_sys_admin env) then mret (inl (- EPERM)) else
  match find_get_task env process_pid with
  | None => mret (inl (- ESRCH))
  | Some task =>
      get_task_struct task;;
      if s64 memory_limit <? get_process_memory_usage (Some task) then
        put_task_struct task;;
        mret (inl (- 100))
      else
        s ← kget;
        dup ← list_find_pid process_pid (list_entries (mlp_add s));
        match dup with
        | Some _ => put_task_struct task;; mret (inl (- 101))
        | None => mret (inr task)
        end
  end.

Definition add_commit (process_pid memory_limit : Z) (task : task_struct) : kst st Z :=
  s ← kget;
  match kmalloc (heap s) with
  | None => put_task_struct task;; mret (- ENOMEM)
  | Some entry =>
      kmodify (λ s, set_heap (<[entry := mk_entry process_pid memory_limit]> (heap s)) s);;
      kmodify (λ s, set_mlp_add (list_add entry (mlp_add s)) s);;
      put_task_struct task;;
      mret 0
  end.

(** Two calls of [add], the second running entirely inside the window of
    the first. *)
Definition add_interleaved env (pid limit1 limit2 : Z) : kst st (Z * Z) :=
  c1 ← add_check env pid limit1;
  r2 ← sys_add_memory_limit env pid limit2;
  r1 ← match c1 with inl r => mret r | inr task => add_commit pid limit1 task end;
  mret (r1, r2).

(** *** Runs

    A run is a sequence of the four calls, one at a time, each with its own
    environment and arguments; the process it serves may also change user
    memory.  Calls that overlap are the subject of [LimitsRaces]. *)
Inductive limits_step : st → st → Prop :=
  | step_add env pid limit s r s' :
      in_s32 pid → in_u64 limit →
      sys_add_memory_limit env pid limit s = Some (r, s') → limits_step s s'
  | step_get env buf max ret s r s' :
      sys_get_memory_limits env buf max ret s = Some (r, s') → limits_step s s'
  | step_update env pid limit s r s' :
      in_s32 pid → in_u64 limit →
      sys_update_memory_limit env pid limit s = Some (r, s') → limits_step s s'
  | step_remove env pid s r s' :
      sys_remove_memory_limit env pid s = Some (r, s') → limits_step s s'
  | step_user m s : limits_step s (set_user m s).

Inductive limits_reachable : st → Prop :=
  | reach_init m : limits_reachable (limits_init m)
  | reach_step s s' : limits_reachable s → limits_step s s' → limits_reachable s'.

(** *** The table a list stands for

    The pid/limit pairs of the live entries in list order, and the map in
    which the first entry of a pid wins, as it does for the search loop. *)
Definition entry_pair (x : memory_limitation_entry) : Z * Z := (entry_pid x, entry_limit x).
Definition list_pairs (h : gmap Z memory_limitation_entry) (es : list Z) : list (Z * Z) :=
  omap (λ e, entry_pair <$> h !! e) es.
Definition list_table (h : gmap Z memory_limitation_entry) (es : list Z) : gmap Z Z :=
  list_to_map (list_pairs h es).
Definition limits_table s : gmap Z Z := list_table (heap s) (list_entries (mlp_add s)).

Definition all_live (h : gmap Z memory_limitation_entry) (es : list Z) : Prop :=
  Forall (λ e, is_Some (h !! e)) es.

(** Well-formed states: the global list links live entries, each once and
    each pid once, with positive pids and limits; the heap holds nothing
    else; the two private lists are empty. *)
Record limits_wf s : Prop := {
  wf_live : all_live (heap s) (list_entries (mlp_add s));
  wf_nodup : NoDup (list_entries (mlp_add s));
  wf_pids : NoDup (list_pairs (heap s) (list_entries (mlp_add s))).*1;
  wf_pos : Forall (λ x, 0 < x.1 < 2 ^ 31 ∧ 0 < x.2 < 2 ^ 64)
             (list_pairs (heap s) (list_entries (mlp_add s)));
  wf_no_leak : ∀ e, is_Some (heap s !! e) → e ∈ list_entries (mlp_add s);
  wf_remove : list_entries (mlp_remove s) = [];
  wf_update : list_entries (mlp_update s) = [];
}.

(** *** What the calls promise, over the table *)
Definition spec_add env (process_pid memory_limit : Z) (oom : bool)
    (t : gmap Z Z) : Z * gmap Z Z :=
  if decide (process_pid ≤ 0 ∨ memory_limit ≤ 0) then (- EINVAL, t) else
  if decide (cap_sys_admin env = false) then (- EPERM, t) else
  match find_get_task env process_pid with
  | None => (- ESRCH, t)
  | Some task =>
      if decide (s64 memory_limit < get_process_memory_usage (Some task)) then (- 100, t) else
      if decide (is_Some (t !! process_pid)) then (- 101, t) else
      if oom then (- ENOMEM, t) else (0, <[process_pid := memory_limit]> t)
  end.

Definition spec_update env (process_pid memory_limit : Z) (t : gmap Z Z) : Z * gmap Z Z :=
  if decide (process_pid ≤ 0 ∨ memory_limit ≤ 0) then (- EINVAL, t) else
  if decide (cap_sys_admin env = false) then (- EPERM, t) else
  if decide (is_Some (t !! process_pid)) then (0, <[process_pid := memory_limit]> t)
  else (- ESRCH, t).

Definition spec_remove env (process_pid : Z) (t : gmap Z Z) : Z * gmap Z Z :=
  if decide (process_pid ≤ 0) then (- EINVAL, t) else
  if decide (cap_sys_admin env = false) then (- EPERM, t) else
  if decide (is_Some (t !! process_pid)) then (0, delete process_pid t)
  else (- ESRCH, t).
End limits.

Arguments get_process_memory_usage : simpl never.
Arguments list_pairs : simpl never.
Arguments list_table : simpl never.

(** ** Lemmas on entry lists *)
Section lists.
Implicit Types (h : gmap Z memory_limitation_entry) (es : list Z).

Lemma list_pairs_step h e es :
  list_pairs h (e :: es) =
  match h !! e with
  | Some x => entry_pair x :: list_pairs h es
  | None => list_pairs h es
  end.
Proof. unfold list_pairs. simpl. by destruct (h !! e). Qed.

Lemma list_pairs_cons h e x es :
  h !! e = Some x → list_pairs h (e :: es) = entry_pair x :: list_pairs h es.
Proof. intros Hx. by rewrite list_pairs_step, Hx. Qed.

Lemma list_table_cons h e x es :
  h !! e = Some x →
  list_table h (e :: es) = <[entry_pid x := entry_limit x]> (list_table h es).
Proof. intros Hx. unfold list_table. by rewrite (list_pairs_cons _ _ x). Qed.

Lemma list_pairs_insert_fresh h e x es :
  e ∉ es → list_pairs (<[e := x]> h) es = list_pairs h es.
Proof.
  induction es as [|e' es IH]; intros He; [done|].
  apply not_elem_of_cons in He as [Hne He].
  rewrite !list_pairs_step, lookup_insert_ne by done. by rewrite IH.
Qed.

Lemma list_pairs_delete h e es : e ∉ es → list_pairs (delete e h) es = list_pairs h es.
Proof.
  induction es as [|e' es IH]; intros He; [done|].
  apply not_elem_of_cons in He as [Hne He].
  rewrite !list_pairs_step, lookup_delete_ne by done. by rewrite IH.
Qed.

Lemma all_live_insert h e x es : all_live h es → all_live (<[e := x]> h) es.
Proof.
  intros Hl. eapply Forall_impl; [exact Hl|].
  intros e' He'. rewrite lookup_insert_is_Some'. by right.
Qed.

Lemma list_pairs_length h es : all_live h es → length (list_pairs h es) = length es.
Proof.
  induction es as [|e es IH]; intros Hl; [done|].
  apply Forall_cons in Hl as [[x Hx] Hl]. rewrite (list_pairs_cons _ _ x) by done.
  simpl. by rewrite IH.
Qed.

(** The pids of a list are exactly the keys of its table. *)
Lemma list_table_None h es pid :
  list_table h es !! pid = None ↔ pid ∉ (list_pairs h es).*1.
Proof. unfold list_table. split; [apply not_elem_of_list_to_map_2 | apply not_elem_of_list_to_map_1]. Qed.

(** Overwriting the limit of the first entry of a pid. *)
Lemma list_table_update h es e x limit :
  NoDup es → all_live h es → e ∈ es → h !! e = Some x →
  (∀ e' x', e' ∈ es → h !! e' = Some x' → entry_pid x' = entry_pid x → e' = e) →
  list_table (<[e := mk_entry (entry_pid x) limit]> h) es =
  <[entry_pid x := limit]> (list_table h es).
Proof.
  induction es as [|e0 es IH]; intros Hnd Hlive Hin Hx Huniq; [by apply elem_of_nil in Hin|].
  apply NoDup_cons in Hnd as [Hni Hnd]. apply Forall_cons in Hlive as [[x0 Hx0] Hlive].
  destruct (decide (e0 = e)) as [->|Hne].
  - rewrite Hx in Hx0. injection Hx0 as <-.
    rewrite (list_table_cons _ e (mk_entry (entry_pid x) limit)) by apply lookup_insert_eq.
    rewrite (list_table_cons _ e x) by done. simpl.
    unfold list_table. rewrite list_pairs_insert_fresh by done.
    by rewrite insert_insert_eq.
  - apply elem_of_cons in Hin as [->|Hin]; [done|].
    rewrite (list_table_cons _ e0 x0) by (by rewrite lookup_insert_ne).
    rewrite (list_table_cons _ e0 x0) by done.
    rewrite IH; [| done.. |].
    + apply insert_insert_ne. intros Heq. apply Hne.
      eapply Huniq; [apply elem_of_cons; by left | done | done].
    + intros e' x' He' Hx' Hp. eapply Huniq; [apply elem_of_cons; by right | done | done].
Qed.

(** Unlinking the entry of a pid. *)
Lemma list_table_remove h es e x :
  NoDup es → all_live h es → e ∈ es → h !! e = Some x →
  (∀ e' x', e' ∈ es → h !! e' = Some x' → entry_pid x' = entry_pid x → e' = e) →
  list_table (delete e h) (filter (λ y, y ≠ e) es) = delete (entry_pid x) (list_table h es).
Proof.
  induction es as [|e0 es IH]; intros Hnd Hlive Hin Hx Huniq; [by apply elem_of_nil in Hin|].
  apply NoDup_cons in Hnd as [Hni Hnd]. apply Forall_cons in Hlive as [[x0 Hx0] Hlive].
  destruct (decide (e0 = e)) as [->|Hne].
  - rewrite Hx in Hx0. injection Hx0 as <-.
    rewrite filter_cons_False by naive_solver.
    rewrite filter_id_Forall by (apply Forall_forall; intros y Hy ->; done).
    rewrite (list_table_cons _ e x) by done.
    unfold list_table. rewrite list_pairs_delete by done.
    rewrite delete_insert_id; [done|].
    apply list_table_None. unfold list_pairs. intros (p & Hp & Hpin)%list_elem_of_fmap.
    apply list_elem_of_omap in Hpin as (e' & He' & Hpe).
    apply fmap_Some in Hpe as (x' & Hx' & ->). simpl in Hp.
    rewrite (Huniq e' x') in He'; [done | apply elem_of_cons; by right | done | done].
  - apply elem_of_cons in Hin as [->|Hin]; [done|].
    rewrite filter_cons_True by done.
    rewrite (list_table_cons _ e0 x0) by (by rewrite lookup_delete_ne).
    rewrite (list_table_cons _ e0 x0) by done.
    rewrite IH; [| done.. |].
    + rewrite delete_insert_ne; [done|]. intros Heq. apply Hne.
      eapply Huniq; [apply elem_of_cons; by left | done | done].
    + intros e' x' He' Hx' Hp. eapply Huniq; [apply elem_of_cons; by right | done | done].
Qed.

(** One pid per entry, as the two lemmas above need it. *)
Lemma nodup_pids_unique h es e x e' x' :
  NoDup (list_pairs h es).*1 → e ∈ es → e' ∈ es →
  h !! e = Some x → h !! e' = Some x' → entry_pid x' = entry_pid x → e' = e.
Proof.
  induction es as [|e0 es IH]; intros Hnd He He' Hx Hx' Hp; [by apply elem_of_nil in He|].
  assert (Hmem : ∀ a y, a ∈ es → h !! a = Some y → entry_pid y ∈ (list_pairs h es).*1).
  { intros a y Ha Hy. apply list_elem_of_fmap. exists (entry_pair y). split; [done|].
    apply list_elem_of_omap. exists a. by rewrite Hy. }
  rewrite list_pairs_step in Hnd.
  apply elem_of_cons in He, He'.
  destruct (h !! e0) as [x0|] eqn:H0; simpl in Hnd.
  - apply NoDup_cons in Hnd as [Hni Hnd].
    destruct He as [->|He], He' as [->|He']; [done | | | by eauto].
    + rewrite Hx in H0. injection H0 as ->. destruct Hni. rewrite <-Hp. eauto.
    + rewrite Hx' in H0. injection H0 as ->. destruct Hni. rewrite Hp. eauto.
  - destruct He as [->|He], He' as [->|He']; [done | congruence.. | by eauto].
Qed.
End lists.

(** ** The operations against their specification *)
Section operations.
Context {M : Type} `{UserAccess M}.
Context {L : Type} `{ListHead L}.
Context `{Slab memory_limitation_entry}.
Implicit Types (s : limits_state M L) (env : callenv).

(** The search loop reads only live entries, changes nothing and decides
    membership in the table. *)
Lemma list_find_pid_spec s pid es :
  all_live (heap s) es →
  ∃ r, list_find_pid pid es s = Some (r, s) ∧
    match r with
    | Some e => e ∈ es ∧ ∃ x, heap s !! e = Some x ∧ entry_pid x = pid
    | None => True
    end ∧ (is_Some r ↔ is_Some (list_table (heap s) es !! pid)).
Proof.
  induction es as [|e es IH]; intros Hlive.
  - exists None. split; [done|]. split; [done|]. split; intros []; done.
  - apply Forall_cons in Hlive as [[x Hx] Hlive].
    simpl. rewrite (kbind_some _ _ s x s) by (unfold deref_entry; by rewrite Hx).
    rewrite (list_table_cons _ e x) by done.
    destruct (Z.eqb_spec (entry_pid x) pid) as [<-|Hne].
    + exists (Some e). rewrite lookup_insert_eq. split; [done|].
      split; [|split; by eexists].
      split; [apply elem_of_cons; by left | eauto].
    + rewrite lookup_insert_ne by done.
      destruct (IH Hlive) as (r & Hr & Hin & Hiff). exists r. split; [done|]. split; [|done].
      destruct r; [|done]. destruct Hin as [Hin Hx']. split; [|done].
      apply elem_of_cons; by right.
Qed.

(** The states in which a fresh entry has been linked at the head. *)
Lemma limits_wf_linked s e pid limit t :
  limits_wf s → heap s !! e = None → 0 < pid < 2 ^ 31 → 0 < limit < 2 ^ 64 →
  limits_table s !! pid = None →
  let s' := set_task_usage t (set_mlp_add (list_add e (mlp_add s))
              (set_heap (<[e := mk_entry pid limit]> (heap s)) s)) in
  limits_wf s' ∧ limits_table s' = <[pid := limit]> (limits_table s).
Proof.
  intros [Hlive Hnd Hpids Hpos Hleak Hr Hu] He Hpid Hlim Ht s'.
  assert (Hni : e ∉ list_entries (mlp_add s)).
  { intros Hin. unfold all_live in Hlive. rewrite Forall_forall in Hlive.
    destruct (Hlive e Hin) as [x Hx]. congruence. }
  assert (Hpairs : list_pairs (heap s') (list_entries (mlp_add s')) =
                   (pid, limit) :: list_pairs (heap s) (list_entries (mlp_add s))).
  { unfold s'. simpl. rewrite list_add_entries.
    rewrite (list_pairs_cons _ e (mk_entry pid limit)) by apply lookup_insert_eq.
    by rewrite list_pairs_insert_fresh. }
  split.
  - constructor; rewrite ?Hpairs; simpl; try done.
    + rewrite list_add_entries. constructor; [rewrite lookup_insert_eq; by eexists|].
      by apply all_live_insert.
    + rewrite list_add_entries. by constructor.
    + constructor; [|done]. by apply list_table_None.
    + constructor; simpl; [lia | done].
    + intros e'. rewrite list_add_entries, lookup_insert_is_Some'.
      intros [->|Hs]; apply elem_of_cons; [by left | right; eauto].
  - unfold limits_table, list_table. by rewrite Hpairs.
Qed.

(** The call leaves everything but the table and the heap alone, and
    gives back every task reference it took. *)
Definition same_rest s s' : Prop :=
  user s' = user s ∧ (∀ a, ref_get (task_usage s') a = ref_get (task_usage s) a).

Lemma add_error_case s task (r : Z) :
  limits_wf s →
  ∃ s', (put_task_struct task;; mret r) (set_task_usage (ref_inc (task_addr task) (task_usage s)) s)
          = Some (r, s') ∧
    limits_table s' = limits_table s ∧ limits_wf s' ∧ same_rest s s'.
Proof.
  intros Hwf. eexists. split; [reflexivity|]. split; [done|]. split.
  - by destruct Hwf.
  - split; [done|]. intros a. simpl. apply ref_dec_inc.
Qed.

Lemma same_rest_refl s : same_rest s s.
Proof. by split. Qed.

Lemma guard_le pid limit :
  (pid <=? 0) || (limit <=? 0) = bool_decide (pid ≤ 0 ∨ limit ≤ 0).
Proof.
  destruct (Z.leb_spec pid 0), (Z.leb_spec limit 0); simpl; symmetry;
    (rewrite bool_decide_eq_true || rewrite bool_decide_eq_false); lia.
Qed.

(** [add] returns what the specification says on every branch, produces the
    table it says, keeps the state well formed and balances the task
    references; it never dereferences a dead entry. *)
Lemma add_spec s env pid limit :
  limits_wf s → in_s32 pid → in_u64 limit →
  ∃ s', sys_add_memory_limit env pid limit s =
          Some ((spec_add env pid limit (bool_decide (kmalloc (heap s) = None)) (limits_table s)).1, s') ∧
    limits_table s' =
      (spec_add env pid limit (bool_decide (kmalloc (heap s) = None)) (limits_table s)).2 ∧
    limits_wf s' ∧ same_rest s s'.
Proof.
  intros Hwf Hpid Hlim. unfold sys_add_memory_limit, spec_add.
  rewrite guard_le. case_bool_decide as Hg; [rewrite decide_True by done; eauto using same_rest_refl|].
  rewrite decide_False by done.
  destruct (cap_sys_admin env); simpl; [|eauto using same_rest_refl].
  destruct (find_get_task env pid) as [task|]; [|eauto using same_rest_refl].
  unfold get_task_struct. krun.
  destruct (Z.ltb_spec (s64 limit) (get_process_memory_usage (Some task))) as [Hlt|Hge].
  { rewrite decide_True by done. by apply add_error_case. }
  rewrite decide_False by lia.
  set (s1 := set_task_usage _ s).
  assert (Hlive1 : all_live (heap s1) (list_entries (mlp_add s1))) by apply Hwf.
  destruct (list_find_pid_spec s1 pid _ Hlive1) as (r & Hr & Hin & Hiff).
  change (list_table (heap s1) (list_entries (mlp_add s1))) with (limits_table s) in Hiff.
  krun. rewrite (kbind_some _ _ _ _ _ Hr).
  destruct r as [e|].
  { rewrite decide_True by (by apply Hiff). by apply add_error_case. }
  rewrite decide_False by (intros Hs; by apply Hiff in Hs as []).
  assert (Hnone : limits_table s !! pid = None).
  { apply eq_None_not_Some. intros Hs. by apply Hiff in Hs as []. }
  krun. change (heap s1) with (heap s).
  destruct (kmalloc (heap s)) as [e|] eqn:Hk.
  - rewrite bool_decide_eq_false_2 by done. simpl.
    destruct (kmalloc_fresh _ _ Hk) as [Hfresh _].
    eexists. split; [reflexivity|].
    destruct (limits_wf_linked s e pid limit
                (ref_dec (task_addr task) (ref_inc (task_addr task) (task_usage s))))
      as [Hwf' Ht']; [done | done | wrap | wrap | done |].
    split; [exact Ht'|]. split; [exact Hwf'|]. split; [done|]. intros a. apply ref_dec_inc.
  - rewrite bool_decide_eq_true_2 by done. by apply add_error_case.
Qed.

(** [update] and [remove] keep their promise about the list they search. *)
Lemma update_spec s env pid limit :
  let es := list_entries (mlp_update s) in
  all_live (heap s) es → NoDup es → NoDup (list_pairs (heap s) es).*1 →
  ∃ s', sys_update_memory_limit env pid limit s =
          Some ((spec_update env pid limit (list_table (heap s) es)).1, s') ∧
    list_table (heap s') es = (spec_update env pid limit (list_table (heap s) es)).2 ∧
    all_live (heap s') es ∧ mlp_update s' = mlp_update s ∧ same_rest s s'.
Proof.
  intros es Hlive Hnd Hpids. unfold sys_update_memory_limit, spec_update.
  rewrite guard_le. case_bool_decide as Hg;
    [rewrite decide_True by done; eauto 7 using same_rest_refl|].
  rewrite decide_False by done.
  destruct (cap_sys_admin env); simpl; [|eauto 7 using same_rest_refl].
  krun. destruct (list_find_pid_spec s pid es Hlive) as (r & Hr & Hin & Hiff).
  rewrite (kbind_some _ _ _ _ _ Hr). destruct r as [e|].
  - destruct Hin as (Hin & x & Hx & <-). rewrite decide_True by (by apply Hiff).
    rewrite (kbind_some _ _ s x s) by (unfold deref_entry; by rewrite Hx). krun.
    eexists. split; [reflexivity|]. simpl. split.
    + apply list_table_update; [done.. |].
      intros e' x' He' Hx' Hp. by eapply nodup_pids_unique.
    + split; [by apply all_live_insert|]. split; [done|]. by split.
  - rewrite decide_False by (intros Hs; by apply Hiff in Hs as []).
    eauto 7 using same_rest_refl.
Qed.

Lemma remove_spec s env pid :
  let es := list_entries (mlp_remove s) in
  all_live (heap s) es → NoDup es → NoDup (list_pairs (heap s) es).*1 →
  ∃ s', sys_remove_memory_limit env pid s =
          Some ((spec_remove env pid (list_table (heap s) es)).1, s') ∧
    list_table (heap s') (list_entries (mlp_remove s')) =
      (spec_remove env pid (list_table (heap s) es)).2 ∧
    all_live (heap s') (list_entries (mlp_remove s')) ∧ same_rest s s'.
Proof.
  intros es Hlive Hnd Hpids. unfold sys_remove_memory_limit, spec_remove.
  destruct (Z.leb_spec pid 0) as [Hp|Hp];
    [rewrite decide_True by done; eauto 7 using same_rest_refl|].
  rewrite decide_False by lia.
  destruct (cap_sys_admin env); simpl; [|eauto 7 using same_rest_refl].
  krun. destruct (list_find_pid_spec s pid es Hlive) as (r & Hr & Hin & Hiff).
  rewrite (kbind_some _ _ _ _ _ Hr). destruct r as [e|].
  - destruct Hin as (Hin & x & Hx & <-). rewrite decide_True by (by apply Hiff). krun.
    eexists. split; [reflexivity|]. simpl. rewrite list_del_entries by done. split.
    + apply list_table_remove; [done.. |].
      intros e' x' He' Hx' Hpp. by eapply nodup_pids_unique.
    + split; [|by split]. unfold all_live in *. rewrite Forall_forall in Hlive |- *.
      intros y [Hy Hin']%list_elem_of_filter. unfold kfree.
      rewrite lookup_delete_ne by done. by apply Hlive.
  - rewrite decide_False by (intros Hs; by apply Hiff in Hs as []).
    eauto 7 using same_rest_refl.
Qed.

(** The record [get] writes at index [i]. *)
Definition limit_record_at (m : M) (buf i : Z) (x : Z * Z) (pad : list Z) : Prop :=
  uread_range m (buf + sizeof_memory_limitation * i) 16 =
    Some (memory_limitation_bytes x.1 x.2 pad).

Lemma memory_limitation_bytes_length pid limit pad :
  length pad = 4%nat → length (memory_limitation_bytes pid limit pad) = 16%nat.
Proof.
  intros Hpad. unfold memory_limitation_bytes.
  rewrite !length_app, Hpad. by autorewrite with kernel.
Qed.

(** The records the loop can still write fit in writable memory. *)
Definition records_writable (m : M) (buf lo hi : Z) : Prop :=
  ∀ i, lo ≤ i < hi → user_wr m (buf + sizeof_memory_limitation * i) 16 = true.

Lemma do_copy_to_user_ok s p bs :
  user_wr (user s) p (Z.of_nat (length bs)) = true →
  do_copy_to_user p bs s = Some (0, set_user (copy_to_user (user s) p bs).2 s).
Proof.
  intros Hw. unfold do_copy_to_user. by apply copy_to_user_ok in Hw as ->.
Qed.

Lemma get_limits_loop_spec s env buf max es count :
  (∀ i, length (stack_pad env i) = 4%nat) →
  all_live (heap s) es → 0 ≤ count →
  let n := Z.max 0 (Z.min (Z.of_nat (length es)) (max - count)) in
  records_writable (user s) buf count (count + n) →
  ∃ m', get_limits_loop env buf max es count s = Some (inr (count + n), set_user m' s) ∧
    (∀ i x, count ≤ i < count + n → list_pairs (heap s) es !! Z.to_nat (i - count) = Some x →
       limit_record_at m' buf i x (stack_pad env i)) ∧
    (∀ q k, q + Z.of_nat k ≤ buf + 16 * count ∨ buf + 16 * (count + n) ≤ q →
       uread_range m' q k = uread_range (user s) q k) ∧
    (∀ q k, user_wr m' q k = user_wr (user s) q k).
Proof.
  intros Hpad. revert s count. induction es as [|e es IH]; intros s count Hlive Hc n Hw.
  { exists (user s). replace (count + n) with count by (unfold n; simpl; lia).
    split; [by destruct s|]. split; [lia|]. done. }
  apply Forall_cons in Hlive as [[x Hx] Hlive]. simpl get_limits_loop.
  destruct (Z.leb_spec max count) as [Hm|Hm].
  { exists (user s). replace (count + n) with count by (unfold n; lia).
    split; [by destruct s|]. split; [lia|]. done. }
  rewrite (kbind_some _ _ s x s) by (unfold deref_entry; by rewrite Hx).
  set (bs := memory_limitation_bytes _ _ _).
  assert (Hlen : length bs = 16%nat) by (by apply memory_limitation_bytes_length).
  assert (Hn : n = 1 + Z.max 0 (Z.min (Z.of_nat (length es)) (max - (count + 1))))
    by (unfold n; simpl length; lia).
  clearbody n. subst n.
  assert (Hok : user_wr (user s) (buf + sizeof_memory_limitation * count)
                  (Z.of_nat (length bs)) = true) by (rewrite Hlen; apply Hw; lia).
  rewrite (kbind_some _ _ _ _ _ (do_copy_to_user_ok s _ bs Hok)).
  change (nz 0) with false. cbn iota.
  set (m1 := (copy_to_user _ _ _).2).
  destruct (IH (set_user m1 s) (count + 1) Hlive ltac:(lia)) as (m' & Hrun & Hrec & Hfr & Hwr).
  { intros i Hi. simpl. unfold m1. rewrite copy_to_user_wr. apply Hw. lia. }
  simpl in Hrun, Hrec, Hfr, Hwr. rewrite <-Z.add_assoc in Hrun, Hrec, Hfr.
  set (n' := Z.max 0 _) in *.
  exists m'. split; [exact Hrun|]. split; [|split].
  - intros i y Hi Hy. rewrite (list_pairs_cons _ e x) in Hy by done.
    destruct (decide (i = count)) as [->|Hne].
    + rewrite Z.sub_diag in Hy. injection Hy as <-.
      unfold limit_record_at. rewrite Hfr by (unfold sizeof_memory_limitation; lia).
      unfold m1. rewrite <-Hlen. apply copy_to_user_range, copy_to_user_ok.
      done.
    + apply Hrec; [lia|].
      replace (Z.to_nat (i - count)) with (S (Z.to_nat (i - (count + 1)))) in Hy by lia. done.
  - intros q k Hq. rewrite Hfr by lia. unfold m1.
    apply copy_to_user_range_frame. rewrite Hlen. unfold sizeof_memory_limitation. lia.
  - intros q k. rewrite Hwr. apply copy_to_user_wr.
Qed.

(** Whatever the user buffers are, [get] dereferences live entries only and
    changes user memory only. *)
Lemma get_limits_loop_total s env buf max es count :
  all_live (heap s) es →
  ∃ r m', get_limits_loop env buf max es count s = Some (r, set_user m' s).
Proof.
  revert s count. induction es as [|e es IH]; intros s count Hlive.
  { exists (inr count), (user s). by destruct s. }
  apply Forall_cons in Hlive as [[x Hx] Hlive]. simpl.
  destruct (max <=? count); [exists (inr count), (user s); by destruct s|].
  rewrite (kbind_some _ _ s x s) by (unfold deref_entry; by rewrite Hx).
  erewrite (kbind_some _ _ s) by reflexivity. case_match; [by eexists _, _|].
  by apply (IH (set_user _ s)).
Qed.

Lemma get_total s env buf max ret :
  all_live (heap s) (list_entries (mlp_add s)) →
  ∃ r m', sys_get_memory_limits env buf max ret s = Some (r, set_user m' s).
Proof.
  intros Hlive. unfold sys_get_memory_limits.
  case_match; [exists (- EINVAL), (user s); by destruct s|].
  case_match; [exists (- EINVAL), (user s); by destruct s|]. krun.
  destruct (get_limits_loop_total s env buf max _ 0 Hlive) as (r & m' & Hr).
  rewrite (kbind_some _ _ _ _ _ Hr).
  destruct r as [err|count]; [by eexists _, _|].
  erewrite (kbind_some _ _ (set_user m' s)) by reflexivity.
  case_match; by eexists _, _.
Qed.

(** The cut of [add] is exact: its check followed by its insertion is the
    whole call. *)
Lemma add_split s env pid limit :
  sys_add_memory_limit env pid limit s =
  (c ← add_check env pid limit;
   match c with inl r => mret r | inr task => add_commit pid limit task end) s.
Proof.
  unfold sys_add_memory_limit, add_check.
  repeat (case_match; [done|]). case_match; [|done].
  rewrite kbind_assoc. apply kbind_ext. intros [] s1.
  case_match; [by rewrite kbind_assoc|].
  rewrite kbind_assoc. apply kbind_ext. intros s2 s3.
  rewrite kbind_assoc. apply kbind_ext. intros [e|] s4; [by rewrite kbind_assoc|].
  done.
Qed.

Lemma add_check_ok s env pid limit task :
  limits_wf s → 0 < pid → 0 < limit → cap_sys_admin env = true →
  find_get_task env pid = Some task →
  get_process_memory_usage (Some task) ≤ s64 limit → limits_table s !! pid = None →
  add_check env pid limit s =
    Some (inr task, set_task_usage (ref_inc (task_addr task) (task_usage s)) s).
Proof.
  intros Hwf Hp Hl Hc Hf Hu Ht. unfold add_check.
  rewrite guard_le, bool_decide_eq_false_2, Hc, Hf by lia. simpl.
  unfold get_task_struct. krun.
  destruct (Z.ltb_spec (s64 limit) (get_process_memory_usage (Some task))); [lia|]. krun.
  set (s1 := set_task_usage _ s).
  destruct (list_find_pid_spec s1 pid _ (wf_live _ Hwf)) as (r & Hr & _ & Hiff).
  rewrite (kbind_some _ _ _ _ _ Hr). destruct r as [e|]; [|done].
  exfalso. apply eq_None_not_Some in Ht. apply Ht, Hiff. by eexists.
Qed.

Lemma add_commit_ok s pid limit task e :
  kmalloc (heap s) = Some e →
  add_commit pid limit task s =
    Some (0, set_task_usage (ref_dec (task_addr task) (task_usage s))
               (set_mlp_add (list_add e (mlp_add s))
                 (set_heap (<[e := mk_entry pid limit]> (heap s)) s))).
Proof. intros Hk. unfold add_commit. krun. by rewrite Hk. Qed.

(** Committing an insertion puts the pair in front, whatever the list holds. *)
Lemma add_commit_pairs s pid limit task :
  all_live (heap s) (list_entries (mlp_add s)) →
  (∀ h : gmap Z memory_limitation_entry, kmalloc h ≠ None) →
  ∃ s', add_commit pid limit task s = Some (0, s') ∧
    all_live (heap s') (list_entries (mlp_add s')) ∧
    list_pairs (heap s') (list_entries (mlp_add s')) =
      (pid, limit) :: list_pairs (heap s) (list_entries (mlp_add s)).
Proof.
  intros Hlive Hk. destruct (kmalloc (heap s)) as [e|] eqn:He; [|by apply Hk in He].
  destruct (kmalloc_fresh _ _ He) as [Hfr _].
  assert (Hni : e ∉ list_entries (mlp_add s)).
  { intros Hin. unfold all_live in Hlive. rewrite Forall_forall in Hlive.
    destruct (Hlive e Hin) as [x Hx]. congruence. }
  eexists. split; [by apply add_commit_ok|]. simpl. rewrite list_add_entries. split.
  - constructor; [rewrite lookup_insert_eq; by eexists | by apply all_live_insert].
  - rewrite (list_pairs_cons _ _ (mk_entry pid limit)) by apply lookup_insert_eq.
    by rewrite list_pairs_insert_fresh.
Qed.

(** However it ends, the loop has changed user memory only, and the only
    error it returns is [-EFAULT]. *)
Lemma get_limits_loop_inv s env buf max es count r s' :
  get_limits_loop env buf max es count s = Some (r, s') →
  (∃ m, s' = set_user m s) ∧ (∀ err, r = inl err → err = - EFAULT).
Proof.
  revert s count. induction es as [|e es IH]; intros s count; simpl.
  { intros [= <- <-]. split; [exists (user s); by destruct s | done]. }
  case_match; [intros [= <- <-]; split; [exists (user s); by destruct s | done]|].
  intros Hl. apply kbind_inv in Hl as (x & s1 & Hd & Hl).
  unfold deref_entry, kderef in Hd. case_match; [|done]. injection Hd as <- <-.
  apply kbind_inv in Hl as (l & s2 & Hcp & Hl). injection Hcp as <- <-.
  case_match; [injection Hl as <- <-; split; [by eexists | by intros ? [= <-]]|].
  apply IH in Hl as [[m' ->] Herr]. split; [by exists m' | done].
Qed.

(** A successful [get] ends with the eight-byte copy of the count. *)
Lemma get_success_count s env buf max ret r s' :
  sys_get_memory_limits env buf max ret s = Some (r, s') → 0 ≤ r →
  ∃ m count, s' = set_user (copy_to_user m ret (bytes_of_u64 count)).2 s ∧
    (copy_to_user m ret (bytes_of_u64 count)).1 = 0 ∧ r = s64 count.
Proof.
  unfold sys_get_memory_limits. intros Hr Hpos.
  case_match; [by injection Hr as <- <-|].
  case_match; [by injection Hr as <- <-|].
  rewrite kbind_get in Hr. apply kbind_inv in Hr as (res & s1 & Hloop & Hr).
  apply get_limits_loop_inv in Hloop as [[m ->] Herr].
  destruct res as [err|count].
  { injection Hr as <- <-. by rewrite (Herr err) in Hpos. }
  apply kbind_inv in Hr as (l & s2 & Hcp & Hr). injection Hcp as <- <-.
  unfold nz in Hr. case_match eqn:Hnz; injection Hr as <- <-; [done|].
  apply negb_false_iff, Z.eqb_eq in Hnz. by exists m, count.
Qed.

(** What [get] returns: a count, or one of two errors. *)
Lemma get_result s env buf max ret r s' :
  sys_get_memory_limits env buf max ret s = Some (r, s') → in_s64 r.
Proof.
  unfold sys_get_memory_limits. intros Hr.
  case_match; [by injection Hr as <- <-|].
  case_match; [by injection Hr as <- <-|].
  rewrite kbind_get in Hr. apply kbind_inv in Hr as (res & s1 & Hloop & Hr).
  apply get_limits_loop_inv in Hloop as [_ Herr].
  destruct res as [err|count]; [injection Hr as <- <-; by rewrite (Herr err)|].
  apply kbind_inv in Hr as (l & s2 & _ & Hr).
  case_match; injection Hr as <- <-; [done | apply s64_range].
Qed.

(** An empty private list makes [update] and [remove] no-ops. *)
Lemma update_empty s env pid limit :
  list_entries (mlp_update s) = [] →
  ∃ r, sys_update_memory_limit env pid limit s = Some (r, s) ∧ - MAX_ERRNO ≤ r < 0 ∧
    (0 < pid → 0 < limit → cap_sys_admin env = true → r = - ESRCH).
Proof.
  intros Hu. unfold sys_update_memory_limit. rewrite guard_le.
  case_bool_decide; [exists (- EINVAL); split; [done|]; split; [done|lia]|].
  destruct (cap_sys_admin env); [|by exists (- EPERM)].
  simpl. krun. rewrite Hu. by exists (- ESRCH).
Qed.

Lemma remove_empty s env pid :
  list_entries (mlp_remove s) = [] →
  ∃ r, sys_remove_memory_limit env pid s = Some (r, s) ∧ - MAX_ERRNO ≤ r < 0 ∧
    (0 < pid → cap_sys_admin env = true → r = - ESRCH).
Proof.
  intros Hu. unfold sys_remove_memory_limit.
  destruct (Z.leb_spec pid 0); [exists (- EINVAL); split; [done|]; split; [done|lia]|].
  destruct (cap_sys_admin env); [|by exists (- EPERM)].
  simpl. krun. rewrite Hu. by exists (- ESRCH).
Qed.

Lemma limits_wf_user s m : limits_wf s → limits_wf (set_user m s).
Proof. by intros []. Qed.

Lemma limits_init_wf (m : M) : limits_wf (limits_init m : limits_state M L).
Proof.
  constructor; simpl; rewrite ?list_init_entries; try constructor.
  intros e [x Hx]. by rewrite lookup_empty in Hx.
Qed.

Lemma limits_step_wf s s' : limits_wf s → limits_step s s' → limits_wf s'.
Proof.
  intros Hwf Hstep. inversion Hstep as
    [env pid limit ? r ? Hp Hl Hr|env buf max ret ? r ? Hr|env pid limit ? r ? Hp Hl Hr
    |env pid ? r ? Hr|m ?]; subst.
  - destruct (add_spec s env pid limit Hwf Hp Hl) as (s1 & Hs1 & _ & Hwf1 & _). congruence.
  - destruct (get_total s env buf max ret (wf_live _ Hwf)) as (r1 & m' & Hs1).
    rewrite Hs1 in Hr. injection Hr as <- <-. by apply limits_wf_user.
  - destruct (update_empty s env pid limit (wf_update _ Hwf)) as (r1 & Hs1 & _). congruence.
  - destruct (remove_empty s env pid (wf_remove _ Hwf)) as (r1 & Hs1 & _). congruence.
  - by apply limits_wf_user.
Qed.

Lemma limits_reachable_wf s : limits_reachable s → limits_wf s.
Proof. induction 1; eauto using limits_init_wf, limits_step_wf. Qed.
End operations.

(** ** Properties *)
Section properties.
Context {M : Type} `{UserAccess M}.
Context {L : Type} `{ListHead L}.
Context `{Slab memory_limitation_entry}.
Implicit Types (s : limits_state M L) (env : callenv).

(** C2. In every state the system can reach, updating or removing a limit
    fails, whether or not the process has one: with valid arguments and
    [CAP_SYS_ADMIN] both return [-ESRCH] and change nothing, because each
    searches a [static] list of its own that nothing ever fills. *)
Theorem update_remove_never_find s env pid limit :
  limits_reachable s → cap_sys_admin env = true → 0 < pid → 0 < limit →
  sys_update_memory_limit env pid limit s = Some (- ESRCH, s) ∧
  sys_remove_memory_limit env pid s = Some (- ESRCH, s).
Proof.
  intros Hs%limits_reachable_wf Hcap Hpid Hlim.
  destruct (update_empty s env pid limit (wf_update _ Hs)) as (r & -> & _ & Hr).
  destruct (remove_empty s env pid (wf_remove _ Hs)) as (r' & -> & _ & Hr').
  by rewrite Hr, Hr' by done.
Qed.

(** C1. [add] implements its specification over the table of limits in
    every reachable state: on each branch it returns the specified code,
    produces the specified table, releases the task reference it took,
    touches no user memory and dereferences no dead entry. *)
Theorem add_refines_spec s env pid limit :
  limits_reachable s → in_s32 pid → in_u64 limit →
  let oom := bool_decide (kmalloc (heap s) = None) in
  ∃ s', sys_add_memory_limit env pid limit s =
          Some ((spec_add env pid limit oom (limits_table s)).1, s') ∧
    limits_table s' = (spec_add env pid limit oom (limits_table s)).2 ∧
    same_rest s s'.
Proof.
  intros Hs Hp Hl oom.
  destruct (add_spec s env pid limit (limits_reachable_wf _ Hs) Hp Hl)
    as (s' & Hr & Ht & _ & Hrest). eauto.
Qed.

(** C3. [get] with writable buffers returns the number of entries it copied,
    the smaller of the list length and [max_entries]; record [i] of the user
    array is the [i]-th pair of the list, the count is stored at
    [processes_returned], and no byte outside the two ranges changes. *)
Theorem get_copies_list s env buf max ret :
  let pairs := list_pairs (heap s) (list_entries (mlp_add s)) in
  let n := Z.min (Z.of_nat (length (list_entries (mlp_add s)))) max in
  limits_reachable s → 0 < max → buf ≠ NULL → ret ≠ NULL → n < 2 ^ 63 →
  (∀ i, length (stack_pad env i) = 4%nat) →
  records_writable (user s) buf 0 n → user_wr (user s) ret 8 = true →
  ret + 8 ≤ buf ∨ buf + 16 * n ≤ ret →
  ∃ m', sys_get_memory_limits env buf max ret s = Some (n, set_user m' s) ∧
    (∀ i x, 0 ≤ i < n → pairs !! Z.to_nat i = Some x →
       limit_record_at m' buf i x (stack_pad env i)) ∧
    uread_range m' ret 8 = Some (bytes_of_u64 n) ∧
    (∀ q k, (q + Z.of_nat k ≤ buf ∨ buf + 16 * n ≤ q) →
            (q + Z.of_nat k ≤ ret ∨ ret + 8 ≤ q) →
            uread_range m' q k = uread_range (user s) q k).
Proof.
  intros pairs n Hs Hmax Hbuf Hret Hn Hpad Hw Hwr Hdisj.
  pose proof (wf_live _ (limits_reachable_wf _ Hs)) as Hlive.
  unfold sys_get_memory_limits.
  destruct (Z.leb_spec max 0); [lia|].
  apply Z.eqb_neq in Hbuf as ->. apply Z.eqb_neq in Hret as ->. simpl. krun.
  assert (Hn' : Z.max 0 (Z.min (Z.of_nat (length (list_entries (mlp_add s)))) (max - 0)) = n)
    by lia.
  destruct (get_limits_loop_spec s env buf max _ 0 Hpad Hlive ltac:(lia))
    as (m & Hrun & Hrec & Hfr & Hwm); rewrite ?Hn' in *; [done|].
  rewrite (kbind_some _ _ _ _ _ Hrun).
  rewrite (kbind_some _ _ _ _ _ (do_copy_to_user_ok (set_user m s) ret (bytes_of_u64 n)
    ltac:(rewrite bytes_of_u64_length; by rewrite <-Hwr, <-(Hwm ret)))).
  change (nz 0) with false. cbn iota. rewrite s64_small by wrap.
  eexists. split; [reflexivity|]. simpl.
  assert (Hmem : ∀ q k, q + Z.of_nat k ≤ ret ∨ ret + 8 ≤ q →
    uread_range (copy_to_user m ret (bytes_of_u64 n)).2 q k = uread_range m q k).
  { intros q k Hq. apply copy_to_user_range_frame. by rewrite bytes_of_u64_length. }
  split; [|split].
  - intros i x Hi Hx. unfold limit_record_at, sizeof_memory_limitation in *.
    rewrite Hmem by lia. apply Hrec; [lia|]. by rewrite Z.sub_0_r.
  - rewrite <-(bytes_of_u64_length n). apply copy_to_user_range, copy_to_user_ok.
    rewrite bytes_of_u64_length. by rewrite <-Hwr, <-(Hwm ret).
  - intros q k Hq1 Hq2. rewrite Hmem by done. apply Hfr. lia.
Qed.

(** [processes_returned] is declared [int __user *], but a successful
    [get] stores a [size_t] through it: it overwrites the four bytes that
    follow the integer, with zeros for any list of fewer than [2^32]
    entries. *)
Theorem get_overruns_int s env buf max ret r s' :
  sys_get_memory_limits env buf max ret s = Some (r, s') → 0 ≤ r < 2 ^ 32 →
  uread_range (user s') (ret + 4) 4 = Some [0; 0; 0; 0].
Proof.
  intros Hr Hpos.
  destruct (get_success_count _ _ _ _ _ _ _ Hr ltac:(lia)) as (m & count & -> & Hz & ->).
  apply copy_to_user_range in Hz. simpl.
  assert (Hu : bytes_of_u64 count = bytes_of_u64 (s64 count)).
  { unfold bytes_of_u64. apply le_bytes_mod. apply s64_mod. }
  rewrite Hu in Hz |- *. rewrite (bytes_of_u64_split (s64 count)) in Hz |- * by lia.
  apply (uread_range_sub _ ret (bytes_of_u32 (s64 count)) [0; 0; 0; 0] []).
  by rewrite app_nil_r.
Qed.

(** Each record [get] writes carries four bytes of kernel stack: the
    padding of [tmp] between its [pid] and its [memory_limit] is never
    assigned, and [copy_to_user] copies it. *)
Theorem get_discloses_stack s env buf max :
  let es := list_entries (mlp_add s) in
  let n := Z.min (Z.of_nat (length es)) max in
  limits_reachable s → 0 < max → (∀ i, length (stack_pad env i) = 4%nat) →
  records_writable (user s) buf 0 n →
  ∃ s', get_limits_loop env buf max es 0 s = Some (inr n, s') ∧
    ∀ i, 0 ≤ i < n → uread_range (user s') (buf + 16 * i + 4) 4 = Some (stack_pad env i).
Proof.
  intros es n Hs Hmax Hpad Hw.
  pose proof (wf_live _ (limits_reachable_wf _ Hs)) as Hlive. fold es in Hlive.
  assert (Hn : Z.max 0 (Z.min (Z.of_nat (length es)) (max - 0)) = n) by lia.
  destruct (get_limits_loop_spec s env buf max es 0 Hpad Hlive ltac:(lia))
    as (m & Hrun & Hrec & _); rewrite ?Hn in *; [done|].
  eexists. split; [exact Hrun|]. intros i Hi. simpl.
  assert (Hlen : length (list_pairs (heap s) es) = length es) by (by apply list_pairs_length).
  destruct (list_pairs (heap s) es !! Z.to_nat i) as [x|] eqn:Hx;
    [|apply lookup_ge_None in Hx; lia].
  specialize (Hrec i x Hi). rewrite Z.sub_0_r in Hrec. specialize (Hrec Hx).
  unfold limit_record_at, memory_limitation_bytes, sizeof_memory_limitation in Hrec.
  rewrite <-(Hpad i). apply (uread_range_sub _ _ (bytes_of_u32 x.1) _ (bytes_of_u64 x.2)).
  rewrite !length_app, Hpad. by autorewrite with kernel.
Qed.

(** Over the list it is given, each of [update] and [remove] implements
    the operation on limits its name promises: return code and resulting
    table on every branch, no dead entry read, no reference or user byte
    changed.  Only the list they are wired to is wrong. *)
Theorem private_list_contract s env pid limit :
  let ue := list_entries (mlp_update s) in
  let re := list_entries (mlp_remove s) in
  all_live (heap s) ue → NoDup ue → NoDup (list_pairs (heap s) ue).*1 →
  all_live (heap s) re → NoDup re → NoDup (list_pairs (heap s) re).*1 →
  (∃ s', sys_update_memory_limit env pid limit s =
           Some ((spec_update env pid limit (list_table (heap s) ue)).1, s') ∧
     list_table (heap s') ue = (spec_update env pid limit (list_table (heap s) ue)).2 ∧
     same_rest s s') ∧
  (∃ s', sys_remove_memory_limit env pid s =
           Some ((spec_remove env pid (list_table (heap s) re)).1, s') ∧
     list_table (heap s') (list_entries (mlp_remove s')) =
       (spec_remove env pid (list_table (heap s) re)).2 ∧
     same_rest s s').
Proof.
  intros ue re Hul Hun Hup Hrl Hrn Hrp. split.
  - destruct (update_spec s env pid limit Hul Hun Hup) as (s' & Hr & Ht & _ & _ & Hrest). eauto.
  - destruct (remove_spec s env pid Hrl Hrn Hrp) as (s' & Hr & Ht & _ & Hrest). eauto.
Qed.

(** The list is not protected by any lock: two calls of [add] for the
    same process, the second inside the window between the check and the
    insertion of the first, both succeed and leave two entries for it. *)
Theorem add_race_duplicates s env pid limit1 limit2 task :
  limits_reachable s → in_s32 pid → in_u64 limit1 → in_u64 limit2 →
  0 < pid → 0 < limit1 → 0 < limit2 → cap_sys_admin env = true →
  find_get_task env pid = Some task → get_process_memory_usage (Some task) <= s64 limit1 →
  get_process_memory_usage (Some task) <= s64 limit2 →
  limits_table s !! pid = None → (∀ h : gmap Z memory_limitation_entry, kmalloc h ≠ None) →
  ∃ s', add_interleaved env pid limit1 limit2 s = Some ((0, 0), s') ∧
    list_pairs (heap s') (list_entries (mlp_add s')) =
      (pid, limit1) :: (pid, limit2) :: list_pairs (heap s) (list_entries (mlp_add s)).
Proof.
  intros Hs Hp Hl1 Hl2 Hpp Hlp1 Hlp2 Hc Hf Hu1 Hu2 Ht Hk.
  apply limits_reachable_wf in Hs. unfold add_interleaved.
  rewrite (kbind_some _ _ _ _ _ (add_check_ok s env pid limit1 task Hs Hpp Hlp1 Hc Hf Hu1 Ht)).
  set (s1 := set_task_usage _ s).
  assert (Hs1 : limits_wf s1) by (by destruct Hs).
  assert (Hadd : ∃ s2, sys_add_memory_limit env pid limit2 s1 = Some (0, s2) ∧
    all_live (heap s2) (list_entries (mlp_add s2)) ∧
    list_pairs (heap s2) (list_entries (mlp_add s2)) =
      (pid, limit2) :: list_pairs (heap s) (list_entries (mlp_add s))).
  { rewrite add_split.
    rewrite (kbind_some _ _ _ _ _ (add_check_ok s1 env pid limit2 task Hs1 Hpp Hlp2 Hc Hf Hu2 Ht)).
    apply (add_commit_pairs (set_task_usage (ref_inc (task_addr task) (task_usage s1)) s1));
      [apply Hs1 | done]. }
  destruct Hadd as (s2 & Hr2 & Hlive2 & Hp2). rewrite (kbind_some _ _ _ _ _ Hr2).
  destruct (add_commit_pairs s2 pid limit1 task Hlive2 Hk) as (s3 & Hr3 & _ & Hp3).
  rewrite (kbind_some _ _ _ _ _ Hr3). exists s3. split; [done|]. by rewrite Hp3, Hp2.
Qed.

(** A limit of [2^63] bytes or more, such as the image of a negative
    one, is refused with the undocumented [-100] and never [-EINVAL]: the
    guard [memory_limit <= 0] tests an unsigned value, and the comparison
    with the current usage is signed. *)
Theorem add_huge_limit s env pid limit task :
  limits_reachable s → 0 < pid → 2 ^ 63 ≤ limit < 2 ^ 64 → cap_sys_admin env = true →
  find_get_task env pid = Some task →
  match task_mm task with Some mm => 0 ≤ total_vm mm < 2 ^ 51 | None => True end →
  ∃ s', sys_add_memory_limit env pid limit s = Some (- 100, s') ∧
    limits_table s' = limits_table s.
Proof.
  intros Hs%limits_reachable_wf Hp Hl Hc Hf Hvm.
  assert (Hu : s64 limit < get_process_memory_usage (Some task)).
  { assert (s64 limit < 0) by wrap.
    enough (0 ≤ get_process_memory_usage (Some task)) by lia.
    unfold get_process_memory_usage. case_match; [|done].
    rewrite shiftl_mul by done. unfold PAGE_SHIFT. change (2 ^ 51) with 2251799813685248 in *.
    change (2 ^ 12) with 4096. wrap. }
  unfold sys_add_memory_limit.
  rewrite guard_le, bool_decide_eq_false_2, Hc, Hf by lia. simpl.
  unfold get_task_struct. krun. apply Z.ltb_lt in Hu as ->.
  by destruct (add_error_case s task (- 100) Hs) as (s' & -> & Ht & _); exists s'.
Qed.
End properties.

(** ** Concrete runs *)
Module LimitsRuns.
Definition mem : gmap Z Z := zero_page 4096 128.
Definition task : task_struct :=
  mk_task 5000 (Some (mk_mm 1 100 40)) 0 0 (mk_ioac 0 0 0 0 0 0).
Definition env : callenv :=
  mk_env true (λ pid, if bool_decide (pid = 7 ∨ pid = 9) then Some task else None)
    (λ _, [222; 173; 190; 239]).
Definition state : Type := limits_state (gmap Z Z) (list Z).

Definition after (r : option (Z * state)) : state := from_option snd (limits_init mem) r.
Definition s0 : state := limits_init mem.
Definition s1 : state := after (sys_add_memory_limit env 7 1048576 s0).
Definition s2 : state := after (sys_add_memory_limit env 9 2097152 s1).
(** A state whose private lists hold an entry each, which no run reaches. *)
Definition s_private : state :=
  mk_limits (<[100 := mk_entry 7 1000]> {[200 := mk_entry 9 2000]}) [] [200] [100] ∅ mem.

Example add_get_run :
  fst <$> sys_get_memory_limits env 4096 10 4160 s2 = Some 2.
Proof. vm_compute. reflexivity. Qed.

Lemma s1_reachable : limits_reachable s1.
Proof.
  apply (reach_step s0); [constructor|].
  apply (step_add env 7 1048576 _ 0); [split; done | split; done | vm_compute; reflexivity].
Qed.
Lemma s2_reachable : limits_reachable s2.
Proof.
  apply (reach_step s1); [apply s1_reachable|].
  apply (step_add env 9 2097152 _ 0); [split; done | split; done | vm_compute; reflexivity].
Qed.

Lemma update_remove_never_find_witness :
  limits_table s1 !! 7 = Some 1048576 ∧
  sys_update_memory_limit env 7 4096 s1 = Some (- ESRCH, s1) ∧
  sys_remove_memory_limit env 7 s1 = Some (- ESRCH, s1).
Proof.
  split; [vm_compute; reflexivity|].
  apply (update_remove_never_find s1 env 7 4096); [apply s1_reachable | done..].
Defined.

Lemma add_refines_spec_witness :
  ∃ s', sys_add_memory_limit env 9 2097152 s1 = Some (0, s') ∧
    limits_table s' = <[9 := 2097152]> (limits_table s1) ∧ same_rest s1 s'.
Proof.
  destruct (add_refines_spec s1 env 9 2097152 s1_reachable ltac:(split; done) ltac:(split; done))
    as (s' & Hr & Ht & Hrest).
  exists s'. split; [rewrite Hr; vm_compute; reflexivity|].
  split; [rewrite Ht; vm_compute; reflexivity | exact Hrest].
Defined.

Lemma get_copies_list_witness :
  ∃ m', sys_get_memory_limits env 4096 10 4160 s2 = Some (2, set_user m' s2) ∧
    limit_record_at m' 4096 0 (9, 2097152) [222; 173; 190; 239] ∧
    uread_range m' 4160 8 = Some (bytes_of_u64 2).
Proof.
  destruct (get_copies_list s2 env 4096 10 4160 s2_reachable) as (m' & Hr & Hrec & Hret & _).
  - done.
  - done.
  - done.
  - vm_compute. reflexivity.
  - done.
  - intros i Hi. assert (i = 0 ∨ i = 1) as [-> | ->]; [|vm_compute; reflexivity..].
    assert (i < 2) by (eapply Z.lt_le_trans; [apply Hi | vm_compute; done]). lia.
  - vm_compute. reflexivity.
  - right. vm_compute. done.
  - exists m'. split; [exact Hr|]. split; [|exact Hret].
    apply (Hrec 0 (9, 2097152)); [split; [done | vm_compute; reflexivity] | vm_compute; reflexivity].
Defined.

Lemma get_overruns_int_witness :
  ∃ s', sys_get_memory_limits env 4096 10 4160 s2 = Some (2, s') ∧
    uread_range (user s') (4160 + 4) 4 = Some [0; 0; 0; 0].
Proof.
  eexists. split; [vm_compute; reflexivity|].
  apply (get_overruns_int s2 env 4096 10 4160 2); [vm_compute; reflexivity | done].
Defined.

Lemma get_discloses_stack_witness :
  ∃ s', get_limits_loop env 4096 10 (list_entries (mlp_add s2)) 0 s2 = Some (inr 2, s') ∧
    uread_range (user s') 4100 4 = Some [222; 173; 190; 239].
Proof.
  destruct (get_discloses_stack s2 env 4096 10 s2_reachable) as (s' & Hr & Hs).
  - done.
  - done.
  - intros i Hi. assert (i = 0 ∨ i = 1) as [-> | ->]; [|vm_compute; reflexivity..].
    assert (i < 2) by (eapply Z.lt_le_trans; [apply Hi | vm_compute; done]). lia.
  - exists s'. split; [exact Hr|]. apply (Hs 0). split; [done | vm_compute; reflexivity].
Defined.

Lemma private_list_contract_witness :
  (∃ s', sys_update_memory_limit env 7 4096 s_private = Some (0, s')) ∧
  (∃ s', sys_remove_memory_limit env 9 s_private = Some (0, s')).
Proof.
  destruct (private_list_contract s_private env 7 4096) as [(s' & Hu & _) _].
  1,4: constructor; [by eexists | constructor].
  1,3: repeat constructor; set_solver.
  1,2: vm_compute; repeat constructor; set_solver.
  destruct (private_list_contract s_private env 9 4096) as [_ (s'' & Hr & _)].
  1,4: constructor; [by eexists | constructor].
  1,3: repeat constructor; set_solver.
  1,2: vm_compute; repeat constructor; set_solver.
  split; [exists s'; rewrite Hu | exists s''; rewrite Hr]; vm_compute; reflexivity.
Defined.

Lemma add_race_duplicates_witness :
  ∃ s', add_interleaved env 9 1048576 2097152 s1 = Some ((0, 0), s') ∧
    list_pairs (heap s') (list_entries (mlp_add s')) = [(9, 1048576); (9, 2097152); (7, 1048576)].
Proof.
  change [(9, 1048576); (9, 2097152); (7, 1048576)]
    with ((9, 1048576) :: (9, 2097152) :: [(7, 1048576)]).
  replace [(7, 1048576)] with (list_pairs (heap s1) (list_entries (mlp_add s1)))
    by (vm_compute; reflexivity).
  apply (add_race_duplicates s1 env 9 1048576 2097152 task);
    [apply s1_reachable | split; done | split; done | split; done | done | done | done | done
    | reflexivity | vm_compute; discriminate | vm_compute; discriminate
    | vm_compute; reflexivity | done].
Defined.

Lemma add_huge_limit_witness :
  ∃ s', sys_add_memory_limit env 9 (2 ^ 64 - 1) s1 = Some (- 100, s') ∧
    limits_table s' = limits_table s1.
Proof.
  apply (add_huge_limit s1 env 9 (2 ^ 64 - 1) task);
    [apply s1_reachable | done | split; done | done | reflexivity | split; done].
Defined.
End LimitsRuns.
