(* ===== verification/LimitsRaces.v ===== *)
(** * LimitsRaces: overlapping calls on the list of memory limits

    [202000173_add_memory_limit.c] takes no lock.  Here calls of [add] overlap:
    each is the two parts [add_check] and [add_commit] of [MemoryLimits]
    ([add_split] says that together they are the call), and between the two
    parts any number of other calls may do anything.  The calls that stand
    between their parts are the pending ones.  A traversal and a [list_add] are
    one step each; a reader that meets a half-linked entry is beyond the model. *)

From S2P Require Import Prelude UserMem KernelObj MemoryLimits.

(** A call of [add] that passed its checks and holds its task. *)
Record pending_add := Pending { p_pid : Z; p_limit : Z; p_task : task_struct }.

Section races.
Context {M : Type} `{UserAccess M}.
Context {L : Type} `{ListHead L}.
Context `{Slab memory_limitation_entry}.
Abbreviation st := (limits_state M L).
Implicit Types (s : st) (ps : list pending_add) (env : callenv).

(** With [excl], a caller lets no other [add] of the same pid overlap its own. *)
Inductive race_step (excl : bool) : st * list pending_add → st * list pending_add → Prop :=
  | race_check env pid limit s ps r s' :
      in_s32 pid → in_u64 limit → (excl = true → pid ∉ p_pid <$> ps) →
      add_check env pid limit s = Some (r, s') →
      race_step excl (s, ps) (s', match r with inl _ => ps | inr task => Pending pid limit task :: ps end)
  | race_commit x s ps1 ps2 r s' :
      add_commit (p_pid x) (p_limit x) (p_task x) s = Some (r, s') →
      race_step excl (s, ps1 ++ x :: ps2) (s', ps1 ++ ps2)
  | race_get env buf max ret s ps r s' :
      sys_get_memory_limits env buf max ret s = Some (r, s') → race_step excl (s, ps) (s', ps)
  | race_update env pid limit s ps r s' :
      sys_update_memory_limit env pid limit s = Some (r, s') → race_step excl (s, ps) (s', ps)
  | race_remove env pid s ps r s' :
      sys_remove_memory_limit env pid s = Some (r, s') → race_step excl (s, ps) (s', ps)
  | race_user m s ps : race_step excl (s, ps) (set_user m s, ps).

Definition race_reachable (excl : bool) (c : st * list pending_add) : Prop :=
  ∃ m, rtc (race_step excl) (limits_init m, []) c.

(** The pairs of the list. *)
Definition listed s : list (Z * Z) := list_pairs (heap s) (list_entries (mlp_add s)).

(** How many pending calls hold a task. *)
Definition held (ps : list pending_add) (a : Z) : Z :=
  sumZ ((λ x, if decide (task_addr (p_task x) = a) then 1 else 0) <$> ps).

Record race_wf s ps : Prop := {
  race_live : all_live (heap s) (list_entries (mlp_add s));
  race_nodup : NoDup (list_entries (mlp_add s));
  race_pos : Forall (λ x, 0 < x.1 < 2 ^ 31 ∧ 0 < x.2 < 2 ^ 64) (listed s);
  race_no_leak : ∀ e, is_Some (heap s !! e) → e ∈ list_entries (mlp_add s);
  race_removes : list_entries (mlp_remove s) = [];
  race_updates : list_entries (mlp_update s) = [];
  race_pending : Forall (λ x, 0 < p_pid x < 2 ^ 31 ∧ 0 < p_limit x < 2 ^ 64) ps;
  race_refs : ∀ a, ref_get (task_usage s) a = held ps a;
}.

(** One entry per pid, counting the entries still to be inserted. *)
Definition race_distinct s ps : Prop := NoDup ((listed s).*1 ++ (p_pid <$> ps)).

(** ** Lemmas *)

Lemma held_cons x ps a : held (x :: ps) a = (if decide (task_addr (p_task x) = a) then 1 else 0) + held ps a.
Proof. unfold held. by rewrite fmap_cons, sumZ_cons. Qed.
Lemma held_middle x ps1 ps2 a :
  held (ps1 ++ x :: ps2) a = (if decide (task_addr (p_task x) = a) then 1 else 0) + held (ps1 ++ ps2) a.
Proof.
  induction ps1 as [|y ps1 IH]; [apply held_cons|]. cbn [app]. rewrite !held_cons, IH. lia.
Qed.

Lemma listed_none s pid : list_table (heap s) (list_entries (mlp_add s)) !! pid = None ↔ pid ∉ (listed s).*1.
Proof. unfold list_table. by rewrite not_elem_of_list_to_map. Qed.

(** What the first part of [add] can do. *)
Lemma add_check_cases s env pid limit :
  all_live (heap s) (list_entries (mlp_add s)) →
  ∃ r s', add_check env pid limit s = Some (r, s') ∧
    match r with
    | inl _ => ∃ t, s' = set_task_usage t s ∧ ∀ a, ref_get t a = ref_get (task_usage s) a
    | inr task => s' = set_task_usage (ref_inc (task_addr task) (task_usage s)) s ∧
        0 < pid ∧ 0 < limit ∧ pid ∉ (listed s).*1
    end.
Proof.
  intros Hlive. unfold add_check.
  assert (Hsame : ∃ t, s = set_task_usage t s ∧ ∀ a, ref_get t a = ref_get (task_usage s) a)
    by (exists (task_usage s); by destruct s).
  rewrite guard_le. case_bool_decide as Hg; [by eexists _, _|].
  destruct (cap_sys_admin env); [|by eexists _, _]. cbn [negb].
  destruct (find_get_task env pid) as [task|]; [|by eexists _, _].
  unfold get_task_struct, put_task_struct. krun.
  assert (Hput : ∃ t, set_task_usage (ref_dec (task_addr task) (ref_inc (task_addr task) (task_usage s))) s =
    set_task_usage t s ∧ ∀ a, ref_get t a = ref_get (task_usage s) a)
    by (eexists; split; [done | apply ref_dec_inc]).
  case_match; [by eexists _, _|]. krun.
  set (s1 := set_task_usage _ s).
  destruct (list_find_pid_spec s1 pid (list_entries (mlp_add s1)) Hlive) as (r & Hr & _ & Hiff).
  rewrite (kbind_some _ _ _ _ _ Hr). destruct r as [e|]; [by eexists _, _|].
  eexists _, _. split; [done|]. split; [done|]. split; [lia|]. split; [lia|].
  apply listed_none, eq_None_not_Some. intros Hs. by apply Hiff in Hs as [].
Qed.

(** What the second part can do. *)
Lemma add_commit_cases s pid limit task :
  all_live (heap s) (list_entries (mlp_add s)) →
  ∃ r s', add_commit pid limit task s = Some (r, s') ∧
    task_usage s' = ref_dec (task_addr task) (task_usage s) ∧
    mlp_remove s' = mlp_remove s ∧ mlp_update s' = mlp_update s ∧ user s' = user s ∧
    (heap s' = heap s ∧ mlp_add s' = mlp_add s ∧ r = - ENOMEM ∨
     ∃ e, r = 0 ∧ heap s !! e = None ∧ heap s' = <[e := mk_entry pid limit]> (heap s) ∧
       list_entries (mlp_add s') = e :: list_entries (mlp_add s) ∧
       listed s' = (pid, limit) :: listed s).
Proof.
  intros Hlive. destruct (kmalloc (heap s)) as [e|] eqn:He.
  - destruct (kmalloc_fresh _ _ He) as [Hfr _].
    assert (Hni : e ∉ list_entries (mlp_add s)).
    { intros Hin. unfold all_live in Hlive. rewrite Forall_forall in Hlive.
      destruct (Hlive e Hin) as [x Hx]. congruence. }
    eexists _, _. split; [by apply add_commit_ok|]. do 4 (split; [done|]). right.
    exists e. unfold listed. cbn [heap mlp_add set_task_usage set_mlp_add set_heap]. rewrite list_add_entries.
    do 4 (split; [done|]).
    rewrite (list_pairs_cons _ _ (mk_entry pid limit)) by apply lookup_insert_eq.
    by rewrite list_pairs_insert_fresh.
  - unfold add_commit. krun. rewrite He. eexists _, _. split; [done|]. do 4 (split; [done|]). by left.
Qed.

Lemma race_wf_refs s ps ps' t :
  race_wf s ps → (∀ a, ref_get t a = held ps' a) →
  Forall (λ x, 0 < p_pid x < 2 ^ 31 ∧ 0 < p_limit x < 2 ^ 64) ps' → race_wf (set_task_usage t s) ps'.
Proof. intros []. by split. Qed.
Lemma race_wf_user s ps m : race_wf s ps → race_wf (set_user m s) ps.
Proof. intros []. by split. Qed.

Lemma race_wf_commit s x ps1 ps2 r s' :
  race_wf s (ps1 ++ x :: ps2) → add_commit (p_pid x) (p_limit x) (p_task x) s = Some (r, s') →
  race_wf s' (ps1 ++ ps2).
Proof.
  intros [Hlive Hnd Hpos Hleak Hr Hu Hp Href] Hc.
  destruct (add_commit_cases s (p_pid x) (p_limit x) (p_task x) Hlive)
    as (r' & s1 & Hc' & Ht & Er & Eu & _ & Hcase).
  rewrite Hc' in Hc. injection Hc as <- <-.
  apply Forall_app in Hp as [Hp1 Hp2]. apply Forall_cons in Hp2 as [Hx Hp2].
  assert (Href' : ∀ a, ref_get (task_usage s1) a = held (ps1 ++ ps2) a).
  { intros a. rewrite Ht, ref_get_dec, Href, held_middle. case_decide; lia. }
  destruct Hcase as [(Eh & Ea & _)|(e & _ & Hfr & Eh & Ea & El)].
  - split; rewrite ?Er, ?Eu; try done; unfold listed; rewrite ?Eh, ?Ea; try done. by apply Forall_app.
  - split; rewrite ?Er, ?Eu, ?Ea, ?El; try done.
    + rewrite Eh. constructor; [rewrite lookup_insert_eq; by eexists | by apply all_live_insert].
    + constructor; [|done]. intros Hin. unfold all_live in Hlive. rewrite Forall_forall in Hlive.
      destruct (Hlive e Hin) as [y Hy]. congruence.
    + by constructor.
    + intros e'. rewrite Eh, lookup_insert_is_Some'. intros [->|Hs]; apply elem_of_cons; [by left | right; eauto].
    + by apply Forall_app.
Qed.

Lemma race_distinct_commit s x ps1 ps2 r s' :
  all_live (heap s) (list_entries (mlp_add s)) → race_distinct s (ps1 ++ x :: ps2) →
  add_commit (p_pid x) (p_limit x) (p_task x) s = Some (r, s') → race_distinct s' (ps1 ++ ps2).
Proof.
  intros Hlive Hd Hc. unfold race_distinct in *. rewrite fmap_app, fmap_cons in Hd. rewrite fmap_app.
  destruct (add_commit_cases s (p_pid x) (p_limit x) (p_task x) Hlive)
    as (r' & s1 & Hc' & _ & _ & _ & _ & Hcase).
  rewrite Hc' in Hc. injection Hc as <- <-.
  destruct Hcase as [(Eh & Ea & _)|(e & _ & _ & _ & _ & El)].
  - unfold listed in *. rewrite Eh, Ea. rewrite app_assoc in Hd |- *.
    rewrite <-Permutation_middle in Hd. by apply NoDup_cons in Hd as [_ Hd].
  - rewrite El. rewrite app_assoc, <-Permutation_middle in Hd. by rewrite <-app_assoc in Hd.
Qed.

Lemma race_step_ok excl s ps s' ps' :
  race_wf s ps → (excl = true → race_distinct s ps) → race_step excl (s, ps) (s', ps') →
  race_wf s' ps' ∧ (excl = true → race_distinct s' ps').
Proof.
  intros Hwf Hd Hstep. pose proof (race_live _ _ Hwf) as Hlive.
  inversion Hstep as [env pid limit ? ? r ? Hp Hl Hx Hr|x ? ps1 ps2 r ? Hr|env buf max ret ? ? r ? Hr
    |env pid limit ? ? r ? Hr|env pid ? ? r ? Hr|m ? ?]; subst.
  - destruct (add_check_cases s env pid limit Hlive) as (r1 & s1 & Hr1 & Hc).
    rewrite Hr1 in Hr. injection Hr as <- <-. destruct r1 as [code|task].
    + destruct Hc as (t & -> & Ht). split; [|done].
      apply race_wf_refs with ps; [done | | by apply Hwf]. intros a. rewrite Ht. by apply Hwf.
    + destruct Hc as (-> & Hpp & Hpl & Hnew). split.
      * apply race_wf_refs with ps; [done| |].
        -- intros a. rewrite ref_get_inc, held_cons, (race_refs _ _ Hwf). cbn [p_task]. case_decide; lia.
        -- constructor; [|by apply Hwf]. cbn [p_pid p_limit]. unfold in_s32, in_u64 in *. lia.
      * intros He. specialize (Hd He). specialize (Hx He). unfold race_distinct in *.
        change (listed (set_task_usage _ s)) with (listed s). cbn [fmap list_fmap p_pid].
        rewrite <-Permutation_middle. apply NoDup_cons. split; [|done].
        rewrite elem_of_app. by intros [?|?].
  - split; [by eapply race_wf_commit|]. intros He. by eapply race_distinct_commit; [| apply Hd|].
  - destruct (get_total s env buf max ret Hlive) as (r1 & m' & Hs1).
    rewrite Hs1 in Hr. injection Hr as <- <-. split; [by apply race_wf_user | done].
  - destruct (update_empty s env pid limit (race_updates _ _ Hwf)) as (r1 & Hs1 & _). by simplify_eq.
  - destruct (remove_empty s env pid (race_removes _ _ Hwf)) as (r1 & Hs1 & _). by simplify_eq.
  - split; [by apply race_wf_user | done].
Qed.

Lemma race_init_ok m : race_wf (limits_init m) [] ∧ race_distinct (limits_init m) [].
Proof.
  split; [|unfold race_distinct, listed; cbn; rewrite list_init_entries; constructor].
  split; unfold listed; cbn; rewrite ?list_init_entries; try done; try constructor.
  intros e [x Hx]. by rewrite lookup_empty in Hx.
Qed.

Lemma race_reachable_ok excl s ps :
  race_reachable excl (s, ps) → race_wf s ps ∧ (excl = true → race_distinct s ps).
Proof.
  set (ok := λ c : st * list pending_add, race_wf c.1 c.2 ∧ (excl = true → race_distinct c.1 c.2)).
  intros [m Hs].
  assert (Hok : ok (limits_init m, [])) by (destruct (race_init_ok m); by split).
  change (ok (s, ps)). revert Hok.
  induction Hs as [c|[s1 ps1] [s2 ps2] c Hstep _ IH]; [done|].
  intros [Hwf Hd]. apply IH. by apply (race_step_ok excl s1 ps1 s2 ps2).
Qed.

(** The calls one at a time, as [limits_reachable] runs them, are a special
    case in which the adds exclude each other. *)
Lemma sequential_step s s' :
  limits_step s s' → rtc (race_step true) (s, []) (s', []).
Proof.
  destruct 1 as [env pid limit s r s' Hp Hl Hr|env buf max ret s r s' Hr|env pid limit s r s' _ _ Hr
    |env pid s r s' Hr|m s].
  - rewrite add_split in Hr. apply kbind_inv in Hr as ([code|task] & s1 & Hc & Hr).
    + injection Hr as <- <-. apply rtc_once.
      apply (race_check true env pid limit s [] (inl code) _ Hp Hl); [|done]. intros _. by apply not_elem_of_nil.
    + eapply rtc_l.
      { apply (race_check true env pid limit s [] (inr task) s1 Hp Hl); [|done]. intros _. by apply not_elem_of_nil. }
      apply rtc_once. by apply (race_commit true (Pending pid limit task) s1 [] [] r).
  - apply rtc_once. by eapply race_get.
  - apply rtc_once. by eapply race_update.
  - apply rtc_once. by eapply race_remove.
  - apply rtc_once, race_user.
Qed.

Lemma sequential_reachable s : limits_reachable s → race_reachable true (s, []).
Proof.
  induction 1 as [m|s s' _ [m IH] Hstep]; [by exists m|].
  exists m. etrans; [done|]. by apply sequential_step.
Qed.

(** ** Properties *)

End races.

(** ** Concrete runs *)
Module RaceRuns.
Import LimitsRuns.

(** Two adds of one pid, the second begun before the first inserts. *)
Definition held1 : state := from_option snd s0 (add_check env 7 1048576 s0).
Definition held2 : state := from_option snd s0 (add_check env 7 2097152 held1).
Definition first_in : state := after (add_commit 7 1048576 task held2).
Definition both_in : state := after (add_commit 7 2097152 task first_in).

Lemma both_in_reachable : race_reachable (L := list Z) false (both_in, []).
Proof.
  exists mem.
  eapply rtc_l; [apply (race_check false env 7 1048576 s0 [] (inr task) held1);
    [split; done | split; done | done | vm_compute; reflexivity]|].
  eapply rtc_l; [apply (race_check false env 7 2097152 held1 _ (inr task) held2);
    [split; done | split; done | done | vm_compute; reflexivity]|].
  eapply rtc_l; [apply (race_commit false (Pending 7 1048576 task) held2
    [Pending 7 2097152 task] [] 0 first_in); vm_compute; reflexivity|].
  apply rtc_once. apply (race_commit false (Pending 7 2097152 task) first_in [] [] 0 both_in).
  vm_compute. reflexivity.
Qed.

Example duplicates : listed both_in = [(7, 2097152); (7, 1048576)].
Proof. vm_compute. reflexivity. Qed.

End RaceRuns.
