(* ===== verification/Tamalloc.v ===== *)
(** * Tamalloc: the three memory system calls of [kernel/usac/project2]

    [202000173_memory_allocation_statistics.c], [202000173_tamalloc.c],
    [202000173_tamalloc_stats.c].

    The state counts what the handlers must give back: the nesting depth of
    RCU read sections and the user count of every [mm_struct].  [pid_task],
    [get_task_mm], the process list and [vm_mmap] are parameters.  That
    [mmput] may sleep, and is called inside the RCU section, is a finding; the
    model counts the references only. *)

From S2P Require Import Prelude UserMem KernelObj.

(** ** Data *)

Record tamalloc_proc_info := mk_proc_info {
  vm_kb : Z;               (* unsigned long *)
  rss_kb : Z;              (* unsigned long *)
  rss_percent_of_vm : Z;   (* unsigned int *)
  oom_adjustment : Z;      (* int *)
}.

Record tamalloc_global_info := mk_global_info {
  aggregate_vm_mb : Z;     (* unsigned long *)
  aggregate_rss_mb : Z;    (* unsigned long *)
}.

(** The objects as the x86-64 ABI lays them out; neither has padding. *)
Definition proc_info_bytes (k : tamalloc_proc_info) : list Z :=
  bytes_of_u64 (vm_kb k) ++ bytes_of_u64 (rss_kb k) ++
  bytes_of_u32 (rss_percent_of_vm k) ++ bytes_of_u32 (oom_adjustment k).
Definition global_info_bytes (k : tamalloc_global_info) : list Z :=
  bytes_of_u64 (aggregate_vm_mb k) ++ bytes_of_u64 (aggregate_rss_mb k).

Record kernel_state (M : Type) := mk_kernel {
  rcu_depth : Z;
  mm_users : gmap Z Z;
  kuser : M;
}.
Arguments mk_kernel {M}.
Arguments rcu_depth {M}.
Arguments mm_users {M}.
Arguments kuser {M}.

(** ** Arithmetic of the handlers *)

Definition pages_to_kb (pages : Z) : Z := Z.shiftr (u64 (pages * PAGE_SIZE)) 10.
Definition pages_to_mb (pages : Z) : Z := Z.shiftr (u64 (pages * PAGE_SIZE)) 20.

Definition percent_of (rss vm : Z) : Z :=
  if 0 <? vm then u32 (u64 (rss * 100) / vm) else 0.

(** [kinfo] between [get_task_mm] and [mmput]. *)
Definition proc_info_of (task : task_struct) (mm : mm_struct) : tamalloc_proc_info :=
  let vm := pages_to_kb (total_vm mm) in
  let rss := pages_to_kb (mm_rss mm) in
  mk_proc_info vm rss (percent_of rss vm) (oom_score_adj task).

Definition global_info_add (k : tamalloc_global_info) (mm : mm_struct) : tamalloc_global_info :=
  mk_global_info
    (u64 (aggregate_vm_mb k + pages_to_mb (total_vm mm)))
    (u64 (aggregate_rss_mb k + pages_to_mb (mm_rss mm))).

(** [PAGE_ALIGN] of an unsigned long. *)
Definition PAGE_ALIGN (x : Z) : Z :=
  Z.land (u64 (x + (PAGE_SIZE - 1))) (Z.lnot (PAGE_SIZE - 1)).

Section handlers.
Context {M : Type} `{UserAccess M}.
Context (pid_task : Z → option task_struct).
Context (get_task_mm : task_struct → option mm_struct).
Abbreviation st := (kernel_state M).
Implicit Types (s : st).

Definition rcu_read_lock : kst st unit :=
  kmodify (λ s, mk_kernel (rcu_depth s + 1) (mm_users s) (kuser s)).
Definition rcu_read_unlock : kst st unit :=
  kmodify (λ s, mk_kernel (rcu_depth s - 1) (mm_users s) (kuser s)).

(** [get_task_mm] bumps the user count of the mm it returns; [mmput] drops it. *)
Definition take_task_mm (task : task_struct) : kst st (option mm_struct) :=
  match get_task_mm task with
  | None => mret None
  | Some mm =>
      kmodify (λ s, mk_kernel (rcu_depth s) (ref_inc (mm_id mm) (mm_users s)) (kuser s));;
      mret (Some mm)
  end.
Definition mmput (mm : mm_struct) : kst st unit :=
  kmodify (λ s, mk_kernel (rcu_depth s) (ref_dec (mm_id mm) (mm_users s)) (kuser s)).

Definition copy_out (p : Z) (bs : list Z) : kst st Z :=
  λ s, let r := copy_to_user (kuser s) p bs in
       Some (r.1, mk_kernel (rcu_depth s) (mm_users s) r.2).

(** *** [_202000173_memory_allocation_statistics] *)
Definition sys_memory_allocation_statistics (pid info : Z) : kst st Z :=
  rcu_read_lock;;
  match pid_task pid with
  | None => rcu_read_unlock;; mret (- ESRCH)
  | Some task =>
      mm ← take_task_mm task;
      match mm with
      | None => rcu_read_unlock;; mret (- EINVAL)
      | Some mm =>
          let kinfo := proc_info_of task mm in
          mmput mm;;
          rcu_read_unlock;;
          left ← copy_out info (proc_info_bytes kinfo);
          if nz left then mret (- EFAULT) else mret 0
      end
  end.

(** *** [_202000173_tamalloc]: the loop over the processes and the handler *)
Fixpoint tamalloc_loop (processes : list task_struct) (kinfo : tamalloc_global_info)
    : kst st tamalloc_global_info :=
  match processes with
  | [] => mret kinfo
  | task :: processes =>
      if exit_state task =? EXIT_ZOMBIE then tamalloc_loop processes kinfo else
      mm ← take_task_mm task;
      match mm with
      | None => tamalloc_loop processes kinfo
      | Some mm =>
          let kinfo := global_info_add kinfo mm in
          mmput mm;;
          tamalloc_loop processes kinfo
      end
  end.

Definition sys_tamalloc (processes : list task_struct) (info : Z) : kst st Z :=
  rcu_read_lock;;
  kinfo ← tamalloc_loop processes (mk_global_info 0 0);
  rcu_read_unlock;;
  left ← copy_out info (global_info_bytes kinfo);
  if nz left then mret (- EFAULT) else mret 0.

(** The mms the loop accounts for. *)
Definition counted_mms (processes : list task_struct) : list mm_struct :=
  omap (λ t, if exit_state t =? EXIT_ZOMBIE then None else get_task_mm t) processes.

(** Nothing a handler took is still held. *)
Definition balanced s s' : Prop :=
  rcu_depth s' = rcu_depth s ∧ ∀ a, ref_get (mm_users s') a = ref_get (mm_users s) a.
End handlers.

(** *** [_202000173_tamalloc_stats]

    The address space is abstract; [vm_mmap] yields an unsigned long that is
    the address of the mapping or an error value.  The log counts the
    [printk] of the failure path. *)
Definition PROT_READ : Z := 1.
Definition PROT_WRITE : Z := 2.
Definition MAP_PRIVATE : Z := 2.
Definition MAP_ANONYMOUS : Z := 32.
Definition MAP_NORESERVE : Z := 16384.

Section tamalloc_stats.
Context {AS : Type}.
Context (vm_mmap : Z → Z → Z → Z → Z → Z → AS → Z * AS).

Definition sys_tamalloc_stats (size : Z) (sp : AS) (log : nat) : Z * AS * nat :=
  if size =? 0 then (- EINVAL, sp, log) else
  let aligned_size := PAGE_ALIGN size in
  if aligned_size =? 0 then (- ENOMEM, sp, log) else
  let '(addr, sp') :=
    vm_mmap NULL 0 aligned_size (Z.lor PROT_READ PROT_WRITE)
      (Z.lor (Z.lor MAP_PRIVATE MAP_ANONYMOUS) MAP_NORESERVE) 0 sp in
  if IS_ERR_VALUE addr then (- ENOMEM, sp', S log) else (s64 addr, sp', log).
End tamalloc_stats.

(** ** Lemmas *)

(** Rounding up to whole pages. *)
Lemma PAGE_ALIGN_spec x :
  0 ≤ x ≤ 2 ^ 64 - PAGE_SIZE → PAGE_ALIGN x = (x + (PAGE_SIZE - 1)) / PAGE_SIZE * PAGE_SIZE.
Proof.
  intros Hx. unfold PAGE_ALIGN, PAGE_SIZE in *. rewrite u64_small by wrap.
  change (4096 - 1) with (Z.ones 12). rewrite <-Z.ldiff_land, Z.ldiff_ones_r by done.
  by rewrite shiftl_mul, shiftr_div by done.
Qed.

(** The sizes for which the rounding wraps around to zero. *)
Lemma PAGE_ALIGN_wrap x : 2 ^ 64 - PAGE_SIZE < x < 2 ^ 64 → PAGE_ALIGN x = 0.
Proof.
  intros Hx. unfold PAGE_ALIGN, PAGE_SIZE in *.
  replace (u64 (x + (4096 - 1))) with (x + 4095 - 2 ^ 64) by wrap.
  change (4096 - 1) with (Z.ones 12). rewrite <-Z.ldiff_land, Z.ldiff_ones_r by done.
  rewrite shiftl_mul, shiftr_div by done. rewrite Z.div_small by lia. done.
Qed.

Lemma pages_to_kb_spec p : 0 ≤ p < 2 ^ 52 → pages_to_kb p = 4 * p.
Proof.
  intros Hp. unfold pages_to_kb, PAGE_SIZE.
  change (2 ^ 52) with 4503599627370496 in Hp.
  rewrite shiftr_div, u64_small by wrap. change (2 ^ 10) with 1024.
  replace (p * 4096) with (4 * p * 1024) by lia. by rewrite Z.div_mul.
Qed.

Lemma pages_to_mb_spec p : 0 ≤ p < 2 ^ 52 → pages_to_mb p = p / 256.
Proof.
  intros Hp. unfold pages_to_mb, PAGE_SIZE.
  change (2 ^ 52) with 4503599627370496 in Hp.
  rewrite shiftr_div, u64_small by wrap. change (2 ^ 20) with (256 * 4096).
  by rewrite Z.div_mul_cancel_r.
Qed.

Lemma percent_of_spec rss vm :
  0 ≤ rss < 2 ^ 54 → 0 < vm → rss ≤ vm →
  percent_of rss vm = rss * 100 / vm ∧ 0 ≤ percent_of rss vm ≤ 100.
Proof.
  intros Hr Hv Hrv. change (2 ^ 54) with 18014398509481984 in Hr.
  unfold percent_of. apply Z.ltb_lt in Hv as Hv'. rewrite Hv'.
  rewrite (u64_small (rss * 100)) by wrap.
  assert (0 ≤ rss * 100 / vm ≤ 100).
  { split; [apply Z.div_pos; lia|]. apply Z.div_le_upper_bound; lia. }
  rewrite u32_small by wrap. lia.
Qed.

(** The four fields for sizes that fit an address space. *)
Lemma proc_info_fields task mm :
  0 ≤ total_vm mm < 2 ^ 52 → 0 ≤ mm_rss mm < 2 ^ 52 →
  proc_info_of task mm = mk_proc_info (4 * total_vm mm) (4 * mm_rss mm)
    (if decide (total_vm mm = 0) then 0 else u32 (100 * mm_rss mm / total_vm mm))
    (oom_score_adj task).
Proof.
  intros Hv Hr. unfold proc_info_of. rewrite !pages_to_kb_spec by done. f_equal.
  unfold percent_of. case_decide as H0; [by rewrite H0|].
  destruct (Z.ltb_spec 0 (4 * total_vm mm)); [|lia]. f_equal.
  change (2 ^ 52) with 4503599627370496 in *. rewrite u64_small by wrap.
  replace (4 * mm_rss mm * 100) with (4 * (100 * mm_rss mm)) by lia.
  by rewrite Z.div_mul_cancel_l by lia.
Qed.

(** The structures as a program reads them. *)
Lemma proc_info_read {M} `{UserAccess M} (m : M) info k :
  uread_range m info 24 = Some (proc_info_bytes k) →
  uread_u64 m info = Some (u64 (vm_kb k)) ∧ uread_u64 m (info + 8) = Some (u64 (rss_kb k)) ∧
  uread_u32 m (info + 16) = Some (u32 (rss_percent_of_vm k)) ∧
  uread_u32 m (info + 20) = Some (u32 (oom_adjustment k)).
Proof.
  intros Hm. unfold uread_u64, uread_u32.
  pose proof (λ xs ys zs, uread_range_sub m info xs ys zs) as Hsub.
  unfold proc_info_bytes in Hm.
  set (bv := bytes_of_u64 (vm_kb k)) in *. set (br := bytes_of_u64 (rss_kb k)) in *.
  set (bp := bytes_of_u32 (rss_percent_of_vm k)) in *. set (bo := bytes_of_u32 (oom_adjustment k)) in *.
  pose proof (Hsub [] bv (br ++ bp ++ bo) Hm) as H1. pose proof (Hsub bv br (bp ++ bo) Hm) as H2.
  pose proof (Hsub (bv ++ br) bp bo ltac:(by rewrite <-app_assoc)) as H3.
  pose proof (Hsub (bv ++ br ++ bp) bo [] ltac:(by rewrite app_nil_r, <-!app_assoc)) as H4.
  change (length bv) with 8%nat in *. change (length br) with 8%nat in *.
  change (length (bv ++ br)) with 16%nat in *. change (length (bv ++ br ++ bp)) with 20%nat in *.
  change (length bp) with 4%nat in *. change (length bo) with 4%nat in *.
  cbn [length] in H1. rewrite Z.add_0_r in H1. rewrite H1.
  change (info + Z.of_nat 8) with (info + 8) in H2. change (info + Z.of_nat 16) with (info + 16) in H3.
  change (info + Z.of_nat 20) with (info + 20) in H4. rewrite H2, H3, H4.
  unfold bv, br, bp, bo. cbn [fmap option_fmap option_map].
  by rewrite !le_value_u64, !le_value_u32.
Qed.

Lemma global_info_read {M} `{UserAccess M} (m : M) info k :
  uread_range m info 16 = Some (global_info_bytes k) →
  uread_u64 m info = Some (u64 (aggregate_vm_mb k)) ∧
  uread_u64 m (info + 8) = Some (u64 (aggregate_rss_mb k)).
Proof.
  intros Hm. unfold uread_u64.
  pose proof (uread_range_sub m info [] (bytes_of_u64 (aggregate_vm_mb k))
    (bytes_of_u64 (aggregate_rss_mb k)) Hm) as H1.
  pose proof (uread_range_sub m info (bytes_of_u64 (aggregate_vm_mb k))
    (bytes_of_u64 (aggregate_rss_mb k)) []) as H2.
  rewrite app_nil_r in H2. specialize (H2 Hm).
  rewrite !bytes_of_u64_length in *. cbn [length] in H1. rewrite Z.add_0_r in H1.
  change (info + Z.of_nat 8) with (info + 8) in H2. rewrite H1, H2.
  cbn [fmap option_fmap option_map]. by rewrite !le_value_u64.
Qed.

Section handler_lemmas.
Context {M : Type} `{UserAccess M}.
Context (pid_task : Z → option task_struct).
Context (get_task_mm : task_struct → option mm_struct).
Implicit Types (s : kernel_state M).

Lemma kernel_state_eta s : mk_kernel (rcu_depth s) (mm_users s) (kuser s) = s.
Proof. by destruct s. Qed.

(** The loop is a left fold over the accounted mms and returns every
    reference it took. *)
Lemma tamalloc_loop_spec processes kinfo s :
  ∃ s', tamalloc_loop get_task_mm processes kinfo s =
          Some (foldl global_info_add kinfo (counted_mms get_task_mm processes), s') ∧
    balanced s s' ∧ kuser s' = kuser s.
Proof.
  revert kinfo s. induction processes as [|t ts IH]; intros kinfo s; simpl.
  { exists s. done. }
  unfold counted_mms. simpl. destruct (exit_state t =? EXIT_ZOMBIE); [apply IH|].
  unfold take_task_mm. destruct (get_task_mm t) as [mm|]; [|apply IH].
  simpl. unfold mmput. krun.
  destruct (IH (global_info_add kinfo mm)
    (mk_kernel (rcu_depth s) (ref_dec (mm_id mm) (ref_inc (mm_id mm) (mm_users s))) (kuser s)))
    as (s' & Hs' & [Hd Hu] & Hk).
  exists s'. split; [exact Hs'|]. split; [|done]. split; [done|].
  intros a. rewrite Hu. simpl. apply ref_dec_inc.
Qed.
End handler_lemmas.

(** Folding the two counters without overflow is adding up the quotients. *)
Lemma global_info_fold mms v r :
  Forall (λ mm, 0 ≤ total_vm mm < 2 ^ 52 ∧ 0 ≤ mm_rss mm < 2 ^ 52) mms →
  0 ≤ v → 0 ≤ r →
  v + sumZ ((λ mm, total_vm mm / 256) <$> mms) < 2 ^ 64 →
  r + sumZ ((λ mm, mm_rss mm / 256) <$> mms) < 2 ^ 64 →
  foldl global_info_add (mk_global_info v r) mms =
  mk_global_info (v + sumZ ((λ mm, total_vm mm / 256) <$> mms))
    (r + sumZ ((λ mm, mm_rss mm / 256) <$> mms)).
Proof.
  intros Hall. revert v r.
  induction Hall as [|mm mms [Hv Hr] Hall IH]; intros v r H0v H0r; csimpl;
    rewrite ?sumZ_cons; intros Hbv Hbr.
  { by rewrite !Z.add_0_r. }
  assert (Hnn : ∀ f : mm_struct → Z, Forall (λ mm, 0 ≤ f mm) mms →
    0 ≤ sumZ ((λ mm, f mm / 256) <$> mms)).
  { intros f Hf. apply sumZ_nonneg, Forall_fmap. eapply Forall_impl; [exact Hf|].
    intros y Hy. simpl. by apply Z.div_pos. }
  pose proof (Hnn total_vm ltac:(eapply Forall_impl; [exact Hall|]; simpl; lia)).
  pose proof (Hnn mm_rss ltac:(eapply Forall_impl; [exact Hall|]; simpl; lia)).
  assert (0 ≤ total_vm mm / 256) by (apply Z.div_pos; lia).
  assert (0 ≤ mm_rss mm / 256) by (apply Z.div_pos; lia).
  unfold global_info_add at 2. simpl. rewrite !pages_to_mb_spec by done.
  rewrite !u64_small by (unfold in_u64; lia).
  rewrite IH by lia. by rewrite <-!Z.add_assoc.
Qed.

(** ** Properties *)
Section properties.
Context {M : Type} `{UserAccess M}.
Context (pid_task : Z → option task_struct).
Context (get_task_mm : task_struct → option mm_struct).
Implicit Types (s : kernel_state M).

(** The per-process statistics call on every path. *)
Lemma memory_statistics_run pid info s :
  ∃ r s', sys_memory_allocation_statistics pid_task get_task_mm pid info s = Some (r, s') ∧
    balanced s s' ∧
    match pid_task pid with
    | None => r = - ESRCH ∧ kuser s' = kuser s
    | Some task =>
        match get_task_mm task with
        | None => r = - EINVAL ∧ kuser s' = kuser s
        | Some mm =>
            let c := copy_to_user (kuser s) info (proc_info_bytes (proc_info_of task mm)) in
            kuser s' = c.2 ∧ (c.1 = 0 ∧ r = 0 ∨ c.1 ≠ 0 ∧ r = - EFAULT)
        end
    end.
Proof.
  unfold sys_memory_allocation_statistics, rcu_read_lock, rcu_read_unlock. krun.
  assert (Hd : ∀ (m : gmap Z Z) (u : M), mk_kernel (rcu_depth s + 1 - 1) m u =
    mk_kernel (rcu_depth s) m u) by (intros; by rewrite Z.add_simpl_r).
  destruct (pid_task pid) as [task|].
  2: { eexists _, _. split; [reflexivity|]. simpl. rewrite Hd. done. }
  unfold take_task_mm. destruct (get_task_mm task) as [mm|].
  2: { eexists _, _. split; [reflexivity|]. simpl. rewrite Hd. done. }
  rewrite kbind_assoc. krun. unfold mmput. krun. simpl. rewrite Hd.
  unfold copy_out at 1. erewrite kbind_some by reflexivity. simpl.
  set (c := copy_to_user _ _ _).
  assert (Hbal : balanced s (mk_kernel (rcu_depth s)
    (ref_dec (mm_id mm) (ref_inc (mm_id mm) (mm_users s))) c.2)).
  { split; [done|]. intros a. apply ref_dec_inc. }
  unfold nz. destruct (Z.eqb_spec c.1 0) as [Hc|Hc]; simpl;
    eexists _, _; (split; [reflexivity|]); (split; [done|]); split; auto.
Qed.

(** The global call copies the folded counters once and gives back what it
    takes, whatever the sizes. *)
Lemma tamalloc_copy processes info s :
  let k := foldl global_info_add (mk_global_info 0 0) (counted_mms get_task_mm processes) in
  let c := copy_to_user (kuser s) info (global_info_bytes k) in
  ∃ r s', sys_tamalloc get_task_mm processes info s = Some (r, s') ∧ balanced s s' ∧
    kuser s' = c.2 ∧ (c.1 = 0 ∧ r = 0 ∨ c.1 ≠ 0 ∧ r = - EFAULT).
Proof.
  unfold sys_tamalloc, rcu_read_lock, rcu_read_unlock. krun.
  destruct (tamalloc_loop_spec get_task_mm processes (mk_global_info 0 0)
    (mk_kernel (rcu_depth s + 1) (mm_users s) (kuser s))) as (s1 & Hs1 & [Hd Hu] & Hk).
  rewrite (kbind_some _ _ _ _ _ Hs1). krun. simpl in Hd, Hu, Hk.
  unfold copy_out at 1. erewrite kbind_some by reflexivity. simpl. rewrite Hk, Hd, Z.add_simpl_r.
  set (c := copy_to_user _ _ _). unfold nz.
  destruct (Z.eqb_spec c.1 0); simpl; eexists _, _; (split; [reflexivity|]); (split; [by split|]); auto.
Qed.

(** C17. The per-process statistics call, on every path: [-ESRCH] for an
    unknown pid, [-EINVAL] for a task without mm, [-EFAULT] for a buffer that
    cannot be written; otherwise 0, and the program reads back four times the
    pages of the address space, four times the resident pages, the floor of the
    percentage (0 for an empty address space) and the OOM adjustment, with no
    other byte of its memory changed.  Whichever path it takes it leaves RCU and
    drops the mm reference it took. *)
Theorem memory_statistics_spec pid info s :
  (∀ task mm, pid_task pid = Some task → get_task_mm task = Some mm →
    0 ≤ total_vm mm < 2 ^ 52 ∧ 0 ≤ mm_rss mm < 2 ^ 52) →
  ∃ r s', sys_memory_allocation_statistics pid_task get_task_mm pid info s = Some (r, s') ∧
    balanced s s' ∧
    match pid_task pid with
    | None => r = - ESRCH ∧ kuser s' = kuser s
    | Some task =>
        match get_task_mm task with
        | None => r = - EINVAL ∧ kuser s' = kuser s
        | Some mm =>
            if user_wr (kuser s) info 24 then
              r = 0 ∧
              uread_u64 (kuser s') info = Some (4 * total_vm mm) ∧
              uread_u64 (kuser s') (info + 8) = Some (4 * mm_rss mm) ∧
              uread_u32 (kuser s') (info + 16) =
                Some (if decide (total_vm mm = 0) then 0 else u32 (100 * mm_rss mm / total_vm mm)) ∧
              uread_u32 (kuser s') (info + 20) = Some (u32 (oom_score_adj task)) ∧
              (∀ a, a < info ∨ info + 24 ≤ a → uread (kuser s') a = uread (kuser s) a)
            else r = - EFAULT
        end
    end.
Proof.
  intros Hmm. destruct (memory_statistics_run pid info s) as (r & s' & Hr & Hb & Hk).
  exists r, s'. split; [done|]. split; [done|].
  destruct (pid_task pid) as [task|]; [|done]. destruct (get_task_mm task) as [mm|] eqn:Ht; [|done].
  destruct Hk as [Hm Hk]. set (bs := proc_info_bytes _) in *.
  pose proof (copy_to_user_ok (kuser s) info bs) as Hok.
  change (Z.of_nat (length bs)) with 24 in Hok.
  destruct (user_wr (kuser s) info 24).
  - destruct Hk as [[Hc ->]|[Hc _]]; [|by destruct Hc; apply Hok].
    split; [done|]. pose proof (copy_to_user_range _ _ _ Hc) as Hrange. rewrite <-Hm in Hrange.
    destruct (Hmm task mm eq_refl Ht) as [Hv Hrss].
    destruct (proc_info_read _ _ _ Hrange) as (-> & -> & -> & ->).
    rewrite proc_info_fields by done. cbn [vm_kb rss_kb rss_percent_of_vm oom_adjustment].
    rewrite !u64_small by (unfold in_u64; lia). split; [done|]. split; [done|].
    split; [case_decide; [done | by rewrite (u32_small (u32 _)) by apply u32_range]|].
    split; [done|]. intros a Ha. rewrite Hm. by apply copy_to_user_frame.
  - destruct Hk as [[Hc _]|[_ ->]]; [|done]. by apply Hok in Hc.
Qed.

(** For a process whose resident set is within its address space, the
    reported sizes are the page counts times four and the percentage is the
    exact floor of [100 * rss / vm], never above 100: no product overflows. *)
Theorem proc_info_exact task mm :
  0 ≤ mm_rss mm ≤ total_vm mm → total_vm mm < 2 ^ 52 →
  let k := proc_info_of task mm in
  vm_kb k = 4 * total_vm mm ∧ rss_kb k = 4 * mm_rss mm ∧
  (total_vm mm = 0 → rss_percent_of_vm k = 0) ∧
  (0 < total_vm mm → rss_percent_of_vm k = mm_rss mm * 100 / total_vm mm) ∧
  0 ≤ rss_percent_of_vm k ≤ 100.
Proof.
  intros Hr Hv k. unfold k, proc_info_of. simpl.
  rewrite !pages_to_kb_spec by lia.
  split; [done|]. split; [done|].
  change (2 ^ 52) with 4503599627370496 in Hv.
  destruct (decide (total_vm mm = 0)) as [H0v|H0v].
  - rewrite H0v. done.
  - destruct (percent_of_spec (4 * mm_rss mm) (4 * total_vm mm)) as [Hp Hb];
      [change (2 ^ 54) with 18014398509481984; lia | lia | lia |].
    split; [lia|]. split; [|done]. intros _. rewrite Hp.
    rewrite <-Z.mul_assoc. rewrite Z.div_mul_cancel_l; lia.
Qed.

(** C21. The global call reports, for each counter, the sum over the
    non-zombie processes that have an mm of their size in whole megabytes, as
    the program reads it back; that sum never exceeds the total, and truncating
    process by process it can fall short of it by almost one megabyte per
    process, no more.  A buffer that cannot be written gives [-EFAULT]; RCU and
    every mm reference are released. *)
Theorem tamalloc_aggregates processes info s :
  let mms := counted_mms get_task_mm processes in
  let loss := 255 * Z.of_nat (length mms) / 256 in
  let vm_mb := sumZ ((λ mm, total_vm mm / 256) <$> mms) in
  let rss_mb := sumZ ((λ mm, mm_rss mm / 256) <$> mms) in
  Forall (λ mm, 0 ≤ total_vm mm < 2 ^ 52 ∧ 0 ≤ mm_rss mm < 2 ^ 52) mms →
  sumZ (total_vm <$> mms) < 2 ^ 64 → sumZ (mm_rss <$> mms) < 2 ^ 64 →
  (∃ r s', sys_tamalloc get_task_mm processes info s = Some (r, s') ∧ balanced s s' ∧
    if user_wr (kuser s) info 16 then
      r = 0 ∧ uread_u64 (kuser s') info = Some vm_mb ∧ uread_u64 (kuser s') (info + 8) = Some rss_mb ∧
      (∀ a, a < info ∨ info + 16 ≤ a → uread (kuser s') a = uread (kuser s) a)
    else r = - EFAULT) ∧
  vm_mb ≤ sumZ (total_vm <$> mms) / 256 ≤ vm_mb + loss ∧
  rss_mb ≤ sumZ (mm_rss <$> mms) / 256 ≤ rss_mb + loss.
Proof.
  intros mms loss vm_mb rss_mb Hall Hv Hr.
  assert (Hsum : ∀ f : mm_struct → Z,
    sumZ ((λ mm, f mm / 256) <$> mms) ≤ sumZ (f <$> mms) / 256 ≤
    sumZ ((λ mm, f mm / 256) <$> mms) + loss).
  { intros f. pose proof (sumZ_div 256 (f <$> mms) ltac:(lia)) as Hd.
    rewrite <-list_fmap_compose, length_fmap in Hd. exact Hd. }
  assert (Hpos : ∀ f : mm_struct → Z, Forall (λ mm, 0 ≤ f mm) mms → sumZ (f <$> mms) < 2 ^ 64 →
    in_u64 (sumZ ((λ mm, f mm / 256) <$> mms))).
  { intros f Hf Hlt. split.
    - apply sumZ_nonneg, Forall_fmap. eapply Forall_impl; [exact Hf|]. intros mm ?. by apply Z.div_pos.
    - eapply Z.le_lt_trans; [apply Hsum|]. apply Z.div_lt_upper_bound; lia. }
  split; [|split; apply Hsum].
  assert (Hvm : in_u64 vm_mb) by (apply Hpos; [eapply Forall_impl; [exact Hall|]; simpl; lia | done]).
  assert (Hrs : in_u64 rss_mb) by (apply Hpos; [eapply Forall_impl; [exact Hall|]; simpl; lia | done]).
  destruct (tamalloc_copy processes info s) as (r & s' & Hrun & Hb & Hm & Hk).
  exists r, s'. split; [done|]. split; [done|]. revert Hm Hk. fold mms.
  rewrite global_info_fold by (done || unfold in_u64, vm_mb, rss_mb in *; lia).
  rewrite !Z.add_0_l. fold vm_mb rss_mb. intros Hm Hk.
  set (bs := global_info_bytes _) in *.
  pose proof (copy_to_user_ok (kuser s) info bs) as Hok. change (Z.of_nat (length bs)) with 16 in Hok.
  destruct (user_wr (kuser s) info 16).
  - destruct Hk as [[Hc ->]|[Hc _]]; [|by destruct Hc; apply Hok].
    split; [done|]. pose proof (copy_to_user_range _ _ _ Hc) as Hrange. rewrite <-Hm in Hrange.
    destruct (global_info_read _ _ _ Hrange) as (-> & ->). cbn [aggregate_vm_mb aggregate_rss_mb].
    rewrite !u64_small by done. split; [done|]. split; [done|].
    intros a Ha. rewrite Hm. by apply copy_to_user_frame.
  - destruct Hk as [[Hc _]|[_ ->]]; [|done]. by apply Hok in Hc.
Qed.
End properties.

(** C29. The allocation call rejects a zero size with [-EINVAL]; a size within
    one page of [2^64], whose rounding wraps to zero, gets [-ENOMEM] without
    touching the address space; any other size is rounded up to the least
    whole number of pages that holds it, mapped by exactly one [vm_mmap] whose
    address is returned, and every error of which becomes [-ENOMEM] with one
    line in the log. *)
Theorem tamalloc_stats_spec {AS : Type}
    (vm_mmap : Z → Z → Z → Z → Z → Z → AS → Z * AS) size sp log :
  0 ≤ size < 2 ^ 64 →
  let aligned := (size + 4095) / 4096 * 4096 in
  let '(addr, sp') := vm_mmap NULL 0 aligned 3 16418 0 sp in
  sys_tamalloc_stats vm_mmap size sp log =
    (if decide (size = 0) then (- EINVAL, sp, log)
     else if decide (2 ^ 64 - 4096 < size) then (- ENOMEM, sp, log)
     else if decide (2 ^ 64 - 4095 ≤ addr) then (- ENOMEM, sp', S log)
     else (s64 addr, sp', log)) ∧
  size ≤ aligned < size + 4096.
Proof.
  intros Hs aligned. destruct (vm_mmap NULL 0 aligned 3 16418 0 sp) as [addr sp'] eqn:Hm.
  split; [|unfold aligned; wrap].
  unfold sys_tamalloc_stats. destruct (Z.eqb_spec size 0) as [->|H0]; [done|].
  rewrite decide_False by done. case_decide as Hbig.
  { rewrite PAGE_ALIGN_wrap; [done|]. unfold PAGE_SIZE. lia. }
  rewrite PAGE_ALIGN_spec by (unfold PAGE_SIZE; lia).
  change ((size + (PAGE_SIZE - 1)) / PAGE_SIZE * PAGE_SIZE) with aligned.
  destruct (Z.eqb_spec aligned 0); [unfold aligned in *; wrap|].
  change (Z.lor PROT_READ PROT_WRITE) with 3.
  change (Z.lor (Z.lor MAP_PRIVATE MAP_ANONYMOUS) MAP_NORESERVE) with 16418.
  rewrite Hm. unfold IS_ERR_VALUE, MAX_ERRNO.
  destruct (Z.leb_spec (2 ^ 64 - 4095) addr).
  - by rewrite decide_True.
  - by rewrite decide_False by lia.
Qed.

(** ** Concrete runs *)
Module TamallocRuns.
Definition task_of (mm : option mm_struct) (st : Z) : task_struct :=
  mk_task 5000 mm st 0 (mk_ioac 0 0 0 0 0 0).
Definition ts : list task_struct :=
  [task_of (Some (mk_mm 1 1000 300)) 0; task_of None 0; task_of (Some (mk_mm 2 100 50)) 32;
   task_of (Some (mk_mm 3 511 255)) 0].
Definition s0 : kernel_state (gmap Z Z) := mk_kernel 0 ∅ (zero_page 4096 64).

Example tamalloc_run :
  match sys_tamalloc task_mm ts 4096 s0 with
  | Some (r, s) => (r, uread_u64 (kuser s) 4096, uread_u64 (kuser s) 4104)
  | None => (1, None, None)
  end = (0, Some 4, Some 1).
Proof. vm_compute. reflexivity. Qed.

Lemma proc_info_exact_witness :
  rss_percent_of_vm (proc_info_of (task_of None 0) (mk_mm 1 1000 333)) = 33.
Proof.
  destruct (proc_info_exact (task_of None 0) (mk_mm 1 1000 333)) as (_ & _ & _ & Hp & _);
    [split; done | done|].
  rewrite Hp by done. vm_compute. reflexivity.
Defined.

Lemma writable n : n = 16 ∨ n = 24 → user_wr (kuser s0) 4096 n = true.
Proof. intros [-> | ->]; vm_compute; reflexivity. Qed.

Lemma tamalloc_aggregates_witness :
  ∃ r s', sys_tamalloc task_mm ts 4096 s0 = Some (r, s') ∧ balanced s0 s' ∧
    r = 0 ∧ uread_u64 (kuser s') 4096 = Some 4.
Proof.
  destruct (tamalloc_aggregates task_mm ts 4096 s0) as [(r & s' & Hr & Hb & Hk) _].
  - apply (bool_decide_unpack _). vm_compute. done.
  - vm_compute. done.
  - vm_compute. done.
  - rewrite (writable 16) in Hk by (by left). destruct Hk as (H0 & H1 & _). exists r, s'.
    split; [exact Hr|]. split; [exact Hb|]. split; [exact H0|]. rewrite H1. vm_compute. reflexivity.
Defined.

Definition task_by_pid (pid : Z) : option task_struct :=
  if pid =? 7 then Some (task_of (Some (mk_mm 1 1000 333)) 0) else None.
Lemma memory_statistics_spec_witness :
  ∃ s', sys_memory_allocation_statistics task_by_pid task_mm 7 4096 s0 = Some (0, s') ∧
    uread_u64 (kuser s') 4096 = Some 4000 ∧ uread_u32 (kuser s') 4112 = Some 33.
Proof.
  destruct (memory_statistics_spec task_by_pid task_mm 7 4096 s0) as (r & s' & Hr & _ & Hk).
  - intros task mm [= <-] [= <-]. split; split; done.
  - cbn [task_by_pid Z.eqb Pos.eqb task_mm task_of] in Hk. rewrite (writable 24) in Hk by (by right).
    destruct Hk as (-> & H1 & _ & H3 & _). change (4096 + 16) with 4112 in H3.
    exists s'. split; [exact Hr|].
    split; [rewrite H1 | rewrite H3]; vm_compute; reflexivity.
Defined.

Definition mmap_at (a : Z) : Z → Z → Z → Z → Z → Z → Z → Z * Z :=
  λ _ _ len _ _ _ top, (a, top + len).

Lemma tamalloc_stats_spec_witness :
  sys_tamalloc_stats (mmap_at 65536) 5000 0 0%nat = (65536, 8192, 0%nat).
Proof.
  destruct (tamalloc_stats_spec (mmap_at 65536) 5000 0 0%nat) as [Hr _]; [split; done|].
  rewrite Hr. vm_compute. reflexivity.
Defined.
End TamallocRuns.
