(* ===== verification/SysInfo.v ===== *)
(** * SysInfo: [do_sysinfo], [sysinfo] and [compat_sysinfo] of [kernel/sys.c]

    The clock, the load averages, the thread count and the two functions of
    the memory manager that fill in the memory fields ([si_meminfo],
    [si_swapinfo]) are outside the repository: the first three are arguments,
    the last two the class [MemInfo].  The loop that folds the memory unit into
    the counters runs on fuel; [scale_loop_spec] shows that 32 rounds are
    enough, because the unit is a 32-bit integer. *)

From S2P Require Import Prelude UserMem.

(** ** Data *)
Record sysinfo := mk_sysinfo {
  si_uptime : Z;
  si_loads : list Z;
  si_totalram : Z;
  si_freeram : Z;
  si_sharedram : Z;
  si_bufferram : Z;
  si_totalswap : Z;
  si_freeswap : Z;
  si_procs : Z;
  si_totalhigh : Z;
  si_freehigh : Z;
  si_mem_unit : Z;
}.

(** The object after [memset(info, 0, sizeof(struct sysinfo))]. *)
Definition sysinfo_zero : sysinfo := mk_sysinfo 0 [0; 0; 0] 0 0 0 0 0 0 0 0 0 0.

(** Every field holds a value of its C type. *)
Definition sysinfo_wf (i : sysinfo) : Prop :=
  in_s64 (si_uptime i) ∧ length (si_loads i) = 3%nat ∧
  in_u64 (si_totalram i) ∧ in_u64 (si_freeram i) ∧ in_u64 (si_sharedram i) ∧
  in_u64 (si_bufferram i) ∧ in_u64 (si_totalswap i) ∧ in_u64 (si_freeswap i) ∧
  0 ≤ si_procs i < 2 ^ 16 ∧
  in_u64 (si_totalhigh i) ∧ in_u64 (si_freehigh i) ∧ in_u32 (si_mem_unit i).

(** What [do_sysinfo] relies on: [si_meminfo] fills in the RAM fields and the
    unit, [si_swapinfo] the two swap fields, and neither touches another. *)
Class MemInfo := {
  si_meminfo : sysinfo → sysinfo;
  si_swapinfo : sysinfo → sysinfo;
  si_meminfo_wf i : sysinfo_wf i → sysinfo_wf (si_meminfo i);
  si_swapinfo_wf i : sysinfo_wf i → sysinfo_wf (si_swapinfo i);
  si_swapinfo_unit i : si_mem_unit (si_swapinfo i) = si_mem_unit i;
  si_swapinfo_ram i :
    si_totalram (si_swapinfo i) = si_totalram i ∧ si_freeram (si_swapinfo i) = si_freeram i;
  si_meminfo_ram i j :
    si_totalram (si_meminfo i) = si_totalram (si_meminfo j) ∧
    si_freeram (si_meminfo i) = si_freeram (si_meminfo j) ∧
    si_bufferram (si_meminfo i) = si_bufferram (si_meminfo j) ∧
    si_mem_unit (si_meminfo i) = si_mem_unit (si_meminfo j);
  si_meminfo_swap i :
    si_totalswap (si_meminfo i) = si_totalswap i ∧ si_freeswap (si_meminfo i) = si_freeswap i;
  si_meminfo_other i :
    si_uptime (si_meminfo i) = si_uptime i ∧ si_loads (si_meminfo i) = si_loads i ∧
    si_procs (si_meminfo i) = si_procs i;
  si_swapinfo_other i :
    si_uptime (si_swapinfo i) = si_uptime i ∧ si_loads (si_swapinfo i) = si_loads i ∧
    si_procs (si_swapinfo i) = si_procs i;
}.

(** [struct timespec64] of the boot clock, and the other inputs. *)
Record timespec64 := mk_timespec { tv_sec : Z; tv_nsec : Z }.
Record sys_inputs := mk_inputs {
  boottime : timespec64;     (* ktime_get_boottime_ts64 after timens_add_boottime *)
  avenrun : list Z;          (* get_avenrun(., 0, SI_LOAD_SHIFT - FSHIFT) *)
  nr_threads : Z;
}.

(** [info] when the loop starts: all fields filled in, unit not folded in. *)
Definition sysinfo_filled `{MemInfo} (x : sys_inputs) : sysinfo :=
  let info := sysinfo_zero in
  let tp := boottime x in
  let info := mk_sysinfo (s64 (tv_sec tp + (if nz (tv_nsec tp) then 1 else 0)))
    (avenrun x) 0 0 0 0 0 0 (u16 (nr_threads x)) 0 0 0 in
  si_swapinfo (si_meminfo info).

(** [while (mem_unit > 1)]: [None] when the fuel ran out, [Some None] at
    [goto out], [Some (Some bitcount)] when the loop ended. *)
Fixpoint scale_loop (fuel : nat) (mem_unit mem_total bitcount : Z) : option (option Z) :=
  if 1 <? mem_unit then
    match fuel with
    | O => None
    | S fuel =>
        let bitcount := u32 (bitcount + 1) in
        let mem_unit := Z.shiftr mem_unit 1 in
        let sav_total := mem_total in
        let mem_total := u64 (Z.shiftl mem_total 1) in
        if mem_total <? sav_total then Some None
        else scale_loop fuel mem_unit mem_total bitcount
    end
  else Some (Some bitcount).

Definition sysinfo_shl (b : Z) (i : sysinfo) : sysinfo :=
  let sh x := u64 (Z.shiftl x b) in
  mk_sysinfo (si_uptime i) (si_loads i) (sh (si_totalram i)) (sh (si_freeram i))
    (sh (si_sharedram i)) (sh (si_bufferram i)) (sh (si_totalswap i)) (sh (si_freeswap i))
    (si_procs i) (sh (si_totalhigh i)) (sh (si_freehigh i)) 1.

Definition mem_unit_bits : nat := 32.

(** [None] only if the loop does not end within [mem_unit_bits] rounds. *)
Definition do_sysinfo `{MemInfo} (x : sys_inputs) : option sysinfo :=
  let info := sysinfo_filled x in
  let mem_total := u64 (si_totalram info + si_totalswap info) in
  if (mem_total <? si_totalram info) || (mem_total <? si_totalswap info) then Some info else
  match scale_loop mem_unit_bits (si_mem_unit info) mem_total 0 with
  | None => None
  | Some None => Some info
  | Some (Some bitcount) => Some (sysinfo_shl bitcount info)
  end.

(** The 112 bytes of [struct sysinfo] on x86-64: two bytes [pad] and four of
    alignment follow [procs], four of alignment follow [mem_unit]. *)
Definition sysinfo_bytes (i : sysinfo) : list Z :=
  bytes_of_u64 (si_uptime i) ++ (si_loads i ≫= bytes_of_u64) ++
  bytes_of_u64 (si_totalram i) ++ bytes_of_u64 (si_freeram i) ++
  bytes_of_u64 (si_sharedram i) ++ bytes_of_u64 (si_bufferram i) ++
  bytes_of_u64 (si_totalswap i) ++ bytes_of_u64 (si_freeswap i) ++
  le_bytes 2 (si_procs i) ++ [0; 0] ++ [0; 0; 0; 0] ++
  bytes_of_u64 (si_totalhigh i) ++ bytes_of_u64 (si_freehigh i) ++
  bytes_of_u32 (si_mem_unit i) ++ [0; 0; 0; 0].

Definition sys_sysinfo {M} `{UserAccess M, MemInfo} (x : sys_inputs) (info : Z) (m : M)
    : option (Z * M) :=
  val ← do_sysinfo x;
  let '(rest, m) := copy_to_user m info (sysinfo_bytes val) in
  Some (if nz rest then - EFAULT else 0, m).

(** *** The 32-bit layout *)
Record compat_sysinfo := mk_compat_sysinfo {
  c_uptime : Z;        (* s32 *)
  c_loads : list Z;    (* u32[3] *)
  c_totalram : Z;      (* u32, like the fields below except procs *)
  c_freeram : Z;
  c_sharedram : Z;
  c_bufferram : Z;
  c_totalswap : Z;
  c_freeswap : Z;
  c_procs : Z;         (* u16 *)
  c_totalhigh : Z;
  c_freehigh : Z;
  c_mem_unit : Z;
}.

Definition upper_32_bits (x : Z) : Z := Z.shiftr x 32.

(** [while (s.mem_unit < PAGE_SIZE)] *)
Fixpoint compat_scale_loop (fuel : nat) (mem_unit bitcount : Z) : option (Z * Z) :=
  if mem_unit <? PAGE_SIZE then
    match fuel with
    | O => None
    | S fuel => compat_scale_loop fuel (u32 (Z.shiftl mem_unit 1)) (bitcount + 1)
    end
  else Some (mem_unit, bitcount).

Definition sysinfo_shr (unit b : Z) (i : sysinfo) : sysinfo :=
  let sh x := Z.shiftr x b in
  mk_sysinfo (si_uptime i) (si_loads i) (sh (si_totalram i)) (sh (si_freeram i))
    (sh (si_sharedram i)) (sh (si_bufferram i)) (sh (si_totalswap i)) (sh (si_freeswap i))
    (si_procs i) (sh (si_totalhigh i)) (sh (si_freehigh i)) unit.

Definition compat_scaled (i : sysinfo) : option sysinfo :=
  if nz (upper_32_bits (si_totalram i)) || nz (upper_32_bits (si_totalswap i)) then
    '(unit, bitcount) ← compat_scale_loop mem_unit_bits (si_mem_unit i) 0;
    Some (sysinfo_shr unit bitcount i)
  else Some i.

Definition compat_of_sysinfo (s : sysinfo) : compat_sysinfo :=
  mk_compat_sysinfo (s32 (si_uptime s)) (u32 <$> si_loads s) (u32 (si_totalram s))
    (u32 (si_freeram s)) (u32 (si_sharedram s)) (u32 (si_bufferram s))
    (u32 (si_totalswap s)) (u32 (si_freeswap s)) (u16 (si_procs s))
    (u32 (si_totalhigh s)) (u32 (si_freehigh s)) (si_mem_unit s).

(** The 64 bytes of [struct compat_sysinfo]; [_f] is eight zero bytes. *)
Definition compat_sysinfo_bytes (c : compat_sysinfo) : list Z :=
  bytes_of_u32 (c_uptime c) ++ (c_loads c ≫= bytes_of_u32) ++
  bytes_of_u32 (c_totalram c) ++ bytes_of_u32 (c_freeram c) ++
  bytes_of_u32 (c_sharedram c) ++ bytes_of_u32 (c_bufferram c) ++
  bytes_of_u32 (c_totalswap c) ++ bytes_of_u32 (c_freeswap c) ++
  le_bytes 2 (c_procs c) ++ [0; 0] ++
  bytes_of_u32 (c_totalhigh c) ++ bytes_of_u32 (c_freehigh c) ++
  bytes_of_u32 (c_mem_unit c) ++ [0; 0; 0; 0; 0; 0; 0; 0].

Definition sys_compat_sysinfo {M} `{UserAccess M, MemInfo} (x : sys_inputs) (info : Z) (m : M)
    : option (Z * M) :=
  s ← do_sysinfo x;
  s ← compat_scaled s;
  let '(rest, m) := copy_to_user m info (compat_sysinfo_bytes (compat_of_sysinfo s)) in
  Some (if nz rest then - EFAULT else 0, m).

(** ** The loops *)

Lemma log2_half u : 1 < u → Z.log2 u = Z.log2 (u / 2) + 1.
Proof.
  intros Hu. rewrite <-Z.div2_div. rewrite Z.div2_spec, Z.log2_shiftr by lia.
  pose proof (Z.log2_le_mono 2 u ltac:(lia)). change (Z.log2 2) with 1 in *. lia.
Qed.

(** Doubling wraps exactly when the result is smaller. *)
Lemma double_wraps t : in_u64 t → (u64 (Z.shiftl t 1) <? t) = (2 ^ 64 <=? 2 * t).
Proof.
  intros Ht. rewrite shiftl_mul by lia. change (2 ^ 1) with 2.
  destruct (Z.leb_spec (2 ^ 64) (2 * t)).
  - apply Z.ltb_lt. wrap.
  - apply Z.ltb_ge. wrap.
Qed.

Lemma scale_loop_spec fuel unit total b :
  0 ≤ unit < 2 ^ Z.of_nat fuel → in_u64 total → 0 ≤ b → b + Z.of_nat fuel < 2 ^ 32 →
  scale_loop fuel unit total b =
  Some (if total * 2 ^ Z.log2 unit <? 2 ^ 64 then Some (b + Z.log2 unit) else None).
Proof.
  revert unit total b. induction fuel as [|fuel IH]; intros unit total b Hu Ht Hb Hbf.
  - simpl in Hu. replace unit with 0 by lia. simpl.
    rewrite (proj2 (Z.ltb_lt _ _)) by (unfold in_u64 in Ht; lia). by rewrite Z.add_0_r.
  - simpl. destruct (Z.ltb_spec 1 unit) as [H1|H1].
    2: { assert (Z.log2 unit = 0) as -> by (assert (unit = 0 ∨ unit = 1) as [->| ->] by lia; done).
         rewrite (proj2 (Z.ltb_lt _ _)) by (unfold in_u64 in Ht; lia). by rewrite Z.add_0_r. }
    rewrite double_wraps by done. rewrite Nat2Z.inj_succ, Z.pow_succ_r in Hu by lia.
    rewrite (log2_half unit), Z.pow_add_r by (lia || apply Z.log2_nonneg).
    change (2 ^ 1) with 2.
    assert (Hpos : 0 < 2 ^ Z.log2 (unit / 2)) by (apply Z.pow_pos_nonneg; [lia | apply Z.log2_nonneg]).
    destruct (Z.leb_spec (2 ^ 64) (2 * total)).
    + rewrite (proj2 (Z.ltb_ge _ _)) by nia. done.
    + rewrite shiftr_div, shiftl_mul by lia. change (2 ^ 1) with 2.
      rewrite IH; [|split; [apply Z.div_pos; lia | apply Z.div_lt_upper_bound; lia] |
        auto with kernel | wrap | wrap].
      rewrite u64_small by (unfold in_u64 in *; lia).
      rewrite u32_small by (unfold in_u32; lia).
      replace (total * 2 * 2 ^ Z.log2 (unit / 2)) with (total * (2 ^ Z.log2 (unit / 2) * 2)) by lia.
      by rewrite <-Z.add_assoc, (Z.add_comm 1).
Qed.

(** Starting from a power of two the compat loop reaches the page size. *)
Lemma compat_scale_loop_spec fuel k b :
  0 ≤ k ≤ 12 → 12 ≤ k + Z.of_nat fuel →
  compat_scale_loop fuel (2 ^ k) b = Some (PAGE_SIZE, b + (12 - k)).
Proof.
  revert k b. induction fuel as [|fuel IH]; intros k b Hk Hf.
  - replace k with 12 by lia. simpl. by rewrite Z.add_0_r.
  - destruct (decide (k = 12)) as [->|Hne]; [simpl; by rewrite Z.add_0_r|].
    assert (Hlt : 2 ^ k ≤ 2 ^ 11) by (apply Z.pow_le_mono_r; lia). change (2 ^ 11) with 2048 in Hlt.
    assert (Hpos : 0 < 2 ^ k) by (apply Z.pow_pos_nonneg; lia).
    simpl. unfold PAGE_SIZE at 1. rewrite (proj2 (Z.ltb_lt _ _)) by lia.
    rewrite shiftl_mul by lia. rewrite u32_small by (unfold in_u32; lia).
    rewrite <-Z.pow_add_r by lia. rewrite IH by lia. f_equal. f_equal. lia.
Qed.

(** A zero unit would never reach it. *)
Lemma compat_scale_loop_zero fuel b : compat_scale_loop fuel 0 b = None.
Proof. revert b. induction fuel as [|fuel IH]; intros b; simpl; [done | apply IH]. Qed.

Lemma shl_exact t b : 0 ≤ b → 0 ≤ t → t * 2 ^ b < 2 ^ 64 → u64 (Z.shiftl t b) = t * 2 ^ b.
Proof.
  intros Hb Ht Hm. rewrite shiftl_mul by done. apply u64_small.
  pose proof (Z.pow_pos_nonneg 2 b). unfold in_u64. nia.
Qed.

Section facts.
Context `{MemInfo}.

Lemma sysinfo_zero_wf u l p :
  in_s64 u → length l = 3%nat → 0 ≤ p < 2 ^ 16 →
  sysinfo_wf (mk_sysinfo u l 0 0 0 0 0 0 p 0 0 0).
Proof. intros. unfold sysinfo_wf. simpl. repeat split; (assumption || wrap). Qed.

Lemma sysinfo_filled_wf x : length (avenrun x) = 3%nat → sysinfo_wf (sysinfo_filled x).
Proof.
  intros Hl. apply si_swapinfo_wf, si_meminfo_wf, sysinfo_zero_wf; auto with kernel. wrap.
Qed.

(** [do_sysinfo] always returns, and how. *)
Lemma do_sysinfo_run x :
  length (avenrun x) = 3%nat →
  let i := sysinfo_filled x in let b := Z.log2 (si_mem_unit i) in
  do_sysinfo x =
  Some (if (si_totalram i + si_totalswap i) * 2 ^ b <? 2 ^ 64 then sysinfo_shl b i else i).
Proof.
  intros Hl i b. unfold do_sysinfo. fold i.
  destruct (sysinfo_filled_wf x Hl) as (_ & _ & Hr & _ & _ & _ & Hs & _ & _ & _ & _ & Hu).
  fold i in Hr, Hs, Hu.
  assert (Hb : 0 < 2 ^ b) by (apply Z.pow_pos_nonneg; [lia | apply Z.log2_nonneg]).
  unfold in_u64, in_u32 in *.
  destruct (decide (si_totalram i + si_totalswap i < 2 ^ 64)) as [Hn|Hn].
  - rewrite u64_small by (unfold in_u64; lia).
    rewrite !(proj2 (Z.ltb_ge _ _)) by lia. simpl orb. cbv iota.
    rewrite scale_loop_spec; [|exact Hu | unfold in_u64; lia | lia | done].
    fold b. by destruct (_ <? _).
  - rewrite (proj2 (Z.ltb_lt _ (si_totalram i))) by wrap. simpl orb. cbv iota.
    rewrite (proj2 (Z.ltb_ge _ _)) by nia. done.
Qed.
End facts.

(** The memory counters, and those a total bounds. *)
Definition mem_fields : list (sysinfo → Z) :=
  [si_totalram; si_freeram; si_sharedram; si_bufferram; si_totalswap; si_freeswap;
   si_totalhigh; si_freehigh].
Definition bounded_field (i : sysinfo) (f : sysinfo → Z) : Prop :=
  0 ≤ f i ≤ Z.max (si_totalram i) (si_totalswap i).

Lemma sysinfo_shl_field i b f :
  f ∈ mem_fields → 0 ≤ b → 0 ≤ f i → f i * 2 ^ b < 2 ^ 64 → f (sysinfo_shl b i) = f i * 2 ^ b.
Proof.
  intros Hf Hb H0 Hm. rewrite <-shl_exact by done.
  unfold mem_fields in Hf. rewrite !elem_of_cons, elem_of_nil in Hf.
  destruct_or! Hf; by subst f.
Qed.

Lemma sysinfo_shr_field i u b f : f ∈ mem_fields → f (sysinfo_shr u b i) = Z.shiftr (f i) b.
Proof.
  intros Hf. unfold mem_fields in Hf. rewrite !elem_of_cons, elem_of_nil in Hf.
  destruct_or! Hf; by subst f.
Qed.

(** Folding the unit in keeps every bounded counter's number of bytes. *)
Lemma do_sysinfo_field `{MemInfo} x k i' f :
  length (avenrun x) = 3%nat → 0 ≤ k → si_mem_unit (sysinfo_filled x) = 2 ^ k →
  do_sysinfo x = Some i' → f ∈ mem_fields → bounded_field (sysinfo_filled x) f →
  f i' * si_mem_unit i' = f (sysinfo_filled x) * 2 ^ k.
Proof.
  intros Hl Hk Hu Hi Hf [H0 Hb]. rewrite do_sysinfo_run in Hi by done.
  injection Hi as <-. rewrite Hu, Z.log2_pow2 by done.
  destruct (sysinfo_filled_wf x Hl) as (_ & _ & Hr & _ & _ & _ & Hs & _).
  set (i := sysinfo_filled x) in *. unfold in_u64 in Hr, Hs.
  assert (Hp : 0 < 2 ^ k) by (apply Z.pow_pos_nonneg; lia).
  destruct (Z.ltb_spec ((si_totalram i + si_totalswap i) * 2 ^ k) (2 ^ 64)); [|by rewrite Hu].
  rewrite sysinfo_shl_field; [simpl; lia | done.. | nia].
Qed.

(** One field of the 32-bit structure: what scaling down to pages loses. *)
Lemma compat_field f i i' k :
  f ∈ mem_fields → 0 ≤ k ≤ 12 → si_mem_unit i = 2 ^ k → compat_scaled i = Some i' →
  bounded_field i f → f i * 2 ^ k < 2 ^ 44 →
  u32 (f i') * si_mem_unit i' ≤ f i * si_mem_unit i < u32 (f i') * si_mem_unit i' + PAGE_SIZE.
Proof.
  intros Hf Hk Hu Hs [H0 Hb] Hm. unfold compat_scaled in Hs.
  change (2 ^ 44) with (2 ^ 32 * 4096) in Hm.
  assert (Hp : 0 < 2 ^ k) by (apply Z.pow_pos_nonneg; lia).
  destruct (nz (upper_32_bits (si_totalram i)) || nz (upper_32_bits (si_totalswap i))) eqn:Hup.
  - rewrite Hu, compat_scale_loop_spec in Hs by (unfold mem_unit_bits; lia).
    injection Hs as <-. rewrite sysinfo_shr_field by done. cbn [sysinfo_shr si_mem_unit].
    unfold PAGE_SIZE. rewrite shiftr_div, Hu by lia. rewrite Z.add_0_l.
    assert (Hpk : 2 ^ (12 - k) * 2 ^ k = 4096).
    { rewrite <-Z.pow_add_r by lia. by replace (12 - k + k) with 12 by lia. }
    assert (Hp2 : 0 < 2 ^ (12 - k)) by (apply Z.pow_pos_nonneg; lia).
    pose proof (Z.div_mod (f i) (2 ^ (12 - k)) ltac:(lia)) as Hd.
    pose proof (Z.mod_pos_bound (f i) (2 ^ (12 - k)) Hp2) as Hr.
    assert (0 ≤ f i / 2 ^ (12 - k)) by (apply Z.div_pos; lia).
    rewrite u32_small by (unfold in_u32; nia).
    nia.
  - injection Hs as <-. unfold nz, upper_32_bits in Hup.
    apply orb_false_iff in Hup as [Hr Hw].
    apply negb_false_iff, Z.eqb_eq in Hr, Hw. rewrite shiftr_div in Hr, Hw by lia.
    apply Z.div_small_iff in Hr, Hw; [|lia..].
    rewrite u32_small by (unfold in_u32; lia). unfold PAGE_SIZE. lia.
Qed.

(** ** Properties *)
Section properties.
Context `{MemInfo}.

(** C39. [do_sysinfo] always returns: its loop ends within the width of the
    unit.  For a memory unit that is a power of two the multiplication is
    exact: the unit becomes 1 precisely when RAM plus swap, in bytes, is below
    [2^64] (the loop's doubling test detects every overflow and nothing else),
    and in both cases each counter that is at most a total stands for the
    same number of bytes as before. *)
Theorem do_sysinfo_exact x k :
  length (avenrun x) = 3%nat → 0 ≤ k → si_mem_unit (sysinfo_filled x) = 2 ^ k →
  let i := sysinfo_filled x in
  ∃ i', do_sysinfo x = Some i' ∧
    si_mem_unit i' =
      (if decide ((si_totalram i + si_totalswap i) * 2 ^ k < 2 ^ 64) then 1 else 2 ^ k) ∧
    (∀ f, f ∈ mem_fields → bounded_field i f → f i' * si_mem_unit i' = f i * 2 ^ k) ∧
    si_uptime i' = s64 (tv_sec (boottime x) + (if nz (tv_nsec (boottime x)) then 1 else 0)) ∧
    si_loads i' = avenrun x ∧ si_procs i' = u16 (nr_threads x).
Proof.
  intros Hl Hk Hu i. rewrite do_sysinfo_run by done.
  eexists. split; [reflexivity|]. rewrite Hu, Z.log2_pow2 by done. fold i.
  assert (Hrest : si_uptime i = s64 (tv_sec (boottime x) +
      (if nz (tv_nsec (boottime x)) then 1 else 0)) ∧
    si_loads i = avenrun x ∧ si_procs i = u16 (nr_threads x)).
  { unfold i, sysinfo_filled.
    destruct (si_swapinfo_other (si_meminfo (mk_sysinfo (s64 (tv_sec (boottime x) +
      (if nz (tv_nsec (boottime x)) then 1 else 0))) (avenrun x) 0 0 0 0 0 0
      (u16 (nr_threads x)) 0 0 0))) as (-> & -> & ->).
    apply si_meminfo_other. }
  split; [|split].
  - destruct (Z.ltb_spec ((si_totalram i + si_totalswap i) * 2 ^ k) (2 ^ 64)).
    + by rewrite decide_True.
    + by rewrite decide_False by lia.
  - intros f Hf Hb. eapply do_sysinfo_field; try done.
    rewrite do_sysinfo_run by done. by rewrite Hu, Z.log2_pow2.
  - by destruct (_ <? _).
Qed.

(** The 32-bit call always returns when the unit is a power of two of at
    most a page, copies one 64-byte structure, and below 16 TiB each of its
    counters is accurate to within one page: it never overstates, and the
    scaling down loses less than [PAGE_SIZE] bytes. *)
Theorem compat_sysinfo_accurate {M} `{UserAccess M} x k info (m : M) :
  length (avenrun x) = 3%nat → 0 ≤ k ≤ 12 → si_mem_unit (sysinfo_filled x) = 2 ^ k →
  (∀ f, f ∈ mem_fields → bounded_field (sysinfo_filled x) f) →
  ∃ i, let c := copy_to_user m info (compat_sysinfo_bytes (compat_of_sysinfo i)) in
    sys_compat_sysinfo x info m = Some (if nz c.1 then - EFAULT else 0, c.2) ∧
    length (compat_sysinfo_bytes (compat_of_sysinfo i)) = 64%nat ∧
    ∀ f, f ∈ mem_fields → let bytes := f (sysinfo_filled x) * 2 ^ k in
      bytes < 2 ^ 44 →
      u32 (f i) * si_mem_unit i ≤ bytes < u32 (f i) * si_mem_unit i + PAGE_SIZE.
Proof.
  intros Hl Hk Hu Hall.
  destruct (do_sysinfo x) as [j|] eqn:Hj; [|by rewrite do_sysinfo_run in Hj by done].
  assert (Hunit : ∃ kj, 0 ≤ kj ≤ 12 ∧ si_mem_unit j = 2 ^ kj).
  { rewrite do_sysinfo_run in Hj by done. injection Hj as <-.
    destruct (_ <? _); [by exists 0 | by exists k]. }
  destruct Hunit as (kj & Hkj & Huj).
  destruct (compat_scaled j) as [i|] eqn:Hi.
  2: { unfold compat_scaled in Hi. destruct (_ || _); [|done].
       rewrite Huj, compat_scale_loop_spec in Hi; [done | done | unfold mem_unit_bits; lia]. }
  exists i. intros c. split; [|split].
  - unfold sys_compat_sysinfo. rewrite Hj. unfold mbind, option_bind.
    rewrite Hi. fold c. by destruct c.
  - assert (Hli : length (si_loads i) = 3%nat).
    { transitivity (length (si_loads j)).
      - unfold compat_scaled in Hi. destruct (_ || _); [|by simplify_eq].
        rewrite Huj, compat_scale_loop_spec in Hi by (unfold mem_unit_bits; lia).
        by injection Hi as <-.
      - rewrite do_sysinfo_run in Hj by done. injection Hj as <-.
        destruct (sysinfo_filled_wf x Hl) as (_ & Hll & _). by destruct (_ <? _). }
    destruct (si_loads i) as [|l0 [|l1 [|l2 [|]]]] eqn:Hloads; try done.
    unfold compat_sysinfo_bytes, compat_of_sysinfo. cbn -[le_bytes bytes_of_u32].
    rewrite Hloads. cbn -[le_bytes bytes_of_u32].
    rewrite !length_app. autorewrite with kernel. done.
  - intros f Hf. set (x0 := sysinfo_filled x). intros bytes Hm.
    assert (Hff : ∀ g, g ∈ mem_fields → g j * 2 ^ kj = g x0 * 2 ^ k).
    { intros g Hg. rewrite <-Huj. apply do_sysinfo_field; auto; lia. }
    unfold bytes. rewrite <-(Hff f Hf), <-Huj.
    eapply compat_field; try done; [|by rewrite Hff].
    assert (Hp : 0 < 2 ^ k) by (apply Z.pow_pos_nonneg; lia).
    assert (Hpj : 0 < 2 ^ kj) by (apply Z.pow_pos_nonneg; lia).
    destruct (Hall f Hf) as [H0f Hbf]. fold x0 in H0f, Hbf.
    pose proof (Hff f Hf) as E0.
    pose proof (Hff si_totalram ltac:(unfold mem_fields; repeat constructor)) as E1.
    pose proof (Hff si_totalswap ltac:(unfold mem_fields; repeat constructor)) as E2.
    unfold bounded_field.
    destruct (Z.max_spec (si_totalram x0) (si_totalswap x0)) as [[? Hmx]|[? Hmx]];
      rewrite Hmx in Hbf; nia.
Qed.
End properties.

(** ** Concrete runs *)
Module SysInfoRuns.
(** A machine of [ram] pages of RAM and [swap] pages of swap. *)
Definition set_ram (ram : Z) (i : sysinfo) : sysinfo :=
  mk_sysinfo (si_uptime i) (si_loads i) ram (ram / 2) 0 0 (si_totalswap i) (si_freeswap i)
    (si_procs i) 0 0 4096.
Definition set_swap (swap : Z) (i : sysinfo) : sysinfo :=
  mk_sysinfo (si_uptime i) (si_loads i) (si_totalram i) (si_freeram i) (si_sharedram i)
    (si_bufferram i) swap swap (si_procs i) (si_totalhigh i) (si_freehigh i) (si_mem_unit i).

Definition machine (ram swap : Z) (Hr : in_u64 ram) (Hs : in_u64 swap) : MemInfo.
Proof.
  refine {| si_meminfo := set_ram ram; si_swapinfo := set_swap swap |};
    unfold sysinfo_wf, set_ram, set_swap; simpl; try done.
  - intros i (? & ? & ? & ? & ? & ? & ? & ? & ? & ? & ? & ?).
    repeat split; try done; wrap.
  - intros i (? & ? & ? & ? & ? & ? & ? & ? & ? & ? & ? & ?).
    repeat split; try done; wrap.
Defined.

Definition x0 : sys_inputs := mk_inputs (mk_timespec 100 5) [1; 2; 3] 70000.
Definition small : MemInfo.
Proof. apply (machine 2097152 1024); by compute. Defined.

Lemma do_sysinfo_exact_witness :
  ∃ i', @do_sysinfo small x0 = Some i' ∧ si_mem_unit i' = 1 ∧ si_procs i' = 4464.
Proof.
  destruct (@do_sysinfo_exact small x0 12) as (i' & Hi & Hu & _ & _ & _ & Hp);
    [done | done | done |].
  exists i'. split; [exact Hi|]. rewrite Hu, Hp. split; vm_compute; reflexivity.
Defined.

Lemma compat_sysinfo_accurate_witness :
  ∃ i, ∀ f, f ∈ mem_fields → let bytes := f (@sysinfo_filled small x0) * 2 ^ 12 in
      bytes < 2 ^ 44 →
      u32 (f i) * si_mem_unit i ≤ bytes < u32 (f i) * si_mem_unit i + PAGE_SIZE.
Proof.
  destruct (@compat_sysinfo_accurate small _ paged_user x0 12 4096 (zero_page 4096 64))
    as (i & _ & _ & Hf); [done | done | done | |].
  - intros f Hf. unfold mem_fields in Hf. rewrite !elem_of_cons, elem_of_nil in Hf.
    destruct_or! Hf; subst f; unfold bounded_field; apply (bool_decide_unpack _); by vm_compute.
  - exists i. exact Hf.
Defined.

Example compat_run :
  (r ← @sys_compat_sysinfo _ paged_user small x0 4096 (zero_page 4096 64);
   mret (r.1, uread_u32 r.2 4112, uread_u32 r.2 4148)) = Some (0, Some 2097152, Some 4096).
Proof. vm_compute. reflexivity. Qed.
End SysInfoRuns.
