(* ===== verification/SeqFile.v ===== *)
(** * SeqFile: [seq_file] output and the printf conversions it is given

    A [seq_file] is the text written to it so far.  The conversions are those
    the modules of [modules/project1] use: [%s], [%-ns] (pad on the right,
    never truncate), [%d], [%lu]/[%llu] and [%nlu] (pad on the left).  The last
    part reads a line back, which is what a program that parses the /proc
    files does. *)

From S2P Require Import Prelude.
From Stdlib Require Import Ascii.

Definition seq_file : Type := string.

Definition nl : string := String "010" EmptyString.

Fixpoint spaces (n : nat) : string :=
  match n with O => "" | S n => String " " (spaces n) end.
Definition pad_right (w : nat) (s : string) : string :=
  s +:+ spaces (w - String.length s).
Definition pad_left (w : nat) (s : string) : string :=
  spaces (w - String.length s) +:+ s.

(** [%lu] and [%llu] of a 64-bit value, [%d] of an int. *)
Definition fmt_lu (v : Z) : string := pretty (Z.to_N (u64 v)).
Definition fmt_d (v : Z) : string := pretty (s32 v).

Definition seq_puts (s : string) (m : seq_file) : seq_file := m +:+ s.

(** ** Reading a line back *)

(** Value of a decimal digit. *)
Definition digit_value (c : ascii) : option Z :=
  let n := Z.of_nat (nat_of_ascii c) in
  if (48 <=? n) && (n <=? 57) then Some (n - 48) else None.

(** The number at the front of a text: its digits up to the first other
    character. *)
Fixpoint scan_number_from (acc : Z) (s : string) : Z :=
  match s with
  | EmptyString => acc
  | String c s =>
      match digit_value c with
      | Some d => scan_number_from (10 * acc + d) s
      | None => acc
      end
  end.

Fixpoint skip_spaces (s : string) : string :=
  match s with
  | String " " s' => skip_spaces s'
  | _ => s
  end.
Definition scan_number (s : string) : Z := scan_number_from 0 (skip_spaces s).

(** The label before the first colon and the number after it. *)
Fixpoint scan_label (s : string) : string * string :=
  match s with
  | EmptyString => (EmptyString, EmptyString)
  | String ":" s => (EmptyString, s)
  | String c s => let '(l, r) := scan_label s in (String c l, r)
  end.
Definition scan_line (s : string) : string * Z :=
  let '(l, r) := scan_label s in (l, scan_number r).

(** A text that ends the number before it. *)
Definition stops_number (s : string) : Prop :=
  match s with EmptyString => True | String c _ => digit_value c = None end.

Fixpoint no_colon (s : string) : bool :=
  match s with
  | EmptyString => true
  | String c s => negb (Ascii.eqb c ":") && no_colon s
  end.

(** ** Lemmas *)
Lemma digit_value_pretty (x : N) : (x < 10)%N → digit_value (pretty_N_char x) = Some (Z.of_N x).
Proof.
  intros Hx.
  assert (Hall : Forall (λ n, digit_value (pretty_N_char n) = Some (Z.of_N n))
    [0; 1; 2; 3; 4; 5; 6; 7; 8; 9]%N) by (repeat constructor).
  rewrite Forall_forall in Hall. apply Hall.
  assert (x = 0 ∨ x = 1 ∨ x = 2 ∨ x = 3 ∨ x = 4 ∨ x = 5 ∨ x = 6 ∨ x = 7 ∨ x = 8 ∨ x = 9)%N
    as Hcases by lia.
  destruct_or! Hcases; subst x; repeat constructor.
Qed.

(** The digits the printer lays down are read back as the number. *)
Lemma scan_pretty_go (x : N) (s : string) (acc : Z) :
  ∃ k, 0 < k ∧ scan_number_from acc (pretty_N_go x s) = scan_number_from (k * acc + Z.of_N x) s.
Proof.
  revert s acc. induction (N.lt_wf_0 x) as [x _ IH]. intros s acc.
  destruct (decide (x = 0)%N) as [->|Hx].
  { exists 1. rewrite pretty_N_go_0. split; [done|]. f_equal. lia. }
  rewrite pretty_N_go_step by lia.
  destruct (IH (x / 10)%N ltac:(apply N.div_lt; lia) (String (pretty_N_char (x mod 10)) s) acc)
    as (k & Hk & Hs).
  exists (10 * k). split; [lia|]. rewrite Hs. simpl.
  rewrite digit_value_pretty by (apply N.mod_lt; lia). f_equal.
  pose proof (N.div_mod x 10 ltac:(lia)) as Hd. lia.
Qed.

Lemma scan_number_from_stop acc s : stops_number s → scan_number_from acc s = acc.
Proof. destruct s as [|c s]; [done|]. simpl. by intros ->. Qed.

Lemma scan_pretty (x : N) (s : string) :
  stops_number s → scan_number_from 0 (pretty x +:+ s) = Z.of_N x.
Proof.
  intros Hs. unfold pretty, pretty_N. case_decide as Hx.
  { subst. simpl. by apply scan_number_from_stop. }
  assert (Happ : ∀ y t, pretty_N_go y t +:+ s = pretty_N_go y (t +:+ s)).
  { intros y. induction (N.lt_wf_0 y) as [y _ IH]. intros t.
    destruct (decide (y = 0)%N) as [->|Hy]; [by rewrite !pretty_N_go_0|].
    rewrite (pretty_N_go_step y t), (pretty_N_go_step y (t +:+ s)) by lia.
    by rewrite IH by (apply N.div_lt; lia). }
  rewrite Happ. destruct (scan_pretty_go x ("" +:+ s) 0) as (k & _ & ->).
  simpl. rewrite scan_number_from_stop by done. lia.
Qed.

Lemma string_app_assoc (a b c : string) : (a +:+ b) +:+ c = a +:+ (b +:+ c).
Proof. induction a as [|x a IH]; [done|]. exact (f_equal (String x) IH). Qed.
Lemma string_app_nil_r (a : string) : a +:+ "" = a.
Proof. induction a as [|x a IH]; [done|]. exact (f_equal (String x) IH). Qed.
Lemma no_colon_app a b : no_colon (a +:+ b) = no_colon a && no_colon b.
Proof. induction a as [|c a IH]; simpl; [done|]. by rewrite IH, andb_assoc. Qed.
Lemma no_colon_spaces n : no_colon (spaces n) = true.
Proof. induction n; [done|]. simpl. done. Qed.

Lemma scan_label_app l r : no_colon l = true → scan_label (l +:+ String ":" r) = (l, r).
Proof.
  induction l as [|c l IH]; [done|]. intros Hc. simpl in Hc. apply andb_true_iff in Hc as [Hc Hl].
  specialize (IH Hl). simpl.
  destruct c as [[] [] [] [] [] [] [] []]; try discriminate Hc; simpl; by rewrite IH.
Qed.

Lemma skip_spaces_app n s : skip_spaces (spaces n +:+ s) = skip_spaces s.
Proof. by induction n. Qed.

(** A printed number does not start with a space. *)
Lemma skip_spaces_digit c s :
  is_Some (digit_value c) → skip_spaces (String c s) = String c s.
Proof. intros [d Hd]. destruct c as [[] [] [] [] [] [] [] []]; done. Qed.

Lemma pretty_go_head (x : N) (s : string) c s' :
  s = String c s' → is_Some (digit_value c) →
  ∃ c1 s1, pretty_N_go x s = String c1 s1 ∧ is_Some (digit_value c1).
Proof.
  revert s c s'. induction (N.lt_wf_0 x) as [x _ IH]. intros s c s' -> Hc.
  destruct (decide (x = 0)%N) as [->|Hx].
  { rewrite pretty_N_go_0. by eexists _, _. }
  rewrite pretty_N_go_step by lia. eapply IH; [by apply N.div_lt; lia | done |].
  rewrite digit_value_pretty by (apply N.mod_lt; lia). by eexists.
Qed.
Lemma pretty_head (x : N) : ∃ c s, pretty x = String c s ∧ is_Some (digit_value c).
Proof.
  unfold pretty, pretty_N. case_decide as Hx; [by eexists _, _|].
  rewrite pretty_N_go_step by lia. eapply pretty_go_head; [done|].
  rewrite digit_value_pretty by (apply N.mod_lt; lia). by eexists.
Qed.

(** A [label : number] line, whatever the two paddings, is read back. *)
Lemma scan_line_fmt wl wn label v rest :
  no_colon label = true → stops_number rest →
  scan_line (pad_right wl label +:+ String ":" (String " " (pad_left wn (fmt_lu v) +:+ rest))) =
  (pad_right wl label, u64 v).
Proof.
  intros Hl Hr. unfold scan_line. rewrite scan_label_app.
  2: { unfold pad_right. by rewrite no_colon_app, Hl, no_colon_spaces. }
  f_equal. unfold scan_number. simpl. unfold pad_left.
  rewrite string_app_assoc, skip_spaces_app. unfold fmt_lu.
  destruct (pretty_head (Z.to_N (u64 v))) as (c & s & Hp & Hc). rewrite Hp.
  change (String c s +:+ rest) with (String c (s +:+ rest)).
  rewrite skip_spaces_digit by done.
  change (String c (s +:+ rest)) with (String c s +:+ rest). rewrite <-Hp.
  rewrite scan_pretty by done. rewrite Z2N.id; [done|]. apply u64_range.
Qed.
