(* ===== verification/Project1.v ===== *)
(** * Project1: memory snapshots, I/O counters and the /proc statistics modules

    The two system calls of [kernel/usac/project1] and the three modules of
    [modules/project1].  [si_meminfo] is the class [MemInfo] of SysInfo; the
    node counters, the task table, the CPU counters and the file system queries
    are arguments.  A show function maps the text written so far to the text
    after it ([seq_file]). *)

From S2P Require Import Prelude UserMem KernelObj Tamalloc SysInfo SeqFile.

(** ** [202000173_capture_memory_snapshot.c] *)
Record memory_snapshot := mk_snapshot {
  snap_total_ram : Z;
  snap_free_ram : Z;
  snap_swap_total : Z;
  snap_swap_free : Z;
  snap_cache_ram : Z;
  snap_buffer_ram : Z;
  snap_active_ram : Z;
  snap_inactive_ram : Z;
}.

Definition memory_snapshot_bytes (s : memory_snapshot) : list Z :=
  bytes_of_u64 (snap_total_ram s) ++ bytes_of_u64 (snap_free_ram s) ++
  bytes_of_u64 (snap_swap_total s) ++ bytes_of_u64 (snap_swap_free s) ++
  bytes_of_u64 (snap_cache_ram s) ++ bytes_of_u64 (snap_buffer_ram s) ++
  bytes_of_u64 (snap_active_ram s) ++ bytes_of_u64 (snap_inactive_ram s).

Inductive node_stat_item :=
  | NR_FILE_PAGES | NR_SHMEM | NR_ACTIVE_FILE | NR_ACTIVE_ANON
  | NR_INACTIVE_FILE | NR_INACTIVE_ANON.

Section snapshot.
Context `{MemInfo}.
Context (global_node_page_state : node_stat_item → Z).

(** [stack] is what the local [struct sysinfo i] holds on entry: it is not
    initialised. *)
Definition fill_memory_snapshot (stack : sysinfo) : memory_snapshot :=
  let i := si_meminfo stack in
  let bufferram := si_bufferram i in
  let file_pages := global_node_page_state NR_FILE_PAGES in
  let shmem := global_node_page_state NR_SHMEM in
  let active_file := global_node_page_state NR_ACTIVE_FILE in
  let active_anon := global_node_page_state NR_ACTIVE_ANON in
  let inactive_file := global_node_page_state NR_INACTIVE_FILE in
  let inactive_anon := global_node_page_state NR_INACTIVE_ANON in
  mk_snapshot (si_totalram i) (si_freeram i) (si_totalswap i) (si_freeswap i)
    (u64 (u64 (file_pages - shmem) - bufferram)) bufferram
    (u64 (active_file + active_anon)) (u64 (inactive_file + inactive_anon)).

Definition sys_capture_memory_snapshot {M} `{UserAccess M}
    (stack : sysinfo) (user_snap : Z) (m : M) : Z * M :=
  let snap := fill_memory_snapshot stack in
  let '(rest, m) := copy_to_user m user_snap (memory_snapshot_bytes snap) in
  (if nz rest then - EFAULT else 0, m).

(** ** [202000173_module_capture_memory_snapshot.c] *)
Definition print_memory_line (label : string) (pages : Z) (m : seq_file) : seq_file :=
  let bytes := u64 (pages * PAGE_SIZE) in
  let mb := Z.shiftr bytes 20 in
  let gb := Z.shiftr bytes 30 in
  m +:+ (pad_right 18 label +:+ ": " +:+ pad_left 10 (fmt_lu mb) +:+ " MB (" +:+
         fmt_lu gb +:+ " GB)" +:+ nl).

Definition fill_mem_snapshot (stack : sysinfo) (m : seq_file) : seq_file :=
  let i := si_meminfo stack in
  let cache_ram := u64 (u64 (global_node_page_state NR_FILE_PAGES -
    global_node_page_state NR_SHMEM) - si_bufferram i) in
  let active_ram := u64 (global_node_page_state NR_ACTIVE_FILE +
    global_node_page_state NR_ACTIVE_ANON) in
  let inactive_ram := u64 (global_node_page_state NR_INACTIVE_FILE +
    global_node_page_state NR_INACTIVE_ANON) in
  let m := print_memory_line "Total RAM" (si_totalram i) m in
  let m := print_memory_line "Free RAM" (si_freeram i) m in
  let m := print_memory_line "Cached RAM" cache_ram m in
  let m := print_memory_line "Buffered RAM" (si_bufferram i) m in
  let m := print_memory_line "Active RAM" active_ram m in
  print_memory_line "Inactive RAM" inactive_ram m.

Definition ruler : string := "=========================================".

Definition capture_mem_show (stack : sysinfo) (m : seq_file) : Z * seq_file :=
  let m := seq_puts (ruler +:+ nl) m in
  let m := seq_puts ("          Memory Snapshot Info" +:+ nl) m in
  let m := seq_puts (ruler +:+ nl +:+ nl) m in
  let m := fill_mem_snapshot stack m in
  let m := seq_puts (nl +:+ ruler +:+ nl) m in
  (0, m).
End snapshot.

(** ** [202000173_get_io_throttle.c] *)
Record io_stats_user := mk_io_stats {
  io_rchar : Z;
  io_wchar : Z;
  io_syscr : Z;
  io_syscw : Z;
  io_read_bytes : Z;
  io_write_bytes : Z;
}.

Definition io_stats_bytes (s : io_stats_user) : list Z :=
  bytes_of_u64 (io_rchar s) ++ bytes_of_u64 (io_wchar s) ++
  bytes_of_u64 (io_syscr s) ++ bytes_of_u64 (io_syscw s) ++
  bytes_of_u64 (io_read_bytes s) ++ bytes_of_u64 (io_write_bytes s).

Definition io_stats_of (task : task_struct) : io_stats_user :=
  mk_io_stats (ioac_rchar (ioac task)) (ioac_wchar (ioac task)) (ioac_syscr (ioac task))
    (ioac_syscw (ioac task)) (ioac_read_bytes (ioac task)) (ioac_write_bytes (ioac task)).

Section io_throttle.
Context {M : Type} `{UserAccess M}.
Context (pid_task : Z → option task_struct).

(** [stats] is the object the pointer argument points to, before and after. *)
Definition get_io_stats_for_pid (pid : Z) (stats : io_stats_user)
    : kst (kernel_state M) (Z * io_stats_user) :=
  rcu_read_lock;;
  match pid_task pid with
  | None => rcu_read_unlock;; mret (- ESRCH, stats)
  | Some task =>
      let stats := io_stats_of task in
      rcu_read_unlock;;
      mret (0, stats)
  end.

(** [stack] is the uninitialised [kernel_stats]. *)
Definition sys_get_io_throttle (stack : io_stats_user) (pid user_stats : Z)
    : kst (kernel_state M) Z :=
  r ← get_io_stats_for_pid pid stack;
  let '(ret, kernel_stats) := r in
  if ret <? 0 then mret ret else
  rest ← copy_out user_stats (io_stats_bytes kernel_stats);
  if nz rest then mret (- EFAULT) else mret 0.

(** ** [202000173_module_get_io_throttle.c] *)
Definition print_io_bytes_line (label : string) (bytes_val : Z) (m : seq_file) : seq_file :=
  let mb := Z.shiftr bytes_val 20 in
  let gb := Z.shiftr bytes_val 30 in
  m +:+ (pad_right 12 label +:+ ": " +:+ fmt_lu bytes_val +:+ " bytes (" +:+ fmt_lu mb +:+
         " MB (" +:+ fmt_lu gb +:+ " GB))" +:+ nl).
Definition print_io_count_line (label : string) (count : Z) (m : seq_file) : seq_file :=
  m +:+ (pad_right 12 label +:+ ": " +:+ fmt_lu count +:+ nl).

Definition io_throttle_show (pid : Z) (m : seq_file) : kst (kernel_state M) (Z * seq_file) :=
  let m := seq_puts (ruler +:+ nl) m in
  let m := seq_puts ("          I/O Statistics Monitor" +:+ nl) m in
  let m := seq_puts (ruler +:+ nl +:+ nl) m in
  if pid =? 0 then
    let m := seq_puts ("No se ha especificado un PID. Use insmod con pid=[PID]." +:+ nl) m in
    let m := seq_puts ("Ejemplo: insmod 202000173_module_get_io_throttle.ko pid=0001" +:+ nl) m in
    mret (0, m)
  else
    rcu_read_lock;;
    match pid_task pid with
    | None =>
        rcu_read_unlock;;
        mret (0, m +:+ ("El proceso con PID " +:+ fmt_d pid +:+ " no existe." +:+ nl))
    | Some task =>
        let stats := io_stats_of task in
        rcu_read_unlock;;
        let m := m +:+ ("I/O Stats para PID " +:+ fmt_d pid +:+ ":" +:+ nl +:+ nl) in
        let m := print_io_bytes_line "rchar" (io_rchar stats) m in
        let m := print_io_bytes_line "wchar" (io_wchar stats) m in
        let m := print_io_count_line "syscr" (io_syscr stats) m in
        let m := print_io_count_line "syscw" (io_syscw stats) m in
        let m := print_io_bytes_line "read_bytes" (io_read_bytes stats) m in
        let m := print_io_bytes_line "write_bytes" (io_write_bytes stats) m in
        mret (0, seq_puts (nl +:+ ruler +:+ nl) m)
    end.
End io_throttle.

(** ** [202000173_module_statistics.c] *)
Definition print_size_line (label : string) (kb_val : Z) (m : seq_file) : seq_file :=
  let mb := Z.shiftr kb_val 10 in
  let gb := Z.shiftr mb 10 in
  m +:+ (pad_right 20 label +:+ ": " +:+ pad_left 10 (fmt_lu kb_val) +:+ " KB (" +:+
         fmt_lu mb +:+ " MB (" +:+ fmt_lu gb +:+ " GB))" +:+ nl).
Definition print_cpu_line (label : string) (val : Z) (m : seq_file) : seq_file :=
  m +:+ (pad_right 20 label +:+ ": " +:+ fmt_lu val +:+ nl).

Inductive cpu_usage_stat :=
  | CPUTIME_USER | CPUTIME_NICE | CPUTIME_SYSTEM | CPUTIME_IDLE
  | CPUTIME_IOWAIT | CPUTIME_IRQ | CPUTIME_SOFTIRQ | CPUTIME_STEAL.

(** The kind each element of [cpu_stats] adds up, in the order of the array,
    and its label. *)
Definition cpu_kinds : list cpu_usage_stat :=
  [CPUTIME_USER; CPUTIME_NICE; CPUTIME_SYSTEM; CPUTIME_IDLE;
   CPUTIME_IOWAIT; CPUTIME_IRQ; CPUTIME_SOFTIRQ; CPUTIME_STEAL].
Definition cpu_labels : list string :=
  ["CPU User"; "CPU Nice"; "CPU System"; "CPU Idle";
   "CPU IOWait"; "CPU IRQ"; "CPU SoftIRQ"; "CPU Steal"].

Section statistics.
Context `{MemInfo}.
(** [kcpustat_cpu] of every possible CPU, in the order of the loop. *)
Context (possible_cpus : list (cpu_usage_stat → Z)).

Definition cpu_stats_add (cpu_stats : list Z) (kcs : cpu_usage_stat → Z) : list Z :=
  zip_with (λ acc k, u64 (acc + kcs k)) cpu_stats cpu_kinds.
Definition cpu_stats : list Z :=
  foldl cpu_stats_add (replicate 8 0) possible_cpus.

Definition get_cpu_info (m : seq_file) : seq_file :=
  foldl (λ m '(label, v), print_cpu_line label v m) m (zip cpu_labels cpu_stats).

Definition get_memory_info (stack : sysinfo) (m : seq_file) : seq_file :=
  let i := si_meminfo stack in
  let total_bytes := u64 (si_totalram i * si_mem_unit i) in
  let free_bytes := u64 (si_freeram i * si_mem_unit i) in
  let m := print_size_line "Memory Total" (total_bytes / 1024) m in
  print_size_line "Memory Free" (free_bytes / 1024) m.

(** The path looked up holds a reference ([path_refs]) until [path_put]. *)
Record kstatfs := mk_kstatfs { f_blocks : Z; f_bfree : Z; f_bsize : Z }.
Context (kern_path : string → Z * Z).            (* error, path *)
Context (vfs_statfs : Z → Z * kstatfs).          (* error, stat *)

Definition get_disk_info (partition : string) (m : seq_file)
    : kst (gmap Z Z) (Z * seq_file) :=
  let '(err, path) := kern_path partition in
  if nz err then mret (err, m) else
  kmodify (ref_inc path);;
  let '(err, stat) := vfs_statfs path in
  kmodify (ref_dec path);;
  if nz err then mret (err, m) else
  let total_bytes := u64 (f_blocks stat * f_bsize stat) in
  let free_bytes := u64 (f_bfree stat * f_bsize stat) in
  let m := print_size_line "Disk Total" (total_bytes / 1024) m in
  let m := print_size_line "Disk Free" (free_bytes / 1024) m in
  mret (0, m).

Definition system_stats_show (partition : string) (stack : sysinfo) (m : seq_file)
    : kst (gmap Z Z) (Z * seq_file) :=
  let m := seq_puts (ruler +:+ nl) m in
  let m := seq_puts ("            System Statistics" +:+ nl) m in
  let m := seq_puts (ruler +:+ nl +:+ nl) m in
  let m := seq_puts ("[CPU Usage]" +:+ nl) m in
  let m := get_cpu_info m in
  let m := seq_puts (nl +:+ "[Memory Usage]" +:+ nl) m in
  let m := get_memory_info stack m in
  let m := seq_puts (nl +:+ "[Disk Usage]" +:+ nl) m in
  r ← get_disk_info partition m;
  let '(err, m) := r in
  let m := if nz err then seq_puts ("Error reading disk info." +:+ nl) m else m in
  let m := seq_puts (nl +:+ ruler +:+ nl) m in
  let m := m +:+ ("Partition Monitored: " +:+ partition +:+ nl) in
  mret (0, seq_puts (ruler +:+ nl) m).
End statistics.


(** ** Loading and unloading the modules

    [proc_create] (whether it succeeded) and [remove_proc_entry] work on the
    tree of /proc ([W]); the messages of [pr_info] are not modelled. *)
Section modules.
Context {W : Type} (proc_create : string → W → bool * W) (remove_proc_entry : string → W → W).

Definition capture_mem_init (w : W) : Z * W :=
  (0, (proc_create "202000173_module_capture_memory_snapshot" w).2).
Definition capture_mem_exit (w : W) : W :=
  remove_proc_entry "202000173_module_capture_memory_snapshot" w.
Definition io_throttle_init (w : W) : Z * W := (0, (proc_create "202000173_module_get_io_throttle" w).2).
Definition io_throttle_exit (w : W) : W := remove_proc_entry "202000173_module_get_io_throttle" w.
Definition system_stats_init (w : W) : Z * W := (0, (proc_create "202000173_module_statistics" w).2).
Definition system_stats_exit (w : W) : W := remove_proc_entry "202000173_module_statistics" w.

(** A module whose entry could not be made is loaded all the same. *)
Lemma module_init_ignores_failure w :
  (capture_mem_init w).1 = 0 ∧ (io_throttle_init w).1 = 0 ∧ (system_stats_init w).1 = 0.
Proof. done. Qed.
End modules.

(** ** Lemmas *)

(** Each counter adds up its kind over the CPUs. *)
Lemma cpu_stats_fold cpus accs :
  foldl cpu_stats_add (zip_with (λ a (k : cpu_usage_stat), u64 a) accs cpu_kinds) cpus =
  zip_with (λ a k, u64 (a + sumZ ((λ kcs, kcs k) <$> cpus))) accs cpu_kinds.
Proof.
  revert accs. induction cpus as [|kcs cpus IH]; intros accs; csimpl.
  { apply zip_with_ext; [|done..]. intros a k. by rewrite Z.add_0_r. }
  assert (Hstep : cpu_stats_add (zip_with (λ a (_ : cpu_usage_stat), u64 a) accs cpu_kinds) kcs =
    zip_with (λ a (_ : cpu_usage_stat), u64 a)
      (zip_with (λ a k, a + kcs k) accs cpu_kinds) cpu_kinds).
  { unfold cpu_stats_add, cpu_kinds.
    do 9 (destruct accs as [|? accs]; csimpl; rewrite ?u64_add_l; try done). }
  rewrite Hstep, IH. unfold cpu_kinds.
  do 9 (destruct accs as [|? accs]; csimpl; rewrite ?sumZ_cons, ?Z.add_assoc; try done).
Qed.

Lemma cpu_stats_spec cpus :
  cpu_stats cpus = (λ k, u64 (sumZ ((λ kcs, kcs k) <$> cpus))) <$> cpu_kinds.
Proof. exact (cpu_stats_fold cpus (replicate 8 0)). Qed.

Definition snapshot_words (s : memory_snapshot) : list Z :=
  [snap_total_ram s; snap_free_ram s; snap_swap_total s; snap_swap_free s;
   snap_cache_ram s; snap_buffer_ram s; snap_active_ram s; snap_inactive_ram s].
Lemma snapshot_bytes_words s : memory_snapshot_bytes s = snapshot_words s ≫= bytes_of_u64.
Proof. unfold snapshot_words. by rewrite !bind_cons, app_nil_r. Qed.

Definition io_words (s : io_stats_user) : list Z :=
  [io_rchar s; io_wchar s; io_syscr s; io_syscw s; io_read_bytes s; io_write_bytes s].
Lemma io_bytes_words s : io_stats_bytes s = io_words s ≫= bytes_of_u64.
Proof. unfold io_words. by rewrite !bind_cons, app_nil_r. Qed.

(** Subtracting twice modulo the word. *)
Lemma cache_ram_cases a b c :
  in_u64 a → in_u64 b → in_u64 c →
  (b + c ≤ a → u64 (u64 (a - b) - c) = a - b - c) ∧
  (a < b + c → b + c ≤ a + 2 ^ 64 → u64 (u64 (a - b) - c) = 2 ^ 64 - (b + c - a)).
Proof. intros Ha Hb Hc. split; intros; wrap. Qed.

(** The print functions append to the text; [cpu_text] is what the CPU section
    should say. *)
Lemma print_size_line_text label kb m :
  print_size_line label kb m = m +:+ print_size_line label kb "".
Proof. done. Qed.
Lemma get_memory_info_text `{MemInfo} stack m :
  get_memory_info stack m = m +:+ get_memory_info stack "".
Proof.
  unfold get_memory_info. rewrite print_size_line_text, (print_size_line_text _ _ m).
  rewrite (print_size_line_text _ _ (print_size_line _ _ "")). by rewrite string_app_assoc.
Qed.

Definition cpu_text (cpus : list (cpu_usage_stat → Z)) : string :=
  foldr (λ '(l, k) rest, pad_right 20 l +:+ ": " +:+
    fmt_lu (sumZ ((λ kcs, kcs k) <$> cpus)) +:+ nl +:+ rest) "" (zip cpu_labels cpu_kinds).

Lemma fmt_lu_u64 v : fmt_lu (u64 v) = fmt_lu v.
Proof. unfold fmt_lu. by rewrite u64_idemp. Qed.

Lemma cpu_lines_text (cpus : list (cpu_usage_stat → Z)) m labels (kinds : list cpu_usage_stat) :
  foldl (λ m '(label, v), print_cpu_line label v m) m
    (zip labels ((λ k, u64 (sumZ ((λ kcs, kcs k) <$> cpus))) <$> kinds)) =
  m +:+ foldr (λ '(l, k) rest, pad_right 20 l +:+ ": " +:+
    fmt_lu (sumZ ((λ kcs, kcs k) <$> cpus)) +:+ nl +:+ rest) "" (zip labels kinds).
Proof.
  revert m kinds. induction labels as [|l labels IH]; intros m kinds.
  { simpl. by rewrite string_app_nil_r. }
  destruct kinds as [|k kinds]; csimpl; [by rewrite string_app_nil_r|].
  rewrite IH. unfold print_cpu_line. rewrite fmt_lu_u64. by rewrite !string_app_assoc.
Qed.

Lemma get_cpu_info_text cpus m : get_cpu_info cpus m = m +:+ cpu_text cpus.
Proof. unfold get_cpu_info. rewrite cpu_stats_spec. apply cpu_lines_text. Qed.

(** ** Properties *)
Section properties.
Context `{MemInfo}.
Context {M : Type} `{UserAccess M}.

(** C31. A successful snapshot, as the user program reads it back.  RAM and
    buffers are the memory manager's; the cache size is the exact difference
    when shared memory and buffers fit in the file pages and otherwise wraps
    to [2^64] minus the deficit; the two swap words are whatever the kernel
    stack held, because [si_meminfo] does not fill them in and [si_swapinfo]
    is never called. *)
Theorem snapshot_contents (pages : node_stat_item → Z) stack user_snap (m : M) :
  (∀ k, in_u64 (pages k)) → sysinfo_wf stack → user_wr m user_snap 64 = true →
  let i := si_meminfo stack in
  let cached := pages NR_FILE_PAGES - (pages NR_SHMEM + si_bufferram i) in
  ∃ m', sys_capture_memory_snapshot pages stack user_snap m = (0, m') ∧
    uread_u64 m' user_snap = Some (si_totalram i) ∧
    uread_u64 m' (user_snap + 8) = Some (si_freeram i) ∧
    uread_u64 m' (user_snap + 16) = Some (si_totalswap stack) ∧
    uread_u64 m' (user_snap + 24) = Some (si_freeswap stack) ∧
    (0 ≤ cached → uread_u64 m' (user_snap + 32) = Some cached) ∧
    (- 2 ^ 64 ≤ cached < 0 → uread_u64 m' (user_snap + 32) = Some (2 ^ 64 + cached)) ∧
    uread_u64 m' (user_snap + 40) = Some (si_bufferram i) ∧
    uread_u64 m' (user_snap + 48) = Some (u64 (pages NR_ACTIVE_FILE + pages NR_ACTIVE_ANON)) ∧
    uread_u64 m' (user_snap + 56) = Some (u64 (pages NR_INACTIVE_FILE + pages NR_INACTIVE_ANON)).
Proof.
  intros Hp Hwf Hw i cached. unfold sys_capture_memory_snapshot.
  set (s := fill_memory_snapshot pages stack).
  destruct (si_meminfo_wf _ Hwf) as (_ & _ & Ht & Hf & _ & Hb & _).
  destruct Hwf as (_ & _ & _ & _ & _ & _ & Hs1 & Hs2 & _).
  destruct (si_meminfo_swap stack) as [Esw1 Esw2].
  rewrite snapshot_bytes_words.
  assert (Hc : (copy_to_user m user_snap (snapshot_words s ≫= bytes_of_u64)).1 = 0).
  { apply copy_to_user_ok. by rewrite words_length. }
  pose proof (λ i z, copy_to_user_words m user_snap (snapshot_words s) i z Hc) as Hr.
  destruct (copy_to_user m user_snap _) as [rest m']. simpl in Hc, Hr. subst rest.
  exists m'. split; [done|].
  destruct (cache_ram_cases (pages NR_FILE_PAGES) (pages NR_SHMEM) (si_bufferram i)
    ltac:(apply Hp) ltac:(apply Hp) Hb) as [Hc1 Hc2].
  pose proof (Hr 0%nat _ eq_refl) as R0. pose proof (Hr 1%nat _ eq_refl) as R1.
  pose proof (Hr 2%nat _ eq_refl) as R2. pose proof (Hr 3%nat _ eq_refl) as R3.
  pose proof (Hr 4%nat _ eq_refl) as R4.
  pose proof (Hr 5%nat _ eq_refl) as R5. pose proof (Hr 6%nat _ eq_refl) as R6. pose proof (Hr 7%nat _ eq_refl) as R7.
  change (8 * Z.of_nat 0) with 0 in R0. change (8 * Z.of_nat 1) with 8 in R1.
  change (8 * Z.of_nat 2) with 16 in R2. change (8 * Z.of_nat 3) with 24 in R3.
  change (8 * Z.of_nat 4) with 32 in R4. change (8 * Z.of_nat 6) with 48 in R6.
  change (8 * Z.of_nat 5) with 40 in R5. change (8 * Z.of_nat 7) with 56 in R7. rewrite Z.add_0_r in R0.
  cbn [s fill_memory_snapshot snap_total_ram snap_free_ram snap_swap_total snap_swap_free
    snap_cache_ram snap_buffer_ram snap_active_ram snap_inactive_ram] in *. rewrite Esw1 in R2. rewrite Esw2 in R3.
  rewrite u64_idemp in R4, R6, R7. rewrite u64_small in R0, R1, R2, R3, R5 by done.
  repeat split; try done.
  - intros Hpos. rewrite R4. f_equal. unfold cached, i in *. rewrite Hc1; lia.
  - intros Hneg. rewrite R4. f_equal. unfold cached, i in *. rewrite Hc2; lia.
Qed.

(** The I/O counters call on every path. *)
Lemma io_throttle_run pid_task stack pid user_stats (s : kernel_state M) :
  ∃ r s', sys_get_io_throttle pid_task stack pid user_stats s = Some (r, s') ∧
    balanced s s' ∧
    match pid_task pid with
    | None => r = - ESRCH ∧ kuser s' = kuser s
    | Some task =>
        if user_wr (kuser s) user_stats 48 then
          r = 0 ∧ ∀ i v, io_words (io_stats_of task) !! i = Some v →
            uread_u64 (kuser s') (user_stats + 8 * Z.of_nat i) = Some (u64 v)
        else r = - EFAULT
    end.
Proof.
  unfold sys_get_io_throttle, get_io_stats_for_pid, rcu_read_lock, rcu_read_unlock.
  assert (Hd : ∀ (m : gmap Z Z) (u : M), mk_kernel (rcu_depth s + 1 - 1) m u =
    mk_kernel (rcu_depth s) m u) by (intros; by rewrite Z.add_simpl_r).
  rewrite kbind_assoc. krun.
  destruct (pid_task pid) as [task|]; rewrite kbind_assoc; krun; simpl; rewrite Hd.
  2: { eexists _, _. split; [reflexivity|]. done. }
  krun. change (0 <? 0) with false. cbv iota.
  unfold copy_out at 1. erewrite kbind_some by reflexivity. cbn [kuser rcu_depth mm_users].
  rewrite io_bytes_words.
  pose proof (copy_to_user_ok (kuser s) user_stats (io_words (io_stats_of task) ≫= bytes_of_u64))
    as Hok. rewrite words_length in Hok.
  pose proof (λ i z, copy_to_user_words (kuser s) user_stats (io_words (io_stats_of task)) i z)
    as Hr.
  destruct (copy_to_user (kuser s) user_stats _) as [rest u]. cbn [fst snd] in *.
  change (Z.of_nat (8 * length (io_words (io_stats_of task)))) with 48 in Hok.
  unfold nz. destruct (Z.eqb_spec rest 0) as [Hrest|Hrest];
    eexists _, _; (split; [reflexivity|]); (split; [done|]).
  - rewrite (proj1 Hok Hrest). split; [done|]. intros i v Hi. by apply Hr.
  - destruct (user_wr _ _ _); [|done]. destruct Hrest. by apply Hok.
Qed.

(** The I/O counters call on every path: an unknown pid is [-ESRCH] and
    writes nothing; otherwise the six counters of the task are copied and the
    user reads them back, or [-EFAULT]; the uninitialised local never reaches
    user space, RCU is left and no reference moves. *)
Theorem io_throttle_spec pid_task stack pid user_stats (s : kernel_state M) :
  ∃ r s', sys_get_io_throttle pid_task stack pid user_stats s = Some (r, s') ∧
    balanced s s' ∧
    match pid_task pid with
    | None => r = - ESRCH ∧ kuser s' = kuser s
    | Some task =>
        if user_wr (kuser s) user_stats 48 then
          r = 0 ∧ ∀ i v, io_words (io_stats_of task) !! i = Some v →
            uread_u64 (kuser s') (user_stats + 8 * Z.of_nat i) = Some (u64 v)
        else r = - EFAULT
    end.
Proof. apply io_throttle_run. Qed.

(** [/proc/202000173_module_statistics]: reading it always succeeds, each
    CPU line carries the sum of its kind over the possible CPUs modulo [2^64],
    a failure of the path lookup or of [statfs] only replaces the two disk
    lines by an error line, and the path reference is dropped on every
    branch. *)
Theorem system_stats_show_spec cpus kern_path vfs_statfs partition stack text (refs : gmap Z Z) :
  let '(e1, path) := kern_path partition in
  let '(e2, stat) := vfs_statfs path in
  let kb x := u64 (x * f_bsize stat) / 1024 in
  let disk :=
    if decide (e1 = 0 ∧ e2 = 0)
    then print_size_line "Disk Free" (kb (f_bfree stat))
           (print_size_line "Disk Total" (kb (f_blocks stat)) "")
    else "Error reading disk info." +:+ nl in
  ∃ refs', system_stats_show cpus kern_path vfs_statfs partition stack text refs =
      Some ((0, text +:+ (ruler +:+ nl +:+ ("            System Statistics" +:+ nl) +:+
        (ruler +:+ nl +:+ nl) +:+ ("[CPU Usage]" +:+ nl) +:+ cpu_text cpus +:+
        (nl +:+ "[Memory Usage]" +:+ nl) +:+ get_memory_info stack "" +:+
        (nl +:+ "[Disk Usage]" +:+ nl) +:+ disk +:+ (nl +:+ ruler +:+ nl) +:+
        ("Partition Monitored: " +:+ partition +:+ nl) +:+ (ruler +:+ nl))), refs') ∧
    ∀ a, ref_get refs' a = ref_get refs a.
Proof.
  destruct (kern_path partition) as [e1 path] eqn:Hk.
  destruct (vfs_statfs path) as [e2 stat] eqn:Hst. intros kb disk.
  unfold system_stats_show, get_disk_info. rewrite Hk. unfold nz.
  destruct (Z.eqb_spec e1 0) as [He1|He1]; cbn [negb].
  2: { krun. exists refs. split; [|done]. unfold disk. rewrite decide_False by tauto.
       cbn [negb]. rewrite (proj2 (Z.eqb_neq _ _) He1). cbn [negb]. unfold seq_puts.
       rewrite get_cpu_info_text, get_memory_info_text. by rewrite !string_app_assoc. }
  rewrite kbind_assoc, Hst. krun. rewrite kbind_assoc. krun.
  exists (ref_dec path (ref_inc path refs)). split; [|apply ref_dec_inc].
  destruct (Z.eqb_spec e2 0) as [He2|He2]; cbn [negb]; krun; unfold disk.
  - rewrite decide_True by done. cbn [Z.eqb negb]. unfold seq_puts.
    rewrite get_cpu_info_text, get_memory_info_text. unfold print_size_line.
    by rewrite !string_app_assoc.
  - rewrite decide_False by tauto. rewrite (proj2 (Z.eqb_neq _ _) He2). cbn [negb].
    unfold seq_puts. rewrite get_cpu_info_text, get_memory_info_text.
    by rewrite !string_app_assoc.
Qed.
End properties.

(** A program that reads one line of the /proc files, takes the text before
    the first colon as the label and the number after it as the value gets
    back exactly the value printed, for every 64-bit value and every label
    without a colon: kilobytes and CPU times, whole megabytes of pages, and
    I/O bytes and counts. *)
Theorem proc_lines_read_back label v :
  no_colon label = true →
  scan_line (print_cpu_line label v "") = (pad_right 20 label, u64 v) ∧
  scan_line (print_size_line label v "") = (pad_right 20 label, u64 v) ∧
  scan_line (print_memory_line label v "") =
    (pad_right 18 label, u64 (v * PAGE_SIZE) / 2 ^ 20) ∧
  scan_line (print_io_bytes_line label v "") = (pad_right 12 label, u64 v) ∧
  scan_line (print_io_count_line label v "") = (pad_right 12 label, u64 v).
Proof.
  intros Hl.
  assert (Hplain : ∀ w x rest, stops_number rest →
    scan_line (pad_right w label +:+ ": " +:+ fmt_lu x +:+ rest) = (pad_right w label, u64 x)).
  { intros w x rest. apply (scan_line_fmt w 0 label x rest Hl). }
  assert (Hpad : ∀ w x rest, stops_number rest →
    scan_line (pad_right w label +:+ ": " +:+ pad_left 10 (fmt_lu x) +:+ rest) =
      (pad_right w label, u64 x)).
  { intros w x rest. apply (scan_line_fmt w 10 label x rest Hl). }
  split; [by apply Hplain|]. split; [by apply Hpad|]. split; [|split; by apply Hplain].
  unfold print_memory_line. etransitivity; [by apply Hpad|]. f_equal.
  rewrite shiftr_div by done. apply u64_small.
  pose proof (u64_range (v * PAGE_SIZE)) as [? ?]. split; [by apply Z.div_pos|].
  apply Z.div_lt_upper_bound; lia.
Qed.

(** ** Concrete runs *)
Module Project1Runs.
Definition pages (k : node_stat_item) : Z :=
  match k with NR_FILE_PAGES => 100 | NR_SHMEM => 90 | _ => 7 end.
Definition stack : sysinfo := mk_sysinfo 1 [1; 1; 1] 1 1 1 1 3735928559 48879 1 1 1 1.
Definition mem0 : gmap Z Z := zero_page 4096 128.

Lemma snapshot_contents_witness :
  ∃ m', @sys_capture_memory_snapshot SysInfoRuns.small pages _ paged_user stack 4096 mem0 =
      (0, m') ∧
    uread_u64 m' 4112 = Some 3735928559 ∧ uread_u64 m' 4128 = Some 10.
Proof.
  destruct (@snapshot_contents SysInfoRuns.small _ paged_user pages stack 4096 mem0)
    as (m' & Hr & _ & _ & Hs & _ & Hc & _).
  - intros []; split; done.
  - repeat split; done.
  - vm_compute. reflexivity.
  - exists m'. split; [exact Hr|]. split; [exact Hs|]. apply Hc. vm_compute. discriminate.
Defined.

Lemma proc_lines_read_back_witness :
  scan_line (print_size_line "Disk Free" 123456 "") = ("Disk Free           ", 123456).
Proof. exact (proj1 (proj2 (proc_lines_read_back "Disk Free" 123456 eq_refl))). Defined.

Definition task7 : task_struct := mk_task 5000 None 0 0 (mk_ioac 10 20 3 4 50 60).
Definition find7 (pid : Z) : option task_struct := if pid =? 7 then Some task7 else None.

Example io_show_unknown :
  (r ← io_throttle_show find7 9 "" (mk_kernel 0 ∅ mem0); mret (r.1.1)) = Some 0.
Proof. vm_compute. reflexivity. Qed.
Example io_line : print_io_bytes_line "rchar" 3145728 "" =
  "rchar       : 3145728 bytes (3 MB (0 GB))" +:+ nl.
Proof. vm_compute. reflexivity. Qed.
Example mem_line : print_memory_line "Total RAM" 2621440 "" =
  "Total RAM         :      10240 MB (10 GB)" +:+ nl.
Proof. vm_compute. reflexivity. Qed.
End Project1Runs.
