(* ===== verification/Terminal.v ===== *)
(** * Terminal: what a reader sees of printed text

    The programs print tables with colours and bars.  [read_row] takes a line
    the way a person reads it: without the colour codes, cut at spaces and
    bars, each piece as a decimal integer.  The specifications of the programs
    are about these integers, not about the format strings. *)

From S2P Require Import Prelude SeqFile.
From Stdlib Require Import Ascii.

Definition ESC : ascii := "027".

(** A text without its colour codes: from an escape to the next [m]. *)
Fixpoint no_colours (skip : bool) (s : string) : string :=
  match s with
  | EmptyString => EmptyString
  | String c s =>
      if skip then no_colours (negb (Ascii.eqb c "m")) s
      else if Ascii.eqb c ESC then no_colours true s
      else String c (no_colours false s)
  end.

(** Spaces, line ends and the three bytes of the vertical bar. *)
Definition separator (c : ascii) : bool :=
  existsb (Ascii.eqb c) [" "; "010"; "226"; "148"; "130"]%char.

Definition flush (cur : string) : list string :=
  match cur with EmptyString => [] | _ => [cur] end.
Fixpoint words (cur s : string) : list string :=
  match s with
  | EmptyString => flush cur
  | String c s => if separator c then flush cur ++ words "" s else words (cur +:+ String c "") s
  end.

(** The value of a text that is all digits. *)
Fixpoint decimal_from (acc : Z) (s : string) : option Z :=
  match s with
  | EmptyString => Some acc
  | String c s =>
      let n := Z.of_nat (nat_of_ascii c) in
      if decide (48 <= n <= 57) then decimal_from (10 * acc + (n - 48)) s else None
  end.
Definition read_int (s : string) : option Z :=
  match s with
  | EmptyString => None
  | String c s' => if Ascii.eqb c "-" then Z.opp <$> decimal_from 0 s' else decimal_from 0 s
  end.

Definition read_row (line : string) : option (list Z) :=
  match words "" (no_colours false line) with
  | [] => None
  | ws => mapM read_int ws
  end.

(** ** Lemmas *)

Lemma digit_value_char c n :
  digit_value c = Some n ↔ 48 <= Z.of_nat (nat_of_ascii c) <= 57 ∧ n = Z.of_nat (nat_of_ascii c) - 48.
Proof.
  unfold digit_value. set (k := Z.of_nat (nat_of_ascii c)).
  destruct (Z.leb_spec 48 k), (Z.leb_spec k 57); cbn [andb]; split; try (intros [= <-]; lia);
    try (intros [? ->]; try lia; done).
Qed.

Lemma decimal_from_digit acc c s d :
  digit_value c = Some d → decimal_from acc (String c s) = decimal_from (10 * acc + d) s.
Proof. intros [Hc ->]%digit_value_char. simpl. by rewrite decide_True. Qed.

(** All digits, and their value as C's conversions scan it. *)
Lemma decimal_scan acc s v : decimal_from acc s = Some v → scan_number_from acc s = v.
Proof.
  revert acc. induction s as [|c s IH]; intros acc; [by intros [= ->]|].
  cbn [decimal_from scan_number_from]. case_decide as Hc; [|done]. intros Hv.
  destruct (digit_value c) as [d|] eqn:Hd.
  - apply digit_value_char in Hd as [_ ->]. by apply IH.
  - assert (digit_value c = Some (Z.of_nat (nat_of_ascii c) - 48)) by (by apply digit_value_char). congruence.
Qed.

(** Printed integers are read back. *)
Definition plain (s : string) : bool :=
  forallb (λ c, negb (separator c) && negb (Ascii.eqb c ESC)) (String.list_ascii_of_string s).

Lemma digit_plain c : is_Some (digit_value c) → negb (separator c) && negb (Ascii.eqb c ESC) = true.
Proof. intros [d Hd]. destruct c as [[] [] [] [] [] [] [] []]; done. Qed.

Lemma decimal_go x s acc :
  plain s = true → (∀ acc, is_Some (decimal_from acc s)) →
  plain (pretty_N_go x s) = true ∧
  ∃ k, decimal_from acc (pretty_N_go x s) = decimal_from (k * acc + Z.of_N x) s.
Proof.
  revert s acc. induction (N.lt_wf_0 x) as [x _ IH]. intros s acc Hp Hs.
  destruct (decide (x = 0)%N) as [->|Hx].
  { rewrite pretty_N_go_0. split; [done|]. exists 1. f_equal. lia. }
  rewrite pretty_N_go_step by lia.
  pose proof (digit_value_pretty (x mod 10) ltac:(apply N.mod_lt; lia)) as Hd.
  destruct (IH (x / 10)%N ltac:(apply N.div_lt; lia) (String (pretty_N_char (x mod 10)) s) acc)
    as (Hp' & k & Hk).
  - unfold plain in *. cbn [String.list_ascii_of_string forallb].
    by rewrite digit_plain by (by eexists).
  - intros a. rewrite (decimal_from_digit _ _ _ _ Hd). apply Hs.
  - split; [done|]. exists (10 * k). rewrite Hk, (decimal_from_digit _ _ _ _ Hd). f_equal.
    pose proof (N.div_mod x 10 ltac:(lia)). lia.
Qed.

Lemma decimal_pretty (x : N) : decimal_from 0 (pretty x) = Some (Z.of_N x) ∧ plain (pretty x) = true.
Proof.
  unfold pretty, pretty_N. case_decide as Hx; [by subst|].
  destruct (decimal_go x "" 0 eq_refl ltac:(by eexists)) as (Hp & k & ->). split; [|done].
  simpl. f_equal. lia.
Qed.

Lemma read_int_N (x : N) : read_int (pretty x) = Some (Z.of_N x).
Proof.
  destruct (decimal_pretty x) as [Hd _].
  destruct (pretty_head x) as (c & s & Hs & [d Hc]). rewrite Hs in *. cbn [read_int].
  destruct (Ascii.eqb_spec c "-") as [->|_]; done.
Qed.

Lemma fmt_lu_read v : read_int (fmt_lu v) = Some (u64 v) ∧ plain (fmt_lu v) = true.
Proof.
  unfold fmt_lu. split; [|apply decimal_pretty].
  rewrite read_int_N, Z2N.id; [done | apply u64_range].
Qed.

Lemma fmt_d_read v : read_int (fmt_d v) = Some (s32 v) ∧ plain (fmt_d v) = true.
Proof.
  unfold fmt_d. destruct (s32 v) as [|p|p] eqn:Hv.
  - by vm_compute.
  - change (pretty (Z.pos p)) with (pretty (N.pos p)). split; [by rewrite read_int_N | apply decimal_pretty].
  - destruct (decimal_pretty (N.pos p)) as [Hd Hp]. split; [|exact Hp].
    change (pretty (Z.neg p)) with (String "-" (pretty (N.pos p))). cbn [read_int].
    by rewrite Ascii.eqb_refl, Hd.
Qed.

(** *** Taking a line apart *)

Lemma no_colours_plain d s : plain d = true → no_colours false (d +:+ s) = d +:+ no_colours false s.
Proof.
  induction d as [|c d IH]; [done|]. intros Hp. apply andb_true_iff in Hp as [Hc Hp].
  apply andb_true_iff in Hc as [_ Hc%negb_true_iff].
  change (String c d +:+ s) with (String c (d +:+ s)). cbn [no_colours]. rewrite Hc.
  by rewrite IH.
Qed.
Lemma no_colours_spaces n s : no_colours false (spaces n +:+ s) = spaces n +:+ no_colours false s.
Proof. induction n as [|n IH]; [done|]. exact (f_equal (String " ") IH). Qed.

Lemma words_plain cur d s : plain d = true → words cur (d +:+ s) = words (cur +:+ d) s.
Proof.
  revert cur. induction d as [|c d IH]; intros cur Hp; [by rewrite string_app_nil_r|].
  apply andb_true_iff in Hp as [Hc Hp]. apply andb_true_iff in Hc as [Hc%negb_true_iff _].
  change (String c d +:+ s) with (String c (d +:+ s)). cbn [words]. rewrite Hc, IH by done.
  by rewrite string_app_assoc.
Qed.
Lemma words_spaces n s : words "" (spaces n +:+ s) = words "" s.
Proof. induction n as [|n IH]; [done|]. exact IH. Qed.

(** A padded word between separators. *)
Lemma words_cell w d s :
  plain d = true → d ≠ "" → words "" (pad_right w d +:+ String " " s) = d :: words "" s.
Proof.
  intros Hp Hd. unfold pad_right. rewrite string_app_assoc, words_plain by done.
  change ("" +:+ d) with d. generalize (w - String.length d)%nat. intros n.
  assert (Hf : flush d = [d]) by (by destruct d).
  destruct n as [|n]; cbn [spaces].
  - change ("" +:+ String " " s) with (String " " s). cbn [words separator]. by rewrite Hf.
  - change (String " " (spaces n) +:+ String " " s) with (String " " (spaces n +:+ String " " s)).
    cbn [words separator]. change (existsb _ _) with true. cbn iota. rewrite Hf, words_spaces. done.
Qed.

Lemma read_int_nonempty d v : read_int d = Some v → d ≠ "".
Proof. by destruct d. Qed.
