(* ===== verification/UserPrograms.v ===== *)
(** * UserPrograms: the programs that use the memory system calls

    The user programs of [modules/project2], run on the system calls of
    [Tamalloc]: the table of per-process statistics
    ([202000173_test_memory_allocation_statistics.c]), the monitor of the
    global ones ([202000173_test_tamalloc.c]), and the two programs that use
    the lazy allocation ([202000173_test_tamalloc_stat.c], [test.c]).

    A program is a function to its exit status and the list of what it does
    that can be seen: text on standard output, [perror], waiting.  The
    programs that run until they are interrupted are given the number of
    rounds they get.  Memory the program mapped is the list of its bytes; an
    access outside of it is a fault ([None]). *)

From S2P Require Import Prelude UserMem KernelObj Tamalloc SeqFile Terminal.
From Stdlib Require Import Ascii.

(** ** The C library *)

Inductive io_event :=
  | Print (text : string)
  | Perror (label : string) (errno : Z)
  | Wait (ms : Z)
  | Key                       (** getchar *)
  | Shell (command : string). (** system *)
#[export] Instance io_event_eq_dec : EqDecision io_event.
Proof. solve_decision. Defined.

(** [syscall]: an error code becomes -1 and [errno]. *)
Definition syscall_ret (r : Z) : Z * Z := if (- 4096 <? r) && (r <? 0) then (-1, - r) else (r, 0).

Definition isspace (c : ascii) : bool :=
  let n := nat_of_ascii c in (n =? 32)%nat || ((9 <=? n)%nat && (n <=? 13)%nat).
Fixpoint skip_blanks (s : string) : string :=
  match s with
  | String c s' => if isspace c then skip_blanks s' else s
  | EmptyString => s
  end.
Definition isdigit (c : ascii) : bool := bool_decide (is_Some (digit_value c)).

(** [atol]: blanks, a sign, digits; the value saturates. *)
Definition atol (s : string) : Z :=
  let v := match skip_blanks s with
           | String "-" s => - scan_number_from 0 s
           | String "+" s => scan_number_from 0 s
           | s => scan_number_from 0 s
           end in
  Z.max (- 2 ^ 63) (Z.min (2 ^ 63 - 1) v).
Definition atoi (s : string) : Z := s32 (atol s).

(** ** Terminal text *)

Definition esc (code : string) : string := String "027" ("[" +:+ code).
Definition WHITE : string := esc "1;37m".
Definition BLUE : string := esc "1;34m".
Definition RED : string := esc "1;31m".
Definition GREEN : string := esc "1;32m".
Definition CYAN : string := esc "1;36m".
Definition YELLOW : string := esc "1;33m".
Definition PLAIN : string := esc "0m".

(** ** [202000173_test_memory_allocation_statistics.c] *)

Definition table_rule : string :=
  WHITE +:+ "__________________________________________________________________" +:+ nl.
(** A cell of the table in a colour, and the bar before it. *)
Definition cell (colour : string) (w : nat) (text : string) : string :=
  WHITE +:+ "│ " +:+ colour +:+ pad_right w text +:+ " ".
Definition body_row (pid : Z) (pinfo : tamalloc_proc_info) : string :=
  cell BLUE 6 (fmt_d pid) +:+ cell BLUE 15 (fmt_lu (vm_kb pinfo)) +:+
  cell BLUE 15 (fmt_lu (rss_kb pinfo)) +:+ cell BLUE 8 (fmt_lu (u32 (rss_percent_of_vm pinfo))) +:+
  cell BLUE 6 (fmt_d (oom_adjustment pinfo)) +:+ WHITE +:+ "│" +:+ nl.
Definition body_table (pid : Z) (pinfo : tamalloc_proc_info) : list io_event :=
  [Print (body_row pid pinfo); Print table_rule].
Definition header_table : list io_event :=
  [Print table_rule;
   Print (cell RED 6 "PID" +:+ cell RED 15 "Reserved (KB)" +:+ cell RED 15 "Commited (KB)" +:+
          cell RED 8 "Usage (%)" +:+ cell RED 5 "OOM" +:+ WHITE +:+ "│" +:+ nl);
   Print table_rule].

(** An entry of /proc: whether it is a directory, and its name. *)
Record dirent := Dirent { is_dir : bool; d_name : string }.

Fixpoint is_numeric (name : string) : bool :=
  match name with
  | EmptyString => true
  | String c name => if negb (isdigit c) then false else is_numeric name
  end.

(** The structure at [info], as the program reads it. *)
Definition load_proc_info {M} `{UserAccess M} (m : M) (info : Z) : option tamalloc_proc_info :=
  v ← uread_u64 m info; r ← uread_u64 m (info + 8);
  p ← uread_u32 m (info + 16); o ← uread_u32 m (info + 20);
  Some (mk_proc_info v r p (s32 o)).
Definition load_global_info {M} `{UserAccess M} (m : M) (info : Z) : option tamalloc_global_info :=
  v ← uread_u64 m info; r ← uread_u64 m (info + 8); Some (mk_global_info v r).

Section statistics.
Context {M : Type} `{UserAccess M}.
Context (pid_task : Z → option task_struct) (get_task_mm : task_struct → option mm_struct).
Abbreviation st := (kernel_state M).

(** [info] is the address of the local variable [pinfo]. *)
Definition tamalloc_get_indiviual_stats (pid info : Z) : kst st (Z * Z) :=
  r ← sys_memory_allocation_statistics pid_task get_task_mm pid info;
  mret (syscall_ret r).
Definition load_info (info : Z) : kst st tamalloc_proc_info :=
  s ← kget; kderef (load_proc_info (kuser s) info).

(** The loop over the entries of the directory. *)
Fixpoint proc_loop (info : Z) (entries : list dirent) (out : list io_event) : kst st (list io_event) :=
  match entries with
  | [] => mret out
  | entry :: entries =>
      if is_dir entry && is_numeric (d_name entry) then
        let current_pid := atoi (d_name entry) in
        if 0 <? current_pid then
          r ← tamalloc_get_indiviual_stats current_pid info;
          if r.1 =? 0 then
            pinfo ← load_info info;
            proc_loop info entries (out ++ body_table current_pid pinfo)
          else proc_loop info entries out
        else proc_loop info entries out
      else proc_loop info entries out
  end.

(** [argv1] is the first argument; [proc_dir] what [opendir] of /proc yields
    (the entries, or an errno). *)
Definition statistics_main (argv1 : option string) (proc_dir : Z + list dirent) (info : Z)
    : kst st (Z * list io_event) :=
  let pid := match argv1 with Some a => atoi a | None => 0 end in
  if nz pid then
    r ← tamalloc_get_indiviual_stats pid info;
    if r.1 <? 0 then mret (1, [Perror "tamalloc_get_indiviual_stats syscall" r.2])
    else
      pinfo ← load_info info;
      mret (0, header_table ++ body_table pid pinfo)
  else
    match proc_dir with
    | inl errno => mret (1, [Perror "No se pudo abrir /proc" errno])
    | inr entries =>
        out ← proc_loop info entries header_table;
        mret (0, out)
    end.

(** ** [202000173_test_tamalloc.c] *)

Definition monitor_rule : string :=
  BLUE +:+ "==================================================================" +:+ PLAIN +:+ nl.
Definition monitor_row (label : string) (mb : Z) : string :=
  WHITE +:+ "| " +:+ pad_right 36 label +:+ " | " +:+ GREEN +:+ pad_right 20 (fmt_lu mb) +:+ " MB" +:+
  WHITE +:+ " |" +:+ PLAIN +:+ nl.
Definition print_global_info (info : tamalloc_global_info) : list io_event :=
  [Print monitor_rule;
   Print (CYAN +:+ "                      MONITOREO DE MEMORIA                        " +:+ PLAIN +:+ nl);
   Print monitor_rule;
   Print (monitor_row "vmSize" (aggregate_vm_mb info));
   Print (monitor_row "vmRSS" (aggregate_rss_mb info));
   Print monitor_rule].

Definition signal_handler : list io_event :=
  [Print (nl +:+ RED +:+ "[TERMINADO]" +:+ PLAIN +:+ " Monitoreo de memoria interrumpido." +:+ nl)].

(** The loop, one element of [rounds] (the processes at that time) per second
    until the interrupt. *)
Fixpoint monitor_main (info : Z) (rounds : list (list task_struct)) (out : list io_event)
    : kst st (Z * list io_event) :=
  match rounds with
  | [] => mret (0, out ++ signal_handler)
  | processes :: rounds =>
      r ← sys_tamalloc get_task_mm processes info;
      let '(ret, errno) := syscall_ret r in
      if ret <? 0 then mret (1, out ++ [Perror "tamalloc_get_global_stats syscall" errno])
      else
        s ← kget;
        g ← kderef (load_global_info (kuser s) info);
        monitor_main info rounds
          (out ++ Print (esc "H" +:+ esc "J") :: print_global_info g ++ [Wait 1000])
  end.
End statistics.

(** ** [202000173_test_tamalloc_stat.c] and [test.c] *)

(** [%lx] and [%p]. *)
Fixpoint hex_digits (fuel : nat) (n : Z) (acc : string) : string :=
  match fuel with
  | O => acc
  | S fuel =>
      let d := Z.to_nat (n mod 16) in
      let c := ascii_of_nat (if (d <? 10)%nat then 48 + d else 87 + d) in
      let acc := String c acc in
      if n / 16 =? 0 then acc else hex_digits fuel (n / 16) acc
  end.
Definition fmt_lx (n : Z) : string := hex_digits 16 (u64 n) "".
Definition fmt_p (p : Z) : string := if p =? 0 then "(nil)" else "0x" +:+ fmt_lx p.
Definition fmt_c (c : Z) : string := String (ascii_of_nat (Z.to_nat c)) "".

(** A byte stored in a mapping; outside of it the program faults. *)
Definition store_byte (buf : list Z) (i c : Z) : option (list Z) :=
  if decide (0 <= i < Z.of_nat (length buf)) then Some (<[Z.to_nat i := c]> buf) else None.
Definition load_byte (buf : list Z) (i : Z) : option Z :=
  if decide (0 <= i) then buf !! Z.to_nat i else None.

Section allocation.
Context {AS : Type}.
(** [vm_mmap], and the bytes of the mapping at an address. *)
Context (vm_mmap : Z → Z → Z → Z → Z → Z → AS → Z * AS) (mapping : AS → Z → list Z).

(** The state of the address space and the log of the kernel, with the
    mappings the program has written to. *)
Definition tamalloc_get_stat (size : Z) (sp : AS) (log : nat) : Z * Z * AS * nat :=
  let '(r, sp, log) := sys_tamalloc_stats vm_mmap size sp log in (syscall_ret r, sp, log).

(** One round after a successful allocation: the two stores and their report. *)
Definition touch_mapping (size addr : Z) (buf : list Z) : option (list Z * list io_event) :=
  if addr =? 0 then Some (buf, [])
  else
    buf ← store_byte buf 0 72;
    buf ← store_byte buf (u64 (size - 1)) 90;
    a ← load_byte buf 0;
    z ← load_byte buf (u64 (size - 1));
    Some (buf, [Print ("Datos escritos: Inicio = '" +:+ fmt_c a +:+ "', Final = '" +:+ fmt_c z +:+ "'" +:+ nl)]).

Fixpoint alloc_rounds (size : Z) (rounds : nat) (sp : AS) (log : nat) (out : list io_event)
    : option (option Z * list io_event * AS * nat) :=
  match rounds with
  | O => Some (None, out, sp, log)
  | S rounds =>
      let out := out ++ [Shell "clear"] in
      let '(addr, errno, sp, log) := tamalloc_get_stat size sp log in
      if addr <? 0 then Some (Some 1, out ++ [Perror "tamalloc_get_stat syscall" errno], sp, log)
      else
        let line := "[Tiempo Real] Se asignaron " +:+ fmt_lu size +:+ " bytes en 0x" +:+ fmt_lx addr +:+ nl in
        r ← touch_mapping size addr (mapping sp addr);
        alloc_rounds size rounds sp log (out ++ Print line :: r.2 ++ [Wait 1000])
  end.
(** [None] as exit status: still running after that many rounds. *)
Definition alloc_main (argv1 : option string) (rounds : nat) (sp : AS) (log : nat)
    : option (option Z * list io_event * AS * nat) :=
  let size := match argv1 with Some a => u64 (atol a) | None => 1024 * 1024 end in
  alloc_rounds size rounds sp log [].

(** The loop of [test.c] over [n] bytes from [i] on; [rand k] is the [k]th
    random number. *)
Fixpoint fill_loop (rand : nat → Z) (n i : nat) (buf : list Z) (out : list io_event)
    : option (Z * list io_event * list Z) :=
  match n with
  | O => Some (0, out, buf)
  | S n =>
      t ← load_byte buf (Z.of_nat i);
      if nz t then
        Some (10, out ++ [Print (RED +:+ "ERROR FATAL: La memoria en el byte " +:+ fmt_lu (Z.of_nat i) +:+
                " no estaba inicializada a 0" +:+ PLAIN +:+ nl)], buf)
      else
        buf ← store_byte buf (Z.of_nat i) (65 + rand i mod 26);
        let out :=
          if (Z.of_nat i mod (1024 * 1024) =? 0) && (0 <? Z.of_nat i) then
            out ++ [Print (BLUE +:+ "Progreso: " +:+ fmt_lu (Z.of_nat i / (1024 * 1024)) +:+
                      " MB procesados..." +:+ PLAIN +:+ nl); Wait 1000]
          else out in
        fill_loop rand n (S i) buf out
  end.

Definition TOTAL_SIZE : Z := 10 * 1024 * 1024.
Definition green (t : string) : string := GREEN +:+ t +:+ PLAIN +:+ nl.
Definition yellow (t : string) : string := YELLOW +:+ t +:+ PLAIN +:+ nl.
Definition welcome (pid : Z) : list io_event :=
  [Print (green "=== Bienvenido al programa de tamalloc ===");
   Print (BLUE +:+ "PID del programa: " +:+ fmt_d pid +:+ PLAIN +:+ nl);
   Print (CYAN +:+ "Este programa asigna memoria usando tamalloc." +:+ PLAIN +:+ nl);
   Print (yellow "Presiona ENTER para continuar..."); Key].
Definition farewell : list io_event :=
  [Print (green "Todas las regiones de memoria verificadas y llenadas correctamente.");
   Print (yellow "Presiona ENTER para finalizar el programa."); Key;
   Print (CYAN +:+ "Gracias por usar tamalloc. Hasta la próxima!" +:+ PLAIN +:+ nl)].

(** The exit status, the output and the bytes of the mapping at the end. *)
Definition fill_main (pid : Z) (rand : nat → Z) (sp : AS) (log : nat)
    : option (Z * list io_event * list Z * AS * nat) :=
  let out := welcome pid in
  let '(addr, errno, sp, log) := tamalloc_get_stat TOTAL_SIZE sp log in
  if addr <? 0 then
    Some (1, out ++ [Perror (RED +:+ "Error: La llamada a tamalloc falló" +:+ PLAIN) errno], [], sp, log)
  else
    let out := out ++ [Print (green ("Dirección de memoria: " +:+ fmt_p addr));
      Print (yellow "Presiona ENTER para comenzar a leer memoria byte por byte..."); Key] in
    r ← fill_loop rand (Z.to_nat TOTAL_SIZE) 0 (mapping sp addr) out;
    let '(ret, out, buf) := r in
    Some (ret, if ret =? 0 then out ++ farewell else out, buf, sp, log).
End allocation.

(** ** Lemmas *)

Lemma syscall_ret_ok r : 0 <= r → syscall_ret r = (r, 0).
Proof. intros Hr. unfold syscall_ret. destruct (Z.ltb_spec r 0); [lia|]. by rewrite andb_false_r. Qed.

Section statistics_facts.
Context {M : Type} `{UserAccess M}.
Context (pid_task : Z → option task_struct) (get_task_mm : task_struct → option mm_struct).
Implicit Types (s : kernel_state M).

(** What the kernel knows about a process. *)
Definition task_info (pid : Z) : option tamalloc_proc_info :=
  task ← pid_task pid; mm ← get_task_mm task; Some (proc_info_of task mm).
Definition info_wf (k : tamalloc_proc_info) : Prop :=
  in_u64 (vm_kb k) ∧ in_u64 (rss_kb k) ∧ in_u32 (rss_percent_of_vm k) ∧ in_s32 (oom_adjustment k).

Lemma pages_to_kb_range p : in_u64 (pages_to_kb p).
Proof.
  unfold pages_to_kb. pose proof (u64_range (p * PAGE_SIZE)) as Hr.
  rewrite shiftr_div by lia. split; [apply Z.div_pos; [apply Hr | lia]|].
  eapply Z.le_lt_trans; [|apply Hr]. apply Z.div_le_upper_bound; [lia|]. red in Hr. lia.
Qed.
Lemma percent_of_range r v : in_u32 (percent_of r v).
Proof. unfold percent_of. destruct (0 <? v); [apply u32_range | by apply (bool_decide_unpack _)]. Qed.

Lemma task_info_wf pid k :
  (∀ p task, pid_task p = Some task → in_s32 (oom_score_adj task)) →
  task_info pid = Some k → info_wf k.
Proof.
  intros Hoom. unfold task_info. rewrite bind_Some. intros (task & Ht & Hk).
  apply bind_Some in Hk as (mm & _ & [= <-]). unfold info_wf, proc_info_of. cbn.
  split_and!; try apply pages_to_kb_range; [apply percent_of_range | by eapply Hoom].
Qed.

(** The structure survives the way through user memory. *)
Lemma load_stored_info (m : M) info k :
  info_wf k → uread_range m info 24 = Some (proc_info_bytes k) → load_proc_info m info = Some k.
Proof.
  intros (Hv & Hr & Hp & Ho) Hm. destruct (proc_info_read _ _ _ Hm) as (E1 & E2 & E3 & E4).
  unfold load_proc_info. rewrite E1, E2, E3, E4. cbn [mbind option_bind].
  rewrite !u64_small, u32_small by done. replace (s32 (u32 (oom_adjustment k))) with (oom_adjustment k) by wrap.
  by destruct k.
Qed.

Lemma balanced_refl s : balanced s s.
Proof. by split. Qed.
Lemma balanced_trans s1 s2 s3 : balanced s1 s2 → balanced s2 s3 → balanced s1 s3.
Proof. intros [H1 H2] [H3 H4]. split; [congruence|]. intros a. by rewrite H4. Qed.

(** A statistics call for a writable structure. *)
Lemma stats_call pid info s :
  user_wr (kuser s) info 24 = true →
  ∃ r s', sys_memory_allocation_statistics pid_task get_task_mm pid info s = Some (r, s') ∧
    balanced s s' ∧ user_wr (kuser s') info 24 = true ∧
    match task_info pid with
    | Some k => r = 0 ∧ uread_range (kuser s') info 24 = Some (proc_info_bytes k)
    | None => r = - ESRCH ∨ r = - EINVAL
    end.
Proof.
  intros Hw. unfold sys_memory_allocation_statistics, rcu_read_lock, rcu_read_unlock, task_info. krun.
  assert (Hd : ∀ u (mu : gmap Z Z), (∀ a, ref_get mu a = ref_get (mm_users s) a) →
    balanced s (mk_kernel (rcu_depth s + 1 - 1) mu u)) by (intros; split; [cbn; lia | done]).
  destruct (pid_task pid) as [task|]; cbn [mbind option_bind]; [|eexists _, _; split; [reflexivity|]; split; [by apply Hd | by split; [|auto]]].
  unfold take_task_mm. destruct (get_task_mm task) as [mm|]; cbn [mbind option_bind];
    [|eexists _, _; split; [reflexivity|]; split; [by apply Hd | by split; [|auto]]].
  rewrite kbind_assoc. krun. unfold mmput. krun. unfold copy_out. cbn [kuser].
  set (bytes := proc_info_bytes _). assert (Hlen : length bytes = 24%nat) by done.
  pose proof (copy_to_user_ok (kuser s) info bytes) as Hok. rewrite Hlen in Hok.
  pose proof (copy_to_user_range (kuser s) info bytes (proj2 Hok Hw)) as Hr. rewrite Hlen in Hr.
  pose proof (copy_to_user_wr (kuser s) info bytes info 24) as Hwr.
  apply proj2 in Hok. specialize (Hok Hw). erewrite kbind_some by reflexivity.
  change (proc_info_bytes (proc_info_of task mm)) with bytes. cbn [kuser fst snd]. rewrite Hok.
  eexists _, _. split; [reflexivity|]. split; [apply Hd; intros a; apply ref_dec_inc|].
  cbn [kuser]. split; [congruence | done].
Qed.

(** ** Properties *)

(** The rows the program should print for the entries of /proc. *)
Definition entry_rows (e : dirent) : list io_event :=
  if is_dir e && is_numeric (d_name e) && (0 <? atoi (d_name e)) then
    match task_info (atoi (d_name e)) with
    | Some k => body_table (atoi (d_name e)) k
    | None => []
    end
  else [].

Context (Hoom : ∀ p task, pid_task p = Some task → in_s32 (oom_score_adj task)).

Lemma proc_loop_run info entries out s :
  user_wr (kuser s) info 24 = true →
  ∃ s', proc_loop pid_task get_task_mm info entries out s = Some (out ++ (entries ≫= entry_rows), s') ∧
    balanced s s'.
Proof using Hoom.
  revert out s. induction entries as [|e entries IH]; intros out s Hw.
  { exists s. cbn. rewrite app_nil_r. split; [done | apply balanced_refl]. }
  cbn [proc_loop]. rewrite bind_cons. unfold entry_rows at 1.
  destruct (is_dir e && is_numeric (d_name e)); cbn [andb]; [|by apply IH].
  set (pid := atoi (d_name e)). destruct (0 <? pid); [|by apply IH].
  unfold tamalloc_get_indiviual_stats. rewrite kbind_assoc.
  destruct (stats_call pid info s Hw) as (r & s1 & Hr & Hb & Hw1 & Hk).
  rewrite (kbind_some _ _ _ _ _ Hr), kbind_ret. destruct (task_info pid) as [k|] eqn:Hi.
  - destruct Hk as [-> Hm]. cbn [syscall_ret fst Z.ltb Z.eqb].
    change ((syscall_ret 0).1 =? 0) with true. cbn iota. unfold load_info. rewrite kbind_assoc, kbind_get.
    rewrite (load_stored_info _ _ k) by (done || by eapply task_info_wf). cbn [kderef]. rewrite kbind_ret.
    destruct (IH (out ++ body_table pid k) s1 Hw1) as (s2 & Hs2 & Hb2). exists s2.
    rewrite app_assoc. split; [done | by eapply balanced_trans].
  - assert (Hne : ((syscall_ret r).1 =? 0) = false) by (destruct Hk as [-> | ->]; reflexivity).
    rewrite Hne. destruct (IH out s1 Hw1) as (s2 & Hs2 & Hb2). exists s2.
    split; [done | by eapply balanced_trans].
Qed.

(** *** The table as a reader sees it *)

(** The pid of an entry of /proc: a directory whose name is all digits, their
    value as an [int]; 0 is no pid. *)
Definition entry_pid (e : dirent) : option Z :=
  if is_dir e then
    v ← decimal_from 0 (d_name e);
    let pid := s32 (Z.min (2 ^ 63 - 1) v) in
    if decide (0 < pid) then Some pid else None
  else None.

(** What the kernel holds about a process: pid, kilobytes reserved and
    committed, percentage, OOM adjustment. *)
Definition process_row (pid : Z) : option (list Z) :=
  task ← pid_task pid; mm ← get_task_mm task;
  Some [pid; 4 * total_vm mm; 4 * mm_rss mm;
        if decide (total_vm mm = 0) then 0 else u32 (100 * mm_rss mm / total_vm mm);
        oom_score_adj task].

(** The lines of the output that are rows of integers. *)
Definition read_table (out : list io_event) : list (list Z) :=
  omap (λ ev, match ev with Print line => read_row line | _ => None end) out.

Lemma read_table_app a b : read_table (a ++ b) = read_table a ++ read_table b.
Proof. apply omap_app. Qed.

Lemma cell_seen w text rest :
  plain text = true →
  no_colours false (cell BLUE w text +:+ rest) = "│ " +:+ (pad_right w text +:+ String " " (no_colours false rest)).
Proof.
  intros Ht. unfold cell, pad_right. rewrite !string_app_assoc.
  transitivity ("│ " +:+ no_colours false (text +:+ (spaces (w - String.length text) +:+ (" " +:+ rest))));
    [done|].
  by rewrite no_colours_plain, no_colours_spaces.
Qed.

Lemma row_seen pid k :
  in_s32 pid → info_wf k →
  read_row (body_row pid k) = Some [pid; vm_kb k; rss_kb k; rss_percent_of_vm k; oom_adjustment k].
Proof.
  intros Hpid (Hv & Hr & Hp & Ho). unfold read_row, body_row.
  destruct (fmt_d_read pid) as [R1 P1], (fmt_lu_read (vm_kb k)) as [R2 P2],
    (fmt_lu_read (rss_kb k)) as [R3 P3], (fmt_lu_read (u32 (rss_percent_of_vm k))) as [R4 P4],
    (fmt_d_read (oom_adjustment k)) as [R5 P5].
  rewrite !cell_seen by done.
  assert (Hbar : ∀ t, words "" ("│ " +:+ t) = words "" t) by done.
  do 5 (rewrite Hbar, words_cell by (done || by eapply read_int_nonempty)).
  change (words "" _) with (@nil string). cbn [mapM].
  rewrite R1, R2, R3, R4, R5. cbn.
  rewrite !s32_small, !u64_small, u32_small by (done || wrap). done.
Qed.

Lemma table_row_seen pid k :
  in_s32 pid → info_wf k →
  read_table (body_table pid k) = [[pid; vm_kb k; rss_kb k; rss_percent_of_vm k; oom_adjustment k]].
Proof. intros Hpid Hk. unfold read_table, body_table. cbn [omap list_omap]. by rewrite row_seen. Qed.

(** The program's test for digits and its conversion are [entry_pid]. *)
Lemma numeric_decimal acc name :
  is_numeric name = bool_decide (is_Some (decimal_from acc name)).
Proof.
  revert acc. induction name as [|c name IH]; intros acc; [done|].
  cbn [is_numeric decimal_from]. unfold isdigit. case_decide as Hc.
  - rewrite bool_decide_eq_true_2; [apply IH|]. eexists. by apply digit_value_char.
  - rewrite bool_decide_eq_false_2; [done|]. intros [d [Hd _]%digit_value_char]. done.
Qed.

Lemma atoi_decimal name v :
  decimal_from 0 name = Some v → 0 <= v → atoi name = s32 (Z.min (2 ^ 63 - 1) v).
Proof.
  intros Hv Hpos. unfold atoi, atol. apply decimal_scan in Hv as Hs.
  assert (Hskip : skip_blanks name = name ∧ ∀ c t, name = String c t → is_Some (digit_value c)).
  { destruct name as [|c name]; [done|]. cbn [decimal_from] in Hv. case_decide as Hc; [|done].
    assert (Hd : is_Some (digit_value c)) by (eexists; by apply digit_value_char).
    split; [|intros ?? [= <- _]; done]. destruct Hd as [d Hd].
    by destruct c as [[] [] [] [] [] [] [] []]. }
  destruct Hskip as [-> Hfirst].
  f_equal. match goal with |- Z.max _ (Z.min _ ?x) = _ => replace x with v; [lia|] end.
  destruct name as [|c name]; [done|]. destruct (Hfirst c name eq_refl) as [d Hd].
  by destruct c as [[] [] [] [] [] [] [] []].
Qed.

Lemma decimal_nonneg acc name v : decimal_from acc name = Some v → 0 <= acc → 0 <= v.
Proof.
  revert acc. induction name as [|c name IH]; intros acc; [by intros [= ->]|].
  cbn [decimal_from]. case_decide; [|done]. intros Hv Ha. eapply IH; [done|]. lia.
Qed.

Context (Hmm : ∀ p task mm, pid_task p = Some task → get_task_mm task = Some mm →
  0 <= total_vm mm < 2 ^ 52 ∧ 0 <= mm_rss mm < 2 ^ 52).

Lemma process_row_info pid :
  process_row pid = (λ k, [pid; vm_kb k; rss_kb k; rss_percent_of_vm k; oom_adjustment k]) <$> task_info pid.
Proof using Hmm.
  unfold process_row, task_info. destruct (pid_task pid) as [task|] eqn:Ht; [|done]. cbn [mbind option_bind].
  destruct (get_task_mm task) as [mm|] eqn:Hm; [|done]. cbn [mbind option_bind fmap option_fmap option_map].
  destruct (Hmm _ _ _ Ht Hm). by rewrite proc_info_fields.
Qed.

Lemma entry_rows_seen e :
  read_table (entry_rows e) = match (pid ← entry_pid e; process_row pid) with Some row => [row] | None => [] end.
Proof using Hmm Hoom.
  unfold entry_rows, entry_pid. destruct (is_dir e); cbn [andb mbind option_bind]; [|done].
  rewrite (numeric_decimal 0). destruct (decimal_from 0 (d_name e)) as [v|] eqn:Hv; [|done].
  rewrite bool_decide_eq_true_2 by done. cbn [andb mbind option_bind].
  rewrite (atoi_decimal _ v) by (done || by eapply decimal_nonneg).
  set (pid := s32 _). destruct (Z.ltb_spec 0 pid); [rewrite decide_True by done | by rewrite decide_False by lia].
  cbn [mbind option_bind]. rewrite process_row_info. destruct (task_info pid) as [k|] eqn:Hk; [|done].
  cbn [fmap option_fmap option_map]. apply table_row_seen; [apply s32_range | by eapply task_info_wf].
Qed.

(** C30. The table the program prints, as it is read without its colours and
    bars: run on the whole of /proc it has, in order, one row for every
    directory whose name is all digits and whose process has an address space,
    with the pid, four times the pages of the address space and of the resident
    set, the floor of the percentage, and the OOM adjustment, in this order; run
    on one process it has that row, or the program fails when there is no such
    process.  The kernel is left balanced. *)
Theorem statistics_table_exact argv1 entries info s :
  user_wr (kuser s) info 24 = true →
  let pid := match argv1 with Some a => atoi a | None => 0 end in
  ∃ status out s', statistics_main pid_task get_task_mm argv1 (inr entries) info s = Some ((status, out), s') ∧
    balanced s s' ∧
    if pid =? 0 then
      status = 0 ∧ header_table `prefix_of` out ∧
      read_table out = omap (λ e, pid ← entry_pid e; process_row pid) entries
    else match process_row pid with
         | Some row => status = 0 ∧ header_table `prefix_of` out ∧ read_table out = [row]
         | None => status = 1 ∧ ∃ errno, errno ∈ [ESRCH; EINVAL] ∧
             out = [Perror "tamalloc_get_indiviual_stats syscall" errno]
         end.
Proof using Hoom Hmm.
  intros Hw pid. unfold statistics_main. fold pid. unfold nz. destruct (pid =? 0) eqn:Hpid; cbn [negb].
  - destruct (proc_loop_run info entries header_table s Hw) as (s' & Hs' & Hb).
    rewrite (kbind_some _ _ _ _ _ Hs'). eexists 0, _, s'. split; [done|]. split; [done|].
    split; [done|]. split; [by eexists|]. rewrite read_table_app.
    change (read_table header_table) with (@nil (list Z)). clear -Hmm Hoom. cbn [app].
    induction entries as [|e entries IH]; [done|].
    rewrite bind_cons, read_table_app, IH, entry_rows_seen. cbn [omap list_omap].
    by destruct (pid ← entry_pid e; process_row pid).
  - unfold tamalloc_get_indiviual_stats. rewrite kbind_assoc, process_row_info.
    destruct (stats_call pid info s Hw) as (r & s1 & Hr & Hb & Hw1 & Hk).
    rewrite (kbind_some _ _ _ _ _ Hr), kbind_ret. destruct (task_info pid) as [k|] eqn:Hi.
    + destruct Hk as [-> Hm]. change ((syscall_ret 0).1 <? 0) with false. cbn iota.
      assert (Hwf : info_wf k) by (by eapply task_info_wf).
      unfold load_info. rewrite kbind_assoc, kbind_get, (load_stored_info _ _ k) by done.
      eexists 0, _, s1. split; [done|]. split; [done|]. split; [done|]. split; [by eexists|].
      rewrite read_table_app. change (read_table header_table) with (@nil (list Z)).
      apply table_row_seen; [|done]. unfold pid. destruct argv1; [apply s32_range | done].
    + destruct Hk as [-> | ->]; eexists 1, _, s1; (split; [reflexivity|]); (split; [done|]); (split; [done|]).
      * exists ESRCH. split; [by apply (bool_decide_unpack _) | done].
      * exists EINVAL. split; [by apply (bool_decide_unpack _) | done].
Qed.

(** The monitor prints the sums of its round. *)
Definition monitor_round (processes : list task_struct) : list io_event :=
  Print (esc "H" +:+ esc "J") ::
  print_global_info (foldl global_info_add (mk_global_info 0 0) (counted_mms get_task_mm processes)) ++
  [Wait 1000].

Lemma global_info_range mms k :
  in_u64 (aggregate_vm_mb k) → in_u64 (aggregate_rss_mb k) →
  in_u64 (aggregate_vm_mb (foldl global_info_add k mms)) ∧
  in_u64 (aggregate_rss_mb (foldl global_info_add k mms)).
Proof using.
  revert k. induction mms as [|mm mms IH]; intros k Hv Hr; [done|]. apply IH; apply u64_range.
Qed.

Lemma monitor_run info rounds out s :
  user_wr (kuser s) info 16 = true →
  ∃ s', monitor_main get_task_mm info rounds out s =
      Some ((0, out ++ (rounds ≫= monitor_round) ++ signal_handler), s') ∧ balanced s s'.
Proof using.
  revert out s. induction rounds as [|ps rounds IH]; intros out s Hw.
  { exists s. split; [done | apply balanced_refl]. }
  cbn [monitor_main]. unfold sys_tamalloc, rcu_read_lock, rcu_read_unlock.
  rewrite kbind_assoc, kbind_modify, kbind_assoc.
  destruct (tamalloc_loop_spec get_task_mm ps (mk_global_info 0 0)
    (mk_kernel (rcu_depth s + 1) (mm_users s) (kuser s))) as (s1 & Hs1 & [Hd Hu] & Hk).
  rewrite (kbind_some _ _ _ _ _ Hs1), kbind_assoc, kbind_modify, kbind_assoc.
  set (g := foldl global_info_add (mk_global_info 0 0) (counted_mms get_task_mm ps)).
  assert (Hg : in_u64 (aggregate_vm_mb g) ∧ in_u64 (aggregate_rss_mb g))
    by (by apply global_info_range; apply (bool_decide_unpack _)).
  cbn in Hk, Hd. rewrite Hk. unfold copy_out. cbn [kuser rcu_depth mm_users].
  pose proof (copy_to_user_ok (kuser s) info (global_info_bytes g)) as Hok.
  change (Z.of_nat (length (global_info_bytes g))) with 16 in Hok. apply proj2 in Hok. specialize (Hok Hw).
  pose proof (copy_to_user_words (kuser s) info [aggregate_vm_mb g; aggregate_rss_mb g]) as Hwords.
  change ([aggregate_vm_mb g; aggregate_rss_mb g] ≫= bytes_of_u64) with (global_info_bytes g) in Hwords.
  pose proof (copy_to_user_wr (kuser s) info (global_info_bytes g) info 16) as Hwr.
  erewrite kbind_some by reflexivity. cbn [kuser rcu_depth mm_users]. rewrite Hok. change (nz 0) with false. cbn iota.
  rewrite kbind_ret. change (syscall_ret 0) with (0, 0). cbn iota. change (0 <? 0) with false. cbn iota.
  rewrite kbind_get. cbn [kuser]. unfold load_global_info.
  pose proof (Hwords 0%nat _ Hok eq_refl) as H1. pose proof (Hwords 1%nat _ Hok eq_refl) as H2.
  change (8 * Z.of_nat 0) with 0 in H1. change (8 * Z.of_nat 1) with 8 in H2.
  rewrite Z.add_0_r in H1. rewrite H1. cbn [mbind option_bind]. rewrite H2.
  cbn [mbind option_bind kderef]. rewrite !u64_small by apply Hg. rewrite kbind_ret.
  match goal with |- context [monitor_main get_task_mm info rounds ?o ?st] =>
    destruct (IH o st) as (s2 & Hs2 & Hb2) end; [cbn [kuser]; congruence|].
  exists s2. split.
  - rewrite Hs2, bind_cons, <-app_assoc. unfold monitor_round at 2. fold g. by destruct g.
  - eapply balanced_trans; [|exact Hb2]. split; [cbn; lia|]. intros a. apply Hu.
Qed.
End statistics_facts.

(** The loop of [test.c] over zero bytes. *)
Lemma fill_loop_zero rand n i buf out :
  (i + n <= length buf)%nat → (∀ j, (i <= j < i + n)%nat → buf !! j = Some 0) →
  ∃ out' buf', fill_loop rand n i buf out = Some (0, out', buf') ∧ length buf' = length buf ∧
    (∀ j, (i <= j < i + n)%nat → buf' !! j = Some (65 + rand j mod 26)) ∧
    (∀ j, (j < i)%nat → buf' !! j = buf !! j).
Proof.
  revert i buf out. induction n as [|n IH]; intros i buf out Hlen Hz.
  { exists out, buf. split_and!; [done | done | lia | done]. }
  cbn [fill_loop]. unfold load_byte, store_byte.
  rewrite decide_True by lia. rewrite Nat2Z.id, Hz by lia. cbn [mbind option_bind].
  change (nz 0) with false. cbn iota. rewrite decide_True by lia. cbn [mbind option_bind].
  destruct (IH (S i) (<[i := 65 + rand i mod 26]> buf)
    (if (Z.of_nat i mod (1024 * 1024) =? 0) && (0 <? Z.of_nat i) then
       out ++ [Print (BLUE +:+ "Progreso: " +:+ fmt_lu (Z.of_nat i / (1024 * 1024)) +:+
                 " MB procesados..." +:+ PLAIN +:+ nl); Wait 1000] else out))
    as (out' & buf' & Hrun & Hl & Hnew & Hold).
  - rewrite length_insert. lia.
  - intros j Hj. rewrite list_lookup_insert_ne by lia. apply Hz. lia.
  - exists out', buf'. rewrite length_insert in Hl. split; [exact Hrun|]. split; [done|]. split.
    + intros j Hj. destruct (decide (j = i)) as [->|]; [|apply Hnew; lia].
      rewrite Hold by lia. apply list_lookup_insert_eq. lia.
    + intros j Hj. rewrite Hold by lia. apply list_lookup_insert_ne. lia.
Qed.

Section allocation_facts.
Context {AS : Type}.
Context (vm_mmap : Z → Z → Z → Z → Z → Z → AS → Z * AS) (mapping : AS → Z → list Z).

(** What [vm_mmap] promises of a private anonymous mapping: the result is an
    error value or an address of the user half, where the mapping has as many
    zero bytes as were asked for. *)
Context (Hmap : ∀ len sp, 0 < len →
  let '(a, sp') := vm_mmap NULL 0 len (Z.lor PROT_READ PROT_WRITE)
    (Z.lor (Z.lor MAP_PRIVATE MAP_ANONYMOUS) MAP_NORESERVE) 0 sp in
  IS_ERR_VALUE a = true ∨ 0 <= a < 2 ^ 47 ∧ mapping sp' a = replicate (Z.to_nat len) 0).

(** The call, as the program sees it. *)
Lemma get_stat_run size sp log :
  0 <= size < 2 ^ 64 →
  ∃ addr errno sp' log', tamalloc_get_stat vm_mmap size sp log = (addr, errno, sp', log') ∧
    (addr = -1 ∨ 0 <= addr < 2 ^ 47 ∧ 0 < size ∧ log' = log ∧
      ∃ n, mapping sp' addr = replicate n 0 ∧ size <= Z.of_nat n < size + 4096).
Proof using Hmap.
  intros Hsize. unfold tamalloc_get_stat, sys_tamalloc_stats.
  destruct (Z.eqb_spec size 0) as [->|Hs]; [by eexists _, _, _, _; split; [reflexivity | left]|].
  destruct (decide (2 ^ 64 - 4096 < size)) as [Hbig|Hbig].
  { rewrite PAGE_ALIGN_wrap by (unfold PAGE_SIZE; lia).
    by eexists _, _, _, _; split; [reflexivity | left]. }
  rewrite PAGE_ALIGN_spec by (unfold PAGE_SIZE; lia). unfold PAGE_SIZE.
  set (len := (size + (4096 - 1)) / 4096 * 4096).
  assert (Hlen : size <= len < size + 4096) by (unfold len; wrap).
  destruct (Z.eqb_spec len 0); [lia|]. pose proof (Hmap len sp ltac:(lia)) as Hm.
  destruct (vm_mmap _ _ _ _ _ _ _) as [a sp']. destruct Hm as [He|(Ha & Hz)].
  - rewrite He. by eexists _, _, _, _; split; [reflexivity | left].
  - unfold IS_ERR_VALUE, MAX_ERRNO. destruct (Z.leb_spec (2 ^ 64 - 4095) a); [lia|].
    rewrite (s64_small a) by (unfold in_s64; lia). rewrite syscall_ret_ok by lia.
    eexists _, _, _, _. split; [reflexivity|]. right. split; [done|]. split; [lia|]. split; [done|].
    exists (Z.to_nat len). split; [done | lia].
Qed.

(** The memory test passes on every mapping the kernel can hand out: the
    program exits with 0 after finding every byte zero, and then every byte of
    the ten megabytes is a capital letter; it stops with 1 when there is no
    mapping, and never touches a byte outside of it. *)
Theorem fill_main_passes pid rand sp log :
  ∃ status out buf sp' log', fill_main vm_mmap mapping pid rand sp log = Some (status, out, buf, sp', log') ∧
    (status = 1 ∨
     status = 0 ∧ ∀ j, (j < Z.to_nat TOTAL_SIZE)%nat → ∃ c, buf !! j = Some c ∧ 65 <= c <= 90).
Proof using Hmap.
  unfold fill_main.
  destruct (get_stat_run TOTAL_SIZE sp log) as (addr & errno & sp' & log' & -> & Ha);
    [by unfold TOTAL_SIZE|].
  assert (Hpos : 0 < TOTAL_SIZE) by done. revert Ha Hpos. generalize TOTAL_SIZE as total. intros total Ha Hpos.
  destruct Ha as [->|(Ha & _ & -> & n & Hz & Hn)]; [by eexists 1, _, _, _, _; split; [reflexivity | left]|].
  destruct (Z.ltb_spec addr 0); [lia|]. cbv zeta. rewrite Hz.
  match goal with |- context [fill_loop rand ?k 0 ?b ?o] =>
    destruct (fill_loop_zero rand k 0 b o) as (out' & buf' & Hrun & Hl & Hnew & _) end.
  - rewrite length_replicate. lia.
  - intros j Hj. apply lookup_replicate. lia.
  - rewrite Hrun. cbn [mbind option_bind]. eexists 0, _, buf', _, _. split; [reflexivity|]. right.
    split; [done|]. intros j Hj. exists (65 + rand j mod 26). split; [apply Hnew; lia|].
    pose proof (Z.mod_pos_bound (rand j) 26 ltac:(lia)). lia.
Qed.

Lemma touch_mapping_ok size addr n :
  0 < size < 2 ^ 64 → size <= Z.of_nat n → is_Some (touch_mapping size addr (replicate n 0)).
Proof using.
  intros Hs Hn. unfold touch_mapping. destruct (addr =? 0); [done|]. unfold store_byte, load_byte.
  rewrite decide_True by (rewrite length_replicate; lia). cbn [mbind option_bind].
  rewrite u64_small by (unfold in_u64; lia).
  rewrite decide_True by (rewrite length_insert, length_replicate; lia). cbn [mbind option_bind].
  rewrite !decide_True by lia.
  assert (Hlk : ∀ j, (j < n)%nat → is_Some (<[Z.to_nat (size - 1):=90]> (<[Z.to_nat 0:=72]> (replicate n 0)) !! j))
    by (intros j Hj; apply lookup_lt_is_Some; by rewrite !length_insert, length_replicate).
  destruct (Hlk (Z.to_nat 0)) as [a ->]; [lia|]. cbn [mbind option_bind].
  destruct (Hlk (Z.to_nat (size - 1))) as [z ->]; [lia|]. by eexists.
Qed.

(** The program that keeps allocating writes the first and the last byte
    of what it asked for, whatever the size on its command line, and never
    outside of a mapping: it runs on, or stops with 1 when an allocation
    fails. *)
Theorem alloc_main_safe argv1 rounds sp log :
  ∃ status out sp' log', alloc_main vm_mmap mapping argv1 rounds sp log = Some (status, out, sp', log') ∧
    (status = None ∨ status = Some 1).
Proof using Hmap.
  unfold alloc_main. set (size := match argv1 with Some a => u64 (atol a) | None => 1024 * 1024 end).
  assert (Hsize : 0 <= size < 2 ^ 64) by (unfold size; destruct argv1; [apply u64_range | done]).
  clearbody size. generalize (@nil io_event) as out. revert sp log.
  induction rounds as [|rounds IH]; intros sp log out; [by eexists None, _, _, _; split; [reflexivity | left]|].
  cbn [alloc_rounds]. destruct (get_stat_run size sp log Hsize) as (addr & errno & sp' & log' & -> & Ha).
  destruct Ha as [->|(Ha & Hpos & -> & n & Hz & Hn)]; [by eexists (Some 1), _, _, _; split; [reflexivity | right]|].
  destruct (Z.ltb_spec addr 0); [lia|]. cbv zeta. rewrite Hz.
  destruct (touch_mapping_ok size addr n) as [[buf ev] ->]; [lia | lia|]. cbn [mbind option_bind]. apply IH.
Qed.
End allocation_facts.

(** ** Runs *)

Module ProgramRuns.

Definition pid_task (pid : Z) : option task_struct :=
  if pid =? 7 then Some (mk_task 7 (Some (mk_mm 1 1000 300)) 0 (-5) (mk_ioac 0 0 0 0 0 0))
  else if pid =? 2 then Some (mk_task 2 None 0 0 (mk_ioac 0 0 0 0 0 0))
  else None.
Definition s0 : kernel_state (gmap Z Z) := mk_kernel 0 ∅ (zero_page 4096 64).
Definition dir : list dirent :=
  [Dirent true "."; Dirent true "2"; Dirent false "7"; Dirent true "7"; Dirent true "7x"; Dirent true "99"].

Example atoi_texts : (atoi " -12x", atoi "+7", atoi "abc", atoi "4294967297") = (-12, 7, 0, 1).
Proof. by vm_compute. Qed.

Example one_row : entry_rows pid_task task_mm (Dirent true "7") = body_table 7 (mk_proc_info 4000 1200 30 (-5)) ∧
  entry_rows pid_task task_mm (Dirent true "2") = [] ∧ entry_rows pid_task task_mm (Dirent false "7") = [].
Proof. by vm_compute. Qed.

Lemma pid_task_oom p task : pid_task p = Some task → in_s32 (oom_score_adj task).
Proof.
  unfold pid_task. destruct (p =? 7); [|destruct (p =? 2); [|done]];
    intros [= <-]; by apply (bool_decide_unpack _).
Qed.

Lemma pid_task_mm p task mm :
  pid_task p = Some task → task_mm task = Some mm →
  0 <= total_vm mm < 2 ^ 52 ∧ 0 <= mm_rss mm < 2 ^ 52.
Proof.
  unfold pid_task. destruct (p =? 7); [|destruct (p =? 2); [|done]]; intros [= <-]; [|done].
  intros [= <-]. by split.
Qed.

Lemma statistics_table_exact_witness :
  ∃ status out s', statistics_main pid_task task_mm None (inr dir) 4096 s0 = Some ((status, out), s') ∧
    balanced s0 s' ∧ status = 0 ∧ read_table out = [[7; 4000; 1200; 30; -5]].
Proof.
  destruct (statistics_table_exact pid_task task_mm pid_task_oom pid_task_mm None dir 4096 s0)
    as (status & out & s' & Hr & Hb & Hs & _ & Hrows); [by vm_compute|].
  exists status, out, s'. split; [exact Hr|]. split; [exact Hb|]. split; [exact Hs|].
  rewrite Hrows. vm_compute. reflexivity.
Defined.

(** An address space that only knows the size of the last mapping. *)
Definition mmap (addr off len prot flags pgoff sp : Z) : Z * Z := (65536, len).
Definition mapping (sp a : Z) : list Z := replicate (Z.to_nat sp) 0.
Lemma mmap_zero len sp : 0 < len →
  let '(a, sp') := mmap NULL 0 len (Z.lor PROT_READ PROT_WRITE)
    (Z.lor (Z.lor MAP_PRIVATE MAP_ANONYMOUS) MAP_NORESERVE) 0 sp in
  IS_ERR_VALUE a = true ∨ 0 <= a < 2 ^ 47 ∧ mapping sp' a = replicate (Z.to_nat len) 0.
Proof. intros _. right. split; [split; done | reflexivity]. Qed.

Example two_bytes :
  touch_mapping 1 65536 (replicate 4 0) =
    Some ([90; 0; 0; 0], [Print ("Datos escritos: Inicio = 'Z', Final = 'Z'" +:+ nl)]).
Proof. by vm_compute. Qed.

Lemma fill_main_passes_witness :
  ∃ status out buf sp' log', fill_main mmap mapping 42 Z.of_nat 0 0%nat = Some (status, out, buf, sp', log') ∧
    (status = 1 ∨
     status = 0 ∧ ∀ j, (j < Z.to_nat TOTAL_SIZE)%nat → ∃ c, buf !! j = Some c ∧ 65 <= c <= 90).
Proof. apply (fill_main_passes mmap mapping mmap_zero 42 Z.of_nat 0 0%nat). Defined.

Lemma alloc_main_safe_witness :
  ∃ status out sp' log', alloc_main mmap mapping (Some "5000"%string) 3 0 0%nat = Some (status, out, sp', log') ∧
    (status = None ∨ status = Some 1).
Proof. apply (alloc_main_safe mmap mapping mmap_zero (Some "5000"%string) 3 0 0%nat). Defined.

End ProgramRuns.
