(* ===== verification/Credentials.v ===== *)
(** * Credentials: the set*id family of [kernel/sys.c]

    [setreuid], [setuid], [setresuid], [setfsuid], their group counterparts and
    the calls that report the ids.  A handler prepares a copy of the current
    credentials, changes the copy, and either commits or aborts it; the
    changes are functions [cred → eres cred] whose [inl] is the [goto error]
    of the code.  Everything a call takes from elsewhere (the id maps of the
    user namespace, capabilities, the security hooks, the user table) is the
    record [cred_env], a new one for every call, with the documented laws in
    [env_ok]. *)

From S2P Require Import Prelude UserMem.

(** ** Data *)

(** The four ids of a kind: real, effective, saved, file system. *)
Record ids := mk_ids { rid : Z; eid : Z; sid : Z; fsid : Z }.

Record user_struct := mk_user { user_addr : Z; user_kuid : Z }.

Record cred := mk_cred {
  uids : ids;                (* uid, euid, suid, fsuid *)
  gids : ids;                (* gid, egid, sgid, fsgid *)
  cr_user : user_struct;
  cr_ucounts : Z;
  cr_caps : Z;
}.

Record cred_state := mk_cstate {
  current_cred : cred;
  prepared : Z;              (* credentials prepared and not yet committed or aborted *)
  PF_NPROC_EXCEEDED : bool;
}.

Definition set_uids (f : ids → ids) (c : cred) : cred :=
  mk_cred (f (uids c)) (gids c) (cr_user c) (cr_ucounts c) (cr_caps c).
Definition set_gids (f : ids → ids) (c : cred) : cred :=
  mk_cred (uids c) (f (gids c)) (cr_user c) (cr_ucounts c) (cr_caps c).
Definition put_rid (k : Z) (i : ids) : ids := mk_ids k (eid i) (sid i) (fsid i).
Definition put_eid (k : Z) (i : ids) : ids := mk_ids (rid i) k (sid i) (fsid i).
Definition put_sid (k : Z) (i : ids) : ids := mk_ids (rid i) (eid i) k (fsid i).
Definition put_fsid (k : Z) (i : ids) : ids := mk_ids (rid i) (eid i) (sid i) k.

(** [(uid_t) -1], which is also the invalid kernel id. *)
Definition NO_ID : Z := 2 ^ 32 - 1.
Definition uid_valid (k : Z) : bool := negb (k =? NO_ID).
Definition given (id : Z) : bool := negb (id =? NO_ID).

Definition CAP_SETGID : Z := 6.
Definition CAP_SETUID : Z := 7.
Definition LSM_SETID_ID : Z := 1.
Definition LSM_SETID_RE : Z := 2.
Definition LSM_SETID_RES : Z := 4.
Definition LSM_SETID_FS : Z := 8.

Record cred_env := mk_env {
  prepare_ok : bool;                             (* prepare_creds() != NULL *)
  make_kuid : Z → Z;
  make_kgid : Z → Z;
  from_kuid_munged : Z → Z;
  from_kgid_munged : Z → Z;
  ns_capable_setid : cred → Z → bool;            (* of old->user_ns *)
  alloc_uid : Z → option user_struct;
  security_task_fix_setuid : cred → cred → Z → Z * cred;
  security_task_fix_setgid : cred → cred → Z → Z * cred;
  set_cred_ucounts : cred → Z * cred;
  nproc_overlimit : cred → bool;
  INIT_USER : Z;
}.

(** The hooks and [set_cred_ucounts] may change capabilities and counters of
    the credentials they are given, not the ids; [alloc_uid] finds or makes the
    entry of the id it is given; reporting an id inverts mapping it. *)
Definition keeps_ids (c c' : cred) : Prop :=
  uids c' = uids c ∧ gids c' = gids c ∧ cr_user c' = cr_user c.

Record env_ok (env : cred_env) : Prop := {
  fix_setuid_ids new old flag : keeps_ids new (security_task_fix_setuid env new old flag).2;
  fix_setgid_ids new old flag : keeps_ids new (security_task_fix_setgid env new old flag).2;
  ucounts_ids new : keeps_ids new (set_cred_ucounts env new).2;
  alloc_uid_kuid k u : alloc_uid env k = Some u → user_kuid u = k;
  munged_kuid u : make_kuid env u ≠ NO_ID → from_kuid_munged env (make_kuid env u) = u;
  munged_kgid g : make_kgid env g ≠ NO_ID → from_kgid_munged env (make_kgid env g) = g;
}.

(** ** Operations *)

Abbreviation st := cred_state.

Definition prepare_creds (env : cred_env) : kst st (option cred) := λ s,
  if prepare_ok env
  then Some (Some (current_cred s),
             mk_cstate (current_cred s) (prepared s + 1) (PF_NPROC_EXCEEDED s))
  else Some (None, s).
Definition abort_creds : kst st unit :=
  kmodify (λ s, mk_cstate (current_cred s) (prepared s - 1) (PF_NPROC_EXCEEDED s)).
Definition commit_creds (new : cred) : kst st Z :=
  kmodify (λ s, mk_cstate new (prepared s - 1) (PF_NPROC_EXCEEDED s));; mret 0.

Definition set_user (env : cred_env) (new : cred) : eres cred :=
  match alloc_uid env (rid (uids new)) with
  | None => fail (- EAGAIN)
  | Some new_user => mret (mk_cred (uids new) (gids new) new_user (cr_ucounts new) (cr_caps new))
  end.

Definition flag_nproc_exceeded (env : cred_env) (new : cred) : kst st unit :=
  kmodify (λ s,
    if cr_ucounts new =? cr_ucounts (current_cred s) then s else
    mk_cstate (current_cred s) (prepared s)
      (nproc_overlimit env new && negb (user_addr (cr_user new) =? INIT_USER env))).

(** A call whose negative result is the [retval] of [goto error]. *)
Definition checked (r : Z * cred) : eres cred := if r.1 <? 0 then fail r.1 else mret r.2.

(** The tail of a uid call and of a gid call. *)
Definition finish_uid (env : cred_env) (r : eres cred) : kst st Z :=
  match r with
  | inl e => abort_creds;; mret e
  | inr new => flag_nproc_exceeded env new;; commit_creds new
  end.
Definition finish_gid (r : eres cred) : kst st Z :=
  match r with
  | inl e => abort_creds;; mret e
  | inr new => commit_creds new
  end.

(** *** setregid, setgid *)
Definition setregid_new (env : cred_env) (old : cred) (rgid egid : Z) : eres cred :=
  let krgid := make_kgid env rgid in
  let kegid := make_kgid env egid in
  let new := old in
  new ← (if given rgid then
           guard_or ((rid (gids old) =? krgid) || (eid (gids old) =? krgid) ||
                     ns_capable_setid env old CAP_SETGID) (- EPERM)
             (mret (set_gids (put_rid krgid) new))
         else mret new);
  new ← (if given egid then
           guard_or ((rid (gids old) =? kegid) || (eid (gids old) =? kegid) ||
                     (sid (gids old) =? kegid) || ns_capable_setid env old CAP_SETGID) (- EPERM)
             (mret (set_gids (put_eid kegid) new))
         else mret new);
  let new :=
    if given rgid || (given egid && negb (kegid =? rid (gids old)))
    then set_gids (λ i, put_sid (eid i) i) new else new in
  let new := set_gids (λ i, put_fsid (eid i) i) new in
  checked (security_task_fix_setgid env new old LSM_SETID_RE).

Definition __sys_setregid (env : cred_env) (rgid egid : Z) : kst st Z :=
  if given rgid && negb (uid_valid (make_kgid env rgid)) then mret (- EINVAL) else
  if given egid && negb (uid_valid (make_kgid env egid)) then mret (- EINVAL) else
  new ← prepare_creds env;
  match new with
  | None => mret (- ENOMEM)
  | Some new => finish_gid (setregid_new env new rgid egid)
  end.

Definition setgid_new (env : cred_env) (old : cred) (gid : Z) : eres cred :=
  let kgid := make_kgid env gid in
  let new := old in
  new ← (if ns_capable_setid env old CAP_SETGID then
           mret (set_gids (λ _, mk_ids kgid kgid kgid kgid) new)
         else if (kgid =? rid (gids old)) || (kgid =? sid (gids old)) then
           mret (set_gids (λ i, put_eid kgid (put_fsid kgid i)) new)
         else fail (- EPERM));
  checked (security_task_fix_setgid env new old LSM_SETID_ID).

Definition __sys_setgid (env : cred_env) (gid : Z) : kst st Z :=
  if negb (uid_valid (make_kgid env gid)) then mret (- EINVAL) else
  new ← prepare_creds env;
  match new with
  | None => mret (- ENOMEM)
  | Some new => finish_gid (setgid_new env new gid)
  end.

(** *** setreuid, setuid *)
Definition setreuid_new (env : cred_env) (old : cred) (ruid euid : Z) : eres cred :=
  let kruid := make_kuid env ruid in
  let keuid := make_kuid env euid in
  let new := old in
  new ← (if given ruid then
           let new := set_uids (put_rid kruid) new in
           if negb (rid (uids old) =? kruid) && negb (eid (uids old) =? kruid) &&
              negb (ns_capable_setid env old CAP_SETUID)
           then fail (- EPERM) else mret new
         else mret new);
  new ← (if given euid then
           let new := set_uids (put_eid keuid) new in
           if negb (rid (uids old) =? keuid) && negb (eid (uids old) =? keuid) &&
              negb (sid (uids old) =? keuid) && negb (ns_capable_setid env old CAP_SETUID)
           then fail (- EPERM) else mret new
         else mret new);
  new ← (if negb (rid (uids new) =? rid (uids old)) then set_user env new else mret new);
  let new :=
    if given ruid || (given euid && negb (keuid =? rid (uids old)))
    then set_uids (λ i, put_sid (eid i) i) new else new in
  let new := set_uids (λ i, put_fsid (eid i) i) new in
  new ← checked (security_task_fix_setuid env new old LSM_SETID_RE);
  checked (set_cred_ucounts env new).

Definition __sys_setreuid (env : cred_env) (ruid euid : Z) : kst st Z :=
  if given ruid && negb (uid_valid (make_kuid env ruid)) then mret (- EINVAL) else
  if given euid && negb (uid_valid (make_kuid env euid)) then mret (- EINVAL) else
  new ← prepare_creds env;
  match new with
  | None => mret (- ENOMEM)
  | Some new => finish_uid env (setreuid_new env new ruid euid)
  end.

Definition setuid_new (env : cred_env) (old : cred) (uid : Z) : eres cred :=
  let kuid := make_kuid env uid in
  let new := old in
  new ← (if ns_capable_setid env old CAP_SETUID then
           let new := set_uids (λ i, put_sid kuid (put_rid kuid i)) new in
           if negb (kuid =? rid (uids old)) then set_user env new else mret new
         else if negb (kuid =? rid (uids old)) && negb (kuid =? sid (uids new)) then
           fail (- EPERM)
         else mret new);
  let new := set_uids (λ i, put_fsid kuid (put_eid kuid i)) new in
  new ← checked (security_task_fix_setuid env new old LSM_SETID_ID);
  checked (set_cred_ucounts env new).

Definition __sys_setuid (env : cred_env) (uid : Z) : kst st Z :=
  if negb (uid_valid (make_kuid env uid)) then mret (- EINVAL) else
  new ← prepare_creds env;
  match new with
  | None => mret (- ENOMEM)
  | Some new => finish_uid env (setuid_new env new uid)
  end.

(** *** setresuid, setresgid: the arguments are checked against the three ids
    before anything is prepared. *)

(** The id is given and is none of the three the task has. *)
Definition id_new (id k : Z) (old : ids) : bool :=
  given id && negb (k =? rid old) && negb (k =? eid old) && negb (k =? sid old).

(** Nothing would change. *)
Definition setres_noop (r e s kr ke ks : Z) (old : ids) : bool :=
  (negb (given r) || (kr =? rid old)) &&
  (negb (given e) || ((ke =? eid old) && (ke =? fsid old))) &&
  (negb (given s) || (ks =? sid old)).

Definition setresuid_new (env : cred_env) (old : cred) (ruid euid suid : Z) : eres cred :=
  let kruid := make_kuid env ruid in
  let keuid := make_kuid env euid in
  let ksuid := make_kuid env suid in
  let new := old in
  new ← (if given ruid then
           let new := set_uids (put_rid kruid) new in
           if negb (kruid =? rid (uids old)) then set_user env new else mret new
         else mret new);
  let new := if given euid then set_uids (put_eid keuid) new else new in
  let new := if given suid then set_uids (put_sid ksuid) new else new in
  let new := set_uids (λ i, put_fsid (eid i) i) new in
  new ← checked (security_task_fix_setuid env new old LSM_SETID_RES);
  checked (set_cred_ucounts env new).

Definition __sys_setresuid (env : cred_env) (ruid euid suid : Z) : kst st Z :=
  let kruid := make_kuid env ruid in
  let keuid := make_kuid env euid in
  let ksuid := make_kuid env suid in
  if given ruid && negb (uid_valid kruid) then mret (- EINVAL) else
  if given euid && negb (uid_valid keuid) then mret (- EINVAL) else
  if given suid && negb (uid_valid ksuid) then mret (- EINVAL) else
  s ← kget;
  let old := current_cred s in
  if setres_noop ruid euid suid kruid keuid ksuid (uids old) then mret 0 else
  if (id_new ruid kruid (uids old) || id_new euid keuid (uids old) ||
      id_new suid ksuid (uids old)) &&
     negb (ns_capable_setid env old CAP_SETUID) then mret (- EPERM) else
  new ← prepare_creds env;
  match new with
  | None => mret (- ENOMEM)
  | Some new => finish_uid env (setresuid_new env new ruid euid suid)
  end.

Definition setresgid_new (env : cred_env) (old : cred) (rgid egid sgid : Z) : eres cred :=
  let new := old in
  let new := if given rgid then set_gids (put_rid (make_kgid env rgid)) new else new in
  let new := if given egid then set_gids (put_eid (make_kgid env egid)) new else new in
  let new := if given sgid then set_gids (put_sid (make_kgid env sgid)) new else new in
  let new := set_gids (λ i, put_fsid (eid i) i) new in
  checked (security_task_fix_setgid env new old LSM_SETID_RES).

Definition __sys_setresgid (env : cred_env) (rgid egid sgid : Z) : kst st Z :=
  let krgid := make_kgid env rgid in
  let kegid := make_kgid env egid in
  let ksgid := make_kgid env sgid in
  if given rgid && negb (uid_valid krgid) then mret (- EINVAL) else
  if given egid && negb (uid_valid kegid) then mret (- EINVAL) else
  if given sgid && negb (uid_valid ksgid) then mret (- EINVAL) else
  s ← kget;
  let old := current_cred s in
  if setres_noop rgid egid sgid krgid kegid ksgid (gids old) then mret 0 else
  if (id_new rgid krgid (gids old) || id_new egid kegid (gids old) ||
      id_new sgid ksgid (gids old)) &&
     negb (ns_capable_setid env old CAP_SETGID) then mret (- EPERM) else
  new ← prepare_creds env;
  match new with
  | None => mret (- ENOMEM)
  | Some new => finish_gid (setresgid_new env new rgid egid sgid)
  end.

(** *** setfsuid, setfsgid: they report the old id whatever happens *)
Definition fs_allowed (k : Z) (old : ids) (capable : bool) : bool :=
  (k =? rid old) || (k =? eid old) || (k =? sid old) || (k =? fsid old) || capable.

Definition __sys_setfsuid (env : cred_env) (uid : Z) : kst st Z :=
  s ← kget;
  let old := current_cred s in
  let old_fsuid := from_kuid_munged env (fsid (uids old)) in
  let kuid := make_kuid env uid in
  if negb (uid_valid kuid) then mret old_fsuid else
  new ← prepare_creds env;
  match new with
  | None => mret old_fsuid
  | Some new =>
      if fs_allowed kuid (uids old) (ns_capable_setid env old CAP_SETUID) &&
         negb (kuid =? fsid (uids old))
      then
        let new := set_uids (put_fsid kuid) new in
        let '(ret, new) := security_task_fix_setuid env new old LSM_SETID_FS in
        if ret =? 0 then commit_creds new;; mret old_fsuid
        else abort_creds;; mret old_fsuid
      else abort_creds;; mret old_fsuid
  end.

Definition __sys_setfsgid (env : cred_env) (gid : Z) : kst st Z :=
  s ← kget;
  let old := current_cred s in
  let old_fsgid := from_kgid_munged env (fsid (gids old)) in
  let kgid := make_kgid env gid in
  if negb (uid_valid kgid) then mret old_fsgid else
  new ← prepare_creds env;
  match new with
  | None => mret old_fsgid
  | Some new =>
      if fs_allowed kgid (gids old) (ns_capable_setid env old CAP_SETGID) &&
         negb (kgid =? fsid (gids old))
      then
        let new := set_gids (put_fsid kgid) new in
        let '(ret, new) := security_task_fix_setgid env new old LSM_SETID_FS in
        if ret =? 0 then commit_creds new;; mret old_fsgid
        else abort_creds;; mret old_fsgid
      else abort_creds;; mret old_fsgid
  end.

(** *** The calls that report ids *)
Definition put3 {M} `{UserAccess M} (v1 p1 v2 p2 v3 p3 : Z) (m : M) : Z * M :=
  let '(retval, m) := put_user_u32 v1 p1 m in
  if nz retval then (retval, m) else
  let '(retval, m) := put_user_u32 v2 p2 m in
  if nz retval then (retval, m) else
  put_user_u32 v3 p3 m.

Definition sys_getresuid {M} `{UserAccess M} (env : cred_env) (cred : cred)
    (ruidp euidp suidp : Z) (m : M) : Z * M :=
  let ruid := from_kuid_munged env (rid (uids cred)) in
  let euid := from_kuid_munged env (eid (uids cred)) in
  let suid := from_kuid_munged env (sid (uids cred)) in
  put3 ruid ruidp euid euidp suid suidp m.

Definition sys_getresgid {M} `{UserAccess M} (env : cred_env) (cred : cred)
    (rgidp egidp sgidp : Z) (m : M) : Z * M :=
  let rgid := from_kgid_munged env (rid (gids cred)) in
  let egid := from_kgid_munged env (eid (gids cred)) in
  let sgid := from_kgid_munged env (sid (gids cred)) in
  put3 rgid rgidp egid egidp sgid sgidp m.

Definition sys_getuid (env : cred_env) (cred : cred) : Z := from_kuid_munged env (rid (uids cred)).
Definition sys_geteuid (env : cred_env) (cred : cred) : Z := from_kuid_munged env (eid (uids cred)).
Definition sys_getgid (env : cred_env) (cred : cred) : Z := from_kgid_munged env (rid (gids cred)).
Definition sys_getegid (env : cred_env) (cred : cred) : Z := from_kgid_munged env (eid (gids cred)).

(** ** The calls as transitions *)
Inductive cred_call :=
  | Setregid (rgid egid : Z)
  | Setgid (gid : Z)
  | Setreuid (ruid euid : Z)
  | Setuid (uid : Z)
  | Setresuid (ruid euid suid : Z)
  | Setresgid (rgid egid sgid : Z)
  | Setfsuid (uid : Z)
  | Setfsgid (gid : Z).

Definition do_cred_call (env : cred_env) (c : cred_call) : kst st Z :=
  match c with
  | Setregid rgid egid => __sys_setregid env rgid egid
  | Setgid gid => __sys_setgid env gid
  | Setreuid ruid euid => __sys_setreuid env ruid euid
  | Setuid uid => __sys_setuid env uid
  | Setresuid ruid euid suid => __sys_setresuid env ruid euid suid
  | Setresgid rgid egid sgid => __sys_setresgid env rgid egid sgid
  | Setfsuid uid => __sys_setfsuid env uid
  | Setfsgid gid => __sys_setfsgid env gid
  end.

Inductive cred_step (P : cred_env → cred → Prop) : st → st → Prop :=
  | cred_step_call env c s r s' :
      env_ok env → P env (current_cred s) →
      do_cred_call env c s = Some (r, s') → cred_step P s s'.

(** Any sequence of calls; [P] restricts the environments met on the way. *)
Inductive cred_steps (P : cred_env → cred → Prop) : st → st → Prop :=
  | cred_steps_refl s : cred_steps P s s
  | cred_steps_cons s1 s2 s3 :
      cred_steps P s1 s2 → cred_step P s2 s3 → cred_steps P s1 s3.

(** The task has neither capability, in its credentials of that moment. *)
Definition unprivileged (env : cred_env) (c : cred) : Prop :=
  ns_capable_setid env c CAP_SETUID = false ∧ ns_capable_setid env c CAP_SETGID = false.

(** ** Lemmas *)

Ltac bool_facts :=
  repeat match goal with
  | H : _ || _ = true |- _ => apply orb_true_iff in H
  | H : _ || _ = false |- _ => apply orb_false_iff in H as [? H]
  | H : _ && _ = true |- _ => apply andb_true_iff in H as [? H]
  | H : _ && _ = false |- _ => apply andb_false_iff in H
  | H : negb _ = true |- _ => apply negb_true_iff in H
  | H : negb _ = false |- _ => apply negb_false_iff in H
  | H : (_ =? _) = true |- _ => apply Z.eqb_eq in H
  | H : (_ =? _) = false |- _ => apply Z.eqb_neq in H
  | H : _ ∨ _ |- _ => destruct H as [H|H]
  end.

(** The ids of [i] come from those of [j]: real, effective and saved from the
    three, the file system one from the four. *)
Definition res_of (i : ids) : list Z := [rid i; eid i; sid i].
Definition ids_within (i j : ids) : Prop :=
  rid i ∈ res_of j ∧ eid i ∈ res_of j ∧ sid i ∈ res_of j ∧ fsid i ∈ fsid j :: res_of j.

Definition ids_valid (i : ids) : Prop :=
  rid i ≠ NO_ID ∧ eid i ≠ NO_ID ∧ sid i ≠ NO_ID ∧ fsid i ≠ NO_ID.

(** Well-formed credentials: every id is valid and the user structure is the
    one of the real uid. *)
Definition cred_ok (c : cred) : Prop :=
  ids_valid (uids c) ∧ ids_valid (gids c) ∧ user_kuid (cr_user c) = rid (uids c).

Ltac ids_in := unfold res_of in *; simpl in *; rewrite ?elem_of_cons, ?elem_of_nil in *; tauto.

Lemma ids_within_refl i : ids_within i i.
Proof. unfold ids_within. repeat split; ids_in. Qed.

Lemma ids_within_trans i j k : ids_within i j → ids_within j k → ids_within i k.
Proof.
  intros (Hr & He & Hs & Hf) (Hr' & He' & Hs' & Hf').
  assert (Hsub : ∀ x, x ∈ res_of j → x ∈ res_of k).
  { unfold res_of at 1. intros x Hx.
    rewrite !elem_of_cons, elem_of_nil in Hx. by destruct_or! Hx; subst. }
  split; [auto|]. split; [auto|]. split; [auto|].
  apply elem_of_cons in Hf as [->|Hf]; [done|]. apply elem_of_cons. auto.
Qed.

Lemma rid_res i : rid i ∈ res_of i.
Proof. ids_in. Qed.
Lemma eid_res i : eid i ∈ res_of i.
Proof. ids_in. Qed.
Lemma sid_res i : sid i ∈ res_of i.
Proof. ids_in. Qed.
Lemma res_fs i k : k ∈ res_of i → k ∈ fsid i :: res_of i.
Proof. intros Hk. apply elem_of_cons. auto. Qed.
Lemma fs_fs i : fsid i ∈ fsid i :: res_of i.
Proof. apply elem_of_cons. auto. Qed.
#[local] Hint Resolve rid_res eid_res sid_res res_fs fs_fs : kernel.

Lemma id_new_false id k old : id_new id k old = false → given id = true → k ∈ res_of old.
Proof.
  unfold id_new, res_of. intros Hn Hg. rewrite Hg in Hn. simpl in Hn.
  rewrite !elem_of_cons. destruct (Z.eqb_spec k (rid old)), (Z.eqb_spec k (eid old)),
    (Z.eqb_spec k (sid old)); try done; auto.
Qed.

(** Equal real, effective and saved ids stay equal. *)
Lemma ids_within_const i k : ids_within i (mk_ids k k k k) → i = mk_ids k k k k.
Proof.
  destruct i as [r e s f]. unfold ids_within, res_of. simpl.
  rewrite !elem_of_cons, !elem_of_nil. intros (? & ? & ? & ?). f_equal; tauto.
Qed.

Lemma keeps_ids_trans a b c : keeps_ids a b → keeps_ids b c → keeps_ids a c.
Proof. unfold keeps_ids. intuition congruence. Qed.

Lemma cred_ok_keeps a b : keeps_ids a b → cred_ok a → cred_ok b.
Proof. unfold keeps_ids, cred_ok. intros (-> & -> & ->). done. Qed.

Lemma checked_inr r c : checked r = inr c → c = r.2.
Proof. unfold checked. destruct (r.1 <? 0); [done|]. by intros [= <-]. Qed.

Lemma checked_inl r e : checked r = inl e → e < 0.
Proof. unfold checked. destruct (Z.ltb_spec r.1 0); [by intros [= <-]|done]. Qed.

Section updates.
Context (env : cred_env) (Henv : env_ok env).

Lemma uid_hooks new old flag c :
  (new ← checked (security_task_fix_setuid env new old flag); checked (set_cred_ucounts env new))
    = inr c → keeps_ids new c.
Proof using Henv.
  intros (c1 & H1 & H2)%eres_bind_inr.
  apply checked_inr in H1 as ->. apply checked_inr in H2 as ->.
  eapply keeps_ids_trans; [apply fix_setuid_ids | apply ucounts_ids]; done.
Qed.

Lemma gid_hook new old flag c :
  checked (security_task_fix_setgid env new old flag) = inr c → keeps_ids new c.
Proof using Henv. intros ->%checked_inr. by apply fix_setgid_ids. Qed.

(** [set_user] when the real uid changed: the ids are those of [new], and the
    user structure is the one of the real uid. *)
Lemma maybe_set_user old new c :
  (if negb (rid (uids new) =? rid (uids old)) then set_user env new else mret new) = inr c →
  cr_user new = cr_user old → user_kuid (cr_user old) = rid (uids old) →
  uids c = uids new ∧ gids c = gids new ∧ user_kuid (cr_user c) = rid (uids new).
Proof using Henv.
  intros Hc Hu Hk. destruct (Z.eqb_spec (rid (uids new)) (rid (uids old))) as [He|He];
    simpl in Hc.
  - injection Hc as <-. by rewrite Hu, Hk.
  - unfold set_user in Hc. destruct (alloc_uid env _) as [u|] eqn:Ha; [|done].
    injection Hc as <-. simpl. apply alloc_uid_kuid in Ha; done.
Qed.
Lemma maybe_set_user_ids b new c :
  (if (b : bool) then set_user env new else mret new) = inr c →
  uids c = uids new ∧ gids c = gids new.
Proof using.
  destruct b; [|by intros [= <-]]. unfold set_user. destruct (alloc_uid _ _); [|done].
  by intros [= <-].
Qed.
End updates.

(** What a committed change did to the credentials. *)
Definition update_ok (env : cred_env) (old new : cred) : Prop :=
  (unprivileged env old →
     ids_within (uids new) (uids old) ∧ ids_within (gids new) (gids old)) ∧
  (cred_ok old → cred_ok new).

Definition valid_if_given (id k : Z) : Prop := given id = true → k ≠ NO_ID.

(** Membership goals about concrete ids. *)
Ltac ids_brute :=
  unfold ids_within, res_of, ids_valid in *; simpl in *;
  rewrite ?elem_of_cons, ?elem_of_nil in *; intuition congruence.

(** Goals about the ids of an update, whose tests have been decided: every id
    is an old one or an argument the facts speak of. *)
Ltac ids_done :=
  unfold ids_within, ids_valid in *; simpl in *;
  split_and?; simpl; (tauto || (auto 6 with kernel; done)).

Section update_lemmas.
Context (env : cred_env) (Henv : env_ok env).

(** The shape shared by the uid updates: ids [i], the user structure brought up
    to date, then the hooks. *)
Lemma uid_update old mid new flag i :
  (new ← checked (security_task_fix_setuid env (set_uids (λ _, i) mid) old flag);
   checked (set_cred_ucounts env new)) = inr new →
  gids mid = gids old →
  (cred_ok old → ids_valid i ∧ user_kuid (cr_user mid) = rid i) →
  (unprivileged env old → ids_within i (uids old)) →
  update_ok env old new.
Proof using Henv.
  intros Hh Hg Hv Hw. apply uid_hooks in Hh as (Hu & Hgg & Hus); [|done].
  simpl in *. unfold update_ok, cred_ok. rewrite Hu, Hgg, Hus, Hg. split.
  - intros Hun. split; [by apply Hw | apply ids_within_refl].
  - intros Hok. destruct (Hv Hok). destruct Hok as (H1 & H2 & H3). done.
Qed.

Lemma gid_update old new flag i :
  checked (security_task_fix_setgid env (set_gids (λ _, i) old) old flag) = inr new →
  (cred_ok old → ids_valid i) →
  (unprivileged env old → ids_within i (gids old)) →
  update_ok env old new.
Proof using Henv.
  intros Hh Hv Hw. apply gid_hook in Hh as (Hu & Hgg & Hus); [|done].
  simpl in *. unfold update_ok, cred_ok. rewrite Hu, Hgg, Hus. split.
  - intros Hun. split; [apply ids_within_refl | by apply Hw].
  - intros Hok. pose proof (Hv Hok). destruct Hok as (H1 & H2 & H3). done.
Qed.

Lemma setregid_update old rgid egid new :
  valid_if_given rgid (make_kgid env rgid) → valid_if_given egid (make_kgid env egid) →
  setregid_new env old rgid egid = inr new → update_ok env old new.
Proof using Henv.
  intros Hvr Hve Hnew. unfold setregid_new in Hnew.
  apply eres_bind_inr in Hnew as (n1 & H1 & Hnew).
  apply eres_bind_inr in Hnew as (n2 & H2 & Hnew).
  unfold guard_or in *. unfold valid_if_given in *.
  set (kr := make_kgid env rgid) in *. set (ke := make_kgid env egid) in *.
  assert (Hs1 : n1 = (if given rgid then set_gids (put_rid kr) old else old) ∧
    (unprivileged env old → given rgid = true → kr ∈ res_of (gids old))).
  { unfold unprivileged. destruct (given rgid); [|injection H1 as <-; done].
    destruct (_ || _) eqn:Hp; [|done]. injection H1 as <-. split; [done|].
    intros [_ Hc] _. rewrite Hc in Hp. bool_facts; try done; ids_brute. }
  clear H1. assert (Hs2 : n2 = (if given egid then set_gids (put_eid ke) n1 else n1) ∧
    (unprivileged env old → given egid = true → ke ∈ res_of (gids old))).
  { unfold unprivileged. destruct (given egid); [|injection H2 as <-; done].
    destruct (_ || _) eqn:Hp; [|done]. injection H2 as <-. split; [done|].
    intros [_ Hc] _. rewrite Hc in Hp. bool_facts; try done; ids_brute. }
  destruct Hs1 as [-> Hp1]. destruct Hs2 as [-> Hp2]. clear H2.
  destruct (given rgid), (given egid); simpl in *;
    try destruct (negb (ke =? rid (gids old)));
    (eapply gid_update; [exact Hnew | intros [_ [Hok _]] |
       intros Hun; specialize (Hp1 Hun); specialize (Hp2 Hun)]); ids_done.
Qed.

Lemma setgid_update old gid new :
  make_kgid env gid ≠ NO_ID →
  setgid_new env old gid = inr new → update_ok env old new.
Proof using Henv.
  intros Hv Hnew. unfold setgid_new in Hnew.
  apply eres_bind_inr in Hnew as (n1 & H1 & Hnew). unfold mret, eres_ret in *.
  destruct old as [u g us uc cp]. destruct g as [gr ge gs gf].
  simpl in *. repeat case_match; simplify_eq; simpl in *;
    (eapply gid_update; [exact Hnew | |]); unfold cred_ok, unprivileged; simpl;
    intros; bool_facts; ids_brute.
Qed.

Lemma setresgid_update old rgid egid sgid new :
  let kr := make_kgid env rgid in let ke := make_kgid env egid in
  let ks := make_kgid env sgid in
  valid_if_given rgid kr → valid_if_given egid ke → valid_if_given sgid ks →
  (id_new rgid kr (gids old) || id_new egid ke (gids old) || id_new sgid ks (gids old)) &&
    negb (ns_capable_setid env old CAP_SETGID) = false →
  setresgid_new env old rgid egid sgid = inr new → update_ok env old new.
Proof using Henv.
  intros kr ke ks Hvr Hve Hvs Hperm Hnew. unfold setresgid_new in *.
  unfold valid_if_given in *. fold kr ke ks in Hnew.
  assert (Hp : unprivileged env old → (given rgid = true → kr ∈ res_of (gids old)) ∧
    (given egid = true → ke ∈ res_of (gids old)) ∧
    (given sgid = true → ks ∈ res_of (gids old))).
  { intros [_ Hc]. rewrite Hc, andb_true_r in Hperm. bool_facts.
    split_and!; intros; by eapply id_new_false. }
  clear Hperm.
  destruct (given rgid), (given egid), (given sgid); simpl in *;
    (eapply gid_update; [exact Hnew | intros [_ [Hok _]] |
       intros Hun; specialize (Hp Hun); destruct Hp as (Hp1 & Hp2 & Hp3)]); ids_done.
Qed.

(** The user structure after the optional [set_user] is the one of the new
    real uid, when the test that guards it is the change of the real uid. *)
Lemma set_user_step old new n b :
  (if (b : bool) then set_user env new else mret new) = inr n →
  cr_user new = cr_user old →
  (b = false → rid (uids new) = rid (uids old)) →
  uids n = uids new ∧ gids n = gids new ∧ (cred_ok old → user_kuid (cr_user n) = rid (uids new)).
Proof using Henv.
  intros Hn Hu Hb. destruct (maybe_set_user_ids env b new n Hn) as [Hi Hg].
  split; [done|]. split; [done|]. intros (_ & _ & Hk).
  destruct b; simpl in Hn.
  - unfold set_user in Hn. destruct (alloc_uid env _) as [us|] eqn:Ha; [|done].
    injection Hn as <-. simpl. by apply (alloc_uid_kuid env Henv).
  - injection Hn as <-. by rewrite Hu, Hk, Hb.
Qed.

Lemma setreuid_update old ruid euid new :
  valid_if_given ruid (make_kuid env ruid) → valid_if_given euid (make_kuid env euid) →
  setreuid_new env old ruid euid = inr new → update_ok env old new.
Proof using Henv.
  intros Hvr Hve Hnew. unfold setreuid_new in Hnew.
  apply eres_bind_inr in Hnew as (n1 & H1 & Hnew).
  apply eres_bind_inr in Hnew as (n2 & H2 & Hnew).
  apply eres_bind_inr in Hnew as (n3 & H3 & Hnew).
  set (kr := make_kuid env ruid) in *. set (ke := make_kuid env euid) in *.
  assert (Hs1 : uids n1 = (if given ruid then put_rid kr (uids old) else uids old) ∧
    gids n1 = gids old ∧ cr_user n1 = cr_user old ∧
    (unprivileged env old → given ruid = true → kr ∈ res_of (uids old))).
  { unfold unprivileged. destruct (given ruid); cbv zeta in H1; [|injection H1 as <-; done].
    destruct (_ && _) eqn:Hp in H1; [done|]. injection H1 as <-. split_and!; try done.
    intros [Hc _] _. rewrite Hc in Hp. bool_facts; try done; ids_brute. }
  assert (Hs2 : uids n2 = (if given euid then put_eid ke (uids n1) else uids n1) ∧
    gids n2 = gids n1 ∧ cr_user n2 = cr_user n1 ∧
    (unprivileged env old → given euid = true → ke ∈ res_of (uids old))).
  { unfold unprivileged. destruct (given euid); cbv zeta in H2; [|injection H2 as <-; done].
    destruct (_ && _) eqn:Hp in H2; [done|]. injection H2 as <-. split_and!; try done.
    intros [Hc _] _. rewrite Hc in Hp. bool_facts; try done; ids_brute. }
  destruct Hs1 as (Hi1 & Hg1 & Hu1 & Hp1). destruct Hs2 as (Hi2 & Hg2 & Hu2 & Hp2).
  apply (set_user_step old) in H3 as (Hi3 & Hg3 & Hk3); [|congruence|].
  2: { intros Hb. by apply negb_false_iff, Z.eqb_eq in Hb. }
  clear H1 H2. rewrite Hi1 in Hi2.
  apply (uid_update old n3 new LSM_SETID_RE
    (let j := uids n2 in put_fsid (eid j) (if given ruid || (given euid && negb (ke =? rid (uids old)))
     then put_sid (eid j) j else j))); [|congruence| |]; rewrite Hi2.
  - rewrite <-Hi2, <-Hi3. destruct (given ruid || _); exact Hnew.
  - intros Hok. split; [|rewrite Hk3 by done; rewrite Hi2; cbv zeta; by destruct (_ || _)].
    destruct Hok as [Hok _]. unfold valid_if_given in *. cbv zeta.
    destruct (given ruid), (given euid); simpl orb; simpl andb;
      try destruct (negb _); ids_done.
  - intros Hun. specialize (Hp1 Hun). specialize (Hp2 Hun). cbv zeta.
    destruct (given ruid), (given euid); simpl orb; simpl andb;
      try destruct (negb _); ids_done.
Qed.

Lemma setuid_update old uid new :
  make_kuid env uid ≠ NO_ID →
  setuid_new env old uid = inr new → update_ok env old new.
Proof using Henv.
  intros Hv Hnew. unfold setuid_new in Hnew.
  apply eres_bind_inr in Hnew as (n1 & H1 & Hnew).
  destruct old as [[gr ge gs gf] g us uc cp]. unfold mret, eres_ret, fail in *. simpl in *.
  destruct (ns_capable_setid env _ CAP_SETUID) eqn:Hcap.
  - apply (set_user_step (mk_cred (mk_ids gr ge gs gf) g us uc cp)) in H1 as (Hi & Hg & Hk);
      [|done|]; simpl in *.
    2: { intros Hb. by apply negb_false_iff, Z.eqb_eq in Hb. }
    eapply (uid_update _ n1); [exact Hnew | done | |]; rewrite ?Hi; simpl.
    + intros Hok. specialize (Hk Hok). unfold cred_ok in *. ids_brute.
    + unfold unprivileged. intros [? _]. congruence.
  - repeat case_match; simplify_eq; bool_facts; simpl in *;
      (eapply (uid_update _ (mk_cred _ g us uc cp)); [exact Hnew | done | |]);
      unfold cred_ok; simpl; intros; ids_brute.
Qed.

Lemma setresuid_update old ruid euid suid new :
  let kr := make_kuid env ruid in let ke := make_kuid env euid in
  let ks := make_kuid env suid in
  valid_if_given ruid kr → valid_if_given euid ke → valid_if_given suid ks →
  (id_new ruid kr (uids old) || id_new euid ke (uids old) || id_new suid ks (uids old)) &&
    negb (ns_capable_setid env old CAP_SETUID) = false →
  setresuid_new env old ruid euid suid = inr new → update_ok env old new.
Proof using Henv.
  intros kr ke ks Hvr Hve Hvs Hperm Hnew. unfold setresuid_new in *.
  apply eres_bind_inr in Hnew as (n1 & H1 & Hnew). fold kr ke ks in H1, Hnew.
  assert (Hn1 : uids n1 = (if given ruid then put_rid kr (uids old) else uids old) ∧
    gids n1 = gids old ∧
    (cred_ok old → user_kuid (cr_user n1) = rid (uids n1))).
  { destruct (given ruid); simpl in H1.
    - apply (set_user_step old) in H1 as (Hi & Hg & Hk); [|done|].
      2: { intros Hb. by apply negb_false_iff, Z.eqb_eq in Hb. }
      rewrite Hi. done.
    - injection H1 as <-. split; [done|]. split; [done|]. intros (_ & _ & Hk). done. }
  destruct Hn1 as (Hi & Hg & Hk). clear H1. unfold valid_if_given in *.
  assert (Hp : unprivileged env old → (given ruid = true → kr ∈ res_of (uids old)) ∧
    (given euid = true → ke ∈ res_of (uids old)) ∧
    (given suid = true → ks ∈ res_of (uids old))).
  { intros [Hc _]. rewrite Hc, andb_true_r in Hperm. bool_facts.
    split_and!; intros; by eapply id_new_false. }
  clear Hperm. destruct n1 as [i1 g1 us1 uc1 cp1]. simpl in Hi, Hg, Hk. subst i1 g1.
  destruct (given ruid), (given euid), (given suid); simpl in *;
    (eapply (uid_update old (mk_cred _ _ _ _ _)); [exact Hnew | done |
       intros Hok; split; [destruct Hok as [Hok _] | exact (Hk Hok)] |
       intros Hun; specialize (Hp Hun); destruct Hp as (Hp1 & Hp2 & Hp3)]); try ids_done.
Qed.

Lemma setfsuid_update old uid new ret :
  make_kuid env uid ≠ NO_ID →
  fs_allowed (make_kuid env uid) (uids old) (ns_capable_setid env old CAP_SETUID) = true →
  security_task_fix_setuid env (set_uids (put_fsid (make_kuid env uid)) old) old LSM_SETID_FS
    = (ret, new) → update_ok env old new.
Proof using Henv.
  intros Hv Hal Hfix.
  pose proof (fix_setuid_ids env Henv (set_uids (put_fsid (make_kuid env uid)) old) old
    LSM_SETID_FS) as (Hu & Hg & Hus).
  rewrite Hfix in Hu, Hg, Hus. simpl in *.
  destruct old as [[gr ge gs gf] g us uc cp]. unfold update_ok, cred_ok, fs_allowed in *.
  simpl in *. rewrite Hu, Hg, Hus. unfold unprivileged.
  split; [|simpl; ids_brute]. intros [Hc _]. rewrite Hc in Hal.
  split; [|apply ids_within_refl]. bool_facts; try done; ids_brute.
Qed.

Lemma setfsgid_update old gid new ret :
  make_kgid env gid ≠ NO_ID →
  fs_allowed (make_kgid env gid) (gids old) (ns_capable_setid env old CAP_SETGID) = true →
  security_task_fix_setgid env (set_gids (put_fsid (make_kgid env gid)) old) old LSM_SETID_FS
    = (ret, new) → update_ok env old new.
Proof using Henv.
  intros Hv Hal Hfix.
  pose proof (fix_setgid_ids env Henv (set_gids (put_fsid (make_kgid env gid)) old) old
    LSM_SETID_FS) as (Hu & Hg & Hus).
  rewrite Hfix in Hu, Hg, Hus. simpl in *.
  destruct old as [u [gr ge gs gf] us uc cp]. unfold update_ok, cred_ok, fs_allowed in *.
  simpl in *. rewrite Hu, Hg, Hus. unfold unprivileged.
  split; [|simpl; ids_brute]. intros [_ Hc]. rewrite Hc in Hal.
  split; [apply ids_within_refl|]. bool_facts; try done; ids_brute.
Qed.
End update_lemmas.

(** ** What a call does to the state *)

Lemma prepare_uid_run env (F : cred → eres cred) s :
  ∃ r s', (new ← prepare_creds env;
           match new with
           | None => mret (- ENOMEM)
           | Some new => finish_uid env (F new)
           end) s = Some (r, s') ∧ prepared s' = prepared s ∧
    (current_cred s' = current_cred s ∧ (r = - ENOMEM ∨ F (current_cred s) = inl r) ∨
     r = 0 ∧ F (current_cred s) = inr (current_cred s')).
Proof.
  unfold prepare_creds. unfold mbind, kst_bind. destruct (prepare_ok env).
  2: { eexists _, _. split; [reflexivity|]. auto. }
  unfold finish_uid, flag_nproc_exceeded, abort_creds, commit_creds.
  destruct (F (current_cred s)) as [e|new]; krun; (eexists _, _; split; [reflexivity|]).
  - simpl. split; [lia | auto].
  - cbv beta. destruct (_ =? _); simpl; split; (lia || auto).
Qed.

Lemma prepare_gid_run env (F : cred → eres cred) s :
  ∃ r s', (new ← prepare_creds env;
           match new with
           | None => mret (- ENOMEM)
           | Some new => finish_gid (F new)
           end) s = Some (r, s') ∧ prepared s' = prepared s ∧
    (current_cred s' = current_cred s ∧ (r = - ENOMEM ∨ F (current_cred s) = inl r) ∨
     r = 0 ∧ F (current_cred s) = inr (current_cred s')).
Proof.
  unfold prepare_creds. unfold mbind, kst_bind. destruct (prepare_ok env).
  2: { eexists _, _. split; [reflexivity|]. auto. }
  unfold finish_gid. destruct (F (current_cred s)) as [e|new]; simpl;
    eexists _, _; (split; [reflexivity|]); simpl; split; (lia || auto).
Qed.

(** The two calls whose result is an id and not a status. *)
Definition is_fs (c : cred_call) : bool :=
  match c with Setfsuid _ | Setfsgid _ => true | _ => false end.

Definition outcome (env : cred_env) (c : cred_call) (s : st) (r : Z) (s' : st) : Prop :=
  prepared s' = prepared s ∧
  (current_cred s' = current_cred s ∨
   update_ok env (current_cred s) (current_cred s') ∧ (is_fs c = false → r = 0)).

Lemma outcome_same env c s r : outcome env c s r s.
Proof. split; auto. Qed.

(** A handler that ended in the shared tail. *)
Lemma outcome_run env c s (m : kst st Z) F :
  is_fs c = false →
  (∃ r s', m s = Some (r, s') ∧ prepared s' = prepared s ∧
    (current_cred s' = current_cred s ∧ (r = - ENOMEM ∨ F (current_cred s) = inl r) ∨
     r = 0 ∧ F (current_cred s) = inr (current_cred s'))) →
  (∀ new, F (current_cred s) = inr new → update_ok env (current_cred s) new) →
  ∃ r s', m s = Some (r, s') ∧ outcome env c s r s'.
Proof.
  intros Hfs (r & s' & Hrun & Hp & Hcase) Hup. exists r, s'. split; [done|].
  split; [done|]. destruct Hcase as [[Hc _]|[Hr Hc]]; [auto|].
  right. split; [by apply Hup | auto].
Qed.

Ltac early := eexists _, _; split; [reflexivity | apply outcome_same].

Lemma given_valid id k : given id && negb (uid_valid k) = false → valid_if_given id k.
Proof.
  unfold valid_if_given, uid_valid. intros Hv Hg. rewrite Hg in Hv. simpl in Hv.
  destruct (Z.eqb_spec k NO_ID); done.
Qed.
Lemma uid_valid_ne k : negb (uid_valid k) = false → k ≠ NO_ID.
Proof. unfold uid_valid. by destruct (Z.eqb_spec k NO_ID). Qed.

Lemma call_outcome env c s :
  env_ok env → ∃ r s', do_cred_call env c s = Some (r, s') ∧ outcome env c s r s'.
Proof.
  intros Henv. destruct c as [rgid egid|gid|ruid euid|uid|ruid euid suid|rgid egid sgid|uid|gid];
    simpl.
  - unfold __sys_setregid. do 2 (case_match; [early|]).
    eapply outcome_run; [done | apply prepare_gid_run |].
    eauto using setregid_update, given_valid.
  - unfold __sys_setgid. case_match; [early|].
    eapply outcome_run; [done | apply prepare_gid_run |].
    eauto using setgid_update, uid_valid_ne.
  - unfold __sys_setreuid. do 2 (case_match; [early|]).
    eapply outcome_run; [done | apply prepare_uid_run |].
    eauto using setreuid_update, given_valid.
  - unfold __sys_setuid. case_match; [early|].
    eapply outcome_run; [done | apply prepare_uid_run |].
    eauto using setuid_update, uid_valid_ne.
  - unfold __sys_setresuid. do 3 (case_match; [early|]). krun.
    do 2 (case_match; [early|]).
    eapply outcome_run; [done | apply prepare_uid_run |].
    eauto using setresuid_update, given_valid.
  - unfold __sys_setresgid. do 3 (case_match; [early|]). krun.
    do 2 (case_match; [early|]).
    eapply outcome_run; [done | apply prepare_gid_run |].
    eauto using setresgid_update, given_valid.
  - unfold __sys_setfsuid. krun. case_match eqn:Hv; [early|]. unfold prepare_creds.
    unfold mbind at 1, kst_bind at 1. destruct (prepare_ok env); [|early].
    destruct (fs_allowed _ _ _ && _) eqn:Hal.
    2: { eexists _, _. split; [reflexivity|]. split; simpl; [lia | auto]. }
    destruct (security_task_fix_setuid _ _ _ _) as [ret new] eqn:Hfix.
    apply andb_true_iff in Hal as [Hal _].
    case_match; eexists _, _; (split; [reflexivity|]); split; simpl; try lia; [right | auto].
    split; [|done]. by eapply setfsuid_update; [| apply uid_valid_ne | |].
  - unfold __sys_setfsgid. krun. case_match eqn:Hv; [early|]. unfold prepare_creds.
    unfold mbind at 1, kst_bind at 1. destruct (prepare_ok env); [|early].
    destruct (fs_allowed _ _ _ && _) eqn:Hal.
    2: { eexists _, _. split; [reflexivity|]. split; simpl; [lia | auto]. }
    destruct (security_task_fix_setgid _ _ _ _) as [ret new] eqn:Hfix.
    apply andb_true_iff in Hal as [Hal _].
    case_match; eexists _, _; (split; [reflexivity|]); split; simpl; try lia; [right | auto].
    split; [|done]. by eapply setfsgid_update; [| apply uid_valid_ne | |].
Qed.

Lemma steps_invariant (I : cred_state → cred_state → Prop) P s s' :
  (∀ s, I s s) →
  (∀ env s1 s2 s3 c r, env_ok env → P env (current_cred s2) → I s1 s2 →
     do_cred_call env c s2 = Some (r, s3) → outcome env c s2 r s3 → I s1 s3) →
  cred_steps P s s' → I s s'.
Proof.
  intros Hrefl Hstep Hs. induction Hs as [s|s1 s2 s3 Hs IH Hst]; [done|].
  destruct Hst as [env c s2 r s3 Henv HP Hrun].
  destruct (call_outcome env c s2 Henv) as (r' & s3' & Hrun' & Hout).
  rewrite Hrun in Hrun'. injection Hrun' as <- <-. eauto.
Qed.

Lemma unprivileged_within s s' :
  cred_steps unprivileged s s' →
  ids_within (uids (current_cred s')) (uids (current_cred s)) ∧
  ids_within (gids (current_cred s')) (gids (current_cred s)).
Proof.
  apply (steps_invariant (λ s s',
    ids_within (uids (current_cred s')) (uids (current_cred s)) ∧
    ids_within (gids (current_cred s')) (gids (current_cred s)))).
  - intros s0. split; apply ids_within_refl.
  - intros env s1 s2 s3 c r Henv HP [Hu Hg] _ [_ [->|[[Hw _] _]]]; [done|].
    destruct (Hw HP) as [Hu' Hg']. split; by eapply ids_within_trans.
Qed.

Lemma set_user_negative env b new e :
  (if (b : bool) then set_user env new else mret new) = inl e → e < 0.
Proof.
  unfold set_user, mret, eres_ret, fail. destruct b; [|done].
  destruct (alloc_uid _ _); [done|]. by intros [= <-].
Qed.

(** The ids a successful [setuid] with the capability leaves. *)
Lemma setuid_privileged env uid s s' :
  env_ok env → ns_capable_setid env (current_cred s) CAP_SETUID = true →
  __sys_setuid env uid s = Some (0, s') →
  let k := make_kuid env uid in uids (current_cred s') = mk_ids k k k k.
Proof.
  intros Henv Hcap Hrun. unfold __sys_setuid in Hrun. case_match; [done|].
  destruct (prepare_uid_run env (λ c, setuid_new env c uid) s) as (r & s1 & Hrun1 & _ & Hc).
  cbv beta in Hrun1. rewrite Hrun in Hrun1. injection Hrun1 as <- <-.
  assert (Hno : ∀ e, setuid_new env (current_cred s) uid = inl e → e < 0).
  { intros e. unfold setuid_new. rewrite Hcap. simpl.
    intros [He|(n1 & _ & He)]%eres_bind_inl.
    - apply set_user_negative in He. lia.
    - apply eres_bind_inl in He as [He|(n2 & _ & He)]; by apply checked_inl in He. }
  destruct Hc as [[_ [Hc|Hc]]|[_ Hc]]; [done | by apply Hno in Hc |].
  unfold setuid_new in Hc. rewrite Hcap in Hc.
  apply eres_bind_inr in Hc as (n1 & H1 & Hc).
  apply maybe_set_user_ids in H1 as [H1 _].
  apply uid_hooks in Hc as (Hu & _); [|done]. rewrite Hu. simpl. rewrite H1. done.
Qed.

(** The real, effective and saved ids a successful [setresuid] with all three
    arguments leaves. *)
Lemma setresuid_sets env ruid euid suid s s' :
  env_ok env → given ruid = true → given euid = true → given suid = true →
  __sys_setresuid env ruid euid suid s = Some (0, s') →
  let i := uids (current_cred s') in
  rid i = make_kuid env ruid ∧ eid i = make_kuid env euid ∧ sid i = make_kuid env suid ∧
  fsid i = make_kuid env euid ∧
  make_kuid env ruid ≠ NO_ID ∧ make_kuid env euid ≠ NO_ID ∧ make_kuid env suid ≠ NO_ID.
Proof.
  intros Henv Hgr Hge Hgs Hrun. unfold __sys_setresuid in Hrun.
  do 3 (case_match; [done|]). revert Hrun. krun. intros Hrun.
  assert (Hvalid : make_kuid env ruid ≠ NO_ID ∧ make_kuid env euid ≠ NO_ID ∧
    make_kuid env suid ≠ NO_ID) by (split_and!; eapply given_valid; eassumption).
  case_match eqn:Hno.
  { injection Hrun as <-. unfold setres_noop in Hno. rewrite Hgr, Hge, Hgs in Hno.
    simpl in Hno. destruct Hvalid as (V1 & V2 & V3). bool_facts; split_and!; congruence. }
  case_match; [done|].
  destruct (prepare_uid_run env (λ c, setresuid_new env c ruid euid suid) s)
    as (r & s1 & Hrun1 & _ & Hc).
  cbv beta in Hrun1. rewrite Hrun in Hrun1. injection Hrun1 as <- <-.
  assert (Hneg : ∀ e, setresuid_new env (current_cred s) ruid euid suid = inl e → e < 0).
  { intros e. unfold setresuid_new. rewrite Hgr, Hge, Hgs.
    intros [He|(n1 & _ & He)]%eres_bind_inl.
    - apply set_user_negative in He. lia.
    - apply eres_bind_inl in He as [He|(n2 & _ & He)]; by apply checked_inl in He. }
  destruct Hc as [[_ [Hc|Hc]]|[_ Hc]]; [done | by apply Hneg in Hc |].
  unfold setresuid_new in Hc. rewrite Hgr, Hge, Hgs in Hc.
  apply eres_bind_inr in Hc as (n1 & Hn1 & Hc).
  apply maybe_set_user_ids in Hn1 as [Hn1 _].
  apply uid_hooks in Hc as (Hu & _); [|done]. rewrite Hu. simpl. rewrite Hn1. done.
Qed.

(** The two fs calls report the previous id on every path. *)
Ltac fs_result :=
  unfold mbind, kst_bind, prepare_creds, abort_creds, commit_creds, kmodify, kget, mret, kst_ret;
  repeat case_match; intros; simplify_eq; done.
Lemma setfsuid_result env uid s r s' :
  __sys_setfsuid env uid s = Some (r, s') →
  r = from_kuid_munged env (fsid (uids (current_cred s))).
Proof. unfold __sys_setfsuid. fs_result. Qed.
Lemma setfsgid_result env gid s r s' :
  __sys_setfsgid env gid s = Some (r, s') →
  r = from_kgid_munged env (fsid (gids (current_cred s))).
Proof. unfold __sys_setfsgid. fs_result. Qed.

Lemma put3_spec {M} `{UserAccess M} v1 p1 v2 p2 v3 p3 (m : M) :
  user_wr m p1 4 = true → user_wr m p2 4 = true → user_wr m p3 4 = true →
  p1 + 4 ≤ p2 → p2 + 4 ≤ p3 →
  ∃ m', put3 v1 p1 v2 p2 v3 p3 m = (0, m') ∧ uread_u32 m' p1 = Some (u32 v1) ∧
    uread_u32 m' p2 = Some (u32 v2) ∧ uread_u32 m' p3 = Some (u32 v3).
Proof.
  intros Hw1 Hw2 Hw3 H12 H23. unfold put3.
  destruct (put_user_u32 v1 p1 m) as [r1 m1] eqn:E1.
  apply put_user_u32_spec in E1 as (O1 & _ & R1 & W1 & _).
  rewrite (proj2 O1 Hw1) in *. simpl.
  destruct (put_user_u32 v2 p2 m1) as [r2 m2] eqn:E2.
  apply put_user_u32_spec in E2 as (O2 & _ & R2 & W2 & F2).
  rewrite W1 in O2. rewrite (proj2 O2 Hw2) in *. simpl.
  destruct (put_user_u32 v3 p3 m2) as [r3 m3] eqn:E3.
  apply put_user_u32_spec in E3 as (O3 & _ & R3 & _ & F3).
  rewrite W2, W1 in O3. rewrite (proj2 O3 Hw3) in *.
  exists m3. split; [done|]. rewrite !F3 by lia. rewrite F2 by lia. auto.
Qed.

(** ** Properties *)

(** C6. Confinement: through any sequence of set*id calls, each made in
    credentials without CAP_SETUID and CAP_SETGID, whatever the security hooks
    do with the capabilities, the real, effective and saved ids never leave the
    three the task started with, and the file system id never leaves those and
    itself; for users and for groups. *)
Theorem setid_confined s s' :
  cred_steps unprivileged s s' →
  let i := uids (current_cred s) in let i' := uids (current_cred s') in
  let g := gids (current_cred s) in let g' := gids (current_cred s') in
  (∀ k, k ∈ [rid i'; eid i'; sid i'] → k ∈ [rid i; eid i; sid i]) ∧
  fsid i' ∈ [rid i; eid i; sid i; fsid i] ∧
  (∀ k, k ∈ [rid g'; eid g'; sid g'] → k ∈ [rid g; eid g; sid g]) ∧
  fsid g' ∈ [rid g; eid g; sid g; fsid g].
Proof.
  intros Hs i i' g g'. destruct (unprivileged_within s s' Hs) as [Hu Hg].
  fold i i' in Hu. fold g g' in Hg.
  assert (Hone : ∀ a b, ids_within a b →
    (∀ k, k ∈ [rid a; eid a; sid a] → k ∈ [rid b; eid b; sid b]) ∧
    fsid a ∈ [rid b; eid b; sid b; fsid b]).
  { intros a b (H1 & H2 & H3 & H4). unfold res_of in *. rewrite !elem_of_cons, elem_of_nil in *.
    split; [|tauto]. intros k. rewrite !elem_of_cons, elem_of_nil.
    intros Hk. destruct_or! Hk; subst; tauto. }
  destruct (Hone i' i Hu). destruct (Hone g' g Hg). done.
Qed.

(** C15. Dropping privileges is final: after a [setuid] that succeeded with
    CAP_SETUID, any sequence of set*id calls without the capabilities leaves all
    four user ids at the new one. *)
Theorem setuid_drop_permanent env uid s s1 s2 :
  env_ok env → ns_capable_setid env (current_cred s) CAP_SETUID = true →
  do_cred_call env (Setuid uid) s = Some (0, s1) → cred_steps unprivileged s1 s2 →
  let k := make_kuid env uid in uids (current_cred s2) = mk_ids k k k k.
Proof.
  intros Henv Hcap Hrun Hs k. destruct (unprivileged_within _ _ Hs) as [Hu _].
  rewrite (setuid_privileged env uid s s1 Henv Hcap Hrun) in Hu.
  by apply ids_within_const.
Qed.

(** The credential invariant: in every state reachable by set*id calls,
    privileged or not and whether they fail or not, all eight ids are valid,
    the user structure charged is the one of the real uid, and no prepared
    credentials are left over. *)
Theorem cred_invariant s s' :
  cred_ok (current_cred s) → cred_steps (λ _ _, True) s s' →
  cred_ok (current_cred s') ∧ prepared s' = prepared s.
Proof.
  intros Hok Hs. revert Hok.
  revert Hs. apply (steps_invariant (λ s s',
    cred_ok (current_cred s) → cred_ok (current_cred s') ∧ prepared s' = prepared s)); [done|].
  intros env s1 s2 s3 c r _ _ IH _ [Hp Hc] Hok. destruct (IH Hok) as [Hok2 Hp2].
  split; [|congruence]. destruct Hc as [->|[[_ Hc] _]]; [done | by apply Hc].
Qed.

(** Errors change nothing: every set*id call returns, a negative result
    means the credentials in force are exactly those before the call (whichever
    of the validity, permission, memory, user-table or hook checks refused it),
    and [setfsuid]/[setfsgid] report the previous id whether or not they
    changed it. *)
Theorem setid_errors_change_nothing env c s :
  env_ok env →
  ∃ r s', do_cred_call env c s = Some (r, s') ∧
    match c with
    | Setfsuid _ => r = from_kuid_munged env (fsid (uids (current_cred s)))
    | Setfsgid _ => r = from_kgid_munged env (fsid (gids (current_cred s)))
    | _ => r < 0 → current_cred s' = current_cred s
    end.
Proof.
  intros Henv. destruct (call_outcome env c s Henv) as (r & s' & Hrun & _ & Hc).
  exists r, s'. split; [done|].
  destruct c; try (destruct Hc as [->|[_ Hr]]; [done | intros; rewrite Hr in *; done]);
    clear Hc; revert Hrun; [apply setfsuid_result | apply setfsgid_result].
Qed.

(** Round trip: after a [setresuid] of three ids that returned 0 (also when
    it found nothing to change), [getresuid] stores exactly these three ids, and
    the file system id follows the effective one. *)
Theorem setresuid_getresuid {M} `{UserAccess M} env ruid euid suid s s' p (m : M) :
  env_ok env → in_u32 ruid → in_u32 euid → in_u32 suid →
  given ruid = true → given euid = true → given suid = true →
  __sys_setresuid env ruid euid suid s = Some (0, s') → user_wr m p 4 = true →
  user_wr m (p + 4) 4 = true → user_wr m (p + 8) 4 = true →
  fsid (uids (current_cred s')) = eid (uids (current_cred s')) ∧
  ∃ m', sys_getresuid env (current_cred s') p (p + 4) (p + 8) m = (0, m') ∧
    uread_u32 m' p = Some ruid ∧ uread_u32 m' (p + 4) = Some euid ∧
    uread_u32 m' (p + 8) = Some suid.
Proof.
  intros Henv Hr He Hs Hgr Hge Hgs Hrun Hw1 Hw2 Hw3.
  destruct (setresuid_sets env ruid euid suid s s' Henv Hgr Hge Hgs Hrun)
    as (E1 & E2 & E3 & E4 & V1 & V2 & V3).
  split; [congruence|]. unfold sys_getresuid. rewrite E1, E2, E3.
  rewrite !munged_kuid by done.
  destruct (put3_spec ruid p euid (p + 4) suid (p + 8) m) as (m' & Hm & R1 & R2 & R3);
    [done | done | done | lia | lia |].
  exists m'. rewrite u32_small in R1, R2, R3 by done. done.
Qed.

(** ** Concrete runs: the initial namespace, where the maps are the identity
    and the hook drops the capabilities when no user id is 0. *)
Module CredRuns.
Definition drop_caps (new : cred) : cred :=
  let i := uids new in
  mk_cred (uids new) (gids new) (cr_user new) (cr_ucounts new)
    (if (rid i =? 0) || (eid i =? 0) || (sid i =? 0) then cr_caps new else 0).
Definition env0 : cred_env :=
  mk_env true id id id id (λ c _, cr_caps c =? 1) (λ k, Some (mk_user (5000 + k) k))
    (λ new old _, (0, drop_caps new)) (λ new _ _, (0, new)) (λ new, (0, new)) (λ _, false) 5000.

Lemma env0_ok : env_ok env0.
Proof. split; try done. intros k u. simpl. by intros [= <-]. Qed.

Definition root : cred := mk_cred (mk_ids 0 0 0 0) (mk_ids 0 0 0 0) (mk_user 5000 0) 1 1.
Definition user7 : cred := mk_cred (mk_ids 7 8 9 8) (mk_ids 7 7 7 7) (mk_user 5007 7) 1 0.
Definition s_root : cred_state := mk_cstate root 0 false.
Definition s_user : cred_state := mk_cstate user7 0 false.

Definition after (c : cred_call) (s : cred_state) : cred_state :=
  match do_cred_call env0 c s with Some (_, s') => s' | None => s end.
Lemma after_step (P : cred_env → cred → Prop) c s :
  P env0 (current_cred s) → cred_step P s (after c s).
Proof.
  intros HP. destruct (call_outcome env0 c s env0_ok) as (r & s' & Hr & _).
  unfold after. rewrite Hr. exact (cred_step_call P env0 c s r s' env0_ok HP Hr).
Qed.

(** A set-user-id program swaps its ids twice and tries to become root. *)
Definition s1 := after (Setreuid 8 7) s_user.
Definition s2 := after (Setuid 0) s1.
Definition s3 := after (Setfsuid 8) s2.

Lemma swap_steps : cred_steps unprivileged s_user s3.
Proof.
  eapply cred_steps_cons; [eapply cred_steps_cons; [eapply cred_steps_cons;
    [apply cred_steps_refl|]|]|]; apply after_step; by split.
Qed.

Example swap_run :
  uids (current_cred s3) = mk_ids 8 7 7 8 ∧
  (do_cred_call env0 (Setuid 0) s1 ≫= λ r, Some (r.1)) = Some (- EPERM).
Proof. vm_compute. done. Qed.

Lemma setid_confined_witness :
  fsid (uids (current_cred s3)) ∈ [7; 8; 9; 8] ∧ fsid (uids (current_cred s3)) = 8.
Proof.
  split; [|vm_compute; reflexivity].
  exact (proj1 (proj2 (setid_confined s_user s3 swap_steps))).
Defined.

Definition dropped := after (Setuid 7) s_root.
Lemma dropped_steps : cred_steps unprivileged dropped (after (Setresuid 0 0 0) dropped).
Proof.
  eapply cred_steps_cons; [apply cred_steps_refl|]. by apply after_step.
Qed.
Lemma setuid_drop_permanent_witness :
  uids (current_cred (after (Setresuid 0 0 0) dropped)) = mk_ids 7 7 7 7.
Proof.
  apply (setuid_drop_permanent env0 7 s_root dropped); [apply env0_ok | reflexivity | |].
  - vm_compute. reflexivity.
  - apply dropped_steps.
Defined.

Lemma root_steps : cred_steps (λ _ _, True) s_root dropped.
Proof.
  eapply cred_steps_cons; [apply cred_steps_refl|]. by apply after_step.
Qed.
Lemma cred_invariant_witness :
  cred_ok (current_cred dropped) ∧ user_kuid (cr_user (current_cred dropped)) = 7.
Proof.
  split; [|vm_compute; reflexivity].
  apply (cred_invariant s_root dropped); [by split_and! | apply root_steps].
Defined.

Lemma setid_errors_change_nothing_witness :
  ∃ r s', do_cred_call env0 (Setreuid 0 0) s_user = Some (r, s') ∧
    (r < 0 → current_cred s' = user7).
Proof. exact (setid_errors_change_nothing env0 (Setreuid 0 0) s_user env0_ok). Defined.

Lemma setresuid_getresuid_witness :
  ∃ m', sys_getresuid env0 (current_cred (after (Setresuid 8 9 7) s_user)) 4096 4100 4104
      (zero_page 4096 16) = (0, m') ∧
    uread_u32 m' 4096 = Some 8 ∧ uread_u32 m' 4100 = Some 9 ∧ uread_u32 m' 4104 = Some 7.
Proof.
  refine (proj2 (setresuid_getresuid env0 8 9 7 s_user (after (Setresuid 8 9 7) s_user) 4096
    (zero_page 4096 16) env0_ok _ _ _ _ _ _ _ _ _ _)); vm_compute; try done; split; done.
Defined.
End CredRuns.
