(* ===== verification/ProcessGroup.v ===== *)
(** * ProcessGroup: process groups and sessions of [kernel/sys.c]

    [setpgid], [getpgid], [getpgrp], [getsid], [setsid].  Pid numbers stand for
    [struct pid]s of one namespace.  A task belongs to a thread group, whose
    shared [signal_struct] holds the process group, the session, the session
    leader flag and the terminal.  Both calls that change state hold the task
    list lock from their first test to their last change, so each is one step;
    fork, execve and the release of a process are the environment's steps, with
    their documented effect, so that the invariant is one of a running system. *)

From S2P Require Import Prelude.

Record task := mk_ptask {
  tgid : Z;
  real_parent : Z;             (* thread group of the parent *)
  PF_FORKNOEXEC : bool;
}.

Record signal_struct := mk_signal {
  sig_pgrp : Z;
  sig_session : Z;
  leader : bool;
  tty : bool;                  (* has a controlling terminal *)
}.

Record pstate := mk_pstate {
  tasks : gmap Z task;
  signals : gmap Z signal_struct;
  sid_events : list Z;         (* proc_sid_connector, sched_autogroup_create_attach *)
}.

Definition set_signal (g : Z) (sg : signal_struct) (s : pstate) : pstate :=
  mk_pstate (tasks s) (<[g := sg]> (signals s)) (sid_events s).

Section handlers.
(** [pid_task(pid, PIDTYPE_PGID)]: some process of the group, if there is one. *)
Context (pgid_task : pstate → Z → option Z).
Context (security_task_setpgid : Z → Z → Z).
Context (security_task_getpgid security_task_getsid : Z → Z).
Abbreviation st := pstate.

Definition task_of (pid : Z) : kst st task := λ s, (t ← tasks s !! pid; Some (t, s)).
Definition signal_of (g : Z) : kst st signal_struct := λ s, (sg ← signals s !! g; Some (sg, s)).
Definition group_leader (cur : Z) : kst st Z := t ← task_of cur; mret (tgid t).
Definition task_session (g : Z) : kst st Z := sg ← signal_of g; mret (sig_session sg).
Definition task_pgrp (g : Z) : kst st Z := sg ← signal_of g; mret (sig_pgrp sg).

Definition change_pgrp (g pgrp : Z) : kst st unit :=
  sg ← signal_of g;
  kmodify (set_signal g (mk_signal pgrp (sig_session sg) (leader sg) (tty sg))).
Definition change_sid (g sid : Z) : kst st unit :=
  sg ← signal_of g;
  kmodify (set_signal g (mk_signal (sig_pgrp sg) sid (leader sg) (tty sg))).

(** The test that [current] may move [p]: 0 or the error. *)
Definition setpgid_may (gl pid : Z) (p : task) : kst st Z :=
  if real_parent p =? gl then
    ps ← task_session (tgid p);
    gs ← task_session gl;
    if negb (ps =? gs) then mret (- EPERM) else
    if negb (PF_FORKNOEXEC p) then mret (- EACCES) else mret 0
  else if negb (pid =? gl) then mret (- ESRCH) else mret 0.

(** The test on the group to join. *)
Definition setpgid_group_ok (gl pid pgid : Z) : kst st bool :=
  if negb (pgid =? pid) then
    s ← kget;
    match pgid_task s pgid with
    | None => mret false
    | Some g =>
        ss ← task_session g;
        gs ← task_session gl;
        mret (ss =? gs)
    end
  else mret true.

Definition sys_setpgid (cur pid pgid : Z) : kst st Z :=
  gl ← group_leader cur;
  let pid := if pid =? 0 then gl else pid in
  let pgid := if pgid =? 0 then pid else pgid in
  if pgid <? 0 then mret (- EINVAL) else
  s ← kget;
  match tasks s !! pid with
  | None => mret (- ESRCH)
  | Some p =>
      if negb (tgid p =? pid) then mret (- EINVAL) else
      err ← setpgid_may gl pid p;
      if nz err then mret err else
      sg ← signal_of (tgid p);
      if leader sg then mret (- EPERM) else
      ok ← setpgid_group_ok gl pid pgid;
      if negb ok then mret (- EPERM) else
      let err := security_task_setpgid pid pgid in
      if nz err then mret err else
      (if negb (sig_pgrp sg =? pgid) then change_pgrp pid pgid else mret tt);;
      mret 0
  end.

Definition do_getpgid (cur pid : Z) : kst st Z :=
  if pid =? 0 then gl ← group_leader cur; task_pgrp gl else
  s ← kget;
  match tasks s !! pid with
  | None => mret (- ESRCH)
  | Some p =>
      grp ← task_pgrp (tgid p);
      let retval := security_task_getpgid pid in
      if nz retval then mret retval else mret grp
  end.
Definition sys_getpgid (cur pid : Z) : kst st Z := do_getpgid cur pid.
Definition sys_getpgrp (cur : Z) : kst st Z := do_getpgid cur 0.

Definition sys_getsid (cur pid : Z) : kst st Z :=
  if pid =? 0 then gl ← group_leader cur; task_session gl else
  s ← kget;
  match tasks s !! pid with
  | None => mret (- ESRCH)
  | Some p =>
      sid ← task_session (tgid p);
      let retval := security_task_getsid pid in
      if nz retval then mret retval else mret sid
  end.

Definition set_special_pids (gl pid : Z) : kst st unit :=
  ss ← task_session gl;
  (if negb (ss =? pid) then change_sid gl pid else mret tt);;
  pg ← task_pgrp gl;
  if negb (pg =? pid) then change_pgrp gl pid else mret tt.

Definition ksys_setsid (cur : Z) : kst st Z :=
  gl ← group_leader cur;
  let sid := gl in
  let session := sid in
  sg ← signal_of gl;
  if leader sg then mret (- EPERM) else
  s ← kget;
  match pgid_task s sid with
  | Some _ => mret (- EPERM)
  | None =>
      kmodify (set_signal gl (mk_signal (sig_pgrp sg) (sig_session sg) true (tty sg)));;
      set_special_pids gl sid;;
      sg ← signal_of gl;
      kmodify (set_signal gl (mk_signal (sig_pgrp sg) (sig_session sg) (leader sg) false));;
      (if 0 <? session
       then kmodify (λ s, mk_pstate (tasks s) (signals s) (gl :: sid_events s))
       else mret tt);;
      mret session
  end.
End handlers.

(** The process group lookup: it finds a process of the group exactly when
    there is one. *)
Class GroupTable := {
  pgid_task : pstate → Z → option Z;
  pgid_task_some s n g :
    pgid_task s n = Some g → ∃ sg, signals s !! g = Some sg ∧ sig_pgrp sg = n;
  pgid_task_none s n :
    pgid_task s n = None → ∀ g sg, signals s !! g = Some sg → sig_pgrp sg ≠ n;
}.

(** ** The system as transitions *)
Section system.
Context `{GroupTable}.
Context (security_task_setpgid : Z → Z → Z).

Inductive pstep : pstate → pstate → Prop :=
  | pstep_setpgid cur pid pgid s r s' :
      is_Some (tasks s !! cur) →
      sys_setpgid pgid_task security_task_setpgid cur pid pgid s = Some (r, s') → pstep s s'
  | pstep_setsid cur s r s' :
      is_Some (tasks s !! cur) →
      ksys_setsid pgid_task cur s = Some (r, s') → pstep s s'
  (** fork: a new process with a number nothing uses, in its parent's group and
      session *)
  | pstep_fork n g sg s :
      signals s !! g = Some sg → 0 < n → tasks s !! n = None →
      (∀ h hg, signals s !! h = Some hg → h ≠ n ∧ sig_pgrp hg ≠ n ∧ sig_session hg ≠ n) →
      pstep s (mk_pstate (<[n := mk_ptask n g true]> (tasks s))
        (<[n := mk_signal (sig_pgrp sg) (sig_session sg) false (tty sg)]> (signals s))
        (sid_events s))
  (** clone with CLONE_THREAD: a new thread of an existing group *)
  | pstep_thread n g r s :
      is_Some (signals s !! g) → 0 < n → tasks s !! n = None →
      signals s !! n = None →
      pstep s (mk_pstate (<[n := mk_ptask g r true]> (tasks s)) (signals s) (sid_events s))
  (** execve clears the flag *)
  | pstep_exec n t s :
      tasks s !! n = Some t →
      pstep s (mk_pstate (<[n := mk_ptask (tgid t) (real_parent t) false]> (tasks s))
        (signals s) (sid_events s))
  (** the parent died: another process adopts the task *)
  | pstep_adopt n t r s :
      tasks s !! n = Some t →
      pstep s (mk_pstate (<[n := mk_ptask (tgid t) r (PF_FORKNOEXEC t)]> (tasks s))
        (signals s) (sid_events s))
  | pstep_thread_exit n t s :
      tasks s !! n = Some t → tgid t ≠ n →
      pstep s (mk_pstate (delete n (tasks s)) (signals s) (sid_events s))
  (** the last task of a group is released *)
  | pstep_exit g s :
      (∀ n t, tasks s !! n = Some t → tgid t = g → n = g) →
      pstep s (mk_pstate (delete g (tasks s)) (delete g (signals s)) (sid_events s)).

Inductive preach (s0 : pstate) : pstate → Prop :=
  | preach_init : preach s0 s0
  | preach_step s s' : preach s0 s → pstep s s' → preach s0 s'.
End system.

(** ** The invariant *)

(** Every task is in a live thread group; a session leader is in the session
    and the group of its own number; processes of one group are in one
    session, and if the process the group is named after still exists it is in
    that session too, even when it has left the group. *)
Record group_inv (s : pstate) : Prop := {
  tasks_live n t : tasks s !! n = Some t → is_Some (signals s !! tgid t);
  leader_own g sg : signals s !! g = Some sg → leader sg = true →
    sig_session sg = g ∧ sig_pgrp sg = g;
  group_session g sg h sh : signals s !! g = Some sg → signals s !! h = Some sh →
    sig_pgrp sg = sig_pgrp sh → sig_session sg = sig_session sh;
  group_named g sg h sh : signals s !! g = Some sg → signals s !! h = Some sh →
    sig_pgrp sg = h → sig_session sg = sig_session sh;
}.

(** ** Lemmas *)
Section runs.
Context `{GroupTable}.
Context (security_task_setpgid : Z → Z → Z).
Implicit Types (s : pstate).

Lemma task_of_run s n t : tasks s !! n = Some t → task_of n s = Some (t, s).
Proof. intros Ht. unfold task_of. by rewrite Ht. Qed.
Lemma signal_of_run s g sg : signals s !! g = Some sg → signal_of g s = Some (sg, s).
Proof. intros Hg. unfold signal_of. by rewrite Hg. Qed.
Lemma task_session_run s g sg :
  signals s !! g = Some sg → task_session g s = Some (sig_session sg, s).
Proof. intros Hg. unfold task_session. by rewrite (kbind_some _ _ _ _ _ (signal_of_run _ _ _ Hg)). Qed.
Lemma task_pgrp_run s g sg :
  signals s !! g = Some sg → task_pgrp g s = Some (sig_pgrp sg, s).
Proof. intros Hg. unfold task_pgrp. by rewrite (kbind_some _ _ _ _ _ (signal_of_run _ _ _ Hg)). Qed.
Lemma group_leader_run s n t : tasks s !! n = Some t → group_leader n s = Some (tgid t, s).
Proof. intros Ht. unfold group_leader. by rewrite (kbind_some _ _ _ _ _ (task_of_run _ _ _ Ht)). Qed.

Lemma change_pgrp_run s g sg n :
  signals s !! g = Some sg →
  change_pgrp g n s =
    Some (tt, set_signal g (mk_signal n (sig_session sg) (leader sg) (tty sg)) s).
Proof. intros Hg. unfold change_pgrp. by rewrite (kbind_some _ _ _ _ _ (signal_of_run _ _ _ Hg)). Qed.
Lemma change_sid_run s g sg n :
  signals s !! g = Some sg →
  change_sid g n s =
    Some (tt, set_signal g (mk_signal (sig_pgrp sg) n (leader sg) (tty sg)) s).
Proof. intros Hg. unfold change_sid. by rewrite (kbind_some _ _ _ _ _ (signal_of_run _ _ _ Hg)). Qed.

Ltac step H := rewrite (kbind_some _ _ _ _ _ H); cbv beta.

(** [current] may move [p] only within its own session. *)
Lemma setpgid_may_run s gl gs pid p ps :
  signals s !! gl = Some gs → signals s !! pid = Some ps → tgid p = pid →
  ∃ r, setpgid_may gl pid p s = Some (r, s) ∧ r <= 0 ∧
    (r = 0 → sig_session ps = sig_session gs ∧
       (pid = gl ∨ real_parent p = gl ∧ PF_FORKNOEXEC p = true)).
Proof.
  intros Hgl Hp Ht. unfold setpgid_may.
  destruct (Z.eqb_spec (real_parent p) gl) as [Hpar|Hpar].
  - rewrite Ht. step (task_session_run _ _ _ Hp). step (task_session_run _ _ _ Hgl).
    destruct (Z.eqb_spec (sig_session ps) (sig_session gs)) as [He|He]; simpl.
    2: { exists (- EPERM). done. }
    destruct (PF_FORKNOEXEC p); simpl.
    + exists 0. split_and!; auto; done.
    + exists (- EACCES). done.
  - destruct (Z.eqb_spec pid gl) as [->|Hne]; simpl.
    + exists 0. split; [done|]. split; [done|]. intros _.
      rewrite Hgl in Hp. injection Hp as ->. auto.
    + exists (- ESRCH). done.
Qed.

Lemma setpgid_group_ok_run s gl gs pid pgid :
  signals s !! gl = Some gs →
  ∃ b, setpgid_group_ok pgid_task gl pid pgid s = Some (b, s) ∧
    (b = true → pgid = pid ∨
       ∃ g sg, signals s !! g = Some sg ∧ sig_pgrp sg = pgid ∧ sig_session sg = sig_session gs).
Proof.
  intros Hgl. unfold setpgid_group_ok.
  destruct (Z.eqb_spec pgid pid) as [He|He]; simpl; [exists true; auto|].
  krun. destruct (pgid_task s pgid) as [g|] eqn:Hg; [|by exists false].
  destruct (pgid_task_some s pgid g Hg) as (sg & Hsg & Hpg).
  step (task_session_run _ _ _ Hsg). step (task_session_run _ _ _ Hgl).
  eexists. split; [reflexivity|]. intros Hb%Z.eqb_eq. eauto 6.
Qed.

(** What a [setpgid] that returned 0 established, in the state it started in. *)
Definition setpgid_moved s (cur pid0 pgid0 : Z) (s' : pstate) : Prop :=
  ∃ gl gs ps p,
    (t ← tasks s !! cur; Some (tgid t)) = Some gl ∧ signals s !! gl = Some gs ∧
    let pid := if pid0 =? 0 then gl else pid0 in
    let pgid := if pgid0 =? 0 then pid else pgid0 in
    tasks s !! pid = Some p ∧ tgid p = pid ∧ signals s !! pid = Some ps ∧
    0 ≤ pgid ∧ leader ps = false ∧ sig_session ps = sig_session gs ∧
    (pid = gl ∨ real_parent p = gl ∧ PF_FORKNOEXEC p = true) ∧
    (pgid = pid ∨
       ∃ g sg, signals s !! g = Some sg ∧ sig_pgrp sg = pgid ∧ sig_session sg = sig_session gs) ∧
    s' = set_signal pid (mk_signal pgid (sig_session ps) (leader ps) (tty ps)) s.

Lemma setpgid_run s cur t pid pgid :
  group_inv s → tasks s !! cur = Some t →
  ∃ r s', sys_setpgid pgid_task security_task_setpgid cur pid pgid s = Some (r, s') ∧
    (s' = s ∧ r ≠ 0 ∨ r = 0 ∧ setpgid_moved s cur pid pgid s').
Proof.
  intros Hinv Ht. unfold sys_setpgid. step (group_leader_run _ _ _ Ht).
  destruct (tasks_live s Hinv _ _ Ht) as [gs Hgs].
  set (pid' := if pid =? 0 then tgid t else pid).
  set (pgid' := if pgid =? 0 then pid' else pgid).
  assert (Herr : ∀ e, e ≠ 0 → ∃ r s', Some (e, s) = Some (r, s') ∧
    (s' = s ∧ r ≠ 0 ∨ r = 0 ∧ setpgid_moved s cur pid pgid s')) by eauto 10.
  destruct (Z.ltb_spec pgid' 0) as [|Hpos]; [by apply Herr|]. krun.
  destruct (tasks s !! pid') as [p|] eqn:Hp; [|by apply Herr].
  destruct (Z.eqb_spec (tgid p) pid') as [Htg|]; simpl; [|by apply Herr].
  destruct (tasks_live s Hinv _ _ Hp) as [ps Hps]. rewrite Htg in Hps.
  destruct (setpgid_may_run s _ _ _ p _ Hgs Hps Htg) as (e & He & _ & Hmay). step He.
  unfold nz. destruct (Z.eqb_spec e 0) as [E0|E0]; simpl; [|by apply Herr].
  destruct (Hmay E0) as [Hss Hwho]. rewrite Htg. step (signal_of_run _ _ _ Hps).
  destruct (leader ps) eqn:Hlead; [by apply Herr|].
  destruct (setpgid_group_ok_run s _ _ pid' pgid' Hgs) as (b & Hb & Hok). step Hb.
  destruct b; simpl; [|by apply Herr].
  destruct (Z.eqb_spec (security_task_setpgid pid' pgid') 0) as [Es|Es]; simpl; [|by apply Herr].
  assert (Hmoved : ∀ s', s' = set_signal pid' (mk_signal pgid' (sig_session ps) (leader ps) (tty ps)) s
    → setpgid_moved s cur pid pgid s').
  { intros s' Hs'. exists (tgid t), gs, ps, p. rewrite Ht. simpl.
    fold pid' pgid'. split_and!; auto. }
  destruct (Z.eqb_spec (sig_pgrp ps) pgid') as [Epg|Epg]; simpl.
  - krun. exists 0, s. split; [done|]. right. split; [done|]. apply Hmoved.
    unfold set_signal. rewrite insert_id; [by destruct s|]. rewrite Hps. f_equal.
    destruct ps. simpl in *. by subst.
  - step (change_pgrp_run _ _ _ pgid' Hps). eexists _, _. split; [reflexivity|].
    right. split; [done|]. by apply Hmoved.
Qed.

(** [setsid]: refused for a session leader and when the group exists. *)
Lemma setsid_run s cur t sg :
  tasks s !! cur = Some t → signals s !! tgid t = Some sg →
  ksys_setsid pgid_task cur s =
    if leader sg || bool_decide (is_Some (pgid_task s (tgid t))) then Some (- EPERM, s) else
    Some (tgid t, mk_pstate (tasks s)
      (<[tgid t := mk_signal (tgid t) (tgid t) true false]> (signals s))
      (if 0 <? tgid t then tgid t :: sid_events s else sid_events s)).
Proof.
  intros Ht Hsg. unfold ksys_setsid. step (group_leader_run _ _ _ Ht).
  step (signal_of_run _ _ _ Hsg). destruct (leader sg); [done|]. krun. simpl orb.
  destruct (pgid_task s (tgid t)); [by rewrite bool_decide_true by eauto|].
  rewrite bool_decide_false by (by intros []). krun.
  set (sg1 := mk_signal (sig_pgrp sg) (sig_session sg) true (tty sg)).
  set (s1 := set_signal (tgid t) sg1 s).
  assert (H1 : signals s1 !! tgid t = Some sg1) by apply lookup_insert_eq.
  assert (Hsp : set_special_pids (tgid t) (tgid t) s1 =
    Some (tt, set_signal (tgid t) (mk_signal (tgid t) (tgid t) true (tty sg)) s)).
  { unfold set_special_pids. step (task_session_run _ _ _ H1). simpl.
    assert (Hsid : (if negb (sig_session sg =? tgid t) then change_sid (tgid t) (tgid t)
      else mret ()) s1 =
      Some (tt, set_signal (tgid t) (mk_signal (sig_pgrp sg) (tgid t) true (tty sg)) s)).
    { destruct (Z.eqb_spec (sig_session sg) (tgid t)) as [He|He]; simpl.
      - unfold s1, sg1. by rewrite He.
      - rewrite (change_sid_run _ _ _ _ H1). unfold s1, set_signal. simpl.
        by rewrite insert_insert_eq. }
    step Hsid. set (s2 := set_signal _ _ s).
    assert (H2 : signals s2 !! tgid t = Some (mk_signal (sig_pgrp sg) (tgid t) true (tty sg)))
      by apply lookup_insert_eq.
    step (task_pgrp_run _ _ _ H2). simpl.
    destruct (Z.eqb_spec (sig_pgrp sg) (tgid t)) as [He|He]; simpl.
    - unfold s2. by rewrite He.
    - rewrite (change_pgrp_run _ _ _ _ H2). unfold s2, set_signal. simpl.
      by rewrite insert_insert_eq. }
  step Hsp. set (s3 := set_signal _ _ s).
  assert (H3 : signals s3 !! tgid t = Some (mk_signal (tgid t) (tgid t) true (tty sg)))
    by apply lookup_insert_eq.
  step (signal_of_run _ _ _ H3). krun. unfold s3, set_signal. simpl.
  rewrite insert_insert_eq. by destruct (0 <? tgid t).
Qed.
End runs.

(** ** The invariant is preserved *)

(** Changing the signal structure of [g0] keeps the invariant when the new group
    agrees with its members and with the process it is named after. *)
Lemma group_inv_update s g0 sg0 new ev :
  group_inv s → signals s !! g0 = Some sg0 →
  (leader new = true → sig_session new = g0 ∧ sig_pgrp new = g0) →
  (∀ h sh, signals s !! h = Some sh → h ≠ g0 → sig_pgrp sh = sig_pgrp new →
     sig_session sh = sig_session new) →
  (∀ sh, signals s !! sig_pgrp new = Some sh → sig_pgrp new ≠ g0 →
     sig_session new = sig_session sh) →
  (∀ h sh, signals s !! h = Some sh → h ≠ g0 → sig_pgrp sh = g0 →
     sig_session sh = sig_session new) →
  group_inv (mk_pstate (tasks s) (<[g0 := new]> (signals s)) ev).
Proof.
  intros Hinv Hg0 Hlead Hmem Hnamed Hname0.
  split; simpl.
  - intros n t Ht. destruct (tasks_live s Hinv n t Ht) as [x Hx].
    rewrite lookup_insert_is_Some'. by eauto.
  - intros g sg Hg Hl. apply lookup_insert_Some in Hg as [[-> ->]|[? Hg]]; [auto|].
    by apply (leader_own s Hinv g sg).
  - intros g sg h sh Hg Hh Heq.
    apply lookup_insert_Some in Hg as [[<- <-]|[? Hg]];
      apply lookup_insert_Some in Hh as [[<- <-]|[? Hh]]; auto.
    + symmetry. by eapply Hmem.
    + by eapply Hmem.
    + by eapply (group_session s Hinv g sg h sh).
  - intros g sg h sh Hg Hh Heq.
    apply lookup_insert_Some in Hg as [[<- <-]|[? Hg]];
      apply lookup_insert_Some in Hh as [[<- <-]|[? Hh]]; auto.
    + subst h. by apply Hnamed.
    + by eapply Hname0.
    + by eapply (group_named s Hinv g sg h sh).
Qed.

Lemma group_inv_moved s cur pid pgid s' :
  group_inv s → setpgid_moved s cur pid pgid s' → group_inv s'.
Proof.
  intros Hinv (gl & gs & ps & p & _ & Hgs & Hp & Htg & Hps & _ & Hl & Hss & _ & Hgrp & ->).
  set (pid' := if pid =? 0 then gl else pid) in *.
  set (pgid' := if pgid =? 0 then pid' else pgid) in *.
  apply (group_inv_update s pid' ps); simpl; auto.
  - rewrite Hl. done.
  - intros h sh Hh Hne Hpg. destruct Hgrp as [Hgrp|(g & sg & Hg & Hpgg & Hsg)].
    + eapply (group_named s Hinv h sh pid' ps); auto; congruence.
    + rewrite Hss, <-Hsg. eapply (group_session s Hinv h sh g sg); auto; congruence.
  - intros sh Hh Hne. destruct Hgrp as [Hgrp|(g & sg & Hg & Hpgg & Hsg)]; [done|].
    rewrite Hss, <-Hsg. by eapply (group_named s Hinv g sg pgid' sh).
  - intros h sh Hh Hne Hpg. by eapply (group_named s Hinv h sh pid' ps).
Qed.

Section preserved.
Context `{GroupTable}.

Lemma group_inv_setsid s cur r s' :
  group_inv s → is_Some (tasks s !! cur) →
  ksys_setsid pgid_task cur s = Some (r, s') → group_inv s'.
Proof.
  intros Hinv [t Ht] Hrun. destruct (tasks_live s Hinv cur t Ht) as [sg Hsg].
  rewrite (setsid_run s cur t sg Ht Hsg) in Hrun.
  destruct (leader sg) eqn:Hl; [simpl in Hrun; by simplify_eq|]. simpl in Hrun.
  case_bool_decide as Hgrp; [by simplify_eq|]. injection Hrun as <- <-.
  assert (Hnone : pgid_task s (tgid t) = None).
  { destruct (pgid_task s (tgid t)); [|done]. destruct Hgrp. eauto. }
  pose proof (pgid_task_none s _ Hnone) as Hfree.
  apply (group_inv_update s (tgid t) sg); simpl; auto.
  - intros h sh Hh _ Hpg. destruct (Hfree h sh Hh Hpg).
  - intros sh Hh Hne. done.
  - intros h sh Hh _ Hpg. destruct (Hfree h sh Hh Hpg).
Qed.

Lemma group_inv_env s s' security_task_setpgid :
  group_inv s → pstep security_task_setpgid s s' → group_inv s'.
Proof.
  intros Hinv Hst.
  destruct Hst as [cur pid pgid s r s' [t Ht] Hrun|cur s r s' Hcur Hrun
    |n g sg s Hsg Hn Hfree Hnum|n g r s Hg Hn Hfree Hsig|n t s Ht|n t r s Ht
    |n t s Ht Hne|g s Hlast].
  - destruct (setpgid_run security_task_setpgid s cur t pid pgid Hinv Ht)
      as (r' & s1 & Hrun' & Hc).
    rewrite Hrun in Hrun'. injection Hrun' as <- <-.
    destruct Hc as [[-> _]|[_ Hm]]; [done | by eapply group_inv_moved].
  - by eapply group_inv_setsid.
  - assert (Hgn : g ≠ n) by (intros ->; by destruct (Hnum _ _ Hsg)).
    split; simpl.
    + intros m t. rewrite lookup_insert_Some. intros [[<- <-]|[_ Ht]]; simpl.
      * rewrite lookup_insert_is_Some'. auto.
      * apply (tasks_live s Hinv) in Ht as Hl. rewrite lookup_insert_is_Some'. auto.
    + intros m mg. rewrite lookup_insert_Some. intros [[<- <-]|[_ Hm]]; [done|].
      by apply (leader_own s Hinv).
    + intros a sa b sb. rewrite !lookup_insert_Some.
      intros [[<- <-]|[_ Ha]] [[<- <-]|[_ Hb]] Heq; simpl in *; auto.
      * by eapply (group_session s Hinv g sg b sb).
      * by eapply (group_session s Hinv a sa g sg).
      * by eapply (group_session s Hinv a sa b sb).
    + intros a sa b sb. rewrite !lookup_insert_Some.
      intros [[<- <-]|[_ Ha]] [[<- <-]|[_ Hb]] Heq; simpl in *; auto.
      * by eapply (group_named s Hinv g sg b sb).
      * destruct (Hnum a sa Ha) as (_ & Hp & _). done.
      * by eapply (group_named s Hinv a sa b sb).
  - destruct Hinv as [Hl Ho Hs Hnm]. split; simpl; auto.
    intros m t. rewrite lookup_insert_Some. intros [[_ <-]|[_ Hm]]; [done | eauto].
  - destruct Hinv as [Hl Ho Hs Hnm]. split; simpl; auto.
    intros m u. rewrite lookup_insert_Some. intros [[_ <-]|[_ Hm]]; simpl; eauto.
  - destruct Hinv as [Hl Ho Hs Hnm]. split; simpl; auto.
    intros m u. rewrite lookup_insert_Some. intros [[_ <-]|[_ Hm]]; simpl; eauto.
  - destruct Hinv as [Hl Ho Hs Hnm]. split; simpl; auto.
    intros m u [_ Hm]%lookup_delete_Some. eauto.
  - destruct Hinv as [Hl Ho Hs Hnm]. split; simpl.
    + intros m u [Hmg Hm]%lookup_delete_Some. destruct (Hl m u Hm) as [x Hx].
      exists x. apply lookup_delete_Some. split; [|done].
      intros Heq. apply Hmg. symmetry. by eapply Hlast.
    + intros m mg [_ Hm]%lookup_delete_Some. eauto.
    + intros a sa b sb [_ Ha]%lookup_delete_Some [_ Hb]%lookup_delete_Some. eauto.
    + intros a sa b sb [_ Ha]%lookup_delete_Some [_ Hb]%lookup_delete_Some. eauto.
Qed.
End preserved.

(** ** Properties *)
Section properties.
Context `{GroupTable}.
Context (security_task_setpgid : Z → Z → Z).

(** C8. Process groups stay inside sessions: in every state reachable by
    [setpgid] and [setsid] calls of any task, forks, thread creations, execs
    and exits, processes of one group are in one session, a group named after a
    living process is in that process's session, and a session leader has its
    own number as session and group. *)
Theorem groups_within_sessions s0 s :
  group_inv s0 → preach security_task_setpgid s0 s →
  ∀ g sg h sh, signals s !! g = Some sg → signals s !! h = Some sh →
    (sig_pgrp sg = sig_pgrp sh → sig_session sg = sig_session sh) ∧
    (sig_pgrp sg = h → sig_session sg = sig_session sh) ∧
    (leader sg = true → sig_session sg = g ∧ sig_pgrp sg = g).
Proof.
  intros Hinv0 Hr.
  assert (Hinv : group_inv s).
  { induction Hr as [|s1 s2 Hr IH Hst]; [done|]. by eapply group_inv_env. }
  intros g sg h sh Hg Hh. split; [|split].
  - by apply (group_session s Hinv g sg h sh).
  - by apply (group_named s Hinv g sg h sh).
  - by apply (leader_own s Hinv g sg).
Qed.

(** [setpgid] in a state of the invariant always returns; anything but 0
    leaves the state as it was; 0 means that the target is the caller itself or
    a child of it that has not called execve, is in the caller's session and no
    session leader, that the group is its own or an existing one of that
    session, that nothing but the target's group changed, and that [getpgid]
    now reports the group. *)
Theorem setpgid_spec s cur t pid pgid getpgid_hook :
  group_inv s → tasks s !! cur = Some t → (∀ p, getpgid_hook p = 0) →
  ∃ r s', sys_setpgid pgid_task security_task_setpgid cur pid pgid s = Some (r, s') ∧
    (r ≠ 0 → s' = s) ∧
    (r = 0 → ∃ p ps gs,
       let target := if pid =? 0 then tgid t else pid in
       let group := if pgid =? 0 then target else pgid in
       tasks s !! target = Some p ∧ tgid p = target ∧
       (target = tgid t ∨ real_parent p = tgid t ∧ PF_FORKNOEXEC p = true) ∧
       signals s !! target = Some ps ∧ signals s !! tgid t = Some gs ∧
       leader ps = false ∧ sig_session ps = sig_session gs ∧
       (group = target ∨ ∃ g sg, signals s !! g = Some sg ∧ sig_pgrp sg = group ∧
          sig_session sg = sig_session gs) ∧
       tasks s' = tasks s ∧ (∀ h, h ≠ target → signals s' !! h = signals s !! h) ∧
       signals s' !! target = Some (mk_signal group (sig_session ps) false (tty ps)) ∧
       (target ≠ 0 → sys_getpgid getpgid_hook cur target s' = Some (group, s'))).
Proof.
  intros Hinv Ht Hhook.
  destruct (setpgid_run security_task_setpgid s cur t pid pgid Hinv Ht)
    as (r & s' & Hrun & Hc).
  exists r, s'. split; [done|]. destruct Hc as [[Hs Hr]|[Hr Hm]]; [done|].
  split; [done|]. intros _.
  destruct Hm as (gl & gs & ps & p & Hgl & Hgs & Hp & Htg & Hps & _ & Hl & Hss & Hwho & Hgrp & Hs').
  rewrite Ht in Hgl. injection Hgl as <-. exists p, ps, gs. cbv zeta.
  set (target := if pid =? 0 then tgid t else pid) in *.
  set (group := if pgid =? 0 then target else pgid) in *.
  rewrite Hl in Hs'.
  assert (Hlk : signals s' !! target = Some (mk_signal group (sig_session ps) false (tty ps))).
  { subst s'. apply lookup_insert_eq. }
  split_and!; auto; [by subst s' | |].
  - intros h Hh. subst s'. by apply lookup_insert_ne.
  - intros Hnz. unfold sys_getpgid, do_getpgid.
    rewrite (proj2 (Z.eqb_neq _ _) Hnz). krun.
    assert (Hp' : tasks s' !! target = Some p) by (by subst s').
    rewrite Hp', Htg. rewrite (kbind_some _ _ _ _ _ (task_pgrp_run _ _ _ Hlk)).
    by rewrite Hhook.
Qed.

(** [setsid] fails with [-EPERM], changing nothing, exactly when the caller
    leads a session or its number is in use as a group; otherwise the caller
    becomes the leader of a session and the only member of a group of its own
    number, without a terminal, no other process changes, and the number is
    returned. *)
Theorem setsid_spec s cur t sg :
  group_inv s → tasks s !! cur = Some t → signals s !! tgid t = Some sg → 0 < tgid t →
  let refused := leader sg = true ∨ ∃ g sg', signals s !! g = Some sg' ∧ sig_pgrp sg' = tgid t in
  ∃ r s', ksys_setsid pgid_task cur s = Some (r, s') ∧
    (refused → r = - EPERM ∧ s' = s) ∧
    (¬ refused → r = tgid t ∧ tasks s' = tasks s ∧
       signals s' !! tgid t = Some (mk_signal (tgid t) (tgid t) true false) ∧
       (∀ h, h ≠ tgid t → signals s' !! h = signals s !! h) ∧
       (∀ h sh, signals s' !! h = Some sh → sig_pgrp sh = tgid t → h = tgid t) ∧
       sid_events s' = tgid t :: sid_events s).
Proof.
  intros Hinv Ht Hsg Hpos refused. rewrite (setsid_run s cur t sg Ht Hsg).
  assert (Hgrp : is_Some (pgid_task s (tgid t)) ↔
    ∃ g sg', signals s !! g = Some sg' ∧ sig_pgrp sg' = tgid t).
  { split.
    - intros [g Hg]. destruct (pgid_task_some s _ g Hg) as (sg' & ? & ?). eauto.
    - intros (g & sg' & Hg & Hpg). destruct (pgid_task s (tgid t)) eqn:He; [done|].
      destruct (pgid_task_none s _ He g sg' Hg Hpg). }
  destruct (leader sg || bool_decide (is_Some (pgid_task s (tgid t)))) eqn:Hb.
  - eexists _, _. split; [reflexivity|]. split; [done|]. intros Hnr. destruct Hnr.
    unfold refused. rewrite <-Hgrp. apply orb_true_iff in Hb as [Hb|Hb]; [auto|].
    apply bool_decide_eq_true in Hb. auto.
  - apply orb_false_iff in Hb as [Hl Hb]. apply bool_decide_eq_false in Hb.
    rewrite Hgrp in Hb. eexists _, _. split; [reflexivity|]. split.
    { intros [Hr|Hr]; [congruence | done]. }
    intros _. apply Z.ltb_lt in Hpos as Hpos'. rewrite Hpos'. simpl.
    split; [done|]. split; [done|]. split; [apply lookup_insert_eq|].
    split; [|split; [|done]].
    + intros h Hh. by apply lookup_insert_ne.
    + intros h sh [[<- _]|[_ Hh]]%lookup_insert_Some Hpg; [done|]. destruct Hb. eauto.
Qed.
End properties.

(** ** Concrete runs *)

(** The lookup by search through the table. *)
Definition scan_group (s : pstate) (n : Z) : option Z :=
  fst <$> head (filter (λ x, sig_pgrp x.2 = n) (map_to_list (signals s))).

#[export] Instance scan_table : GroupTable.
Proof.
  refine {| pgid_task := scan_group |}; unfold scan_group; intros s n.
  - intros g. destruct (filter _ _) as [|[k sg] l] eqn:Hf; [done|]. simpl. intros [= <-].
    assert (Hin : (k, sg) ∈ filter (λ x : Z * signal_struct, sig_pgrp x.2 = n)
      (map_to_list (signals s))) by (rewrite Hf; constructor).
    apply list_elem_of_filter in Hin as [Hp Hin]. simpl in Hp.
    apply elem_of_map_to_list in Hin. eauto.
  - intros Hnone g sg Hg Hpg. destruct (filter _ _) as [|[k sg'] l] eqn:Hf; [|done].
    apply elem_of_map_to_list in Hg.
    assert (Hin : (g, sg) ∈ filter (λ x : Z * signal_struct, sig_pgrp x.2 = n)
      (map_to_list (signals s))) by (by apply list_elem_of_filter).
    rewrite Hf in Hin. by apply elem_of_nil in Hin.
Defined.

Module GroupRuns.
(** A shell (10), leader of session 10, its job (20) in group 20 and a child of
    the shell (30) not yet moved. *)
Definition s0 : pstate := mk_pstate
  {[ 10 := mk_ptask 10 1 false; 20 := mk_ptask 20 10 false; 30 := mk_ptask 30 10 true ]}
  {[ 10 := mk_signal 10 10 true true; 20 := mk_signal 20 10 false true;
     30 := mk_signal 10 10 false true ]} [].

Lemma s0_inv : group_inv s0.
Proof.
  assert (Hsig : ∀ g sg, signals s0 !! g = Some sg →
    (g, sg) ∈ [(10, mk_signal 10 10 true true); (20, mk_signal 20 10 false true);
               (30, mk_signal 10 10 false true)]).
  { intros g sg Hg%elem_of_map_to_list. revert Hg. vm_compute map_to_list.
    rewrite !elem_of_cons. tauto. }
  assert (Htask : ∀ n t, tasks s0 !! n = Some t →
    (n, t) ∈ [(10, mk_ptask 10 1 false); (20, mk_ptask 20 10 false); (30, mk_ptask 30 10 true)]).
  { intros n t Hn%elem_of_map_to_list. revert Hn. vm_compute map_to_list.
    rewrite !elem_of_cons. tauto. }
  split.
  - intros n t Hn%Htask. rewrite !elem_of_cons, elem_of_nil in Hn.
    destruct_or! Hn; simplify_eq; vm_compute; eauto.
  - intros g sg Hg%Hsig Hl. rewrite !elem_of_cons, elem_of_nil in Hg.
    destruct_or! Hg; simplify_eq; done.
  - intros g sg h sh Hg%Hsig Hh%Hsig _. rewrite !elem_of_cons, elem_of_nil in Hg, Hh.
    destruct_or! Hg; destruct_or! Hh; simplify_eq; done.
  - intros g sg h sh Hg%Hsig Hh%Hsig _. rewrite !elem_of_cons, elem_of_nil in Hg, Hh.
    destruct_or! Hg; destruct_or! Hh; simplify_eq; done.
Qed.

Definition s1 : pstate :=
  match sys_setpgid scan_group (λ _ _, 0) 10 30 20 s0 with Some (_, s) => s | None => s0 end.
Example move_run : sig_pgrp <$> signals s1 !! 30 = Some 20.
Proof. vm_compute. reflexivity. Qed.
Example leader_refused :
  (r ← ksys_setsid scan_group 10 s0; Some r.1) = Some (- EPERM).
Proof. vm_compute. reflexivity. Qed.

Lemma reach_s1 : preach (λ _ _, 0) s0 s1.
Proof.
  eapply preach_step; [apply preach_init|].
  apply (pstep_setpgid (λ _ _, 0) 10 30 20 s0 0 s1); [by eexists | vm_compute; reflexivity].
Qed.

Lemma groups_within_sessions_witness : ∃ sg sh,
  signals s1 !! 30 = Some sg ∧ signals s1 !! 20 = Some sh ∧ sig_session sg = sig_session sh.
Proof.
  exists (mk_signal 20 10 false true), (mk_signal 20 10 false true).
  split; [vm_compute; reflexivity|]. split; [vm_compute; reflexivity|].
  refine (proj1 (groups_within_sessions (λ _ _, 0) s0 s1 s0_inv reach_s1 30 _ 20 _ _ _) _);
    vm_compute; reflexivity.
Defined.

Lemma setpgid_spec_witness : ∃ r s',
  sys_setpgid scan_group (λ _ _, 0) 10 30 20 s0 = Some (r, s') ∧ (r ≠ 0 → s' = s0).
Proof.
  destruct (setpgid_spec (λ _ _, 0) s0 10 (mk_ptask 10 1 false) 30 20 (λ _, 0) s0_inv)
    as (r & s' & Hr & He & _); [vm_compute; reflexivity | done |].
  exists r, s'. split; [exact Hr | exact He].
Defined.

Lemma setsid_spec_witness : ∃ r s',
  ksys_setsid scan_group 30 s0 = Some (r, s') ∧
  signals s' !! 30 = Some (mk_signal 30 30 true false).
Proof.
  destruct (setsid_spec s0 30 (mk_ptask 30 10 true) (mk_signal 10 10 false true) s0_inv)
    as (r & s' & Hr & _ & Hok); [vm_compute; reflexivity.. | done |].
  exists r, s'. split; [exact Hr|]. apply Hok. intros [Hl|(g & sg & Hg & Hp)]; [done|].
  apply elem_of_map_to_list in Hg. revert Hg. vm_compute map_to_list.
  rewrite !elem_of_cons, elem_of_nil. intros Hg. destruct_or! Hg; simplify_eq; done.
Defined.
End GroupRuns.
