(* ===== verification/Rlimit.v ===== *)
(** * Rlimit: resource limits of [kernel/sys.c]

    [do_prlimit] and the calls built on it: [getrlimit], [setrlimit],
    [prlimit64], their 32-bit forms and the old [getrlimit].  The limits are an
    array per thread group; the task table, the capability check, the security
    hooks, and the sysctl that bounds open files are the record [rl_env] of a
    call. *)

From S2P Require Import Prelude UserMem KernelObj Credentials.

Record rlimit := mk_rlimit { rlim_cur : Z; rlim_max : Z }.

Definition RLIM_NLIMITS : Z := 16.
Definition RLIMIT_CPU : Z := 0.
Definition RLIMIT_NOFILE : Z := 7.
Definition RLIM_INFINITY : Z := 2 ^ 64 - 1.
Definition RLIM64_INFINITY : Z := 2 ^ 64 - 1.
Definition COMPAT_RLIM_INFINITY : Z := 2 ^ 32 - 1.
Definition LSM_PRLIMIT_READ : Z := 1.
Definition LSM_PRLIMIT_WRITE : Z := 2.

(** The part of a task the calls use: its address, its [signal] and its
    credentials. *)
Record rtask := mk_rtask { rt_addr : Z; rt_signal : Z; rt_cred : cred }.

Record rl_state (M : Type) := mk_rl {
  rlims : gmap Z (list rlimit);       (* tsk->signal->rlim *)
  rl_usage : gmap Z Z;                (* task references *)
  rl_rcu : Z;
  cpu_timers : list (Z * Z);          (* update_rlimit_cpu(leader, limit) *)
  rl_user : M;
}.
Arguments mk_rl {M}.
Arguments rlims {M}.
Arguments rl_usage {M}.
Arguments rl_rcu {M}.
Arguments cpu_timers {M}.
Arguments rl_user {M}.

Record rl_env := mk_rl_env {
  capable_resource : bool;                                (* capable(CAP_SYS_RESOURCE) *)
  ns_capable_resource : rtask → bool;
  sysctl_nr_open : Z;
  security_task_setrlimit : rtask → Z → rlimit → Z;
  security_task_prlimit : rtask → rtask → Z → Z;
  find_task_by_vpid : Z → option rtask;
  config_posix_timers : bool;
}.

Section handlers.
Context {M : Type} `{UserAccess M}.
Abbreviation st := (rl_state M).

Definition set_rlims (f : gmap Z (list rlimit) → gmap Z (list rlimit)) (s : st) : st :=
  mk_rl (f (rlims s)) (rl_usage s) (rl_rcu s) (cpu_timers s) (rl_user s).
Definition rl_rcu_add (d : Z) : kst st unit :=
  kmodify (λ s, mk_rl (rlims s) (rl_usage s) (rl_rcu s + d) (cpu_timers s) (rl_user s)).
Definition rl_get_task (t : rtask) : kst st unit :=
  kmodify (λ s, mk_rl (rlims s) (ref_inc (rt_addr t) (rl_usage s)) (rl_rcu s) (cpu_timers s)
    (rl_user s)).
Definition rl_put_task (t : rtask) : kst st unit :=
  kmodify (λ s, mk_rl (rlims s) (ref_dec (rt_addr t) (rl_usage s)) (rl_rcu s) (cpu_timers s)
    (rl_user s)).
Definition update_rlimit_cpu (leader limit : Z) : kst st unit :=
  kmodify (λ s, mk_rl (rlims s) (rl_usage s) (rl_rcu s) ((leader, limit) :: cpu_timers s)
    (rl_user s)).
Definition rl_copy_out (p : Z) (bs : list Z) : kst st Z := λ s,
  let r := copy_to_user (rl_user s) p bs in
  Some (r.1, mk_rl (rlims s) (rl_usage s) (rl_rcu s) (cpu_timers s) r.2).
Definition rl_copy_in (p n : Z) : kst st (Z * list Z) := λ s,
  Some (copy_from_user (rl_user s) p n, s).

(** The entry of the array; an index out of it would be a wild access. *)
Definition rlim_entry (tsk : rtask) (resource : Z) : kst st rlimit := λ s,
  l ← rlims s !! rt_signal tsk; r ← l !! Z.to_nat resource; Some (r, s).
Definition rlim_store (tsk : rtask) (resource : Z) (r : rlimit) : kst st unit :=
  kmodify (set_rlims (alter (<[Z.to_nat resource := r]>) (rt_signal tsk))).

(** The limit the checks refuse before the array is looked at. *)
Definition new_rlim_check (env : rl_env) (resource : Z) (new : option rlimit) : Z :=
  match new with
  | Some n =>
      if rlim_max n <? rlim_cur n then - EINVAL else
      if (resource =? RLIMIT_NOFILE) && (sysctl_nr_open env <? rlim_max n) then - EPERM else 0
  | None => 0
  end.

(** The checks under the task lock. *)
Definition new_rlim_perm (env : rl_env) (tsk : rtask) (resource : Z) (rlim : rlimit)
    (new : option rlimit) : Z :=
  match new with
  | Some n =>
      if (rlim_max rlim <? rlim_max n) && negb (capable_resource env) then - EPERM
      else security_task_setrlimit env tsk resource n
  | None => 0
  end.

(** The result, and the old limit when it is 0. *)
Definition do_prlimit (env : rl_env) (tsk : rtask) (resource : Z) (new_rlim : option rlimit)
    : kst st (Z * option rlimit) :=
  if RLIM_NLIMITS <=? resource then mret (- EINVAL, None) else
  let retval := new_rlim_check env resource new_rlim in
  if nz retval then mret (retval, None) else
  rlim ← rlim_entry tsk resource;
  let retval := new_rlim_perm env tsk resource rlim new_rlim in
  if nz retval then mret (retval, None) else
  match new_rlim with
  | Some n => rlim_store tsk resource n
  | None => mret tt
  end;;
  match new_rlim with
  | Some n =>
      if (resource =? RLIMIT_CPU) && negb (rlim_cur n =? RLIM_INFINITY) &&
         config_posix_timers env
      then update_rlimit_cpu (rt_signal tsk) (rlim_cur n) else mret tt
  | None => mret tt
  end;;
  mret (0, Some rlim).

Definition rlimit_bytes (r : rlimit) : list Z :=
  bytes_of_u64 (rlim_cur r) ++ bytes_of_u64 (rlim_max r).
Definition rlimit_of_bytes (bs : list Z) : rlimit :=
  mk_rlimit (le_value (take 8 bs)) (le_value (drop 8 bs)).

Definition sys_getrlimit (env : rl_env) (cur : rtask) (resource rlim : Z) : kst st Z :=
  r ← do_prlimit env cur resource None;
  match r with
  | (ret, Some value) =>
      rest ← rl_copy_out rlim (rlimit_bytes value);
      mret (if nz rest then - EFAULT else 0)
  | (ret, None) => mret ret
  end.

Definition sys_setrlimit (env : rl_env) (cur : rtask) (resource rlim : Z) : kst st Z :=
  c ← rl_copy_in rlim 16;
  if nz c.1 then mret (- EFAULT) else
  r ← do_prlimit env cur resource (Some (rlimit_of_bytes c.2));
  mret r.1.

(** *** 32-bit limits *)
Definition compat_rlimit_bytes (r : rlimit) : list Z :=
  bytes_of_u32 (rlim_cur r) ++ bytes_of_u32 (rlim_max r).
Definition compat_rlimit_of_bytes (bs : list Z) : rlimit :=
  mk_rlimit (le_value (take 4 bs)) (le_value (drop 4 bs)).

Definition widen (x : Z) : Z := if x =? COMPAT_RLIM_INFINITY then RLIM_INFINITY else x.
Definition narrow (x : Z) : Z :=
  if COMPAT_RLIM_INFINITY <? x then COMPAT_RLIM_INFINITY else x.

Definition compat_sys_setrlimit (env : rl_env) (cur : rtask) (resource rlim : Z) : kst st Z :=
  c ← rl_copy_in rlim 8;
  if nz c.1 then mret (- EFAULT) else
  let r32 := compat_rlimit_of_bytes c.2 in
  let r := mk_rlimit (widen (rlim_cur r32)) (widen (rlim_max r32)) in
  r ← do_prlimit env cur resource (Some r);
  mret r.1.

Definition compat_sys_getrlimit (env : rl_env) (cur : rtask) (resource rlim : Z) : kst st Z :=
  r ← do_prlimit env cur resource None;
  match r with
  | (ret, Some r) =>
      let r32 := mk_rlimit (narrow (rlim_cur r)) (narrow (rlim_max r)) in
      rest ← rl_copy_out rlim (compat_rlimit_bytes r32);
      mret (if nz rest then - EFAULT else ret)
  | (ret, None) => mret ret
  end.

Definition old_clamp (x : Z) : Z := if 2147483647 <? x then 2147483647 else x.

Definition sys_old_getrlimit (cur : rtask) (resource rlim : Z) : kst st Z :=
  if RLIM_NLIMITS <=? resource then mret (- EINVAL) else
  x ← rlim_entry cur resource;
  let x := mk_rlimit (old_clamp (rlim_cur x)) (old_clamp (rlim_max x)) in
  rest ← rl_copy_out rlim (rlimit_bytes x);
  mret (if nz rest then - EFAULT else 0).

Definition compat_sys_old_getrlimit (cur : rtask) (resource rlim : Z) : kst st Z :=
  if RLIM_NLIMITS <=? resource then mret (- EINVAL) else
  r ← rlim_entry cur resource;
  let r := mk_rlimit (old_clamp (rlim_cur r)) (old_clamp (rlim_max r)) in
  rest ← rl_copy_out rlim (bytes_of_u32 (rlim_cur r));
  if nz rest then mret (- EFAULT) else
  rest ← rl_copy_out (rlim + 4) (bytes_of_u32 (rlim_max r));
  if nz rest then mret (- EFAULT) else mret 0.

(** *** prlimit64 *)
Definition rlim64_is_infinity (x : Z) : bool := x =? RLIM64_INFINITY.
Definition rlim_to_rlim64 (r : rlimit) : rlimit :=
  mk_rlimit (if rlim_cur r =? RLIM_INFINITY then RLIM64_INFINITY else rlim_cur r)
            (if rlim_max r =? RLIM_INFINITY then RLIM64_INFINITY else rlim_max r).
Definition rlim64_to_rlim (r : rlimit) : rlimit :=
  mk_rlimit (if rlim64_is_infinity (rlim_cur r) then RLIM_INFINITY else u64 (rlim_cur r))
            (if rlim64_is_infinity (rlim_max r) then RLIM_INFINITY else u64 (rlim_max r)).

Definition check_prlimit_permission (env : rl_env) (cur task : rtask) (flags : Z) : Z :=
  if rt_addr cur =? rt_addr task then 0 else
  let cred := rt_cred cur in
  let tcred := rt_cred task in
  let id_match :=
    (rid (uids cred) =? eid (uids tcred)) && (rid (uids cred) =? sid (uids tcred)) &&
    (rid (uids cred) =? rid (uids tcred)) && (rid (gids cred) =? eid (gids tcred)) &&
    (rid (gids cred) =? sid (gids tcred)) && (rid (gids cred) =? rid (gids tcred)) in
  if negb id_match && negb (ns_capable_resource env task) then - EPERM
  else security_task_prlimit env cur task flags.

Definition sys_prlimit64 (env : rl_env) (cur : rtask) (pid resource new_rlim old_rlim : Z)
    : kst st Z :=
  let checkflags := if nz old_rlim then LSM_PRLIMIT_READ else 0 in
  new ← (if nz new_rlim then
           c ← rl_copy_in new_rlim 16;
           if nz c.1 then mret (inl (- EFAULT))
           else mret (inr (Some (rlim64_to_rlim (rlimit_of_bytes c.2))))
         else mret (inr None));
  match new with
  | inl err => mret err
  | inr new =>
      let checkflags :=
        if nz new_rlim then Z.lor checkflags LSM_PRLIMIT_WRITE else checkflags in
      rl_rcu_add 1;;
      match (if nz pid then find_task_by_vpid env pid else Some cur) with
      | None => rl_rcu_add (-1);; mret (- ESRCH)
      | Some tsk =>
          let ret := check_prlimit_permission env cur tsk checkflags in
          if nz ret then rl_rcu_add (-1);; mret ret else
          rl_get_task tsk;;
          rl_rcu_add (-1);;
          r ← do_prlimit env tsk resource new;
          ret ← match r with
                | (ret, Some old) =>
                    if nz old_rlim then
                      rest ← rl_copy_out old_rlim (rlimit_bytes (rlim_to_rlim64 old));
                      mret (if nz rest then - EFAULT else ret)
                    else mret ret
                | (ret, None) => mret ret
                end;
          rl_put_task tsk;;
          mret ret
      end
  end.
End handlers.

(** ** The calls as transitions *)
Inductive rl_call :=
  | CallGetrlimit (resource rlim : Z)
  | CallSetrlimit (resource rlim : Z)
  | CallCompatSetrlimit (resource rlim : Z)
  | CallCompatGetrlimit (resource rlim : Z)
  | CallOldGetrlimit (resource rlim : Z)
  | CallCompatOldGetrlimit (resource rlim : Z)
  | CallPrlimit64 (pid resource new_rlim old_rlim : Z).

Definition do_rl_call {M} `{UserAccess M} (env : rl_env) (cur : rtask) (c : rl_call)
    : kst (rl_state M) Z :=
  match c with
  | CallGetrlimit resource rlim => sys_getrlimit env cur resource rlim
  | CallSetrlimit resource rlim => sys_setrlimit env cur resource rlim
  | CallCompatSetrlimit resource rlim => compat_sys_setrlimit env cur resource rlim
  | CallCompatGetrlimit resource rlim => compat_sys_getrlimit env cur resource rlim
  | CallOldGetrlimit resource rlim => sys_old_getrlimit cur resource rlim
  | CallCompatOldGetrlimit resource rlim => compat_sys_old_getrlimit cur resource rlim
  | CallPrlimit64 pid resource new_rlim old_rlim =>
      sys_prlimit64 env cur pid resource new_rlim old_rlim
  end.

(** Calls by any task; between two of them user programs change user memory as
    they like. *)
Inductive rl_steps {M} `{UserAccess M} (P : rl_env → Prop) : rl_state M → rl_state M → Prop :=
  | rl_refl s : rl_steps P s s
  | rl_call_step env cur c s1 s2 r s3 :
      rl_steps P s1 s2 → P env → do_rl_call env cur c s2 = Some (r, s3) → rl_steps P s1 s3
  | rl_user_step s1 s2 m :
      rl_steps P s1 s2 →
      rl_steps P s1 (mk_rl (rlims s2) (rl_usage s2) (rl_rcu s2) (cpu_timers s2) m).

(** ** Lemmas *)

(** What one call may do to the arrays: nothing, or replace one entry. *)
Inductive lims_change (env : rl_env) (m : gmap Z (list rlimit)) : gmap Z (list rlimit) → Prop :=
  | lims_same : lims_change env m m
  | lims_set sig l i old n :
      m !! sig = Some l → l !! i = Some old → rlim_cur n ≤ rlim_max n →
      (capable_resource env = false → rlim_max n ≤ rlim_max old) →
      lims_change env m (<[sig := <[i := n]> l]> m).

Section lemmas.
Context {M : Type} `{UserAccess M}.
Implicit Types (s : rl_state M).

Lemma rlim_entry_run s tsk resource l r :
  rlims s !! rt_signal tsk = Some l → l !! Z.to_nat resource = Some r →
  rlim_entry tsk resource s = Some (r, s).
Proof. intros Hl Hr. unfold rlim_entry. rewrite Hl. simpl. by rewrite Hr. Qed.

Lemma rlim_entry_inv s tsk resource r s' :
  rlim_entry tsk resource s = Some (r, s') →
  s' = s ∧ ∃ l, rlims s !! rt_signal tsk = Some l ∧ l !! Z.to_nat resource = Some r.
Proof.
  unfold rlim_entry. destruct (rlims s !! _) as [l|]; [|done]. simpl.
  destruct (l !! _) eqn:Hl; [|done]. simpl. intros [= <- <-]. eauto.
Qed.

(** Every path of [do_prlimit]. *)
Lemma do_prlimit_outcome env tsk resource new s r s' :
  do_prlimit env tsk resource new s = Some (r, s') →
  lims_change env (rlims s) (rlims s') ∧ rl_user s' = rl_user s ∧
  rl_usage s' = rl_usage s ∧ rl_rcu s' = rl_rcu s ∧ (r.2 = None → r.1 ≠ 0).
Proof.
  unfold do_prlimit. intros Hrun.
  assert (Hsame : ∀ e, e ≠ 0 → Some ((e, None), s) = Some (r, s') →
    lims_change env (rlims s) (rlims s') ∧ rl_user s' = rl_user s ∧
    rl_usage s' = rl_usage s ∧ rl_rcu s' = rl_rcu s ∧ (r.2 = None → r.1 ≠ 0)).
  { intros e He [= <- <-]. split_and!; try done. constructor. }
  destruct (RLIM_NLIMITS <=? resource); [by apply (Hsame (- EINVAL))|].
  unfold nz in Hrun. destruct (Z.eqb_spec (new_rlim_check env resource new) 0) as [Hc|Hc];
    simpl in Hrun; [|by eapply Hsame].
  kinv Hrun. apply rlim_entry_inv in Hm as (-> & l & Hl & Hr).
  destruct (Z.eqb_spec (new_rlim_perm env tsk resource a new) 0) as [Hp|Hp];
    simpl in Hrun; [|by eapply Hsame].
  destruct new as [n|]; simpl in Hrun.
  2: { injection Hrun as <- <-. split_and!; try done. constructor. }
  unfold rlim_store in Hrun. rewrite kbind_modify in Hrun.
  set (s1 := set_rlims (alter <[Z.to_nat resource:=n]> (rt_signal tsk)) s) in *.
  assert (Hs' : rlims s' = rlims s1 ∧ rl_user s' = rl_user s ∧
    rl_usage s' = rl_usage s ∧ rl_rcu s' = rl_rcu s ∧ r = (0, Some a)).
  { destruct (_ && _);
      [unfold update_rlimit_cpu in Hrun; rewrite kbind_modify in Hrun|rewrite kbind_ret in Hrun];
      rewrite kret_run in Hrun; by injection Hrun as <- <-. }
  destruct Hs' as (-> & ? & ? & ? & ->). split_and!; try done.
  simpl. assert (Ha : alter <[Z.to_nat resource:=n]> (rt_signal tsk) (rlims s) =
    <[rt_signal tsk := <[Z.to_nat resource := n]> l]> (rlims s)).
  { apply map_eq. intros k. rewrite lookup_alter, lookup_insert.
    destruct (decide (rt_signal tsk = k)) as [<-|]; [by rewrite Hl | done]. }
  rewrite Ha. eapply lims_set; [exact Hl | exact Hr | |].
  - unfold new_rlim_check in Hc. destruct (Z.ltb_spec (rlim_max n) (rlim_cur n)); [done | lia].
  - intros Hcap. unfold new_rlim_perm in Hp. rewrite Hcap in Hp.
    destruct (Z.ltb_spec (rlim_max a) (rlim_max n)); [done | lia].
Qed.

Lemma copy_out_rlims p bs s r s' :
  rl_copy_out p bs s = Some (r, s') → rlims s' = rlims s.
Proof. unfold rl_copy_out. by intros [= _ <-]. Qed.

Lemma call_lims env cur c s r s' :
  do_rl_call env cur c s = Some (r, s') → lims_change env (rlims s) (rlims s').
Proof.
  assert (Hsame : ∀ m, m = rlims s → lims_change env (rlims s) m) by (intros ? ->; constructor).
  destruct c; simpl; unfold sys_getrlimit, sys_setrlimit, compat_sys_setrlimit,
    compat_sys_getrlimit, sys_old_getrlimit, compat_sys_old_getrlimit; intros Hrun.
  - kinv Hrun. apply do_prlimit_outcome in Hm as (Hc & _).
    replace (rlims s') with (rlims s0); [done|]. destruct a as [? [v|]]; [|by kfin].
    kinv Hrun. apply copy_out_rlims in Hm. kfin. congruence.
  - kinv Hrun. unfold rl_copy_in in Hm. kfin. case_match; [kfin; by apply Hsame|].
    kinv Hrun. apply do_prlimit_outcome in Hm as (Hc & _). by kfin.
  - kinv Hrun. unfold rl_copy_in in Hm. kfin. case_match; [kfin; by apply Hsame|].
    kinv Hrun. apply do_prlimit_outcome in Hm as (Hc & _). by kfin.
  - kinv Hrun. apply do_prlimit_outcome in Hm as (Hc & _).
    replace (rlims s') with (rlims s0); [done|]. destruct a as [? [v|]]; [|by kfin].
    kinv Hrun. apply copy_out_rlims in Hm. kfin. congruence.
  - apply Hsame. case_match; [by kfin|]. kinv Hrun.
    apply rlim_entry_inv in Hm as (-> & _). kinv Hrun. apply copy_out_rlims in Hm.
    kfin. congruence.
  - apply Hsame. case_match; [by kfin|]. kinv Hrun.
    apply rlim_entry_inv in Hm as (-> & _). kinv Hrun. apply copy_out_rlims in Hm.
    case_match; [by kfin|]. kinv Hrun. apply copy_out_rlims in Hm0.
    case_match; kfin; congruence.
  - unfold sys_prlimit64 in Hrun. kinv Hrun.
    assert (s0 = s) as ->.
    { destruct (nz new_rlim); [|by kfin]. kinv Hm. unfold rl_copy_in in Hm0.
      kfin. destruct (nz (copy_from_user _ _ _).1); by kfin. }
    destruct a as [err|new]; [kfin; by apply Hsame|].
    unfold rl_rcu_add in Hrun. rewrite kbind_modify in Hrun.
    destruct (if nz pid then _ else _) as [tsk|].
    2: { rewrite kbind_modify in Hrun. kfin. by apply Hsame. }
    destruct (nz (check_prlimit_permission _ _ _ _));
      [rewrite kbind_modify in Hrun; kfin; by apply Hsame|].
    unfold rl_get_task, rl_put_task in Hrun. rewrite !kbind_modify in Hrun.
    kinv Hrun. apply do_prlimit_outcome in Hm0 as (Hc & _). simpl in Hc.
    kinv Hrun. rewrite kbind_modify in Hrun. kfin. simpl.
    replace (rlims s1) with (rlims s0); [done|].
    destruct a as [? [v|]]; [|by kfin]. destruct (nz old_rlim); [|by kfin].
    kinv Hm0. apply copy_out_rlims in Hm1. kfin. congruence.
Qed.

(** A successful [do_prlimit] installed the new limit and nothing else. *)
Lemma do_prlimit_installs env tsk resource n s o s' :
  0 ≤ resource → do_prlimit env tsk resource (Some n) s = Some ((0, o), s') →
  resource < RLIM_NLIMITS ∧ rl_user s' = rl_user s ∧
  ∃ l, rlims s' !! rt_signal tsk = Some l ∧ l !! Z.to_nat resource = Some n.
Proof.
  intros Hres Hrun. apply do_prlimit_outcome in Hrun as Hout.
  destruct Hout as (_ & Hu & _ & _ & _). unfold do_prlimit in Hrun.
  destruct (Z.leb_spec RLIM_NLIMITS resource); [done|]. split; [lia|]. split; [done|].
  unfold nz in Hrun. destruct (Z.eqb_spec (new_rlim_check env resource (Some n)) 0) as [Hc|Hc];
    cbn [negb] in Hrun; [|kfin; done].
  kinv Hrun. apply rlim_entry_inv in Hm as (-> & l & Hl & Hr).
  destruct (Z.eqb_spec (new_rlim_perm env tsk resource a (Some n)) 0) as [Hp|Hp];
    cbn [negb] in Hrun; [|kfin; done].
  unfold rlim_store in Hrun. rewrite kbind_modify in Hrun.
  exists (<[Z.to_nat resource := n]> l).
  assert (Hs' : rlims s' = alter <[Z.to_nat resource:=n]> (rt_signal tsk) (rlims s)).
  { destruct (_ && _);
      [unfold update_rlimit_cpu in Hrun; rewrite kbind_modify in Hrun|rewrite kbind_ret in Hrun];
      rewrite kret_run in Hrun; by simplify_eq. }
  rewrite Hs', lookup_alter_eq, Hl. split; [done|].
  apply list_lookup_insert_eq. by eapply lookup_lt_Some.
Qed.

Lemma do_prlimit_reads env tsk resource s l r :
  resource < RLIM_NLIMITS → rlims s !! rt_signal tsk = Some l →
  l !! Z.to_nat resource = Some r → do_prlimit env tsk resource None s = Some ((0, Some r), s).
Proof.
  intros Hres Hl Hr. unfold do_prlimit. rewrite (proj2 (Z.leb_gt _ _)) by lia. simpl.
  by rewrite (kbind_some _ _ _ _ _ (rlim_entry_run s tsk resource l r Hl Hr)).
Qed.
End lemmas.

Definition rl_lookup (m : gmap Z (list rlimit)) (sig : Z) (i : nat) : option rlimit :=
  l ← m !! sig; l !! i.

Lemma lims_change_entry env m m' sig i r' :
  lims_change env m m' → rl_lookup m' sig i = Some r' →
  ∃ r, rl_lookup m sig i = Some r ∧
    (r' = r ∨ rlim_cur r' ≤ rlim_max r' ∧
       (capable_resource env = false → rlim_max r' ≤ rlim_max r)).
Proof.
  intros Hc Hr'. destruct Hc as [|sig0 l i0 old n Hl Ho Hn Hcap]; [eauto|].
  unfold rl_lookup in *. rewrite lookup_insert in Hr'.
  destruct (decide (sig0 = sig)) as [<-|Hs]; [|eauto]. simpl in Hr'. rewrite Hl. simpl.
  apply list_lookup_insert_Some in Hr' as [(<- & <- & _)|[_ Hr']]; eauto.
Qed.

(** The two layouts, read from and written to user memory. *)
Section layout.
Context {M : Type} `{UserAccess M}.

Lemma rlimit_of_bytes_read (m : M) p c mx :
  (copy_from_user m p 16).1 = 0 → uread_u64 m p = Some c → uread_u64 m (p + 8) = Some mx →
  rlimit_of_bytes (copy_from_user m p 16).2 = mk_rlimit c mx.
Proof.
  intros Hc R1 R2. unfold rlimit_of_bytes, uread_u64 in *.
  pose proof (copy_from_user_range m p 16 0 8 Hc ltac:(lia) ltac:(lia)) as B1.
  pose proof (copy_from_user_range m p 16 8 8 Hc ltac:(lia) ltac:(lia)) as B2.
  pose proof (copy_from_user_length m p 16 ltac:(lia)) as Hlen.
  change (p + Z.of_nat 8) with (p + 8) in B2. rewrite Z.add_0_r in B1.
  rewrite B1 in R1. rewrite B2 in R2. simpl in R1, R2. injection R1 as <-. injection R2 as <-.
  f_equal. by rewrite (take_ge (drop 8 _)) by (rewrite length_drop; lia).
Qed.

Lemma compat_rlimit_of_bytes_read (m : M) p c mx :
  (copy_from_user m p 8).1 = 0 → uread_u32 m p = Some c → uread_u32 m (p + 4) = Some mx →
  compat_rlimit_of_bytes (copy_from_user m p 8).2 = mk_rlimit c mx.
Proof.
  intros Hc R1 R2. unfold compat_rlimit_of_bytes, uread_u32 in *.
  pose proof (copy_from_user_range m p 8 0 4 Hc ltac:(lia) ltac:(lia)) as B1.
  pose proof (copy_from_user_range m p 8 4 4 Hc ltac:(lia) ltac:(lia)) as B2.
  pose proof (copy_from_user_length m p 8 ltac:(lia)) as Hlen.
  change (p + Z.of_nat 4) with (p + 4) in B2. rewrite Z.add_0_r in B1.
  rewrite B1 in R1. rewrite B2 in R2. simpl in R1, R2. injection R1 as <-. injection R2 as <-.
  f_equal. by rewrite (take_ge (drop 4 _)) by (rewrite length_drop; lia).
Qed.

Lemma rlimit_bytes_back (m : M) q r :
  user_wr m q 16 = true →
  let c := copy_to_user m q (rlimit_bytes r) in
  c.1 = 0 ∧ uread_u64 c.2 q = Some (u64 (rlim_cur r)) ∧
  uread_u64 c.2 (q + 8) = Some (u64 (rlim_max r)).
Proof.
  intros Hw c.
  assert (Hb : rlimit_bytes r = [rlim_cur r; rlim_max r] ≫= bytes_of_u64)
    by (by rewrite !bind_cons, app_nil_r).
  unfold c. rewrite Hb.
  assert (Hz : (copy_to_user m q ([rlim_cur r; rlim_max r] ≫= bytes_of_u64)).1 = 0)
    by (apply copy_to_user_ok; by rewrite words_length).
  split; [done|]. split.
  - pose proof (copy_to_user_words m q _ 0 (rlim_cur r) Hz eq_refl) as Hr.
    change (8 * Z.of_nat 0) with 0 in Hr. by rewrite Z.add_0_r in Hr.
  - by apply (copy_to_user_words _ _ _ 1).
Qed.

Lemma compat_rlimit_bytes_back (m : M) q r :
  user_wr m q 8 = true →
  let c := copy_to_user m q (compat_rlimit_bytes r) in
  c.1 = 0 ∧ uread_u32 c.2 q = Some (u32 (rlim_cur r)) ∧
  uread_u32 c.2 (q + 4) = Some (u32 (rlim_max r)).
Proof.
  intros Hw c.
  assert (Hz : c.1 = 0).
  { apply copy_to_user_ok. unfold compat_rlimit_bytes. rewrite length_app.
    by autorewrite with kernel. }
  split; [done|]. pose proof (copy_to_user_range m q _ Hz) as Hr. fold c in Hr.
  unfold uread_u32. split.
  - assert (Hr1 : uread_range c.2 q 4 = Some (bytes_of_u32 (rlim_cur r))).
    { rewrite <-(Z.add_0_r q). change 0 with (Z.of_nat (length (@nil Z))).
      change 4%nat with (length (bytes_of_u32 (rlim_cur r))).
      by apply (uread_range_sub c.2 q [] _ (bytes_of_u32 (rlim_max r))). }
    rewrite Hr1. simpl. by rewrite <-le_value_u32.
  - assert (Hr2 : uread_range c.2 (q + 4) 4 = Some (bytes_of_u32 (rlim_max r))).
    { change 4 with (Z.of_nat (length (bytes_of_u32 (rlim_cur r)))).
      change 4%nat with (length (bytes_of_u32 (rlim_max r))).
      apply (uread_range_sub c.2 q _ _ []). by rewrite app_nil_r. }
    rewrite Hr2. simpl. by rewrite <-le_value_u32.
Qed.
End layout.

Lemma narrow_widen x : in_u32 x → narrow (widen x) = x.
Proof.
  intros Hx. unfold narrow, widen, COMPAT_RLIM_INFINITY, RLIM_INFINITY, in_u32 in *.
  destruct (Z.eqb_spec x (2 ^ 32 - 1)) as [->|]; [done|].
  rewrite (proj2 (Z.ltb_ge _ _)) by lia. done.
Qed.

(** ** Properties *)

(** C11. Through any interleaving of limit calls by any tasks and of changes of
    user memory, a soft limit never exceeds its hard limit; and as long as no
    call is made with CAP_SYS_RESOURCE, no hard limit is ever raised, so that
    every soft limit stays below the hard limit the process started with.  This
    covers all seven entry points, the 32-bit infinity conversion included. *)
Theorem rlimits_only_lowered {M} `{UserAccess M} P (s s' : rl_state M) sig i r r' :
  rl_steps P s s' →
  (∀ sig i r, rl_lookup (rlims s) sig i = Some r → rlim_cur r ≤ rlim_max r) →
  rl_lookup (rlims s) sig i = Some r → rl_lookup (rlims s') sig i = Some r' →
  rlim_cur r' ≤ rlim_max r' ∧
  ((∀ env, P env → capable_resource env = false) →
     rlim_max r' ≤ rlim_max r ∧ rlim_cur r' ≤ rlim_max r).
Proof.
  intros Hs Hok Hr. revert r'.
  assert (Hgen : ∀ r', rl_lookup (rlims s') sig i = Some r' → rlim_cur r' ≤ rlim_max r' ∧
    ((∀ env, P env → capable_resource env = false) → rlim_max r' ≤ rlim_max r)).
  { induction Hs as [s|env cur c s1 s2 x s3 Hs IH HP Hrun|s1 s2 m Hs IH]; intros r' Hr'.
    - rewrite Hr in Hr'. injection Hr' as <-. split; [by eapply Hok | done].
    - destruct (lims_change_entry env _ _ sig i r' (call_lims env cur c s2 x s3 Hrun) Hr')
        as (r2 & Hr2 & Hcase). destruct (IH Hok Hr r2 Hr2) as [IH1 IH2].
      destruct Hcase as [->|[Hle Hmax]]; [done|]. split; [done|].
      intros HPc. specialize (IH2 HPc). specialize (Hmax (HPc env HP)). lia.
    - by apply IH. }
  intros r' Hr'. destruct (Hgen r' Hr') as [H1 H2]. split; [done|].
  intros HP. specialize (H2 HP). lia.
Qed.

(** Round trips: after a [setrlimit] that returned 0, [getrlimit] stores the
    two words the caller passed; after the 32-bit [setrlimit], the 32-bit
    [getrlimit] stores the same two words, although "infinity" and the limits
    in between are kept as 64-bit numbers. *)
Theorem setrlimit_getrlimit {M} `{UserAccess M} env cur resource p q c m (s s1 : rl_state M) :
  0 ≤ resource → user_wr (rl_user s) q 16 = true →
  (in_u64 c → in_u64 m →
   uread_u64 (rl_user s) p = Some c → uread_u64 (rl_user s) (p + 8) = Some m →
   sys_setrlimit env cur resource p s = Some (0, s1) →
   ∃ s2, sys_getrlimit env cur resource q s1 = Some (0, s2) ∧
     uread_u64 (rl_user s2) q = Some c ∧ uread_u64 (rl_user s2) (q + 8) = Some m) ∧
  (in_u32 c → in_u32 m →
   uread_u32 (rl_user s) p = Some c → uread_u32 (rl_user s) (p + 4) = Some m →
   compat_sys_setrlimit env cur resource p s = Some (0, s1) →
   user_wr (rl_user s) q 8 = true →
   ∃ s2, compat_sys_getrlimit env cur resource q s1 = Some (0, s2) ∧
     uread_u32 (rl_user s2) q = Some c ∧ uread_u32 (rl_user s2) (q + 4) = Some m).
Proof.
  intros Hres Hw. split.
  - intros Hc Hm Rc Rm Hset. unfold sys_setrlimit, rl_copy_in in Hset. kinv Hset. kfin.
    unfold nz in Hset.
    destruct (Z.eqb_spec (copy_from_user (rl_user s0) p 16).1 0) as [Hcp|]; [|by kfin].
    cbn [negb] in Hset. rewrite (rlimit_of_bytes_read _ _ _ _ Hcp Rc Rm) in Hset.
    kinv Hset. destruct a as [r o]. kfin. simpl in *. subst r.
    apply do_prlimit_installs in Hm0 as (Hlim & Hu & l & Hl & Hr); [|done].
    unfold sys_getrlimit.
    rewrite (kbind_some _ _ _ _ _ (do_prlimit_reads env cur resource s1 l _ Hlim Hl Hr)).
    unfold rl_copy_out at 1. erewrite kbind_some by reflexivity. rewrite Hu.
    destruct (rlimit_bytes_back (rl_user s0) q (mk_rlimit c m) Hw) as (Hz & Hb1 & Hb2).
    simpl in Hb1, Hb2. rewrite u64_small in Hb1, Hb2 by done. rewrite Hz.
    eexists. split; [reflexivity|]. done.
  - intros Hc Hm Rc Rm Hset Hw8. unfold compat_sys_setrlimit, rl_copy_in in Hset.
    kinv Hset. kfin. unfold nz in Hset.
    destruct (Z.eqb_spec (copy_from_user (rl_user s0) p 8).1 0) as [Hcp|]; [|by kfin].
    cbn [negb] in Hset. rewrite (compat_rlimit_of_bytes_read _ _ _ _ Hcp Rc Rm) in Hset.
    kinv Hset. destruct a as [r o]. kfin. simpl in *. subst r.
    apply do_prlimit_installs in Hm0 as (Hlim & Hu & l & Hl & Hr); [|done].
    unfold compat_sys_getrlimit.
    rewrite (kbind_some _ _ _ _ _ (do_prlimit_reads env cur resource s1 l _ Hlim Hl Hr)).
    simpl. rewrite !narrow_widen by done.
    unfold rl_copy_out at 1. erewrite kbind_some by reflexivity. rewrite Hu.
    destruct (compat_rlimit_bytes_back (rl_user s0) q (mk_rlimit c m) Hw8) as (Hz & Hb1 & Hb2).
    simpl in Hb1, Hb2. rewrite u32_small in Hb1, Hb2 by done. rewrite Hz.
    eexists. split; [reflexivity|]. done.
Qed.

(** ** Concrete runs *)
Module RlimitRuns.
Definition env0 : rl_env :=
  mk_rl_env false (λ _, false) 1048576 (λ _ _ _, 0) (λ _ _ _, 0) (λ _, None) true.
Definition me : rtask := mk_rtask 5000 10 CredRuns.user7.
(** Page 4096 holds the pair (100, 4096) as 64-bit words, and the 32-bit pair
    (100, 2^32 - 1) at 4112. *)
Definition um : gmap Z Z :=
  (copy_to_user (copy_to_user (zero_page 4096 64) 4096 (rlimit_bytes (mk_rlimit 100 4096))).2
    4112 (compat_rlimit_bytes (mk_rlimit 100 (2 ^ 32 - 1)))).2.
Definition s0 : rl_state (gmap Z Z) :=
  mk_rl {[ 10 := replicate 16 (mk_rlimit 1024 RLIM_INFINITY) ]} ∅ 0 [] um.

Definition after (c : rl_call) (s : rl_state (gmap Z Z)) : rl_state (gmap Z Z) :=
  match do_rl_call env0 me c s with Some (_, s') => s' | None => s end.
Definition s1 := after (CallSetrlimit 7 4096) s0.

Lemma s1_steps : rl_steps (λ env, capable_resource env = false) s0 s1.
Proof.
  eapply (rl_call_step _ env0 me (CallSetrlimit 7 4096)); [apply rl_refl | done |].
  vm_compute. reflexivity.
Qed.

Example raise_refused :
  (r ← do_rl_call env0 me (CallCompatSetrlimit 7 4112) s1; Some r.1) = Some (- EPERM).
Proof. vm_compute. reflexivity. Qed.

Lemma s0_ok sig i r : rl_lookup (rlims s0) sig i = Some r → rlim_cur r ≤ rlim_max r.
Proof.
  unfold rl_lookup, s0. simpl. rewrite lookup_singleton.
  destruct (decide (10 = sig)); [|done]. cbn [mbind option_bind]. intros Hr.
  apply (lookup_replicate 16) in Hr as [-> _]. done.
Qed.

Lemma rlimits_only_lowered_witness :
  rl_lookup (rlims s1) 10 7 = Some (mk_rlimit 100 4096) ∧ 4096 ≤ RLIM_INFINITY.
Proof.
  assert (H1 : rl_lookup (rlims s1) 10 7 = Some (mk_rlimit 100 4096))
    by (vm_compute; reflexivity).
  split; [exact H1|].
  refine (proj1 (proj2 (rlimits_only_lowered _ s0 s1 10 7 (mk_rlimit 1024 RLIM_INFINITY)
    (mk_rlimit 100 4096) s1_steps s0_ok _ H1) _)); [vm_compute; reflexivity | done].
Defined.

Lemma setrlimit_getrlimit_witness :
  ∃ s2, sys_getrlimit env0 me 7 4128 s1 = Some (0, s2) ∧
     uread_u64 (rl_user s2) 4128 = Some 100 ∧ uread_u64 (rl_user s2) 4136 = Some 4096.
Proof.
  refine (proj1 (setrlimit_getrlimit env0 me 7 4096 4128 100 4096 s0 s1 _ _) _ _ _ _ _);
    vm_compute; try reflexivity; try discriminate; split; congruence.
Defined.
End RlimitRuns.
