(* ===== verification/Priority.v ===== *)
(** * Priority: [setpriority] and [getpriority] of [kernel/sys.c]

    The three selectors share their targets: one task, the threads of a process
    group, the threads of a user ([prio_targets]).  Nice values are a map from
    thread numbers; the task list, the capability and the scheduler's and
    security module's opinions are arguments. *)

From S2P Require Import Prelude.

Definition MIN_NICE : Z := -20.
Definition MAX_NICE : Z := 19.
Definition PRIO_PROCESS : Z := 0.
Definition PRIO_PGRP : Z := 1.
Definition PRIO_USER : Z := 2.
Definition nice_to_rlimit (nice : Z) : Z := MAX_NICE - nice + 1.

Record thread := mk_thread {
  th_pid : Z;              (* task_pid_vnr, 0 outside the namespace *)
  th_pgrp : Z;
  th_uid : Z;              (* of __task_cred(p) *)
  th_euid : Z;
}.

Record prio_state := mk_prio {
  nice_of : gmap Z Z;
  prio_rcu : Z;            (* rcu_read_lock depth *)
  user_refs : Z;           (* references taken by find_user *)
}.

Record prio_env := mk_prio_env {
  threads : list thread;               (* for_each_process_thread *)
  current : thread;
  pr_make_kuid : Z → Z;
  find_user : Z → bool;
  ns_capable_nice : thread → bool;     (* CAP_SYS_NICE in the target's namespace *)
  can_nice : thread → Z → bool;
  security_task_setnice : thread → Z → Z;
}.

Abbreviation st := prio_state.
Definition prio_rcu_add (d : Z) : kst st unit :=
  kmodify (λ s, mk_prio (nice_of s) (prio_rcu s + d) (user_refs s)).
Definition user_ref_add (d : Z) : kst st unit :=
  kmodify (λ s, mk_prio (nice_of s) (prio_rcu s) (user_refs s + d)).
Definition task_nice (s : st) (p : thread) : Z := default 0 (nice_of s !! th_pid p).
Definition set_user_nice (p : thread) (n : Z) : kst st unit :=
  kmodify (λ s, mk_prio (<[th_pid p := n]> (nice_of s)) (prio_rcu s) (user_refs s)).

Definition set_one_prio_perm (env : prio_env) (p : thread) : bool :=
  if (th_uid p =? th_euid (current env)) || (th_euid p =? th_euid (current env)) then true
  else ns_capable_nice env p.

Definition set_one_prio (env : prio_env) (p : thread) (niceval error : Z) : kst st Z :=
  if negb (set_one_prio_perm env p) then mret (- EPERM) else
  s ← kget;
  if (niceval <? task_nice s p) && negb (can_nice env p niceval) then mret (- EACCES) else
  let no_nice := security_task_setnice env p niceval in
  if nz no_nice then mret no_nice else
  let error := if error =? - ESRCH then 0 else error in
  set_user_nice p niceval;;
  mret error.

(** A loop over targets that carries [error]. *)
Fixpoint set_prio_loop (env : prio_env) (ps : list thread) (niceval error : Z) : kst st Z :=
  match ps with
  | [] => mret error
  | p :: ps => error ← set_one_prio env p niceval error; set_prio_loop env ps niceval error
  end.

Definition find_thread (env : prio_env) (who : Z) : option thread :=
  head (filter (λ p, th_pid p = who) (threads env)).
Definition pgrp_threads (env : prio_env) (pgrp : Z) : list thread :=
  filter (λ p, th_pgrp p = pgrp) (threads env).
Definition user_threads (env : prio_env) (uid : Z) : list thread :=
  filter (λ p, th_uid p = uid ∧ th_pid p ≠ 0) (threads env).

Definition sys_setpriority (env : prio_env) (which who niceval : Z) : kst st Z :=
  if (PRIO_USER <? which) || (which <? PRIO_PROCESS) then mret (- EINVAL) else
  let error := - ESRCH in
  let niceval := if niceval <? MIN_NICE then MIN_NICE else niceval in
  let niceval := if MAX_NICE <? niceval then MAX_NICE else niceval in
  prio_rcu_add 1;;
  error ←
    (if which =? PRIO_PROCESS then
       match (if nz who then find_thread env who else Some (current env)) with
       | Some p => set_one_prio env p niceval error
       | None => mret error
       end
     else if which =? PRIO_PGRP then
       let pgrp := if nz who then who else th_pgrp (current env) in
       set_prio_loop env (pgrp_threads env pgrp) niceval error
     else
       let cuid := th_uid (current env) in
       let uid := if nz who then pr_make_kuid env who else cuid in
       if nz who && negb (uid =? cuid) && negb (find_user env uid) then mret error else
       (if negb (uid =? cuid) then user_ref_add 1 else mret tt);;
       error ← set_prio_loop env (user_threads env uid) niceval error;
       (if negb (uid =? cuid) then user_ref_add (-1) else mret tt);;
       mret error);
  prio_rcu_add (-1);;
  mret error.

Fixpoint get_prio_loop (ps : list thread) (s : st) (retval : Z) : Z :=
  match ps with
  | [] => retval
  | p :: ps =>
      let niceval := nice_to_rlimit (task_nice s p) in
      get_prio_loop ps s (if retval <? niceval then niceval else retval)
  end.

Definition sys_getpriority (env : prio_env) (which who : Z) : kst st Z :=
  if (PRIO_USER <? which) || (which <? PRIO_PROCESS) then mret (- EINVAL) else
  let retval := - ESRCH in
  prio_rcu_add 1;;
  s ← kget;
  retval ←
    (if which =? PRIO_PROCESS then
       match (if nz who then find_thread env who else Some (current env)) with
       | Some p => mret (get_prio_loop [p] s retval)
       | None => mret retval
       end
     else if which =? PRIO_PGRP then
       let pgrp := if nz who then who else th_pgrp (current env) in
       mret (get_prio_loop (pgrp_threads env pgrp) s retval)
     else
       let cuid := th_uid (current env) in
       let uid := if nz who then pr_make_kuid env who else cuid in
       if nz who && negb (uid =? cuid) && negb (find_user env uid) then mret retval else
       (if negb (uid =? cuid) then user_ref_add 1 else mret tt);;
       let retval := get_prio_loop (user_threads env uid) s retval in
       (if negb (uid =? cuid) then user_ref_add (-1) else mret tt);;
       mret retval);
  prio_rcu_add (-1);;
  mret retval.

(** ** Specification *)

(** The tasks a pair of selectors names. *)
Definition prio_targets (env : prio_env) (which who : Z) : list thread :=
  if which =? PRIO_PROCESS then
    match (if nz who then find_thread env who else Some (current env)) with
    | Some p => [p] | None => []
    end
  else if which =? PRIO_PGRP then
    pgrp_threads env (if nz who then who else th_pgrp (current env))
  else
    let cuid := th_uid (current env) in
    let uid := if nz who then pr_make_kuid env who else cuid in
    if nz who && negb (uid =? cuid) && negb (find_user env uid) then [] else
    user_threads env uid.

Definition clamp_nice (n : Z) : Z := Z.max MIN_NICE (Z.min MAX_NICE n).

(** Why one task is refused: 0 when it is not. *)
Definition refusal (env : prio_env) (s : st) (n : Z) (p : thread) : Z :=
  if negb (set_one_prio_perm env p) then - EPERM else
  if (n <? task_nice s p) && negb (can_nice env p n) then - EACCES else
  security_task_setnice env p n.

(** ** Lemmas *)
Section lemmas.
Context (env : prio_env).
Implicit Types (s : st).

Lemma set_one_prio_run s p n error :
  set_one_prio env p n error s =
  Some (if nz (refusal env s n p) then refusal env s n p
        else if error =? - ESRCH then 0 else error,
        if nz (refusal env s n p) then s
        else mk_prio (<[th_pid p := n]> (nice_of s)) (prio_rcu s) (user_refs s)).
Proof.
  unfold set_one_prio, refusal. destruct (set_one_prio_perm env p); [|done]. cbn [negb].
  krun. destruct (_ && _); [done|].
  destruct (nz (security_task_setnice env p n)) eqn:Hs; [done|]. done.
Qed.

(** The nice values after the loop: the accepted targets have the new one. *)
Definition niced (s : st) (n : Z) (ps : list thread) : gmap Z Z :=
  foldr (λ p m, if nz (refusal env s n p) then m else <[th_pid p := n]> m) (nice_of s) ps.

Definition last_refusal (s : st) (n : Z) (ps : list thread) (error : Z) : Z :=
  foldl (λ e p, if nz (refusal env s n p) then refusal env s n p
                else if e =? - ESRCH then 0 else e) error ps.

Lemma refusal_nice s s' n p :
  task_nice s' p = task_nice s p → refusal env s' n p = refusal env s n p.
Proof. intros Ht. unfold refusal. by rewrite Ht. Qed.

Lemma niced_lookup s n ps k :
  niced s n ps !! k =
  if decide (Exists (λ p, th_pid p = k ∧ refusal env s n p = 0) ps) then Some n
  else nice_of s !! k.
Proof.
  induction ps as [|p ps IH].
  { rewrite decide_False; [done|]. intros Hex. by apply Exists_nil in Hex. }
  change (niced s n (p :: ps)) with
    (if nz (refusal env s n p) then niced s n ps else <[th_pid p := n]> (niced s n ps)).
  unfold nz. destruct (Z.eqb_spec (refusal env s n p) 0) as [Hr|Hr]; cbn [negb].
  - rewrite lookup_insert. destruct (decide (th_pid p = k)) as [Hk|Hk].
    + rewrite decide_True; [done|]. by constructor.
    + rewrite IH. apply decide_ext. rewrite Exists_cons. tauto.
  - rewrite IH. apply decide_ext. rewrite Exists_cons. tauto.
Qed.

Lemma set_prio_loop_run ps s n error :
  NoDup (th_pid <$> ps) →
  ∃ m, set_prio_loop env ps n error s =
      Some (last_refusal s n ps error, mk_prio m (prio_rcu s) (user_refs s)) ∧
    m = niced s n ps.
Proof.
  revert s error. induction ps as [|p ps IH]; intros s error Hnd; simpl.
  { exists (nice_of s). destruct s. done. }
  apply NoDup_cons in Hnd as [Hp Hnd].
  rewrite (kbind_some _ _ _ _ _ (set_one_prio_run s p n error)).
  unfold nz. destruct (Z.eqb_spec (refusal env s n p) 0) as [Hr|Hr]; simpl.
  2: { destruct (IH s (refusal env s n p) Hnd) as (m & Hm & ->). eauto. }
  set (s1 := mk_prio _ _ _).
  destruct (IH s1 (if error =? - ESRCH then 0 else error) Hnd) as (m & Hm & ->).
  assert (Hsame : ∀ q, q ∈ ps → refusal env s1 n q = refusal env s n q).
  { intros q Hq. apply refusal_nice. unfold task_nice, s1. simpl.
    rewrite lookup_insert_ne; [done|]. intros Heq. apply Hp. rewrite Heq.
    by apply list_elem_of_fmap_2. }
  exists (niced s1 n ps). rewrite Hm. split.
  - f_equal. f_equal. clear -Hsame. unfold last_refusal.
    assert (Hext : ∀ e, foldl (λ e p0, if nz (refusal env s1 n p0) then refusal env s1 n p0
        else if e =? - ESRCH then 0 else e) e ps =
      foldl (λ e p0, if nz (refusal env s n p0) then refusal env s n p0
        else if e =? - ESRCH then 0 else e) e ps); [|apply Hext].
    induction ps as [|q ps IH]; intros e; simpl; [done|].
    rewrite (Hsame q) by constructor. apply IH. intros x Hx. apply Hsame. by constructor.
  - apply map_eq. intros k. rewrite lookup_insert, !niced_lookup. unfold s1. simpl.
    rewrite lookup_insert.
    destruct (decide (th_pid p = k)) as [Hk|Hk]; [by case_decide|].
    rewrite (decide_ext (Exists (λ q, th_pid q = k ∧ refusal env s1 n q = 0) ps)
      (Exists (λ q, th_pid q = k ∧ refusal env s n q = 0) ps)); [done|].
    rewrite !Exists_exists. split; intros (q & Hq & Hqk & Hqr); exists q.
    + by rewrite <-Hsame.
    + by rewrite Hsame.
Qed.
End lemmas.

Section runs.
Context (env : prio_env).
Context (Hdistinct : NoDup (th_pid <$> threads env)).
Implicit Types (s : st).

Lemma filter_nodup (P : thread → Prop) `{∀ p, Decision (P p)} (ps : list thread) :
  NoDup (th_pid <$> ps) → NoDup (th_pid <$> filter P ps).
Proof using.
  induction ps as [|p ps IH]; [done|]. intros [Hp Hnd]%NoDup_cons.
  rewrite filter_cons. destruct (decide (P p)); [|by apply IH].
  apply NoDup_cons. split; [|by apply IH].
  intros (q & Hq & Hin)%list_elem_of_fmap. apply Hp. rewrite Hq.
  apply list_elem_of_fmap_2. by apply list_elem_of_filter in Hin as [_ Hin].
Qed.

Lemma prio_targets_nodup which who : NoDup (th_pid <$> prio_targets env which who).
Proof using Hdistinct.
  unfold prio_targets. destruct (which =? _).
  { destruct (if nz who then _ else _) as [p|]; [apply NoDup_singleton | constructor]. }
  destruct (which =? _); [by apply filter_nodup|].
  destruct (_ && _); [constructor | by apply filter_nodup].
Qed.

Lemma clamp_nice_code n :
  (let n := if n <? MIN_NICE then MIN_NICE else n in if MAX_NICE <? n then MAX_NICE else n)
  = clamp_nice n.
Proof using.
  unfold clamp_nice, MIN_NICE, MAX_NICE. cbv zeta.
  destruct (Z.ltb_spec n (-20)); [simpl; lia|]. destruct (Z.ltb_spec 19 n); lia.
Qed.

Lemma set_prio_loop_one p n e s : set_prio_loop env [p] n e s = set_one_prio env p n e s.
Proof using.
  simpl. unfold mbind, kst_bind. by destruct (set_one_prio env p n e s) as [[]|].
Qed.

(** The handler is one loop over its targets. *)
Lemma setpriority_run which who n s :
  PRIO_PROCESS ≤ which ≤ PRIO_USER →
  let T := prio_targets env which who in
  sys_setpriority env which who n s =
  Some (last_refusal env s (clamp_nice n) T (- ESRCH),
        mk_prio (niced env s (clamp_nice n) T) (prio_rcu s) (user_refs s)).
Proof using Hdistinct.
  intros Hw T. unfold sys_setpriority. rewrite clamp_nice_code.
  unfold PRIO_USER, PRIO_PROCESS in Hw.
  rewrite (proj2 (Z.ltb_ge PRIO_USER which)), (proj2 (Z.ltb_ge which PRIO_PROCESS))
    by (unfold PRIO_USER, PRIO_PROCESS; lia). cbn [orb].
  unfold prio_rcu_add. krun.
  set (s1 := mk_prio (nice_of s) (prio_rcu s + 1) (user_refs s)).
  assert (Hloop : ∀ ps x, ps = T → ∃ k,
    set_prio_loop env ps (clamp_nice n) (- ESRCH) (mk_prio (nice_of s) (prio_rcu s + 1) x) =
    Some (last_refusal env s (clamp_nice n) T (- ESRCH), mk_prio k (prio_rcu s + 1) x) ∧
    k = niced env s (clamp_nice n) T).
  { intros ps x ->. apply (set_prio_loop_run env T (mk_prio (nice_of s) (prio_rcu s + 1) x)).
    apply prio_targets_nodup. }
  assert (Hend : ∀ m : kst st Z,
    m s1 = Some (last_refusal env s (clamp_nice n) T (- ESRCH),
      mk_prio (niced env s (clamp_nice n) T) (prio_rcu s + 1) (user_refs s)) →
    (error ← m;
     kmodify (λ s, mk_prio (nice_of s) (prio_rcu s + -1) (user_refs s));; mret error) s1 =
    Some (last_refusal env s (clamp_nice n) T (- ESRCH),
      mk_prio (niced env s (clamp_nice n) T) (prio_rcu s) (user_refs s))).
  { intros m Hm. rewrite (kbind_some _ _ _ _ _ Hm). krun. simpl.
    by replace (prio_rcu s + 1 + -1) with (prio_rcu s) by lia. }
  apply Hend. clear Hend. unfold T, prio_targets in *.
  destruct (which =? PRIO_PROCESS).
  { destruct (if nz who then _ else _) as [p|]; [|done].
    destruct (Hloop [p] (user_refs s) eq_refl) as (k & Hk & ->).
    rewrite set_prio_loop_one in Hk. exact Hk. }
  destruct (which =? PRIO_PGRP).
  { destruct (Hloop _ (user_refs s) eq_refl) as (k & Hk & ->). exact Hk. }
  destruct (nz who && _ && _) eqn:Hf; [done|]. unfold user_ref_add.
  set (uid := if nz who then pr_make_kuid env who else th_uid (current env)) in *.
  destruct (uid =? th_uid (current env)); cbn [negb]; krun.
  - destruct (Hloop _ (user_refs s) eq_refl) as (k & Hk & ->).
    fold s1 in Hk. rewrite (kbind_some _ _ _ _ _ Hk). by krun.
  - destruct (Hloop _ (user_refs s + 1) eq_refl) as (k & Hk & ->).
    simpl. rewrite (kbind_some _ _ _ _ _ Hk). krun. simpl.
    by replace (user_refs s + 1 + -1) with (user_refs s) by lia.
Qed.

Lemma get_prio_loop_max s ps r :
  get_prio_loop ps s r = foldl Z.max r ((λ p, nice_to_rlimit (task_nice s p)) <$> ps).
Proof using.
  revert r. induction ps as [|p ps IH]; intros r; simpl; [done|]. rewrite IH. f_equal. zcases.
Qed.

Lemma getpriority_run which who s :
  PRIO_PROCESS ≤ which ≤ PRIO_USER →
  sys_getpriority env which who s =
  Some (foldl Z.max (- ESRCH)
          ((λ p, nice_to_rlimit (task_nice s p)) <$> prio_targets env which who), s).
Proof using.
  intros Hw. unfold sys_getpriority. unfold PRIO_USER, PRIO_PROCESS in Hw.
  rewrite (proj2 (Z.ltb_ge PRIO_USER which)), (proj2 (Z.ltb_ge which PRIO_PROCESS))
    by (unfold PRIO_USER, PRIO_PROCESS; lia). cbn [orb].
  unfold prio_rcu_add. krun. set (s1 := mk_prio _ _ _).
  assert (Hl : ∀ ps r, get_prio_loop ps s1 r =
    foldl Z.max r ((λ p, nice_to_rlimit (task_nice s p)) <$> ps)) by
    (intros; by rewrite get_prio_loop_max).
  assert (Hend : ∀ (m : kst st Z) r, m s1 = Some (r, s1) →
    (retval ← m;
     kmodify (λ s, mk_prio (nice_of s) (prio_rcu s + -1) (user_refs s));; mret retval) s1 =
    Some (r, s)).
  { intros m r Hm. rewrite (kbind_some _ _ _ _ _ Hm). krun. unfold s1. simpl.
    replace (prio_rcu s + 1 + -1) with (prio_rcu s) by lia. by destruct s. }
  apply Hend. unfold prio_targets. destruct (which =? PRIO_PROCESS).
  { destruct (if nz who then _ else _) as [p|]; [by rewrite Hl | done]. }
  destruct (which =? PRIO_PGRP); [by rewrite Hl|]. cbv zeta.
  destruct (nz who && _ && _) eqn:Hf; [done|]. unfold user_ref_add.
  set (uid := if nz who then pr_make_kuid env who else th_uid (current env)) in *.
  rewrite Hl. destruct (uid =? th_uid (current env)); cbn [negb]; krun; [done|].
  unfold s1. simpl. by replace (user_refs s + 1 + -1) with (user_refs s) by lia.
Qed.

(** The error carried through the loop is that of the last refused target. *)
Lemma last_refusal_spec s n ps :
  (∀ p, refusal env s n p ≠ - ESRCH) → ps ≠ [] →
  last_refusal env s n ps (- ESRCH) =
  default 0 (last (filter (λ e, e ≠ 0) (refusal env s n <$> ps))).
Proof using.
  intros Hne. induction ps as [|p ps IH] using rev_ind; [done|]. intros _.
  unfold last_refusal in *. rewrite foldl_app, fmap_app, filter_app.
  set (e0 := foldl _ _ ps) in *. cbn [foldl fmap list_fmap]. rewrite filter_cons. unfold nz. destruct (Z.eqb_spec (refusal env s n p) 0) as [Hr|Hr]; cbn [negb].
  - rewrite decide_False by tauto. rewrite filter_nil, app_nil_r.
    destruct (decide (ps = [])) as [Hps|Hps]; [subst e0; by rewrite Hps|]. rewrite IH by done.
    destruct (last (filter _ _)) as [e|] eqn:Hl; [|done]. simpl.
    destruct (Z.eqb_spec e (- ESRCH)) as [He|He]; [|done].
    apply last_Some in Hl as [l Hl].
    assert (Hin : e ∈ filter (λ e, e ≠ 0) (refusal env s n <$> ps))
      by (rewrite Hl; apply elem_of_app; right; constructor).
    apply list_elem_of_filter in Hin as [_ Hin].
    apply list_elem_of_fmap in Hin as (x & -> & _). by destruct (Hne x).
  - rewrite decide_True by done. rewrite filter_nil, last_snoc. done.
Qed.
End runs.

(** ** Properties *)

(** [setpriority] on every path: a bad selector is [-EINVAL]; otherwise the
    nice value is clamped to -20..19 and given to exactly the selected tasks
    that none of the three checks refuses; no other task changes; with no task
    selected the result is [-ESRCH], and else 0 when none was refused and the
    error of the last refused one when some were; RCU and user references
    balance. *)
Theorem setpriority_spec env which who n s :
  NoDup (th_pid <$> threads env) →
  let T := prio_targets env which who in
  let n' := Z.max (-20) (Z.min 19 n) in
  (∀ p, refusal env s n' p ≠ - ESRCH) →
  ∃ r m, sys_setpriority env which who n s = Some (r, mk_prio m (prio_rcu s) (user_refs s)) ∧
    (which < 0 ∨ 2 < which → r = - EINVAL ∧ m = nice_of s) ∧
    (0 ≤ which ≤ 2 →
      (r = if decide (T = []) then - ESRCH
           else default 0 (last (filter (λ e, e ≠ 0) (refusal env s n' <$> T)))) ∧
      ∀ k, m !! k =
        if decide (Exists (λ p, th_pid p = k ∧ refusal env s n' p = 0) T)
        then Some n' else nice_of s !! k).
Proof.
  intros Hnd T n' Hne.
  destruct (decide (0 ≤ which ≤ 2)) as [Hw|Hw].
  - rewrite setpriority_run by done. fold T. change (clamp_nice n) with n'.
    eexists _, _. split; [reflexivity|]. split; [lia|]. intros _. split.
    + destruct (decide (T = [])) as [->|HT]; [done | by apply last_refusal_spec].
    + intros k. apply niced_lookup.
  - exists (- EINVAL), (nice_of s). split; [|done].
    unfold sys_setpriority, PRIO_USER, PRIO_PROCESS.
    assert ((2 <? which) || (which <? 0) = true) as ->.
    { apply orb_true_iff. rewrite !Z.ltb_lt. lia. }
    by destruct s.
Qed.

(** What was set is what is read: after a [setpriority] that returned 0,
    [getpriority] of the same selectors returns 20 minus the clamped nice value,
    a number from 1 to 40 that can never be taken for an error. *)
Theorem setpriority_getpriority env which who n s s' :
  NoDup (th_pid <$> threads env) → 0 ≤ which ≤ 2 →
  (∀ p, security_task_setnice env p (clamp_nice n) ≠ - ESRCH) →
  sys_setpriority env which who n s = Some (0, s') →
  sys_getpriority env which who s' = Some (20 - clamp_nice n, s') ∧ 1 ≤ 20 - clamp_nice n ≤ 40.
Proof.
  intros Hnd Hw Hhook Hset. split; [|unfold clamp_nice, MIN_NICE, MAX_NICE; lia].
  rewrite setpriority_run in Hset by done. set (T := prio_targets env which who) in *.
  assert (Hne : ∀ p, refusal env s (clamp_nice n) p ≠ - ESRCH).
  { intros p. unfold refusal. destruct (negb _); [done|]. by destruct (_ && _). }
  injection Hset as Hr <-. rewrite getpriority_run by done. fold T. f_equal. f_equal.
  destruct (decide (T = [])) as [HT|HT]; [by rewrite HT in Hr|].
  rewrite last_refusal_spec in Hr by done.
  assert (Hall : ∀ p, p ∈ T → refusal env s (clamp_nice n) p = 0).
  { intros p Hp. destruct (decide (refusal env s (clamp_nice n) p = 0)) as [|Hp0]; [done|].
    destruct (last _) as [e|] eqn:Hl.
    - apply last_Some in Hl as [l Hl]. simpl in Hr.
      assert (Hin : e ∈ filter (λ e, e ≠ 0) (refusal env s (clamp_nice n) <$> T))
        by (rewrite Hl; apply elem_of_app; right; constructor).
      apply list_elem_of_filter in Hin as [He _]. done.
    - apply last_None in Hl.
      assert (Hin : refusal env s (clamp_nice n) p ∈
        filter (λ e, e ≠ 0) (refusal env s (clamp_nice n) <$> T))
        by (apply list_elem_of_filter; split; [done | by apply list_elem_of_fmap_2]).
      rewrite Hl in Hin. by apply elem_of_nil in Hin. }
  assert (Hnice : (λ p, nice_to_rlimit (task_nice (mk_prio (niced env s (clamp_nice n) T)
      (prio_rcu s) (user_refs s)) p)) <$> T = replicate (length T) (20 - clamp_nice n)).
  { symmetry. apply replicate_as_elem_of. rewrite length_fmap. split; [done|].
    intros x (p & -> & Hp)%list_elem_of_fmap. unfold task_nice. simpl. rewrite niced_lookup.
    rewrite decide_True by (apply Exists_exists; exists p; auto). simpl.
    unfold nice_to_rlimit, MAX_NICE. lia. }
  rewrite Hnice. destruct T as [|p T]; [done|]. simpl.
  assert (Hmax : ∀ k x, foldl Z.max x (replicate k x) = x).
  { induction k as [|k IH]; intros x; simpl; [done|]. by rewrite Z.max_id. }
  rewrite Z.max_r by (unfold ESRCH, clamp_nice, MIN_NICE, MAX_NICE; lia). apply Hmax.
Qed.

(** ** Concrete runs *)
Module PriorityRuns.
Definition me : thread := mk_thread 10 10 1000 1000.
Definition ts : list thread := [me; mk_thread 11 10 1000 1000; mk_thread 12 10 0 0].
Definition env0 : prio_env :=
  mk_prio_env ts me id (λ _, true) (λ _, false) (λ _ n, 5 <=? n) (λ _ _, 0).
Definition s0 : prio_state := mk_prio {[ 10 := 0; 11 := 10; 12 := 0 ]} 0 0.

(** In group 10 the thread of root is refused. *)
Example group_run :
  (r ← sys_setpriority env0 PRIO_PGRP 0 7 s0; Some (r.1, nice_of r.2)) =
  Some (- EPERM, {[ 10 := 7; 11 := 7; 12 := 0 ]}).
Proof. vm_compute. reflexivity. Qed.

Lemma nodup0 : NoDup (th_pid <$> threads env0).
Proof. apply (bool_decide_unpack _). vm_compute. done. Qed.
Lemma hook0 n p : refusal env0 s0 n p ≠ - ESRCH.
Proof. unfold refusal. destruct (negb _); [done|]. by destruct (_ && _). Qed.

Lemma setpriority_spec_witness : ∃ r m,
  sys_setpriority env0 PRIO_PGRP 0 7 s0 = Some (r, mk_prio m 0 0) ∧ m !! 12 = Some 0.
Proof.
  destruct (setpriority_spec env0 PRIO_PGRP 0 7 s0 nodup0 (hook0 _))
    as (r & m & Hrun & _ & Hok).
  exists r, m. split; [exact Hrun|]. destruct Hok as [_ Hok]; [done|].
  rewrite Hok. vm_compute. reflexivity.
Defined.

Definition s1 : prio_state :=
  match sys_setpriority env0 PRIO_USER 1000 99 s0 with Some (_, s) => s | None => s0 end.
Lemma setpriority_getpriority_witness :
  sys_getpriority env0 PRIO_USER 1000 s1 = Some (1, s1).
Proof.
  refine (proj1 (setpriority_getpriority env0 PRIO_USER 1000 99 s0 s1 nodup0 _ _ _));
    [done | done | vm_compute; reflexivity].
Defined.
End PriorityRuns.
