(* ===== verification/PrctlMM.v ===== *)
(** * PrctlMM: [prctl(PR_SET_MM, ...)] of [kernel/sys.c]

    [validate_prctl_map_addr], [prctl_set_mm_map], [prctl_set_mm_exe_file],
    [prctl_set_auxv] and [prctl_set_mm] over the layout fields, the saved
    auxiliary vector and the executable of the caller's [mm_struct].  The
    address-space limits, the data limit check, the file table and the
    capabilities are the record [mm_env]; the size of the vector is a
    parameter of it.  Of the locks only the depth of mmap_lock is in the state:
    the spin locks around single stores ([mm->arg_lock] in [prctl_set_mm] and
    [prctl_set_mm_map], [task_lock] in [prctl_set_auxv]) are taken and released
    in straight-line code and are left out. *)

From S2P Require Import Prelude UserMem KernelObj.

(** The eleven layout fields, in the order of [struct prctl_mm_map]. *)
Record mm_layout := mk_layout {
  start_code : Z; end_code : Z;
  start_data : Z; end_data : Z;
  start_brk : Z; brk : Z;
  start_stack : Z;
  arg_start : Z; arg_end : Z;
  env_start : Z; env_end : Z;
}.

Record prctl_mm_map := mk_map {
  map_layout : mm_layout;
  map_auxv : Z;
  map_auxv_size : Z;       (* u32 *)
  map_exe_fd : Z;          (* u32 *)
}.
Definition sizeof_prctl_mm_map : Z := 104.

(** The fields the [offsets] table of [validate_prctl_map_addr] lists. *)
Definition layout_fields (l : mm_layout) : list Z :=
  [start_code l; end_code l; start_data l; end_data l; start_brk l; brk l; start_stack l;
   arg_start l; arg_end l; env_start l; env_end l].

(** The structure as the 104 bytes copied from the user. *)
Definition word_at (bs : list Z) (i : nat) : Z := u64 (le_value (take 8 (drop (8 * i) bs))).
Definition half_at (bs : list Z) (o : nat) : Z := u32 (le_value (take 4 (drop o bs))).
Definition map_of_bytes (bs : list Z) : prctl_mm_map :=
  mk_map (mk_layout (word_at bs 0) (word_at bs 1) (word_at bs 2) (word_at bs 3) (word_at bs 4)
    (word_at bs 5) (word_at bs 6) (word_at bs 7) (word_at bs 8) (word_at bs 9) (word_at bs 10))
    (word_at bs 11) (half_at bs 96) (half_at bs 100).

Record exe_candidate := mk_exe {
  exe_inode : Z;
  exe_is_reg : bool;         (* S_ISREG(inode->i_mode) *)
  exe_noexec : bool;         (* path_noexec *)
  exe_may_exec : Z;          (* file_permission(., MAY_EXEC) *)
}.

Record mm_env := mk_mm_env {
  TASK_SIZE : Z;
  mmap_min_addr : Z;
  AT_VECTOR_SIZE : nat;
  check_data_rlimit : Z → Z → Z → Z → Z;      (* of the caller's RLIMIT_DATA *)
  cap_sys_resource : bool;
  checkpoint_restore_capable : bool;
  config_checkpoint_restore : bool;
  fd_file : Z → option exe_candidate;
  replace_mm_exe_file : Z → Z;                (* of the inode: 0 or an error *)
  find_vma : Z → bool;
}.

Record mm_state (M : Type) := mk_mm_state {
  layout : mm_layout;
  saved_auxv : list Z;                        (* bytes *)
  exe_file : Z;
  mmap_locks : Z;                             (* mmap_read_lock depth *)
  fd_refs : gmap Z Z;                         (* fdget *)
  mm_user : M;
}.
Arguments mk_mm_state {M}.
Arguments layout {M}.
Arguments saved_auxv {M}.
Arguments exe_file {M}.
Arguments mmap_locks {M}.
Arguments fd_refs {M}.
Arguments mm_user {M}.

Definition PR_SET_MM_START_CODE : Z := 1.
Definition PR_SET_MM_END_CODE : Z := 2.
Definition PR_SET_MM_START_DATA : Z := 3.
Definition PR_SET_MM_END_DATA : Z := 4.
Definition PR_SET_MM_START_STACK : Z := 5.
Definition PR_SET_MM_START_BRK : Z := 6.
Definition PR_SET_MM_BRK : Z := 7.
Definition PR_SET_MM_ARG_START : Z := 8.
Definition PR_SET_MM_ARG_END : Z := 9.
Definition PR_SET_MM_ENV_START : Z := 10.
Definition PR_SET_MM_ENV_END : Z := 11.
Definition PR_SET_MM_AUXV : Z := 12.
Definition PR_SET_MM_EXE_FILE : Z := 13.
Definition PR_SET_MM_MAP : Z := 14.
Definition PR_SET_MM_MAP_SIZE : Z := 15.
Definition NO_FD : Z := 2 ^ 32 - 1.

(** *** validate_prctl_map_addr *)

(** The loop over the offsets: false at the first field out of range. *)
Fixpoint addrs_in_range (env : mm_env) (vals : list Z) : bool :=
  match vals with
  | [] => true
  | val :: vals =>
      if (TASK_SIZE env <=? val) || (val <? mmap_min_addr env) then false
      else addrs_in_range env vals
  end.

Definition prctl_check_order (ok : bool) : Z := if ok then 0 else - EINVAL.

Definition validate_prctl_map_addr (env : mm_env) (l : mm_layout) : Z :=
  if negb (addrs_in_range env (layout_fields l)) then - EINVAL else
  let error := prctl_check_order (start_code l <? end_code l) in
  let error := Z.lor error (prctl_check_order (start_data l <=? end_data l)) in
  let error := Z.lor error (prctl_check_order (start_brk l <=? brk l)) in
  let error := Z.lor error (prctl_check_order (arg_start l <=? arg_end l)) in
  let error := Z.lor error (prctl_check_order (env_start l <=? env_end l)) in
  if nz error then error else
  if nz (check_data_rlimit env (brk l) (start_brk l) (end_data l) (start_data l))
  then - EINVAL else 0.

Section handlers.
Context {M : Type} `{UserAccess M}.
Context (env : mm_env).
Abbreviation st := (mm_state M).

Definition mmap_lock_add (d : Z) : kst st unit :=
  kmodify (λ s, mk_mm_state (layout s) (saved_auxv s) (exe_file s) (mmap_locks s + d)
    (fd_refs s) (mm_user s)).
Definition fd_ref (f : gmap Z Z → gmap Z Z) : kst st unit :=
  kmodify (λ s, mk_mm_state (layout s) (saved_auxv s) (exe_file s) (mmap_locks s)
    (f (fd_refs s)) (mm_user s)).
Definition set_layout (l : mm_layout) : kst st unit :=
  kmodify (λ s, mk_mm_state l (saved_auxv s) (exe_file s) (mmap_locks s) (fd_refs s) (mm_user s)).
Definition set_auxv (bs : list Z) : kst st unit :=
  kmodify (λ s, mk_mm_state (layout s) bs (exe_file s) (mmap_locks s) (fd_refs s) (mm_user s)).
Definition set_exe_file (i : Z) : kst st unit :=
  kmodify (λ s, mk_mm_state (layout s) (saved_auxv s) i (mmap_locks s) (fd_refs s) (mm_user s)).
Definition mm_copy_in (p n : Z) : kst st (Z * list Z) := λ s,
  Some (copy_from_user (mm_user s) p n, s).
Definition mm_put_u32 (v p : Z) : kst st Z := λ s,
  let '(r, m) := put_user_u32 v p (mm_user s) in
  Some (r, mk_mm_state (layout s) (saved_auxv s) (exe_file s) (mmap_locks s) (fd_refs s) m).

Definition prctl_set_mm_exe_file (fd : Z) : kst st Z :=
  match fd_file env fd with
  | None => mret (- EBADF)
  | Some exe =>
      fd_ref (ref_inc fd);;
      err ←
        (if negb (exe_is_reg exe) || exe_noexec exe then mret (- EACCES) else
         if nz (exe_may_exec exe) then mret (exe_may_exec exe) else
         let err := replace_mm_exe_file env (exe_inode exe) in
         (if nz err then mret tt else set_exe_file (exe_inode exe));;
         mret err);
      fd_ref (ref_dec fd);;
      mret err
  end.

Definition auxv_bytes : nat := (8 * AT_VECTOR_SIZE env)%nat.
(** [user_auxv] after the copy into the zeroed vector, its last two entries
    set to AT_NULL. *)
Definition fill_auxv (bs : list Z) : list Z :=
  take (auxv_bytes - 16) (bs ++ replicate (auxv_bytes - length bs) 0) ++ replicate 16 0.

Definition prctl_set_mm_map (opt addr data_size : Z) : kst st Z :=
  if opt =? PR_SET_MM_MAP_SIZE then mm_put_u32 sizeof_prctl_mm_map addr else
  if negb (data_size =? sizeof_prctl_mm_map) then mret (- EINVAL) else
  c ← mm_copy_in addr sizeof_prctl_mm_map;
  if nz c.1 then mret (- EFAULT) else
  let prctl_map := map_of_bytes c.2 in
  let error := validate_prctl_map_addr env (map_layout prctl_map) in
  if nz error then mret error else
  (* the vector, or the error of its checks *)
  aux ←
    (if nz (map_auxv_size prctl_map) then
       if (map_auxv prctl_map =? NULL) || (Z.of_nat auxv_bytes <? map_auxv_size prctl_map)
       then mret (inl (- EINVAL)) else
       c ← mm_copy_in (map_auxv prctl_map) (map_auxv_size prctl_map);
       if nz c.1 then mret (inl (- EFAULT)) else mret (inr (Some (fill_auxv c.2)))
     else mret (inr None));
  match aux with
  | inl error => mret error
  | inr user_auxv =>
      error ←
        (if negb (map_exe_fd prctl_map =? NO_FD) then
           if negb (checkpoint_restore_capable env) then mret (- EPERM)
           else prctl_set_mm_exe_file (map_exe_fd prctl_map)
         else mret 0);
      if nz error then mret error else
      mmap_lock_add 1;;
      set_layout (map_layout prctl_map);;
      match user_auxv with Some bs => set_auxv bs | None => mret tt end;;
      mmap_lock_add (-1);;
      mret 0
  end.

Definition prctl_set_auxv (addr len : Z) : kst st Z :=
  if Z.of_nat auxv_bytes <? len then mret (- EINVAL) else
  c ← mm_copy_in addr len;
  if nz c.1 then mret (- EFAULT) else
  let user_auxv := fill_auxv c.2 in
  s ← kget;
  set_auxv (take (Z.to_nat len) user_auxv ++ drop (Z.to_nat len) (saved_auxv s));;
  mret 0.

(** The field an option names; [None] in the default case of the switch. *)
Definition layout_set (opt addr : Z) (l : mm_layout) : option mm_layout :=
  let '(mk_layout sc ec sd ed sb bk ss ars are es ee) := l in
  if opt =? PR_SET_MM_START_CODE then Some (mk_layout addr ec sd ed sb bk ss ars are es ee) else
  if opt =? PR_SET_MM_END_CODE then Some (mk_layout sc addr sd ed sb bk ss ars are es ee) else
  if opt =? PR_SET_MM_START_DATA then Some (mk_layout sc ec addr ed sb bk ss ars are es ee) else
  if opt =? PR_SET_MM_END_DATA then Some (mk_layout sc ec sd addr sb bk ss ars are es ee) else
  if opt =? PR_SET_MM_START_STACK then Some (mk_layout sc ec sd ed sb bk addr ars are es ee) else
  if opt =? PR_SET_MM_START_BRK then Some (mk_layout sc ec sd ed addr bk ss ars are es ee) else
  if opt =? PR_SET_MM_BRK then Some (mk_layout sc ec sd ed sb addr ss ars are es ee) else
  if opt =? PR_SET_MM_ARG_START then Some (mk_layout sc ec sd ed sb bk ss addr are es ee) else
  if opt =? PR_SET_MM_ARG_END then Some (mk_layout sc ec sd ed sb bk ss ars addr es ee) else
  if opt =? PR_SET_MM_ENV_START then Some (mk_layout sc ec sd ed sb bk ss ars are addr ee) else
  if opt =? PR_SET_MM_ENV_END then Some (mk_layout sc ec sd ed sb bk ss ars are es addr) else
  None.

(** The options whose address must lie in a mapping. *)
Definition needs_vma (opt : Z) : bool :=
  (opt =? PR_SET_MM_START_STACK) || (opt =? PR_SET_MM_ARG_START) ||
  (opt =? PR_SET_MM_ARG_END) || (opt =? PR_SET_MM_ENV_START) || (opt =? PR_SET_MM_ENV_END).

Definition prctl_set_mm (opt addr arg4 arg5 : Z) : kst st Z :=
  if nz arg5 || (nz arg4 && (negb (opt =? PR_SET_MM_AUXV) && negb (opt =? PR_SET_MM_MAP) &&
                             negb (opt =? PR_SET_MM_MAP_SIZE)))
  then mret (- EINVAL) else
  if config_checkpoint_restore env &&
     ((opt =? PR_SET_MM_MAP) || (opt =? PR_SET_MM_MAP_SIZE))
  then prctl_set_mm_map opt addr arg4 else
  if negb (cap_sys_resource env) then mret (- EPERM) else
  if opt =? PR_SET_MM_EXE_FILE then prctl_set_mm_exe_file (u32 addr) else
  if opt =? PR_SET_MM_AUXV then prctl_set_auxv addr arg4 else
  if (TASK_SIZE env <=? addr) || (addr <? mmap_min_addr env) then mret (- EINVAL) else
  mmap_lock_add 1;;
  s ← kget;
  error ←
    (match layout_set opt addr (layout s) with
     | None => mret (- EINVAL)
     | Some prctl_map =>
         let error := validate_prctl_map_addr env prctl_map in
         if nz error then mret error else
         if needs_vma opt && negb (find_vma env addr) then mret (- EFAULT) else
         set_layout prctl_map;;
         mret 0
     end);
  mmap_lock_add (-1);;
  mret error.
End handlers.

(** ** Specification *)

(** What the validation promises of a layout: every field inside the address
    space, the pairs in order. *)
Definition layout_ok (lo hi : Z) (l : mm_layout) : Prop :=
  Forall (λ v, lo ≤ v < hi) (layout_fields l) ∧
  start_code l < end_code l ∧ start_data l ≤ end_data l ∧ start_brk l ≤ brk l ∧
  arg_start l ≤ arg_end l ∧ env_start l ≤ env_end l.

(** The saved vector has its size and ends in two AT_NULL entries. *)
Definition auxv_ok (n : nat) (bs : list Z) : Prop :=
  length bs = (8 * n)%nat ∧ drop (8 * n - 16) bs = replicate 16 0.

(** ** Lemmas *)
Lemma addrs_in_range_spec env vals :
  addrs_in_range env vals = true ↔ Forall (λ v, mmap_min_addr env ≤ v < TASK_SIZE env) vals.
Proof.
  induction vals as [|v vals IH]; simpl; [split; [constructor | done]|].
  rewrite Forall_cons, <-IH.
  destruct (Z.leb_spec (TASK_SIZE env) v), (Z.ltb_spec v (mmap_min_addr env)); simpl;
    (split; [|intros [? ?]]); try done; try lia.
Qed.

Lemma or_einval a b : Z.lor (prctl_check_order a) (prctl_check_order b) = prctl_check_order (a && b).
Proof. by destruct a, b. Qed.

(** The validation accepts exactly the promised layouts within the data limit,
    and rejects the others with [-EINVAL]. *)
Lemma validate_spec env l :
  validate_prctl_map_addr env l =
  if decide (layout_ok (mmap_min_addr env) (TASK_SIZE env) l ∧
             check_data_rlimit env (brk l) (start_brk l) (end_data l) (start_data l) = 0)
  then 0 else - EINVAL.
Proof.
  unfold validate_prctl_map_addr. cbv zeta. rewrite !or_einval.
  destruct (addrs_in_range env (layout_fields l)) eqn:Hr; cbn [negb].
  2: { rewrite decide_False; [done|]. intros [[Hf _] _].
       apply addrs_in_range_spec in Hf. congruence. }
  apply addrs_in_range_spec in Hr. unfold prctl_check_order at 1.
  destruct (_ && _) eqn:Ho.
  - rewrite !andb_true_iff, Z.ltb_lt, !Z.leb_le in Ho. unfold nz. simpl.
    destruct (Z.eqb_spec (check_data_rlimit env (brk l) (start_brk l) (end_data l) (start_data l)) 0)
      as [Hc|Hc]; simpl.
    + rewrite decide_True; [done|]. unfold layout_ok. tauto.
    + rewrite decide_False; [done|]. by intros [_ ?].
  - simpl. rewrite decide_False; [done|].
    intros [(_ & H1 & H2 & H3 & H4 & H5) _].
    rewrite !(proj2 (Z.leb_le _ _)), (proj2 (Z.ltb_lt _ _)) in Ho by lia. done.
Qed.

Section lemmas.
Context {M : Type} `{UserAccess M}.
Context (env : mm_env).
Implicit Types (s : mm_state M).

(** What no call changes: the lock depth and the file references. *)
Definition mm_balanced s s' : Prop :=
  mmap_locks s' = mmap_locks s ∧ ∀ a, ref_get (fd_refs s') a = ref_get (fd_refs s) a.

Definition mm_untouched s s' : Prop :=
  layout s' = layout s ∧ saved_auxv s' = saved_auxv s ∧ exe_file s' = exe_file s.

(** The effect of a call with result [r]. *)
Definition mm_outcome s (r : Z) s' : Prop :=
  mm_balanced s s' ∧ (r ≠ 0 → mm_untouched s s') ∧
  (layout s' = layout s ∨ layout_ok (mmap_min_addr env) (TASK_SIZE env) (layout s')) ∧
  ((2 ≤ AT_VECTOR_SIZE env)%nat → auxv_ok (AT_VECTOR_SIZE env) (saved_auxv s) →
   auxv_ok (AT_VECTOR_SIZE env) (saved_auxv s')).

Lemma mm_outcome_same s r : mm_outcome s r s.
Proof using. split_and!; auto; done. Qed.

Lemma exe_file_run fd s :
  ∃ r s', prctl_set_mm_exe_file env fd s = Some (r, s') ∧ mm_balanced s s' ∧
    layout s' = layout s ∧ saved_auxv s' = saved_auxv s ∧
    (r ≠ 0 → exe_file s' = exe_file s).
Proof using.
  unfold prctl_set_mm_exe_file. destruct (fd_file env fd) as [exe|].
  2: { eexists _, _. split; [reflexivity|]. done. }
  unfold fd_ref, set_exe_file. krun.
  set (s1 := mk_mm_state _ _ _ _ _ _).
  assert (Hend : ∀ (m : kst (mm_state M) Z) r s2, m s1 = Some (r, s2) →
    fd_refs s2 = fd_refs s1 → mmap_locks s2 = mmap_locks s1 → layout s2 = layout s1 →
    saved_auxv s2 = saved_auxv s1 → (r ≠ 0 → exe_file s2 = exe_file s1) →
    ∃ r s', (err ← m;
      kmodify (λ s, mk_mm_state (layout s) (saved_auxv s) (exe_file s) (mmap_locks s)
        (ref_dec fd (fd_refs s)) (mm_user s));; mret err) s1 = Some (r, s') ∧
      mm_balanced s s' ∧ layout s' = layout s ∧ saved_auxv s' = saved_auxv s ∧
      (r ≠ 0 → exe_file s' = exe_file s)).
  { intros m r s2 Hm Hf Hl Hlay Ha He. rewrite (kbind_some _ _ _ _ _ Hm). krun.
    eexists _, _. split; [reflexivity|]. unfold mm_balanced. simpl. rewrite Hf, Hl, Hlay, Ha.
    split_and!; auto. intros a. simpl. apply ref_dec_inc. }
  destruct (negb (exe_is_reg exe) || exe_noexec exe); [by eapply Hend|].
  destruct (nz (exe_may_exec exe)); [by eapply Hend|].
  unfold nz. destruct (Z.eqb_spec (replace_mm_exe_file env (exe_inode exe)) 0) as [Hr|Hr];
    cbn [negb]; (eapply Hend; [krun; reflexivity | done..|]).
  - rewrite Hr. done.
  - done.
Qed.

Lemma fill_auxv_ok bs :
  (2 ≤ AT_VECTOR_SIZE env)%nat → (length bs ≤ 8 * AT_VECTOR_SIZE env)%nat →
  auxv_ok (AT_VECTOR_SIZE env) (fill_auxv env bs).
Proof using.
  intros Hn Hl. unfold fill_auxv, auxv_ok, auxv_bytes.
  assert (Htake : length (take (8 * AT_VECTOR_SIZE env - 16)
    (bs ++ replicate (8 * AT_VECTOR_SIZE env - length bs) 0)) = (8 * AT_VECTOR_SIZE env - 16)%nat).
  { rewrite length_take, length_app, length_replicate. lia. }
  split.
  - rewrite length_app, Htake, length_replicate. lia.
  - rewrite drop_app_length'; [done|]. by rewrite Htake.
Qed.

(** Overwriting a prefix keeps the two last entries when both vectors end in
    AT_NULL. *)
Lemma auxv_prefix_ok k new old :
  auxv_ok (AT_VECTOR_SIZE env) new → auxv_ok (AT_VECTOR_SIZE env) old →
  auxv_ok (AT_VECTOR_SIZE env) (take k new ++ drop k old).
Proof using.
  intros [Hln Hn] [Hlo Ho]. split.
  - rewrite length_app, length_take, length_drop. lia.
  - apply list_eq. intros i.
    assert (Hi : ∀ l : list Z, drop (8 * AT_VECTOR_SIZE env - 16) l = replicate 16 0 →
      l !! (8 * AT_VECTOR_SIZE env - 16 + i)%nat = replicate 16 0 !! i).
    { intros l Hl. by rewrite <-Hl, lookup_drop. }
    rewrite lookup_drop. set (j := (8 * AT_VECTOR_SIZE env - 16 + i)%nat) in *.
    destruct (decide (j < k)%nat) as [Hjk|Hjk].
    + destruct (decide (j < length new)%nat) as [Hjn|Hjn].
      * rewrite lookup_app_l by (rewrite length_take; lia).
        rewrite lookup_take_lt by done. by apply Hi.
      * rewrite lookup_app_r by (rewrite length_take; lia).
        rewrite lookup_drop, length_take.
        rewrite (lookup_ge_None_2 old) by lia. rewrite <-(Hi new Hn).
        symmetry. apply lookup_ge_None_2. lia.
    + rewrite lookup_app_r by (rewrite length_take; lia).
      rewrite lookup_drop, length_take. rewrite <-(Hi old Ho).
      destruct (decide (k ≤ length new)%nat).
      * f_equal. lia.
      * rewrite !lookup_ge_None_2 by lia. done.
Qed.
End lemmas.

Section outcomes.
Context {M : Type} `{UserAccess M}.
Context (env : mm_env).
Implicit Types (s : mm_state M).

Ltac same := eexists _, _; split; [reflexivity | apply mm_outcome_same].

Lemma mm_copy_in_run p n s : mm_copy_in p n s = Some (copy_from_user (mm_user s) p n, s).
Proof using. done. Qed.

(** The stores of the layout between the two lock operations. *)
Lemma locked_store_run l aux s :
  ∃ s', (mmap_lock_add 1;; set_layout l;;
         match aux with Some bs => set_auxv bs | None => mret tt end;;
         mmap_lock_add (-1);; mret 0) s = Some (0, s') ∧
    layout s' = l ∧ saved_auxv s' = default (saved_auxv s) aux ∧
    exe_file s' = exe_file s ∧ mmap_locks s' = mmap_locks s ∧ fd_refs s' = fd_refs s.
Proof using.
  unfold mmap_lock_add, set_layout, set_auxv. krun.
  destruct aux as [bs|]; krun; (eexists; split; [reflexivity|]); simpl; split_and!; try done; lia.
Qed.

Lemma set_mm_map_outcome opt addr data_size s :
  ∃ r s', prctl_set_mm_map env opt addr data_size s = Some (r, s') ∧ mm_outcome env s r s'.
Proof using.
  unfold prctl_set_mm_map. destruct (opt =? PR_SET_MM_MAP_SIZE).
  { unfold mm_put_u32. destruct (put_user_u32 _ _ _) as [r m].
    eexists _, _. split; [reflexivity|]. split_and!; auto; done. }
  destruct (negb (data_size =? sizeof_prctl_mm_map)); [same|].
  rewrite (kbind_some _ _ _ _ _ (mm_copy_in_run _ _ s)).
  set (c := copy_from_user (mm_user s) addr sizeof_prctl_mm_map).
  destruct (nz c.1); [same|].
  set (pm := map_of_bytes c.2).
  rewrite validate_spec. destruct (decide (layout_ok _ _ _ ∧ _)) as [[Hok Hdata]|Hbad].
  2: { cbn [nz]. same. }
  change (nz 0) with false. cbv iota.
  assert (Haux : ∃ a : Z + option (list Z), (if nz (map_auxv_size pm)
     then if (map_auxv pm =? NULL) || (Z.of_nat (auxv_bytes env) <? map_auxv_size pm)
          then mret (inl (- EINVAL)) else
          c0 ← mm_copy_in (map_auxv pm) (map_auxv_size pm);
          if nz c0.1 then mret (inl (- EFAULT)) else mret (inr (Some (fill_auxv env c0.2)))
     else mret (inr None)) s = Some (a, s) ∧
     (∀ bs, a = inr (Some bs) → ∃ us, bs = fill_auxv env us ∧
        (length us ≤ auxv_bytes env)%nat) ∧ (∀ e, a = inl e → e ≠ 0)).
  { destruct (nz (map_auxv_size pm)) eqn:Hsz.
    2: { eexists. split; [reflexivity|]. split; done. }
    destruct (_ || _) eqn:Hchk.
    { eexists. split; [reflexivity|]. split; [done|]. by intros e [= <-]. }
    rewrite (kbind_some _ _ _ _ _ (mm_copy_in_run _ _ s)).
    destruct (nz (copy_from_user (mm_user s) (map_auxv pm) (map_auxv_size pm)).1).
    { eexists. split; [reflexivity|]. split; [done|]. by intros e [= <-]. }
    eexists. split; [reflexivity|]. split; [|done]. intros bs [= <-].
    eexists. split; [reflexivity|].
    apply orb_false_iff in Hchk as [_ Hle%Z.ltb_ge].
    assert (Hpos : 0 ≤ map_auxv_size pm) by apply u32_range.
    rewrite copy_from_user_length by done. change (half_at c.2 96) with (map_auxv_size pm). lia. }
  destruct Haux as (a & Ha & Hfill & Herr). rewrite (kbind_some _ _ _ _ _ Ha).
  destruct a as [e|aux].
  { eexists _, _. split; [reflexivity | apply mm_outcome_same]. }
  assert (Hexe : ∃ r s1, (if negb (map_exe_fd pm =? NO_FD)
      then if negb (checkpoint_restore_capable env) then mret (- EPERM)
           else prctl_set_mm_exe_file env (map_exe_fd pm) else mret 0) s = Some (r, s1) ∧
      mm_balanced s s1 ∧ layout s1 = layout s ∧ saved_auxv s1 = saved_auxv s ∧
      (r ≠ 0 → exe_file s1 = exe_file s)).
  { destruct (negb (_ =? NO_FD)); [|by eexists _, _].
    destruct (negb _); [by eexists _, _ | apply exe_file_run]. }
  destruct Hexe as (r & s1 & He & [Hb1 Hb2] & Hl & Hax & Hr). rewrite (kbind_some _ _ _ _ _ He).
  unfold nz. destruct (Z.eqb_spec r 0) as [Hr0|Hr0]; cbn [negb].
  2: { eexists _, _. split; [reflexivity|]. split_and!; auto.
       - done.
       - intros _. by split_and!; auto.
       - intros _. by rewrite Hax. }
  destruct (locked_store_run (map_layout pm) aux s1) as (s2 & Hs2 & Hl2 & Ha2 & He2 & Hm2 & Hf2).
  exists 0, s2. split; [exact Hs2|]. unfold mm_outcome, mm_balanced.
  rewrite Hl2, Hm2, Hf2. split_and!; auto; [done|].
  intros Hn Haok. rewrite Ha2. destruct aux as [bs|]; simpl; [|by rewrite Hax].
  destruct (Hfill bs eq_refl) as (us & -> & Hus). by apply fill_auxv_ok.
Qed.

Lemma set_auxv_outcome addr len s :
  0 ≤ len →
  ∃ r s', prctl_set_auxv env addr len s = Some (r, s') ∧ mm_outcome env s r s'.
Proof using.
  intros Hlen0. unfold prctl_set_auxv.
  destruct (Z.ltb_spec (Z.of_nat (auxv_bytes env)) len) as [|Hlen]; [same|].
  unfold mm_copy_in. erewrite kbind_some by reflexivity.
  destruct (nz _); [same|]. unfold set_auxv. krun.
  eexists _, _. split; [reflexivity|]. split_and!; auto; try done.
  intros Hn Haok. simpl. apply auxv_prefix_ok; [|done].
  apply fill_auxv_ok; [done|]. rewrite copy_from_user_length by done.
  unfold auxv_bytes in Hlen. lia.
Qed.

Lemma set_mm_outcome opt addr arg4 arg5 s :
  0 ≤ arg4 →
  ∃ r s', prctl_set_mm env opt addr arg4 arg5 s = Some (r, s') ∧ mm_outcome env s r s'.
Proof using.
  intros Harg. unfold prctl_set_mm. destruct (_ || _); [same|].
  destruct (_ && _); [apply set_mm_map_outcome|].
  destruct (negb _); [same|]. destruct (opt =? PR_SET_MM_EXE_FILE).
  { destruct (exe_file_run env (u32 addr) s) as (r & s' & Hrun & Hb & Hl & Ha & He).
    exists r, s'. split; [done|]. split_and!; auto.
    - intros Hr. by split_and!; auto.
    - intros _. by rewrite Ha. }
  destruct (opt =? PR_SET_MM_AUXV); [by apply set_auxv_outcome|].
  destruct (_ || _); [same|]. unfold mmap_lock_add. krun. krun. cbn [layout].
  set (s1 := mk_mm_state _ _ _ _ _ _).
  assert (Hend : ∀ (m : kst (mm_state M) Z) r l, m s1 = Some (r, mk_mm_state l (saved_auxv s1)
      (exe_file s1) (mmap_locks s1) (fd_refs s1) (mm_user s1)) →
    (r ≠ 0 → l = layout s) →
    (l = layout s ∨ layout_ok (mmap_min_addr env) (TASK_SIZE env) l) →
    ∃ r s', (error ← m;
      kmodify (λ s, mk_mm_state (layout s) (saved_auxv s) (exe_file s) (mmap_locks s + -1)
        (fd_refs s) (mm_user s));; mret error) s1 = Some (r, s') ∧ mm_outcome env s r s').
  { intros m r l Hm Hr Hl. rewrite (kbind_some _ _ _ _ _ Hm). krun.
    eexists _, _. split; [reflexivity|]. unfold mm_outcome, mm_balanced, mm_untouched. simpl.
    split_and!; auto; lia. }
  destruct (layout_set opt addr (layout s)) as [l|].
  2: { apply (Hend _ (- EINVAL) (layout s)); [done | done | auto]. }
  rewrite validate_spec. destruct (decide (layout_ok _ _ _ ∧ _)) as [[Hok _]|_].
  2: { apply (Hend _ (- EINVAL) (layout s)); [done | done | auto]. }
  change (nz 0) with false. cbv iota. destruct (_ && _).
  { apply (Hend _ (- EFAULT) (layout s)); [done | done | auto]. }
  apply (Hend _ 0 l); [done | done | auto].
Qed.
End outcomes.

(** ** The calls as transitions *)

(** Any sequence of calls of the process, the user program writing its memory
    in between; the limits of the machine are those of [env0], while the data
    limit, capabilities, files and mappings may differ from call to call. *)
Inductive mm_steps {M} `{UserAccess M} (env0 : mm_env) : mm_state M → mm_state M → Prop :=
  | mm_refl s : mm_steps env0 s s
  | mm_call env opt addr arg4 arg5 s1 s2 r s3 :
      mm_steps env0 s1 s2 →
      TASK_SIZE env = TASK_SIZE env0 → mmap_min_addr env = mmap_min_addr env0 →
      AT_VECTOR_SIZE env = AT_VECTOR_SIZE env0 → in_u64 arg4 →
      prctl_set_mm env opt addr arg4 arg5 s2 = Some (r, s3) → mm_steps env0 s1 s3
  | mm_write s1 s2 m :
      mm_steps env0 s1 s2 →
      mm_steps env0 s1 (mk_mm_state (layout s2) (saved_auxv s2) (exe_file s2) (mmap_locks s2)
        (fd_refs s2) m).

(** ** Properties *)

(** C16. Through any sequence of PR_SET_MM calls the layout is either still the
    initial one or one that passed the validation: all eleven fields inside
    the address space, code, data, brk, arguments and environment in order.
    The saved vector keeps its size and its two terminating AT_NULL entries
    (also when only a prefix of it is replaced), and no lock and no file
    reference is left over. *)
Theorem mm_layout_invariant {M} `{UserAccess M} env0 (s s' : mm_state M) :
  (2 ≤ AT_VECTOR_SIZE env0)%nat → auxv_ok (AT_VECTOR_SIZE env0) (saved_auxv s) →
  mm_steps env0 s s' →
  (layout s' = layout s ∨ layout_ok (mmap_min_addr env0) (TASK_SIZE env0) (layout s')) ∧
  auxv_ok (AT_VECTOR_SIZE env0) (saved_auxv s') ∧ mm_balanced s s'.
Proof.
  intros Hn Haok Hs.
  induction Hs as [s|env opt addr arg4 arg5 s1 s2 r s3 Hs IH HT Hm HA H4 Hrun|s1 s2 m Hs IH].
  - unfold mm_balanced. auto.
  - destruct (IH Haok) as (Hl & Ha & [Hb1 Hb2]).
    destruct (set_mm_outcome env opt addr arg4 arg5 s2 ltac:(apply H4))
      as (r' & s3' & Hrun' & [Hb3 Hb4] & _ & Hl' & Ha').
    rewrite Hrun in Hrun'. injection Hrun' as <- <-.
    rewrite HT, Hm in Hl'. rewrite HA in Ha'.
    split; [destruct Hl' as [->|Hl']; auto|]. split; [by apply Ha'|].
    split; [congruence|]. intros a. by rewrite Hb4.
  - by apply IH.
Qed.

(** A single-field call returns, and its result says everything: 0 only
    with CAP_SYS_RESOURCE, for an address inside the address space whose new
    layout is valid and within the data limit (and in a mapping where that is
    required), and then exactly the named field has the address; any other
    result leaves layout, vector and executable as they were. *)
Theorem set_mm_field_spec {M} `{UserAccess M} env opt addr (s : mm_state M) :
  1 ≤ opt ≤ 11 →
  ∃ r s', prctl_set_mm env opt addr 0 0 s = Some (r, s') ∧
    (r ≠ 0 → mm_untouched s s') ∧
    (r = 0 ↔ cap_sys_resource env = true ∧ mmap_min_addr env ≤ addr < TASK_SIZE env ∧
       (needs_vma opt = true → find_vma env addr = true) ∧
       ∃ l, layout_set opt addr (layout s) = Some l ∧
         layout_ok (mmap_min_addr env) (TASK_SIZE env) l ∧
         check_data_rlimit env (brk l) (start_brk l) (end_data l) (start_data l) = 0) ∧
    (r = 0 → layout_set opt addr (layout s) = Some (layout s') ∧
       saved_auxv s' = saved_auxv s ∧ exe_file s' = exe_file s).
Proof.
  intros Ho. unfold prctl_set_mm.
  assert (Hopt : (opt =? PR_SET_MM_MAP) || (opt =? PR_SET_MM_MAP_SIZE) = false ∧
    (opt =? PR_SET_MM_EXE_FILE) = false ∧ (opt =? PR_SET_MM_AUXV) = false).
  { unfold PR_SET_MM_MAP, PR_SET_MM_MAP_SIZE, PR_SET_MM_EXE_FILE, PR_SET_MM_AUXV.
    rewrite orb_false_iff, !Z.eqb_neq. lia. }
  destruct Hopt as (-> & -> & ->). change (nz 0) with false. cbn [orb andb].
  rewrite andb_false_r. destruct (cap_sys_resource env) eqn:Hcap; cbn [negb].
  2: { exists (- EPERM), s. split_and!; try done. split; [done | by intros [? _]]. }
  destruct ((TASK_SIZE env <=? addr) || (addr <? mmap_min_addr env)) eqn:Hr.
  { exists (- EINVAL), s. split_and!; try done. split; [done|]. intros (_ & Ha & _).
    apply orb_true_iff in Hr. rewrite Z.leb_le, Z.ltb_lt in Hr. lia. }
  apply orb_false_iff in Hr as [Hr1%Z.leb_gt Hr2%Z.ltb_ge].
  unfold mmap_lock_add, set_layout. krun. krun. cbn [layout].
  destruct (layout_set opt addr (layout s)) as [l|] eqn:Hl.
  2: { krun. eexists _, _. split; [reflexivity|]. split_and!; try done.
       split; [done|]. by intros (_ & _ & _ & l & ? & _). }
  rewrite validate_spec. destruct (decide (layout_ok _ _ _ ∧ _)) as [[Hok Hdata]|Hbad].
  2: { change (nz (- EINVAL)) with true. krun. eexists _, _. split; [reflexivity|].
       split_and!; try done. split; [done|]. intros (_ & _ & _ & l' & [= <-] & ?). tauto. }
  change (nz 0) with false. cbv iota. destruct (needs_vma opt && negb (find_vma env addr)) eqn:Hv.
  { krun. eexists _, _. split; [reflexivity|]. split_and!; try done.
    apply andb_true_iff in Hv as [Hv1 Hv2%negb_true_iff]. split; [done|].
    intros (_ & _ & Hv & _). rewrite Hv in Hv2; done. }
  rewrite kbind_assoc. krun. eexists _, _. split; [reflexivity|]. split_and!; try done.
  split; [|done]. intros _. split_and!; try done.
  - intros Hn. rewrite Hn in Hv. simpl in Hv. by apply negb_false_iff in Hv.
  - by exists l.
Qed.

(** ** Concrete runs *)
Module MMRuns.
Definition env0 : mm_env :=
  mk_mm_env 140737488351232 65536 24 (λ _ _ _ _, 0) true true true
    (λ fd, if fd =? 3 then Some (mk_exe 77 true false 0) else None) (λ _, 0) (λ a, a <? 2 ^ 40).
Definition l0 : mm_layout :=
  mk_layout 4194304 4198400 5242880 5246976 6291456 6295552 (2 ^ 39) (2 ^ 39) (2 ^ 39 + 64)
    (2 ^ 39 + 64) (2 ^ 39 + 128).
Definition s0 : mm_state (gmap Z Z) := mk_mm_state l0 (replicate 192 0) 5 0 ∅ (zero_page 4096 256).

Definition call (opt addr arg4 : Z) (s : mm_state (gmap Z Z)) : mm_state (gmap Z Z) :=
  match prctl_set_mm env0 opt addr arg4 0 s with Some (_, s') => s' | None => s end.
Definition s1 := call PR_SET_MM_BRK 6291456 0 s0.
Definition s2 := call PR_SET_MM_AUXV 4096 12 s1.

(** The end of the code may not move below its start. *)
Example order_refused :
  (r ← prctl_set_mm env0 PR_SET_MM_END_CODE 4194304 0 0 s0; Some r.1) = Some (- EINVAL).
Proof. vm_compute. reflexivity. Qed.
Example exe_run : exe_file (call PR_SET_MM_EXE_FILE 3 0 s0) = 77.
Proof. vm_compute. reflexivity. Qed.

Lemma s2_steps : mm_steps env0 s0 s2.
Proof.
  eapply (mm_call env0 env0 PR_SET_MM_AUXV 4096 12 0 s0 s1 0); [|done..| by compute |
    vm_compute; reflexivity].
  eapply (mm_call env0 env0 PR_SET_MM_BRK 6291456 0 0 s0 s0 0); [constructor|done..| by compute |
    vm_compute; reflexivity].
Qed.

Lemma mm_layout_invariant_witness :
  auxv_ok 24 (saved_auxv s2) ∧ mm_balanced s0 s2.
Proof.
  refine (proj2 (mm_layout_invariant env0 s0 s2 _ _ s2_steps)); [simpl; lia | by split].
Defined.

Lemma set_mm_field_spec_witness : ∃ r s',
  prctl_set_mm env0 PR_SET_MM_ARG_START (2 ^ 39 + 8) 0 0 s0 = Some (r, s') ∧
  (r ≠ 0 → mm_untouched s0 s').
Proof.
  destruct (set_mm_field_spec env0 PR_SET_MM_ARG_START (2 ^ 39 + 8) s0 ltac:(by compute))
    as (r & s' & Hr & Hu & _).
  exists r, s'. split; [exact Hr | exact Hu].
Defined.
End MMRuns.
