(* ===== verification/CString.v ===== *)
(** * CString: C strings and the string library

    A text is the list of its characters, without the NUL; a buffer is a list
    of bytes in which a NUL ends the text.  The functions are those of the C
    library the kernel code calls: [strlen], comparisons, and [strcpy] into a
    buffer of known size, which has no result when it would write past the
    end. *)

From S2P Require Import Prelude.
From Stdlib Require Import Ascii.

Fixpoint bytes_of_string (s : string) : list Z :=
  match s with
  | EmptyString => []
  | String c s => Z.of_nat (nat_of_ascii c) :: bytes_of_string s
  end.

(** The bytes before the first NUL. *)
Fixpoint cstr (bs : list Z) : list Z :=
  match bs with
  | [] => []
  | b :: bs => if b =? 0 then [] else b :: cstr bs
  end.
Definition strlen (bs : list Z) : Z := Z.of_nat (length (cstr bs)).
Definition isdigit (c : Z) : bool := (48 <=? c) && (c <=? 57).
Definition DOT : Z := 46.
Definition QUOTE : Z := 34.
Definition SPACE : Z := 32.

(** Equality of the first [n] characters, a NUL counting as one
    ([strncmp(a, b, n) == 0]). *)
Definition strncmp_eq (a b : list Z) (n : nat) : bool :=
  bool_decide (take n (a ++ [0]) = take n (b ++ [0])).

(** [strcpy] of a text to offset [off] of a buffer: its characters and the
    NUL. *)
Definition strcpy (buf : list Z) (off : nat) (text : list Z) : option (list Z) :=
  if decide (off + length text < length buf)%nat then
    Some (take off buf ++ text ++ [0] ++ drop (off + length text + 1) buf)
  else None.

(** A text contains no NUL. *)
Definition text_ok (s : list Z) : Prop := Forall (λ c, c ≠ 0) s.
#[export] Instance text_ok_dec s : Decision (text_ok s).
Proof. unfold text_ok. apply _. Defined.

(** ** Facts *)

Lemma cstr_prefix bs : ∃ rest, bs = cstr bs ++ rest ∧ (rest = [] ∨ ∃ r, rest = 0 :: r).
Proof.
  induction bs as [|b bs (rest & IH & Hr)]; [exists []; auto|]. simpl.
  destruct (Z.eqb_spec b 0) as [->|]; [exists (0 :: bs); eauto|].
  exists rest. simpl. split; [by f_equal | done].
Qed.

(** A text with a NUL in it, and what follows its end. *)
Lemma take_cstr bs i :
  bs !! i = Some 0 → take (S (length (cstr bs))) bs = cstr bs ++ [0] ∧ (length (cstr bs) <= i)%nat.
Proof.
  revert i. induction bs as [|b bs IH]; intros i Hi; [done|]. simpl.
  destruct (Z.eqb_spec b 0) as [->|Hb]; [split; [done | simpl; lia]|].
  destruct i as [|i]; [by injection Hi as ->|]. destruct (IH i Hi) as [Ht Hle].
  split; [|simpl; lia]. simpl. by rewrite <-Ht.
Qed.

Lemma cstr_app_zero bs k : cstr (bs ++ 0 :: k) = cstr bs.
Proof. induction bs as [|b bs IH]; [done|]. simpl. destruct (b =? 0); [done | by rewrite IH]. Qed.
Lemma cstr_replicate bs n : (0 < n)%nat → cstr (bs ++ replicate n 0) = cstr bs.
Proof. destruct n as [|n]; [lia|]. intros _. apply cstr_app_zero. Qed.

Lemma take_cons_middle (l : list Z) x r : take (length (l ++ [x])) (l ++ x :: r) = l ++ [x].
Proof. rewrite (cons_middle x l r), app_assoc. apply take_app_length. Qed.


Lemma cstr_text s k : text_ok s → cstr (s ++ 0 :: k) = s.
Proof.
  induction 1 as [|c s Hc Hs IH]; [done|]. simpl.
  destruct (Z.eqb_spec c 0); [done | by rewrite IH].
Qed.
Lemma cstr_ok bs : text_ok (cstr bs).
Proof.
  induction bs as [|b bs IH]; [constructor|]. simpl.
  destruct (Z.eqb_spec b 0); constructor; done.
Qed.
Lemma cstr_app s t : text_ok s → cstr (s ++ t) = s ++ cstr t.
Proof.
  induction 1 as [|c s Hc Hs IH]; [done|]. simpl.
  destruct (Z.eqb_spec c 0); [done | by rewrite IH].
Qed.

(** Equality up to [length name + 1] characters with a text that begins with
    the name and the character [c]. *)
Lemma strncmp_eq_prefix (name rest other : list Z) (c : Z) :
  strncmp_eq (name ++ c :: rest) other (length name + 1) = true ↔
  take (length name + 1) (other ++ [0]) = name ++ [c].
Proof.
  unfold strncmp_eq. rewrite bool_decide_eq_true, <-app_assoc.
  replace (length name + 1)%nat with (length (name ++ [c])) at 1 by (rewrite length_app; done).
  simpl. rewrite (take_cons_middle name c). split; by intros ->.
Qed.

Lemma strcpy_Some buf off text buf' :
  strcpy buf off text = Some buf' ↔
  (off + length text < length buf)%nat ∧
  buf' = take off buf ++ text ++ [0] ++ drop (off + length text + 1) buf.
Proof.
  unfold strcpy. split.
  - destruct (decide _); [by intros [= <-] | done].
  - intros [Hlt ->]. by rewrite decide_True.
Qed.

Lemma strcpy_length buf off text buf' :
  strcpy buf off text = Some buf' → length buf' = length buf.
Proof.
  intros (Hlt & ->)%strcpy_Some. rewrite !length_app, length_take, length_drop. simpl. lia.
Qed.

(** Appending: a copy to the end of the text a buffer holds. *)
Lemma strcpy_append (pre text buf : list Z) :
  (length pre + length text < length buf)%nat → take (length pre) buf = pre →
  ∃ buf', strcpy buf (length pre) text = Some buf' ∧ length buf' = length buf ∧
    take (length pre + length text + 1) buf' = pre ++ text ++ [0].
Proof.
  intros Hlt Hpre. eexists. unfold strcpy. rewrite decide_True by done.
  split; [reflexivity|]. rewrite Hpre. split.
  - rewrite !length_app, length_drop. simpl. lia.
  - rewrite !app_assoc. rewrite take_app_length'; [by rewrite <-app_assoc|].
    rewrite !length_app. simpl. lia.
Qed.
