(* ===== verification/Uts.v ===== *)
(** * Uts: the names of the system

    [uname] and its older forms, [sethostname], [gethostname] and
    [setdomainname] of [kernel/sys.c], with the defaults of
    [include/linux/uts.h].  A name is a field of 65 bytes.  The release text
    and patch level of the build, the capability of the caller and its
    personality are the environment; [uts_sem] makes each call atomic. *)

From S2P Require Import Prelude UserMem CString.

(** ** The namespace *)

Definition __NEW_UTS_LEN : Z := 64.
Definition __OLD_UTS_LEN : Z := 8.

Record new_utsname := Uts {
  sysname : list Z;
  nodename : list Z;
  release : list Z;
  version : list Z;
  machine : list Z;
  domainname : list Z;
}.

(** A field with a text in it. *)
Definition uts_field (s : list Z) : list Z := take 65 (s ++ replicate 65 0).

Definition UTS_SYSNAME : string := "Linux-sopesOS-202000173".
Definition UTS_DOMAINNAME : string := "(none)".

(** The names before anyone set one; host name, release, version and machine
    come from the configuration of the build. *)
Definition init_uts (hostname rel ver mach : list Z) : new_utsname :=
  Uts (uts_field (bytes_of_string UTS_SYSNAME)) (uts_field hostname) (uts_field rel)
    (uts_field ver) (uts_field mach) (uts_field (bytes_of_string UTS_DOMAINNAME)).

Definition utsname_bytes (u : new_utsname) : list Z :=
  sysname u ++ nodename u ++ release u ++ version u ++ machine u ++ domainname u.

(** Every field has its 65 bytes, the last of them NUL. *)
Definition field_wf (f : list Z) : Prop := length f = 65%nat ∧ f !! 64%nat = Some 0.
#[export] Instance field_wf_dec f : Decision (field_wf f).
Proof. unfold field_wf. apply _. Defined.
Definition uts_wf (u : new_utsname) : Prop :=
  field_wf (sysname u) ∧ field_wf (nodename u) ∧ field_wf (release u) ∧
  field_wf (version u) ∧ field_wf (machine u) ∧ field_wf (domainname u).
#[export] Instance uts_wf_dec u : Decision (uts_wf u).
Proof. unfold uts_wf. apply _. Defined.

(** ** The caller and the build *)

Definition UNAME26 : Z := 0x20000.
Definition PER_MASK : Z := 0xff.
Definition PER_LINUX32 : Z := 0x8.

Record uts_env := UtsEnv {
  cap_sys_admin : bool;
  personality : Z;
  UTS_RELEASE : list Z;
  LINUX_VERSION_PATCHLEVEL : Z;
  COMPAT_UTS_MACHINE : list Z;
}.

(** [entropy] is what was fed to the random pool, [proc_events] the
    notifications of [uts_proc_notify]. *)
Inductive uts_proc := UTS_PROC_HOSTNAME | UTS_PROC_DOMAINNAME.
Record uts_state (M : Type) := UtsState {
  uts : new_utsname;
  umem : M;
  entropy : list (list Z);
  proc_events : list uts_proc;
}.
Arguments UtsState {M}.
Arguments uts {M}.
Arguments umem {M}.
Arguments entropy {M}.
Arguments proc_events {M}.

Section calls.
Context {M : Type} `{HU : UserAccess M}.
Implicit Types (env : uts_env) (m : M) (s : uts_state M).

Definition set_umem m s : uts_state M := UtsState (uts s) m (entropy s) (proc_events s).

(** ** uname *)

(** The part of the release text after its first three numbers. *)
Fixpoint release_rest (ndots : Z) (rest : list Z) : list Z :=
  match rest with
  | [] => []
  | c :: rest' =>
      if c =? DOT then
        if 3 <=? ndots + 1 then rest else release_rest (ndots + 1) rest'
      else if negb (isdigit c) then rest
      else release_rest ndots rest'
  end.

(** ["2.6.%u%s"] *)
Definition release26 env : list Z :=
  bytes_of_string "2.6." ++
  bytes_of_string (pretty (Z.to_N (u32 (LINUX_VERSION_PATCHLEVEL env + 60)))) ++
  release_rest 0 (UTS_RELEASE env).

(** [scnprintf] of a text into the first [size] bytes of [buf]: the number of
    characters stored, and the buffer. *)
Definition scnprintf (buf : list Z) (size : Z) (text : list Z) : Z * list Z :=
  let n := Z.min (Z.of_nat (length text)) (size - 1) in
  (n, take (Z.to_nat n) text ++ [0] ++ drop (S (Z.to_nat n)) buf).

Definition override_release env (release_p len : Z) m : Z * M :=
  if nz (Z.land (personality env) UNAME26) then
    let buf := replicate 65 0 in
    let copy := Z.max 1 (Z.min len 65) in
    let '(copy, buf) := scnprintf buf copy (release26 env) in
    copy_to_user m release_p (take (Z.to_nat (copy + 1)) buf)
  else (0, m).

Definition override_architecture env (machine_p : Z) m : Z * M :=
  if Z.land (personality env) PER_MASK =? PER_LINUX32 then
    copy_to_user m machine_p (COMPAT_UTS_MACHINE env)
  else (0, m).

(** The three copies of the uname calls, each of which may fault: the
    structure at [name], then the two overrides in the order given. *)
Definition copy_then (bs : list Z) (name : Z) (next1 next2 : M → Z * M) s : Z * uts_state M :=
  let '(r, m) := copy_to_user (umem s) name bs in
  if nz r then (- EFAULT, set_umem m s)
  else
    let '(r, m) := next1 m in
    if nz r then (- EFAULT, set_umem m s)
    else
      let '(r, m) := next2 m in
      (if nz r then - EFAULT else 0, set_umem m s).

Definition sys_newuname env (name : Z) s : Z * uts_state M :=
  copy_then (utsname_bytes (uts s)) name
    (override_release env (name + 130) 65) (override_architecture env (name + 260)) s.

(** [struct old_utsname]: no domain name. *)
Definition sys_uname env (name : Z) s : Z * uts_state M :=
  if name =? 0 then (- EFAULT, s)
  else copy_then (take 325 (utsname_bytes (uts s))) name
    (override_release env (name + 130) 65) (override_architecture env (name + 260)) s.

(** [struct oldold_utsname]: fields of 9 bytes, the last of them NUL. *)
Definition old_field (f : list Z) : list Z := take (Z.to_nat __OLD_UTS_LEN) f ++ [0].
Definition oldold_bytes (u : new_utsname) : list Z :=
  old_field (sysname u) ++ old_field (nodename u) ++ old_field (release u) ++
  old_field (version u) ++ old_field (machine u).
Definition sys_olduname env (name : Z) s : Z * uts_state M :=
  if name =? 0 then (- EFAULT, s)
  else copy_then (oldold_bytes (uts s)) name
    (override_architecture env (name + 36)) (override_release env (name + 18) 9) s.

(** ** Host and domain name *)

Definition set_nodename (f : list Z) (u : new_utsname) : new_utsname :=
  Uts (sysname u) f (release u) (version u) (machine u) (domainname u).
Definition set_domainname (f : list Z) (u : new_utsname) : new_utsname :=
  Uts (sysname u) (nodename u) (release u) (version u) (machine u) f.

(** [memcpy] of [len] bytes and [memset] of the rest of a field. *)
Definition fill_field (tmp : list Z) (len : Z) (f : list Z) : list Z :=
  take (Z.to_nat len) tmp ++ replicate (length f - Z.to_nat len) 0.

Definition sys_sethostname env (name len : Z) s : Z * uts_state M :=
  if negb (cap_sys_admin env) then (- EPERM, s)
  else if (len <? 0) || (__NEW_UTS_LEN <? len) then (- EINVAL, s)
  else
    let '(r, tmp) := copy_from_user (umem s) name len in
    if nz r then (- EFAULT, s)
    else
      (0, UtsState (set_nodename (fill_field tmp len (nodename (uts s))) (uts s)) (umem s)
            (tmp :: entropy s) (UTS_PROC_HOSTNAME :: proc_events s)).

Definition sys_setdomainname env (name len : Z) s : Z * uts_state M :=
  if negb (cap_sys_admin env) then (- EPERM, s)
  else if (len <? 0) || (__NEW_UTS_LEN <? len) then (- EINVAL, s)
  else
    let '(r, tmp) := copy_from_user (umem s) name len in
    if nz r then (- EFAULT, s)
    else
      (0, UtsState (set_domainname (fill_field tmp len (domainname (uts s))) (uts s)) (umem s)
            (tmp :: entropy s) (UTS_PROC_DOMAINNAME :: proc_events s)).

Definition sys_gethostname (name len : Z) s : Z * uts_state M :=
  if len <? 0 then (- EINVAL, s)
  else
    let i := 1 + strlen (nodename (uts s)) in
    let i := if len <? i then len else i in
    let '(r, m) := copy_to_user (umem s) name (take (Z.to_nat i) (nodename (uts s))) in
    (if nz r then - EFAULT else 0, set_umem m s).
End calls.

(** ** Lemmas *)

Lemma fill_field_eq tmp len f :
  length f = 65%nat → length tmp = Z.to_nat len → fill_field tmp len f = tmp ++ replicate (65 - Z.to_nat len) 0.
Proof. intros Hf Ht. unfold fill_field. by rewrite Hf, take_ge by lia. Qed.
Lemma fill_field_wf tmp len f :
  length f = 65%nat → length tmp = Z.to_nat len → len ≤ 64 → field_wf (fill_field tmp len f).
Proof.
  intros Hf Ht Hl. rewrite fill_field_eq by done. split.
  - rewrite length_app, length_replicate. lia.
  - rewrite lookup_app_r by lia. apply lookup_replicate. lia.
Qed.
Lemma uts_field_wf s : (length s <= 64)%nat → field_wf (uts_field s).
Proof.
  intros Hs. unfold uts_field. split.
  - rewrite length_take, length_app, length_replicate. lia.
  - rewrite lookup_take_lt, lookup_app_r by lia. apply lookup_replicate. lia.
Qed.

Lemma scnprintf_run size text n buf :
  1 ≤ size ≤ 65 → scnprintf (replicate 65 0) size text = (n, buf) →
  n = Z.min (Z.of_nat (length text)) (size - 1) ∧ 0 ≤ n < size ∧
  take (Z.to_nat (n + 1)) buf = take (Z.to_nat n) text ++ [0].
Proof.
  intros Hsize [= <- <-]. set (n := Z.min _ _). assert (Hn : 0 ≤ n < size) by lia.
  split; [done|]. split; [done|].
  assert (Hl : length (take (Z.to_nat n) text) = Z.to_nat n) by (rewrite length_take; lia).
  assert (Hk : Z.to_nat (n + 1) = length (take (Z.to_nat n) text ++ [0]))
    by (rewrite length_app, Hl; simpl; lia).
  rewrite Hk. apply take_cons_middle.
Qed.

Section facts.
Context {M : Type} `{HU : UserAccess M}.
Implicit Types (env : uts_env) (m : M) (s : uts_state M).

(** What the override of a release field of [len] bytes stores: a text with
    its NUL that fits the field. *)
Lemma override_release_run env p len m :
  1 ≤ len ≤ 65 → Z.land (personality env) UNAME26 ≠ 0 →
  let n := Z.to_nat (Z.min (Z.of_nat (length (release26 env))) (len - 1)) in
  override_release env p len m = copy_to_user m p (take n (release26 env) ++ [0]) ∧
  Z.of_nat (length (take n (release26 env) ++ [0])) ≤ len.
Proof.
  intros Hlen Hp. cbn zeta. unfold override_release.
  assert (Hnz : nz (Z.land (personality env) UNAME26) = true)
    by (unfold nz; by destruct (Z.eqb_spec (Z.land (personality env) UNAME26) 0)).
  rewrite Hnz. cbn zeta.
  replace (Z.max 1 (Z.min len 65)) with len by lia.
  destruct (scnprintf _ _ _) as [n buf] eqn:Hs.
  apply scnprintf_run in Hs as (-> & Hn & ->); [|lia].
  split; [done|]. rewrite length_app, length_take. simpl. lia.
Qed.

Lemma sethostname_wf env name len s :
  uts_wf (uts s) → uts_wf (uts (sys_sethostname env name len s).2).
Proof.
  intros Hwf. unfold sys_sethostname. destruct (negb _); [done|].
  destruct (Z.ltb_spec len 0); [done|]. destruct (Z.ltb_spec __NEW_UTS_LEN len); [done|].
  cbn [orb]. pose proof (copy_from_user_length (umem s) name len ltac:(done)) as Hlen.
  destruct (copy_from_user (umem s) name len) as [r tmp]. destruct (nz r); [done|].
  destruct Hwf as (? & [? ?] & ? & ? & ? & ?). unfold __NEW_UTS_LEN in *.
  split_and!; try done; by apply fill_field_wf.
Qed.
Lemma setdomainname_wf env name len s :
  uts_wf (uts s) → uts_wf (uts (sys_setdomainname env name len s).2).
Proof.
  intros Hwf. unfold sys_setdomainname. destruct (negb _); [done|].
  destruct (Z.ltb_spec len 0); [done|]. destruct (Z.ltb_spec __NEW_UTS_LEN len); [done|].
  cbn [orb]. pose proof (copy_from_user_length (umem s) name len ltac:(done)) as Hlen.
  destruct (copy_from_user (umem s) name len) as [r tmp]. destruct (nz r); [done|].
  destruct Hwf as (? & ? & ? & ? & ? & [? ?]). unfold __NEW_UTS_LEN in *.
  split_and!; try done; by apply fill_field_wf.
Qed.

(** A successful gethostname: the caller reads the name with its NUL, or the
    part of it that fits. *)
Lemma gethostname_reads name len s s' :
  uts_wf (uts s) → sys_gethostname name len s = (0, s') →
  let text := take (Z.to_nat len) (cstr (nodename (uts s)) ++ [0]) in
  0 ≤ len ∧ uts s' = uts s ∧ uread_range (umem s') name (length text) = Some text.
Proof.
  intros (_ & [Hlen H64] & _). unfold sys_gethostname.
  destruct (Z.ltb_spec len 0); [intros [=]|]. cbn zeta.
  destruct (take_cstr _ _ H64) as [Htake Hle].
  set (i := if len <? 1 + strlen (nodename (uts s)) then _ else _).
  assert (Hi : take (Z.to_nat i) (nodename (uts s))
               = take (Z.to_nat len) (cstr (nodename (uts s)) ++ [0])).
  { rewrite <-Htake, take_take. f_equal. unfold i, strlen.
    destruct (Z.ltb_spec len (1 + Z.of_nat (length (cstr (nodename (uts s)))))); lia. }
  rewrite Hi. pose proof (copy_to_user_range (umem s) name
    (take (Z.to_nat len) (cstr (nodename (uts s)) ++ [0]))) as Hr.
  destruct (copy_to_user (umem s) name _) as [r m]. cbn [fst snd] in Hr.
  unfold nz. destruct (Z.eqb_spec r 0) as [->|]; intros [= <-].
  split; [done|]. split; [done|]. by apply Hr.
Qed.
End facts.

Section properties.
Context {M : Type} `{HU : UserAccess M}.
Implicit Types (env : uts_env) (m : M) (s : uts_state M).

(** Setting the host name either fails (no capability, a length outside
    of [0..64], an unreadable buffer) and changes nothing, or installs exactly
    the bytes of the buffer padded with NUL, touches no other name and keeps
    every field terminated; [gethostname] then gives the caller those bytes up
    to their first NUL, with a NUL behind them, cut at the size it offered. *)
Theorem hostname_roundtrip env name len s r s1 :
  uts_wf (uts s) → sys_sethostname env name len s = (r, s1) →
  uts_wf (uts s1) ∧
  (r = 0 ↔ cap_sys_admin env = true ∧ 0 ≤ len ≤ 64 ∧ user_rd (umem s) name len = true) ∧
  (r ≠ 0 → s1 = s) ∧
  (r = 0 → ∃ bs, length bs = Z.to_nat len ∧
     uread_range (umem s) name (Z.to_nat len) = Some bs ∧
     uts s1 = set_nodename (bs ++ replicate (65 - Z.to_nat len) 0) (uts s) ∧
     ∀ buf n s2, sys_gethostname buf n s1 = (0, s2) →
       let text := take (Z.to_nat n) (cstr bs ++ [0]) in
       uread_range (umem s2) buf (length text) = Some text).
Proof.
  intros Hwf Hset. pose proof (sethostname_wf env name len s Hwf) as Hwf1.
  rewrite Hset in Hwf1. cbn in Hwf1. split; [done|].
  unfold sys_sethostname, __NEW_UTS_LEN in Hset.
  destruct (cap_sys_admin env); cbn [negb] in Hset;
    [|injection Hset as <- <-; split; [split; [done | by intros []] | done]].
  destruct (Z.ltb_spec len 0); [injection Hset as <- <-; split; [split; [done | lia] | done]|].
  destruct (Z.ltb_spec 64 len); [injection Hset as <- <-; split; [split; [done | lia] | done]|].
  cbn [orb] in Hset.
  pose proof (copy_from_user_length (umem s) name len ltac:(done)) as Hlen.
  pose proof (copy_from_user_spec (umem s) name len ltac:(done)) as Hrd.
  pose proof (copy_from_user_range (umem s) name len 0 (Z.to_nat len)) as Hbs.
  destruct (copy_from_user (umem s) name len) as [e tmp]. cbn [fst snd] in *.
  unfold nz in Hset. destruct (Z.eqb_spec e 0) as [->|He]; injection Hset as <- <-.
  2: { split; [split; [done | intros (_ & _ & ?%Hrd); lia] | done]. }
  split; [split; [intros _; split_and!; try done; by apply Hrd | done]|]. split; [done|].
  intros _. destruct Hwf as (_ & [Hnl _] & _). rewrite fill_field_eq in * by done.
  exists tmp. split; [done|]. split.
  { replace name with (name + Z.of_nat 0) by lia. rewrite Hbs by lia.
    by rewrite drop_0, take_ge by lia. }
  split; [done|]. intros buf n s2 Hget. cbn zeta.
  apply gethostname_reads in Hget as (_ & _ & Hread); [|done]. cbn in Hread.
  by rewrite cstr_replicate in Hread by lia.
Qed.

(** The parts of a structure that later copies leave alone. *)
Lemma uread_range_prefix m p xs ys :
  uread_range m p (length (xs ++ ys)) = Some (xs ++ ys) → uread_range m p (length xs) = Some xs.
Proof.
  intros Hr. pose proof (uread_range_sub m p [] xs ys Hr) as Hs. cbn in Hs.
  by rewrite Z.add_0_r in Hs.
Qed.

(** A program that runs under the [UNAME26] personality reads from
    [newuname] the release "2.6." with 60 more than the patch level and the
    tail of the real release, cut to fit the field and terminated inside of
    it; the system and the node name are those of the namespace. *)
Theorem newuname_release26 env name s s1 :
  uts_wf (uts s) → Z.land (personality env) UNAME26 ≠ 0 →
  Z.land (personality env) PER_MASK ≠ PER_LINUX32 →
  sys_newuname env name s = (0, s1) →
  let n := Z.to_nat (Z.min (Z.of_nat (length (release26 env))) 64) in
  uread_range (umem s1) (name + 130) (n + 1) = Some (take n (release26 env) ++ [0]) ∧
  uread_range (umem s1) name 130 = Some (sysname (uts s) ++ nodename (uts s)) ∧
  uts s1 = uts s.
Proof.
  intros Hwf H26 H32 Hrun. cbn zeta. set (n := Z.to_nat _).
  unfold sys_newuname, copy_then in Hrun.
  destruct Hwf as ([Hsl _] & [Hnl _] & _).
  pose proof (copy_to_user_range (umem s) name (utsname_bytes (uts s))) as Hr1.
  destruct (copy_to_user (umem s) name (utsname_bytes (uts s))) as [r1 m1]. cbn [fst snd] in Hr1.
  unfold nz in Hrun. destruct (Z.eqb_spec r1 0) as [->|]; [|done]. cbn [negb] in Hrun.
  specialize (Hr1 eq_refl). unfold utsname_bytes in Hr1. rewrite app_assoc in Hr1.
  apply uread_range_prefix in Hr1. rewrite length_app, Hsl, Hnl in Hr1.
  destruct (override_release_run env (name + 130) 65 m1 ltac:(lia) H26) as [Hov Hfit].
  cbn zeta in Hov, Hfit. change (65 - 1) with 64 in *. fold n in Hov, Hfit. rewrite Hov in Hrun.
  assert (Hlen : length (take n (release26 env) ++ [0]) = (n + 1)%nat).
  { rewrite length_app, length_take. cbn [length]. unfold n. lia. }
  pose proof (copy_to_user_range m1 (name + 130) (take n (release26 env) ++ [0])) as Hr2.
  pose proof (copy_to_user_range_frame m1 (name + 130) (take n (release26 env) ++ [0]) name 130) as Hf2.
  destruct (copy_to_user m1 (name + 130) _) as [r2 m2]. cbn [fst snd] in *.
  destruct (Z.eqb_spec r2 0) as [Hz|Hz]; cbn [negb] in Hrun; [subst r2|discriminate Hrun].
  unfold override_architecture in Hrun.
  apply Z.eqb_neq in H32. rewrite H32 in Hrun.
  cbn [Z.eqb negb] in Hrun. injection Hrun as <-. cbn [umem set_umem uts].
  change (65 + 65)%nat with 130%nat in Hr1.
  split; [rewrite <-Hlen; exact (Hr2 eq_refl)|]. split; [|reflexivity].
  rewrite Hf2; [exact Hr1 | left; lia].
Qed.
End properties.

(** ** Runs *)
Module UtsRuns.
Definition mem : Type := gmap Z Z.

Definition text (s : string) : list Z := bytes_of_string s.
Definition env0 : uts_env :=
  UtsEnv true 0 (text "6.5.0-usac+") 5 (text "i686" ++ [0; 0]).
Definition env26 : uts_env :=
  UtsEnv true UNAME26 (text "6.5.0-usac+") 5 (text "i686" ++ [0; 0]).

(** "host" with a NUL and a letter behind it, in user memory at 4096. *)
Definition m0 : mem :=
  (copy_to_user (zero_page 4096 600) 4096 (text "host" ++ [0; 120])).2.
Definition s0 : uts_state mem :=
  UtsState (init_uts (text "(none)") (text "6.5.0-usac+") (text "#1") (text "x86_64")) m0 [] [].

Example default_sysname : cstr (sysname (uts s0)) = text "Linux-sopesOS-202000173".
Proof. vm_compute. reflexivity. Qed.

Lemma uts_s0_wf : uts_wf (uts s0).
Proof. apply (bool_decide_unpack _). by vm_compute. Qed.

(** The name is installed as it is; reading it stops at its NUL. *)
Example sethostname_run :
  nodename (uts (sys_sethostname env0 4096 6 s0).2) = text "host" ++ [0; 120] ++ replicate 59 0.
Proof. vm_compute. reflexivity. Qed.
Example uname26_text : release26 env26 = text "2.6.65-usac+".
Proof. vm_compute. reflexivity. Qed.

Lemma hostname_roundtrip_witness :
  let s1 := (sys_sethostname env0 4096 6 s0).2 in
  let s2 := (sys_gethostname 4200 64 s1).2 in
  uread_range (umem s2) 4200 5 = Some (text "host" ++ [0]).
Proof.
  cbn zeta. set (s1 := (sys_sethostname env0 4096 6 s0).2).
  assert (Hset : sys_sethostname env0 4096 6 s0 = (0, s1))
    by (apply pair_of_fst; vm_compute; reflexivity).
  assert (Hrun : sys_gethostname 4200 64 s1 = (0, (sys_gethostname 4200 64 s1).2))
    by (apply pair_of_fst; vm_compute; reflexivity).
  destruct (hostname_roundtrip env0 4096 6 s0 0 s1 uts_s0_wf Hset) as (_ & _ & _ & Hok).
  destruct (Hok eq_refl) as (bs & _ & Hrd & _ & Hget).
  assert (Hbs : Some bs = Some (text "host" ++ [0; 120])).
  { rewrite <-Hrd. vm_compute. reflexivity. }
  injection Hbs as ->. exact (Hget 4200 64 _ Hrun).
Defined.

Lemma newuname_release26_witness :
  uread_range (umem (sys_newuname env26 4100 s0).2) 4230 13 = Some (text "2.6.65-usac+" ++ [0]).
Proof.
  assert (Hrun : sys_newuname env26 4100 s0 = (0, (sys_newuname env26 4100 s0).2))
    by (apply pair_of_fst; vm_compute; reflexivity).
  refine (proj1 (newuname_release26 env26 4100 s0 (sys_newuname env26 4100 s0).2 uts_s0_wf _ _ Hrun));
    by vm_compute.
Defined.
End UtsRuns.
