(* ===== verification/BootParams.v ===== *)
(** * BootParams: the options of the kernel command line

    The part of [init/main.c] that turns boot options into the arguments and
    the environment of init, and into a few settings: [obsolete_checksetup],
    [repair_env_string], [set_init_arg], [unknown_bootoption], [init_setup],
    [rdinit_setup], the early options and [do_early_param].  The splitting of
    the line into options ([parse_args], [next_arg]), the comparison of
    parameter names and the set-up functions of other files are code outside
    of this repository: options arrive as buffers, the comparison and the table
    of set-up functions are parameters.

    The tables [argv_init] and [envp_init] are arrays of pointers of
    [MAX + 2] entries; a read or write outside of them is an oops. *)

From S2P Require Import Prelude CString.

Definition EQUALS : Z := 61.
Abbreviation text := (list Z) (only parsing).
Abbreviation table := (list (option (list Z))) (only parsing).

Inductive panic_kind := PanicInit | PanicEnv.
#[export] Instance panic_kind_eq_dec : EqDecision panic_kind.
Proof. solve_decision. Defined.

Record boot := Boot {
  argv_init : table;
  envp_init : table;
  panic_later : option (panic_kind * text);
  execute_command : option text;
  ramdisk_execute_command : option text;
  reset_devices : Z;
  console_loglevel : Z;
  rodata_enabled : bool;
}.

Definition set_argv (t : table) (b : boot) : boot :=
  Boot t (envp_init b) (panic_later b) (execute_command b) (ramdisk_execute_command b)
    (reset_devices b) (console_loglevel b) (rodata_enabled b).
Definition set_envp (t : table) (b : boot) : boot :=
  Boot (argv_init b) t (panic_later b) (execute_command b) (ramdisk_execute_command b)
    (reset_devices b) (console_loglevel b) (rodata_enabled b).
Definition set_panic (k : panic_kind) (param : text) (b : boot) : boot :=
  Boot (argv_init b) (envp_init b) (Some (k, param)) (execute_command b)
    (ramdisk_execute_command b) (reset_devices b) (console_loglevel b) (rodata_enabled b).
Definition set_execute (c : option text) (b : boot) : boot :=
  Boot (argv_init b) (envp_init b) (panic_later b) c (ramdisk_execute_command b)
    (reset_devices b) (console_loglevel b) (rodata_enabled b).
Definition set_ramdisk (c : option text) (b : boot) : boot :=
  Boot (argv_init b) (envp_init b) (panic_later b) (execute_command b) c
    (reset_devices b) (console_loglevel b) (rodata_enabled b).
Definition set_reset (z : Z) (b : boot) : boot :=
  Boot (argv_init b) (envp_init b) (panic_later b) (execute_command b)
    (ramdisk_execute_command b) z (console_loglevel b) (rodata_enabled b).
Definition set_loglevel (z : Z) (b : boot) : boot :=
  Boot (argv_init b) (envp_init b) (panic_later b) (execute_command b)
    (ramdisk_execute_command b) (reset_devices b) z (rodata_enabled b).
Definition set_rodata (r : bool) (b : boot) : boot :=
  Boot (argv_init b) (envp_init b) (panic_later b) (execute_command b)
    (ramdisk_execute_command b) (reset_devices b) (console_loglevel b) r.

(** An entry of the table of set-up functions ([struct obs_kernel_param]):
    the function gets the rest of the line, [None] for a null pointer. *)
Record obs_kernel_param := ObsParam {
  param_str : text;
  early : bool;
  setup_func : option (option text → boot → Z * boot);
}.

(** The buffer of an option: the bytes from the start of the parameter, and
    the offset of the value when there is one. *)
Record bootopt := BootOpt { opt_buf : list Z; opt_val : option nat }.

Section options.
(** [CONFIG_INIT_ENV_ARG_LIMIT]; [parameqn] and [parameq] of
    [kernel/params.c]; the table between [__setup_start] and [__setup_end]. *)
Context (MAX : nat).
Context (parameqn : text → text → nat → bool) (parameq : text → text → bool).
Context (setup_table : list obs_kernel_param).

(** ** The tables *)

Definition boot_init (loglevel : Z) : boot :=
  Boot (Some (bytes_of_string "init") :: replicate (MAX + 1) None)
    (Some (bytes_of_string "HOME=/") :: Some (bytes_of_string "TERM=linux") :: replicate MAX None)
    None None (Some (bytes_of_string "/init")) 0 loglevel true.

(** The loop over [argv_init]: the first free index, and whether index [MAX]
    was passed; no result when the loop leaves the table. *)
Fixpoint arg_slot (i : nat) (t : table) (full : bool) : option (nat * bool) :=
  match t with
  | [] => None
  | None :: _ => Some (i, full)
  | Some _ :: t => arg_slot (S i) t (full || (i =? MAX)%nat)
  end.

(** The loop of [set_init_arg] gives up at an entry at index [MAX]: [Some None]. *)
Fixpoint init_slot (i : nat) (t : table) : option (option nat) :=
  match t with
  | [] => None
  | None :: _ => Some (Some i)
  | Some _ :: t => if (i =? MAX)%nat then Some None else init_slot (S i) t
  end.

(** The loop over [envp_init] stops also at an entry that begins with the
    first [n] characters of the parameter. *)
Fixpoint env_slot (param : text) (n : nat) (i : nat) (t : table) (full : bool)
    : option (nat * bool) :=
  match t with
  | [] => None
  | None :: _ => Some (i, full)
  | Some e :: t =>
      let full := full || (i =? MAX)%nat in
      if strncmp_eq param e n then Some (i, full) else env_slot param n (S i) t full
  end.

(** [argv_init[i] = param] *)
Definition put_entry (i : nat) (param : text) (t : table) : option table :=
  if decide (i < length t)%nat then Some (<[i := Some param]> t) else None.

(** ** Options *)

(** Change the NUL between the parameter and its value back to "=": the
    value follows the NUL, or a quotation mark after it, which goes. *)
Definition repair_env_string (o : bootopt) : option (list Z) :=
  let param := opt_buf o in
  match opt_val o with
  | None => Some param
  | Some v =>
      let n := length (cstr param) in
      if (v =? n + 1)%nat then Some (<[(v - 1)%nat := EQUALS]> param)
      else if (v =? n + 2)%nat then
        let param := <[(v - 2)%nat := EQUALS]> param in
        let val := cstr (drop v param) in
        Some (take (v - 1) param ++ val ++ [0] ++ drop (v + length val) param)
      else None
  end.

(** [line[n] == NUL || line[n] == '='] *)
Definition exact_match (line : text) (n : nat) : bool :=
  match line !! n with None => true | Some c => c =? EQUALS end.

(** The loop is a do-while: it looks at an entry of the table before it compares
    with the end.  The table has entries, those of this file at least. *)
Fixpoint checksetup_loop (tbl : list obs_kernel_param) (line : text) (had_early_param : bool)
    : kst boot bool :=
  match tbl with
  | [] => mret had_early_param
  | p :: tbl =>
      let n := length (param_str p) in
      if parameqn line (param_str p) n then
        if early p then checksetup_loop tbl line (had_early_param || exact_match line n)
        else match setup_func p with
        | None => mret true
        | Some f =>
            b ← kget;
            let '(r, b) := f (Some (drop n line)) b in
            _ ← kmodify (λ _, b);
            if nz r then mret true else checksetup_loop tbl line had_early_param
        end
      else checksetup_loop tbl line had_early_param
  end.
Definition obsolete_checksetup (line : text) : kst boot bool :=
  checksetup_loop setup_table line false.

(** Stores into the tables. *)
Definition argv_put (i : nat) (param : text) : kst boot unit :=
  b ← kget;
  t ← kderef (put_entry i param (argv_init b));
  kmodify (set_argv t).
Definition envp_put (i : nat) (param : text) : kst boot unit :=
  b ← kget;
  t ← kderef (put_entry i param (envp_init b));
  kmodify (set_envp t).

(** Anything after -- gets handed straight to init. *)
Definition set_init_arg (o : bootopt) : kst boot Z :=
  b ← kget;
  match panic_later b with
  | Some _ => mret 0
  | None =>
      buf ← kderef (repair_env_string o);
      let param := cstr buf in
      r ← kderef (init_slot 0 (argv_init b));
      match r with
      | None => _ ← kmodify (set_panic PanicInit param); mret 0
      | Some i => _ ← argv_put i param; mret 0
      end
  end.

(** The environment option and the command line option of
    unknown_bootoption: an overflow is noted, and the store made all the
    same. *)
Definition put_env_option (param : text) (n : nat) : kst boot Z :=
  b ← kget;
  r ← kderef (env_slot param n 0 (envp_init b) false);
  let '(i, full) := r in
  _ ← (if (full : bool) then kmodify (set_panic PanicEnv param) else mret tt);
  _ ← envp_put i param; mret 0.
Definition put_arg_option (param : text) : kst boot Z :=
  b ← kget;
  r ← kderef (arg_slot 0 (argv_init b) false);
  let '(i, full) := r in
  _ ← (if (full : bool) then kmodify (set_panic PanicInit param) else mret tt);
  _ ← argv_put i param; mret 0.

Definition unknown_bootoption (o : bootopt) : kst boot Z :=
  let len := length (cstr (opt_buf o)) in
  buf ← kderef (repair_env_string o);
  let param := cstr buf in
  done ← obsolete_checksetup param;
  if (done : bool) then mret 0
  else if existsb (Z.eqb DOT) (take len param) then mret 0
  else
    b ← kget;
    match panic_later b with
    | Some _ => mret 0
    | None =>
        if (if opt_val o is Some _ then true else false)
        then put_env_option param (len + 1)
        else put_arg_option param
    end.

(** ** Set-up functions of this file *)

(** [for (i = 1; i < MAX_INIT_ARGS; i++) argv_init[i] = NULL] *)
Definition clear_args (t : table) : table :=
  imap (λ i e, if (1 <=? i)%nat && (i <? MAX)%nat then None else e) t.

Definition init_setup (str : option text) (b : boot) : Z * boot :=
  (1, set_argv (clear_args (argv_init b)) (set_execute str b)).
Definition rdinit_setup (str : option text) (b : boot) : Z * boot :=
  (1, set_argv (clear_args (argv_init b)) (set_ramdisk str b)).
Definition set_reset_devices (str : option text) (b : boot) : Z * boot := (1, set_reset 1 b).

(** [CONSOLE_LOGLEVEL_DEBUG] and [CONSOLE_LOGLEVEL_QUIET]. *)
Definition debug_kernel (str : option text) (b : boot) : Z * boot := (0, set_loglevel 10 b).
Definition quiet_kernel (str : option text) (b : boot) : Z * boot := (0, set_loglevel 4 b).

(** [get_option] of [lib/cmdline.c]: the number at the front of a text. *)
Definition loglevel (get_option : option text → option Z) (str : option text) (b : boot) : Z * boot :=
  match get_option str with
  | Some newlevel => (0, set_loglevel newlevel b)
  | None => (- EINVAL, b)
  end.

Definition set_debug_rodata (arch : option text → bool) (str : option text) (b : boot) : Z * boot :=
  if arch str then (0, b)
  else if bool_decide (str = Some (bytes_of_string "on")) then (0, set_rodata true b)
  else if bool_decide (str = Some (bytes_of_string "off")) then (0, set_rodata false b)
  else (0, b).

(** [early_randomize_kstack_offset]: [kstrtobool] gives an error or a truth
    value; the static key is the state. *)
Definition early_randomize_kstack_offset (kstrtobool : option text → Z + bool) (buf : option text)
    (key : bool) : Z * bool :=
  match kstrtobool buf with
  | inl ret => (ret, key)
  | inr bool_result => (0, bool_result)
  end.

(** Early options: every matching function is called (a null function is an
    oops); its result only leads to a warning, counted here. *)
Fixpoint early_param_loop (tbl : list obs_kernel_param) (param : text) (val : option text)
    (malformed : nat) : kst boot nat :=
  match tbl with
  | [] => mret malformed
  | p :: tbl =>
      if (early p && parameq param (param_str p)) ||
         (bool_decide (param = bytes_of_string "console") &&
          bool_decide (param_str p = bytes_of_string "earlycon"))
      then
        f ← kderef (setup_func p);
        b ← kget;
        let '(r, b) := f val b in
        _ ← kmodify (λ _, b);
        early_param_loop tbl param val (if nz r then S malformed else malformed)
      else early_param_loop tbl param val malformed
  end.
Definition do_early_param (param : text) (val : option text) : kst boot Z :=
  _ ← early_param_loop setup_table param val 0; mret 0.

(** ** The message about options that were not recognised *)

(** The entries from index [i] to the first null pointer. *)
Fixpoint entries (t : table) : option (list text) :=
  match t with
  | [] => None
  | None :: _ => Some []
  | Some e :: t => l ← entries t; Some (e :: l)
  end.

(** [sprintf(end, " %s", p)] for each entry, into a buffer of [size] bytes. *)
Fixpoint print_entries (buf : list Z) (off : nat) (l : list text) : option (list Z * nat) :=
  match l with
  | [] => Some (buf, off)
  | e :: l =>
      buf ← strcpy buf off (32 :: e);
      print_entries buf (off + S (length e)) l
  end.

(** The text printed, [None] inside when there is nothing to say. *)
Definition print_unknown_bootoptions (b : boot) : option (option text) :=
  if (if panic_later b is Some _ then true else false) ||
     (bool_decide (argv_init b !! 1%nat = Some None) && bool_decide (envp_init b !! 2%nat = Some None))
  then Some None
  else
    args ← entries (drop 1 (argv_init b));
    envs ← entries (drop 2 (envp_init b));
    let len := foldl (λ n e, n + 1 + length e)%nat 1%nat (args ++ envs) in
    '(buf, _) ← print_entries (replicate len 0) 0 (args ++ envs);
    Some (Some (cstr (drop 1 buf))).

(** ** A boot: options of the line, then the arguments behind "--" *)

Fixpoint for_options (f : bootopt → kst boot Z) (l : list bootopt) : kst boot unit :=
  match l with
  | [] => mret tt
  | o :: l => _ ← f o; for_options f l
  end.
Definition process_options (opts init_args : list bootopt) : kst boot unit :=
  _ ← for_options unknown_bootoption opts;
  for_options set_init_arg init_args.
End options.

(** ** Options as the parser leaves them *)

(** [next_arg] ends a name at its first "=", but for one at its very start: an
    option [=x] is a name without a value, and [=x=y] is [y] given to [=x].  An
    option with a value has a name. *)
Definition option_name_ok (name : text) : Prop := name ≠ [] ∧ EQUALS ∉ drop 1 name.

Inductive option_shape : bootopt → text → option text → Prop :=
  | shape_bare name k :
      text_ok name →
      option_shape (BootOpt (name ++ 0 :: k) None) name None
  | shape_value name val k :
      text_ok name → option_name_ok name → text_ok val →
      option_shape (BootOpt (name ++ 0 :: val ++ 0 :: k) (Some (length name + 1)%nat)) name (Some val)
  | shape_quoted name quote val k :
      text_ok name → option_name_ok name → text_ok val →
      option_shape (BootOpt (name ++ 0 :: quote :: val ++ 0 :: k) (Some (length name + 2)%nat))
        name (Some val).

(** The whole of an option: [name] or [name=value]. *)
Definition option_text (name : text) (val : option text) : text :=
  match val with None => name | Some v => name ++ EQUALS :: v end.

(** ** Lemmas *)

Lemma shape_name o name val :
  option_shape o name val → cstr (opt_buf o) = name ∧ text_ok name ∧ (is_Some val → option_name_ok name).
Proof.
  intros []; cbn [opt_buf]; (split; [by apply cstr_text | split; [done|]]); [by intros [??] | done..].
Qed.

(** The text of an option is restored, quoted or not. *)
Lemma repair_env_string_spec o name val :
  option_shape o name val →
  ∃ buf, repair_env_string o = Some buf ∧ cstr buf = option_text name val.
Proof.
  intros Ho. pose proof (shape_name _ _ _ Ho) as (Hn & _). unfold repair_env_string.
  rewrite Hn. destruct Ho as [name k Hok | name val k Hok Heq Hv | name q val k Hok Heq Hv];
    cbn [opt_buf opt_val option_text] in *.
  - eexists. split; [reflexivity | done].
  - rewrite Nat.eqb_refl. eexists. split; [reflexivity|].
    replace (length name + 1 - 1)%nat with (length name + 0)%nat by lia.
    rewrite insert_app_r. simpl. rewrite cstr_app by done. simpl. by rewrite cstr_text.
  - destruct (Nat.eqb_spec (length name + 2) (length name + 1)); [lia|].
    rewrite Nat.eqb_refl. eexists. split; [reflexivity|].
    replace (length name + 2 - 2)%nat with (length name + 0)%nat by lia.
    replace (length name + 2 - 1)%nat with (length name + 1)%nat by lia.
    rewrite insert_app_r. simpl (<[0%nat:=_]> _).
    rewrite take_app_add, drop_app_add. simpl (drop 2 _).
    rewrite drop_0, (cstr_text val) by done. simpl (take 1 _).
    rewrite <-app_assoc, cstr_app by done. simpl. by rewrite cstr_text.
Qed.


(** *** The environment as a map

    An entry "name=value" split at its first "=" that is not its first
    character. *)

Fixpoint split_at_eq (e : text) : text * text :=
  match e with
  | [] => ([], [])
  | c :: e => if c =? EQUALS then ([], e) else let '(n, v) := split_at_eq e in (c :: n, v)
  end.
Definition split_eq (e : text) : text * text :=
  match e with
  | [] => ([], [])
  | c :: e => let '(n, v) := split_at_eq e in (c :: n, v)
  end.
Definition entry (kv : text * text) : text := kv.1 ++ EQUALS :: kv.2.

(** What init sees: the variables of the table. *)
Definition env_of (b : boot) : gmap text text := list_to_map (split_eq <$> omap id (envp_init b)).

Lemma split_at_eq_entry n v : EQUALS ∉ n → split_at_eq (n ++ EQUALS :: v) = (n, v).
Proof.
  induction n as [|c n IH]; intros Hn; [done|].
  apply not_elem_of_cons in Hn as [Hc Hn]. cbn [app split_at_eq].
  destruct (Z.eqb_spec c EQUALS); [congruence|]. by rewrite IH.
Qed.
Lemma split_eq_entry kv : option_name_ok kv.1 → split_eq (entry kv) = kv.
Proof.
  destruct kv as [[|c n] v]; intros [Hne Hn]; [done|]. unfold entry. cbn [fst snd app split_eq].
  by rewrite split_at_eq_entry.
Qed.

(** The comparison of [unknown_bootoption] finds the entry of the same name. *)
Lemma tail_prefix_take (name n v : text) :
  EQUALS ∉ name → EQUALS ∉ n →
  take (length name + 1) (n ++ EQUALS :: v) = name ++ [EQUALS] ↔ n = name.
Proof.
  intros Hname. revert n. induction name as [|c name IH]; intros [|d n] Hn; cbn.
  - done.
  - split; [|done]. intros [= ->]. apply not_elem_of_cons in Hn as [[] _]. done.
  - split; [|done]. intros [= <- _]. apply not_elem_of_cons in Hname as [[] _]. done.
  - apply not_elem_of_cons in Hname as [Hc Hname]. apply not_elem_of_cons in Hn as [_ Hn].
    specialize (IH Hname n Hn). split.
    + intros [= -> Ht]. f_equal. by apply IH.
    + intros [= -> ->]. f_equal. by apply IH.
Qed.
Lemma name_prefix_take (name n v : text) :
  option_name_ok name → option_name_ok n →
  take (length name + 1) (n ++ EQUALS :: v) = name ++ [EQUALS] ↔ n = name.
Proof.
  destruct name as [|c name], n as [|d n]; intros [? Hname] [? Hn]; [done..|]. cbn.
  split; [|intros [= -> ->]; f_equal; by apply tail_prefix_take].
  intros [= -> Ht]. f_equal. by apply (tail_prefix_take name n v).
Qed.
Lemma same_name name val kv :
  option_name_ok name → option_name_ok kv.1 →
  strncmp_eq (option_text name (Some val)) (entry kv) (length name + 1) = bool_decide (kv.1 = name).
Proof.
  intros Hname Hkv. apply eq_bool_prop_intro. rewrite bool_decide_spec, Is_true_true.
  cbn [option_text]. rewrite strncmp_eq_prefix. unfold entry. rewrite <-app_assoc.
  by apply name_prefix_take.
Qed.

(** The table as a list of pairs: a variable is replaced in its place or
    added at the end. *)
Fixpoint upsert (name val : text) (kvs : list (text * text)) : list (text * text) :=
  match kvs with
  | [] => [(name, val)]
  | kv :: kvs => if decide (kv.1 = name) then (name, val) :: kvs else kv :: upsert name val kvs
  end.

Lemma upsert_map name val kvs :
  list_to_map (upsert name val kvs) =@{gmap text text} <[name := val]> (list_to_map kvs).
Proof.
  induction kvs as [|[n v] kvs IH]; [done|]. cbn.
  destruct (decide (n = name)) as [->|Hne]; cbn.
  - by rewrite insert_insert_eq.
  - by rewrite IH, insert_insert_ne.
Qed.
Lemma upsert_names name val kvs n : n ∈ (upsert name val kvs).*1 ↔ n = name ∨ n ∈ kvs.*1.
Proof.
  induction kvs as [|[m v] kvs IH]; cbn.
  - rewrite list_elem_of_singleton, elem_of_nil. tauto.
  - destruct (decide (m = name)) as [->|]; cbn; rewrite !elem_of_cons, ?IH; tauto.
Qed.
Lemma upsert_nodup name val kvs : NoDup kvs.*1 → NoDup (upsert name val kvs).*1.
Proof.
  induction kvs as [|[m v] kvs IH]; cbn; [intros _; apply NoDup_singleton|].
  intros [Hm Hnd]%NoDup_cons. destruct (decide (m = name)) as [->|Hne]; cbn; apply NoDup_cons.
  - done.
  - split; [|by apply IH]. rewrite upsert_names. intros [->|?]; done.
Qed.
Lemma upsert_length name val kvs :
  length (upsert name val kvs) = if decide (name ∈ kvs.*1) then length kvs else S (length kvs).
Proof.
  induction kvs as [|[m v] kvs IH]; cbn; [done|].
  destruct (decide (m = name)) as [->|Hne]; cbn.
  - rewrite decide_True; [done | by left].
  - rewrite IH. destruct (decide (name ∈ kvs.*1)) as [Hin|Hin].
    + rewrite decide_True; [done | by right].
    + rewrite decide_False; [done|]. rewrite elem_of_cons. by intros [->|?].
Qed.

Definition named (kvs : list (text * text)) : Prop := Forall (λ kv, option_name_ok kv.1) kvs.
Lemma upsert_named name val kvs : option_name_ok name → named kvs → named (upsert name val kvs).
Proof.
  intros Hn. induction 1 as [|[m v] kvs Hm Hk IH]; cbn; [by constructor|].
  destruct (decide (m = name)); constructor; done.
Qed.

(** The table of a list of variables. *)
Definition env_table (size : nat) (kvs : list (text * text)) : table :=
  ((λ kv, Some (entry kv)) <$> kvs) ++ replicate (size - length kvs) None.

Lemma env_table_length size kvs : (length kvs <= size)%nat → length (env_table size kvs) = size.
Proof. intros Hl. unfold env_table. rewrite length_app, length_fmap, length_replicate. lia. Qed.

Lemma env_of_table b size kvs :
  envp_init b = env_table size kvs → named kvs → env_of b = list_to_map kvs.
Proof.
  intros Hb Hn. unfold env_of. rewrite Hb. unfold env_table. f_equal.
  rewrite omap_app. assert (Hr : ∀ k, omap id (replicate k (None : option text)) = [])
    by (intros k; induction k; done). rewrite Hr, app_nil_r. clear Hb Hr.
  induction Hn as [|kv kvs Hkv Hk IH]; [done|]. cbn. rewrite split_eq_entry by done. by f_equal.
Qed.

Section slots.
Context (MAX : nat).

(** The search for a slot, and what storing there makes of the table. *)
Lemma env_slot_spec name val kvs i size full :
  option_name_ok name → named kvs → (length kvs < size)%nat →
  ∃ j full', env_slot MAX (option_text name (Some val)) (length name + 1) i (env_table size kvs) full
      = Some ((i + j)%nat, full') ∧
    (j <= length kvs)%nat ∧ (name ∉ kvs.*1 → j = length kvs) ∧
    (name ∈ kvs.*1 → (j < length kvs)%nat) ∧
    <[j := Some (option_text name (Some val))]> (env_table size kvs)
      = env_table size (upsert name val kvs) ∧
    (full' = true ↔ full = true ∨ (i <= MAX < i + j)%nat ∨ name ∈ kvs.*1 ∧ (i + j)%nat = MAX).
Proof.
  intros Hname Hn. revert i size full. induction Hn as [|kv kvs Hkv Hk IH]; intros i size full Hsize;
    (destruct size as [|size]; [cbn in Hsize; lia|]); cbn in Hsize.
  - exists 0%nat, full. cbn. rewrite Nat.add_0_r.
    split_and!; [done | lia | done | by intros ?%elem_of_nil | by rewrite Nat.sub_0_r |].
    rewrite elem_of_nil. split; [tauto|]. intros [?|[?|[? _]]]; [done | lia | done].
  - cbn [env_table fmap list_fmap app env_slot]. rewrite same_name by done.
    cbn [upsert]. destruct (decide (kv.1 = name)) as [Heq|Hne].
    + rewrite bool_decide_true by done. exists 0%nat, (full || (i =? MAX)%nat).
      rewrite Nat.add_0_r. split; [done|]. split; [lia|]. cbn. split.
      { intros Hni. destruct Hni. rewrite Heq. by left. }
      split; [lia|].
      split; [unfold env_table; cbn; done|].
      rewrite orb_true_iff, Nat.eqb_eq. split.
      * intros [?|?]; [by left | right; right; split; [rewrite Heq; by left | done]].
      * intros [?|[?|[_ ?]]]; [by left | lia | by right].
    + rewrite bool_decide_false by done.
      destruct (IH (S i) size (full || (i =? MAX)%nat)) as (j & full' & Hs & Hj & Hnew & Hold & Hins & Hf);
        [lia|].
      exists (S j), full'. unfold env_table in Hs, Hins |- *. cbn [length]. rewrite Nat.sub_succ.
      rewrite Hs. split; [f_equal; f_equal; lia|]. split; [lia|].
      cbn. split; [intros Hni; rewrite Hnew; [done|]; intros ?; apply Hni; by right|].
      split; [intros [?|Hin]%elem_of_cons; [congruence|]; specialize (Hold Hin); lia|].
      split; [by f_equal|]. rewrite Hf, orb_true_iff, Nat.eqb_eq, elem_of_cons.
      split; [intros [[?|?]|[?|[? ?]]] | intros [?|[?|[[?|?] ?]]]]; try tauto; try congruence.
      * right. left. lia.
      * right. left. lia.
      * right. right. split; [by right | lia].
      * destruct (decide (i = MAX)); [tauto | right; left; lia].
      * right. right. split; [done | lia].
Qed.

(** The first free index of the arguments. *)
Lemma arg_slot_spec i t full :
  None ∈ t →
  ∃ j full', arg_slot MAX i t full = Some ((i + j)%nat, full') ∧ t !! j = Some None ∧
    (full' = true ↔ full = true ∨ (i <= MAX < i + j)%nat) ∧
    (∀ k, (k < j)%nat → ∃ e, t !! k = Some (Some e)).
Proof.
  revert i full. induction t as [|[e|] t IH]; intros i full Hin; [by apply elem_of_nil in Hin| |].
  - apply elem_of_cons in Hin as [[=]|Hin]. cbn [arg_slot].
    destruct (IH (S i) (full || (i =? MAX)%nat) Hin) as (j & full' & Hs & Hj & Hf & Hk).
    exists (S j), full'. rewrite Hs. split; [f_equal; f_equal; lia|]. split; [done|]. split.
    + rewrite Hf, orb_true_iff, Nat.eqb_eq.
      split; [intros [[?|?]|?] | intros [?|?]]; try tauto; try (right; lia).
      destruct (decide (i = MAX)); [tauto | right; lia].
    + intros [|k] Hlt; [by exists e | apply Hk; lia].
  - exists 0%nat, full. cbn. rewrite Nat.add_0_r. split; [done|]. split; [done|]. split; [|lia].
    split; [by left | intros [?|?]; [done | lia]].
Qed.
End slots.

(** ** The invariant of the tables

    Both keep their size.  As long as no overflow was noted, the last entry of
    each is a null pointer and the environment lists variables of distinct
    names. *)
Section invariant.
Context (MAX : nat).
Context (parameqn : text → text → nat → bool) (setup_table : list obs_kernel_param).

Definition tables_wf (b : boot) : Prop :=
  length (argv_init b) = (MAX + 2)%nat ∧ length (envp_init b) = (MAX + 2)%nat ∧
  (∃ a, argv_init b !! 0%nat = Some (Some a)) ∧
  (panic_later b = None →
     argv_init b !! (MAX + 1)%nat = Some None ∧
     ∃ kvs, envp_init b = env_table (MAX + 2) kvs ∧ named kvs ∧ NoDup kvs.*1 ∧
       (length kvs <= MAX + 1)%nat).

(** Set-up functions of other files keep the tables well-formed. *)
Definition setup_safe : Prop :=
  Forall (λ p, ∀ f, setup_func p = Some f → ∀ s b, tables_wf b → tables_wf (f s b).2) setup_table.

Lemma boot_init_wf loglevel : (2 <= MAX)%nat → tables_wf (boot_init MAX loglevel).
Proof.
  intros HM. unfold boot_init. split; [cbn; rewrite length_replicate; lia|].
  split; [cbn; rewrite length_replicate; lia|]. split; [by eexists|]. intros _. cbn [argv_init envp_init]. split.
  - rewrite Nat.add_comm. cbn [Nat.add lookup list_lookup]. apply lookup_replicate. split; [done | lia].
  - exists [split_eq (bytes_of_string "HOME=/"); split_eq (bytes_of_string "TERM=linux")].
    split_and!; [|apply (bool_decide_unpack _); by vm_compute
                 |apply (bool_decide_unpack _); by vm_compute | cbn; lia].
    unfold env_table. cbn [length]. replace (MAX + 2 - 2)%nat with MAX by lia. done.
Qed.

Lemma clear_args_wf t :
  length t = (MAX + 2)%nat → (∃ a, t !! 0%nat = Some (Some a)) →
  length (clear_args MAX t) = (MAX + 2)%nat ∧ (∃ a, clear_args MAX t !! 0%nat = Some (Some a)) ∧
  ∀ i, (MAX <= i)%nat → clear_args MAX t !! i = t !! i.
Proof.
  intros Hl [a Ha]. unfold clear_args. rewrite length_imap. split; [done|]. split.
  - exists a. by rewrite list_lookup_imap, Ha.
  - intros i Hi. rewrite list_lookup_imap. destruct (Nat.ltb_spec i MAX); [lia|].
    rewrite andb_false_r. by destruct (t !! i).
Qed.

Lemma wf_set_argv b t :
  tables_wf b → length t = (MAX + 2)%nat → (∃ a, t !! 0%nat = Some (Some a)) →
  (panic_later b = None → t !! (MAX + 1)%nat = Some None) → tables_wf (set_argv t b).
Proof.
  intros (Hl & He & Ha & Hp) Htl Ht0 Htp. split; [done|]. split; [done|]. split; [done|].
  intros Hnone. split; [by apply Htp | by apply Hp].
Qed.

Lemma init_setup_wf s b : tables_wf b → tables_wf (init_setup MAX s b).2.
Proof.
  intros Hwf. pose proof Hwf as (Hl & _ & Ha & Hp).
  destruct (clear_args_wf _ Hl Ha) as (Hcl & Hc0 & Hck). apply (wf_set_argv (set_execute s b)); try done.
  intros Hnone. cbn. rewrite Hck by lia. by apply Hp.
Qed.
Lemma rdinit_setup_wf s b : tables_wf b → tables_wf (rdinit_setup MAX s b).2.
Proof.
  intros Hwf. pose proof Hwf as (Hl & _ & Ha & Hp).
  destruct (clear_args_wf _ Hl Ha) as (Hcl & Hc0 & Hck). apply (wf_set_argv (set_ramdisk s b)); try done.
  intros Hnone. cbn. rewrite Hck by lia. by apply Hp.
Qed.

Lemma checksetup_loop_ok tbl line had b :
  Forall (λ p, ∀ f, setup_func p = Some f → ∀ s b, tables_wf b → tables_wf (f s b).2) tbl →
  tables_wf b →
  ∃ r b', checksetup_loop parameqn tbl line had b = Some (r, b') ∧ tables_wf b'.
Proof.
  intros Htbl. revert had b. induction Htbl as [|p tbl Hp Htbl IH]; intros had b Hwf; cbn [checksetup_loop].
  { by eexists _, _. }
  destruct (parameqn _ _ _); [|by apply IH]. destruct (early p); [by apply IH|].
  destruct (setup_func p) as [f|]; [|by eexists _, _]. rewrite kbind_get.
  specialize (Hp f eq_refl (Some (drop (length (param_str p)) line)) b Hwf).
  destruct (f _ b) as [r b1]. cbn in Hp. rewrite kbind_modify.
  destruct (nz r); [by eexists _, _ | by apply IH].
Qed.

(** A store at a free slot below the last entry, or at the last one with the
    overflow noted. *)
Lemma argv_put_ok b i param :
  tables_wf b → (i < MAX + 2)%nat → (0 < i)%nat →
  (panic_later b = None → (i <= MAX)%nat) →
  ∃ b', argv_put i param b = Some (tt, b') ∧ tables_wf b' ∧ panic_later b' = panic_later b ∧
    envp_init b' = envp_init b.
Proof.
  intros Hwf Hi H0 Hm. pose proof Hwf as (Hl & _ & Ha & Hp). unfold argv_put, put_entry.
  rewrite kbind_get, decide_True by lia. cbn [kderef].
  rewrite kbind_ret. eexists. split; [reflexivity|]. split; [|done].
  apply wf_set_argv; [done | by rewrite length_insert | | ].
  - destruct Ha as [a Ha]. exists a. rewrite list_lookup_insert_ne; [done | lia].
  - intros Hnone. rewrite list_lookup_insert_ne; [by apply Hp | specialize (Hm Hnone); lia].
Qed.

Lemma arg_slot_ok b :
  tables_wf b → panic_later b = None →
  ∃ j full, arg_slot MAX 0 (argv_init b) false = Some (j, full) ∧ (0 < j < MAX + 2)%nat ∧
    (full = false → (j <= MAX)%nat).
Proof.
  intros (Hl & _ & [a Ha] & Hp) Hnone. destruct (Hp Hnone) as [Hlast _].
  destruct (arg_slot_spec MAX 0 (argv_init b) false) as (j & full & Hs & Hj & Hf & _);
    [by eapply list_elem_of_lookup_2|].
  exists j, full. split; [done|]. apply lookup_lt_Some in Hj as Hlt.
  split; [destruct j; [congruence | lia]|].
  intros ->. destruct (decide (j <= MAX)%nat); [done|].
  exfalso. assert (false = true) by (apply Hf; right; lia). done.
Qed.

(** The two loops over [argv_init] agree on where there is room. *)
Lemma arg_slot_full i t full j : arg_slot MAX i t full = Some (j, false) → full = false.
Proof.
  revert i full. induction t as [|[e|] t IH]; intros i full; cbn [arg_slot]; [done| |by intros [= _ ->]].
  by intros [? _]%IH%orb_false_iff.
Qed.
Lemma init_slot_arg_slot i t j full :
  (i <= MAX)%nat → arg_slot MAX i t false = Some (j, full) →
  init_slot MAX i t = Some (if full then None else Some j).
Proof.
  revert i. induction t as [|[e|] t IH]; intros i Hi; cbn [arg_slot init_slot orb]; [done| |by intros [= <- <-]].
  destruct (Nat.eqb_spec i MAX) as [->|]; [|intros Ht; apply IH; [lia | done]].
  destruct full; [done|]. by intros Ht%arg_slot_full.
Qed.

Lemma set_panic_wf k param b : tables_wf b → tables_wf (set_panic k param b).
Proof. intros (? & ? & ? & _). split_and!; done. Qed.

Lemma set_init_arg_ok o name val b :
  tables_wf b → option_shape o name val →
  ∃ b', set_init_arg MAX o b = Some (0, b') ∧ tables_wf b' ∧ envp_init b' = envp_init b.
Proof.
  intros Hwf Ho. unfold set_init_arg. rewrite kbind_get.
  destruct (panic_later b) eqn:Hnone; [by eexists|].
  destruct (repair_env_string_spec o name val Ho) as (buf & Hb & Hc). rewrite Hb. cbn [kderef].
  rewrite kbind_ret. destruct (arg_slot_ok b Hwf Hnone) as (j & full & Hs & Hj & Hf).
  rewrite (init_slot_arg_slot 0 (argv_init b) j full (Nat.le_0_l _) Hs). cbn [kderef].
  rewrite kbind_ret. destruct full; cbn [bool_decide].
  - rewrite kbind_modify. eexists. split; [reflexivity|]. split; [by apply set_panic_wf | done].
  - destruct (argv_put_ok b j (cstr buf) Hwf) as (b' & Hput & Hwf' & _ & He);
      [lia | lia | intros _; by apply Hf|].
    rewrite (kbind_some _ _ _ _ _ Hput). exists b'. done.
Qed.

(** The variable of an option goes into the environment. *)
Lemma put_env_option_ok name val b :
  tables_wf b → panic_later b = None → option_name_ok name →
  ∃ b', put_env_option MAX (option_text name (Some val)) (length name + 1) b = Some (0, b') ∧
    tables_wf b' ∧ argv_init b' = argv_init b ∧
    env_of b' = <[name := val]> (env_of b) ∧
    (name ∉ dom (env_of b) → panic_later b' = None ↔ (size (env_of b) <= MAX)%nat) ∧
    (name ∈ dom (env_of b) → (size (env_of b) <= MAX)%nat → panic_later b' = None).
Proof.
  intros (Hl & He & Ha & Hp) Hnone Hname. destruct (Hp Hnone) as (Hlast & kvs & Hk & Hn & Hnd & Hlen).
  destruct (env_slot_spec MAX name val kvs 0 (MAX + 2) false Hname Hn ltac:(lia))
    as (j & full & Hs & Hj & Hnew & Hold & Hins & Hf).
  assert (Henv : env_of b = list_to_map kvs) by (eapply env_of_table; eauto).
  assert (Hdom : ∀ n, n ∈ dom (env_of b) ↔ n ∈ kvs.*1).
  { intros n. rewrite Henv, dom_list_to_map. by rewrite elem_of_list_to_set. }
  assert (Hsz : size (env_of b) = length kvs) by (rewrite Henv; by apply map_size_list_to_map).
  assert (Hput : put_entry j (option_text name (Some val)) (envp_init b)
                 = Some (env_table (MAX + 2) (upsert name val kvs))).
  { unfold put_entry. rewrite decide_True by lia. by rewrite Hk, Hins. }
  pose proof (upsert_length name val kvs) as Hul.
  unfold put_env_option. rewrite kbind_get, Hk, Hs. cbn [kderef Nat.add]. rewrite kbind_ret.
  set (t := env_table (MAX + 2) (upsert name val kvs)) in *.
  set (b1 := if full then set_panic PanicEnv (option_text name (Some val)) b else b).
  assert (Hb1 : envp_init b1 = envp_init b ∧ argv_init b1 = argv_init b) by (unfold b1; by destruct full).
  exists (set_envp t b1). split; [|split; [|split; [|split]]].
  - assert (Hm : (if full then kmodify (set_panic PanicEnv (option_text name (Some val))) else mret tt) b
                 = Some (tt, b1)) by (unfold b1; by destruct full).
    rewrite (kbind_some _ _ _ _ _ Hm). unfold envp_put. rewrite kbind_assoc, kbind_get.
    by rewrite (proj1 Hb1), Hput.
  - split; [cbn; by rewrite (proj2 Hb1)|]. split.
    { cbn. unfold t. rewrite env_table_length; [done|]. rewrite Hul. destruct (decide _); lia. }
    split; [cbn; by rewrite (proj2 Hb1)|]. unfold b1. destruct full; [done|]. intros _. cbn.
    split; [done|]. exists (upsert name val kvs).
    split_and!; [done | by apply upsert_named | by apply upsert_nodup|].
    rewrite Hul. destruct (decide (name ∈ kvs.*1)); [done|]. rewrite <-(Hnew n).
    destruct (decide (j <= MAX)%nat); [lia|]. exfalso.
    assert (false = true) by (apply Hf; right; left; lia). done.
  - cbn. apply Hb1.
  - rewrite Henv, <-upsert_map. apply (env_of_table _ (MAX + 2)); [done | by apply upsert_named].
  - rewrite Hsz, Hdom. unfold b1. split.
    + intros Hni. specialize (Hnew Hni). destruct full; cbn.
      * split; [done|]. intros Hle. destruct (proj1 Hf eq_refl) as [?|[?|[? _]]]; [done | lia | done].
      * split; [|done]. intros _. destruct (decide (j <= MAX)%nat); [lia|].
        exfalso. assert (false = true) by (apply Hf; right; left; lia). done.
    + intros Hin Hle. destruct full; cbn; [|done].
      destruct (proj1 Hf eq_refl) as [?|[?|[_ Hj']]]; [done | lia|].
      specialize (Hold Hin). lia.
Qed.

Lemma put_arg_option_ok param b :
  tables_wf b → panic_later b = None →
  ∃ b', put_arg_option MAX param b = Some (0, b') ∧ tables_wf b' ∧ envp_init b' = envp_init b.
Proof.
  intros Hwf Hnone. unfold put_arg_option. rewrite kbind_get.
  destruct (arg_slot_ok b Hwf Hnone) as (j & full & Hs & Hj & Hf).
  rewrite Hs. cbn [kderef]. rewrite kbind_ret. destruct full.
  - rewrite kbind_modify.
    destruct (argv_put_ok (set_panic PanicInit param b) j param) as (b' & Hput & Hwf' & _ & He);
      [by apply set_panic_wf | lia | lia | done|].
    rewrite (kbind_some _ _ _ _ _ Hput). by exists b'.
  - rewrite kbind_ret.
    destruct (argv_put_ok b j param Hwf) as (b' & Hput & Hwf' & _ & He); [lia | lia | auto|].
    rewrite (kbind_some _ _ _ _ _ Hput). by exists b'.
Qed.

Lemma unknown_bootoption_ok o name val b :
  setup_safe → tables_wf b → option_shape o name val →
  ∃ b', unknown_bootoption MAX parameqn setup_table o b = Some (0, b') ∧ tables_wf b'.
Proof.
  intros Hsafe Hwf Ho. pose proof (shape_name _ _ _ Ho) as (Hn & Htn & Heq).
  destruct (repair_env_string_spec o name val Ho) as (buf & Hb & Hc).
  unfold unknown_bootoption. rewrite Hb. cbn [kderef]. rewrite kbind_ret, Hn, Hc.
  destruct (checksetup_loop_ok setup_table (option_text name val) false b Hsafe Hwf)
    as (r & b1 & Hrun & Hwf1).
  unfold obsolete_checksetup. rewrite (kbind_some _ _ _ _ _ Hrun).
  destruct r; [by eexists|]. destruct (existsb _ _); [by eexists|]. rewrite kbind_get.
  destruct (panic_later b1) eqn:Hnone; [by eexists|].
  destruct Ho as [name k | name val k | name q val k]; cbn [opt_val].
  - destruct (put_arg_option_ok (option_text name None) b1 Hwf1 Hnone) as (b' & Hput & Hwf' & _). eauto.
  - destruct (put_env_option_ok name val b1 Hwf1 Hnone (Heq ltac:(by eexists))) as (b' & Hput & Hwf' & _). eauto.
  - destruct (put_env_option_ok name val b1 Hwf1 Hnone (Heq ltac:(by eexists))) as (b' & Hput & Hwf' & _). eauto.
Qed.

Definition shaped (o : bootopt) : Prop := ∃ name val, option_shape o name val.

Lemma for_options_ok f opts b :
  (∀ o b, tables_wf b → shaped o → ∃ b', f o b = Some (0, b') ∧ tables_wf b') →
  tables_wf b → Forall shaped opts → ∃ b', for_options f opts b = Some (tt, b') ∧ tables_wf b'.
Proof.
  intros Hf Hwf Hall. revert b Hwf. induction Hall as [|o opts Ho Hopts IH]; intros b Hwf; cbn [for_options].
  - by exists b.
  - destruct (Hf o b Hwf Ho) as (b1 & Hrun & Hwf1). rewrite (kbind_some _ _ _ _ _ Hrun). by apply IH.
Qed.

Lemma for_options_app f l1 l2 b :
  for_options f (l1 ++ l2) b = (_ ← for_options f l1; for_options f l2) b.
Proof.
  revert b. induction l1 as [|o l1 IH]; intros b; [done|]. cbn [app for_options].
  rewrite kbind_assoc. apply kbind_ext. intros _ b'. apply IH.
Qed.

(** The entries of a table up to a null pointer it has. *)
Lemma entries_some t : None ∈ t → ∃ l, entries t = Some l ∧ (length l < length t)%nat.
Proof.
  induction t as [|[e|] t IH]; intros Hin; [by apply elem_of_nil in Hin| |].
  - apply elem_of_cons in Hin as [[=]|Hin]. destruct (IH Hin) as (l & Hl & Hlen).
    exists (e :: l). cbn. rewrite Hl. split; [done | cbn; lia].
  - exists []. split; [done | cbn; lia].
Qed.

(** C12. Whatever options the command line holds, the tables for init are
    never read or written outside of their bounds, by any of the handlers: the
    processing returns, both tables keep their size, and unless an overflow
    was noted (and the boot will panic) both end in a null pointer, so that
    the argument and environment vectors given to init are terminated, with
    at most [MAX] further arguments and variables of distinct names. *)
Theorem boot_tables_invariant b opts init_args :
  setup_safe → tables_wf b → Forall shaped opts → Forall shaped init_args →
  ∃ b', process_options MAX parameqn setup_table opts init_args b = Some (tt, b') ∧ tables_wf b' ∧
    (panic_later b' = None →
     ∃ args kvs, entries (argv_init b') = Some args ∧ (0 < length args <= MAX + 1)%nat ∧
       entries (envp_init b') = Some (entry <$> kvs) ∧ NoDup kvs.*1 ∧
       (length kvs <= MAX + 1)%nat ∧ env_of b' = list_to_map kvs).
Proof.
  intros Hsafe Hwf Ho Hi. unfold process_options.
  destruct (for_options_ok (unknown_bootoption MAX parameqn setup_table) opts b) as (b1 & Hr1 & Hwf1);
    [|done|done|].
  { intros o b0 Hwf0 (name & val & Hs). by eapply unknown_bootoption_ok. }
  destruct (for_options_ok (set_init_arg MAX) init_args b1) as (b2 & Hr2 & Hwf2); [|done|done|].
  { intros o b0 Hwf0 (name & val & Hs).
    destruct (set_init_arg_ok o name val b0 Hwf0 Hs) as (b' & Hr & Hwf' & _). by exists b'. }
  exists b2. rewrite (kbind_some _ _ _ _ _ Hr1). split; [done|]. split; [done|]. intros Hnone.
  destruct Hwf2 as (Hl & He & [a Ha] & Hp). destruct (Hp Hnone) as (Hlast & kvs & Hk & Hn & Hnd & Hlen).
  destruct (entries_some (argv_init b2)) as (args & Hargs & Halen); [by eapply list_elem_of_lookup_2|].
  exists args, kvs. split; [done|]. split.
  { split; [|lia]. destruct (argv_init b2) as [|[x|] t]; [done| |done]. cbn in Hargs.
    destruct (entries t); [|done]. injection Hargs as <-. cbn. lia. }
  split; [|split; [done|]; split; [done | by eapply env_of_table]].
  rewrite Hk. unfold env_table. replace (MAX + 2 - length kvs)%nat with (S (MAX + 1 - length kvs)) by lia.
  generalize (MAX + 1 - length kvs)%nat. clear. intros k.
  induction kvs as [|kv kvs IH]; [done|]. cbn [fmap list_fmap app entries]. by rewrite IH.
Qed.

(** C23. A variable on the command line that no set-up function takes and
    whose name has no dot is what init finds in its environment: the map of
    its variables is the old one with that variable set, an earlier value
    replaced; an overflow is noted exactly when a new variable finds [MAX + 1]
    variables in the table. *)
Theorem bootoption_sets_variable o name val b :
  tables_wf b → panic_later b = None → option_shape o name (Some val) →
  obsolete_checksetup parameqn setup_table (option_text name (Some val)) b = Some (false, b) →
  DOT ∉ name →
  ∃ b', unknown_bootoption MAX parameqn setup_table o b = Some (0, b') ∧ tables_wf b' ∧
    argv_init b' = argv_init b ∧ env_of b' = <[name := val]> (env_of b) ∧
    (name ∉ dom (env_of b) → panic_later b' = None ↔ (size (env_of b) <= MAX)%nat).
Proof.
  intros Hwf Hnone Ho Hset Hdot. pose proof (shape_name _ _ _ Ho) as (Hn & Htn & Heq).
  destruct (repair_env_string_spec o name _ Ho) as (buf & Hb & Hc).
  unfold unknown_bootoption. rewrite Hb. cbn [kderef]. rewrite kbind_ret, Hn, Hc.
  rewrite (kbind_some _ _ _ _ _ Hset).
  assert (Hd : existsb (Z.eqb DOT) (take (length name) (option_text name (Some val))) = false).
  { cbn [option_text]. rewrite take_app_length. apply not_true_iff_false. intros Hex.
    apply existsb_exists in Hex as (c & Hc' & Hq%Z.eqb_eq). apply Hdot. rewrite Hq.
    by apply list_elem_of_In. }
  rewrite Hd, kbind_get, Hnone.
  assert (Hv : (if opt_val o is Some _ then true else false) = true) by (by inversion Ho).
  rewrite Hv. destruct (put_env_option_ok name val b Hwf Hnone (Heq ltac:(by eexists)))
    as (b' & Hput & Hwf' & Hargv & Henv & Hp & _).
  exists b'. done.
Qed.
End invariant.

(** ** The message about unknown options fits its buffer *)

Definition printed (l : list (list Z)) : list Z := l ≫= λ e, 32 :: e.

Lemma print_entries_run buf (pre : list Z) l :
  (length pre + length (printed l) < length buf)%nat →
  take (length pre + 1) buf = pre ++ [0] →
  ∃ buf', print_entries buf (length pre) l = Some (buf', (length pre + length (printed l))%nat) ∧
    take (length pre + length (printed l) + 1) buf' = pre ++ printed l ++ [0].
Proof.
  revert buf pre. induction l as [|e l IH]; intros buf pre Hlen Hpre; cbn [print_entries].
  - exists buf. cbn. rewrite Nat.add_0_r. done.
  - assert (Hp : printed (e :: l) = (32 :: e) ++ printed l) by done.
    rewrite Hp, length_app in *.
    assert (Htake : take (length pre) buf = pre).
    { apply (f_equal (take (length pre))) in Hpre. rewrite take_take, take_app_length in Hpre.
      by rewrite Nat.min_l in Hpre by lia. }
    destruct (strcpy_append pre (32 :: e) buf) as (buf1 & Hcpy & Hl1 & Ht1); [lia | done|].
    rewrite Hcpy. cbn [mbind option_bind].
    destruct (IH buf1 (pre ++ 32 :: e)) as (buf2 & Hrun & Ht2).
    + rewrite length_app, Hl1. lia.
    + rewrite length_app, Ht1. by rewrite <-app_assoc.
    + rewrite length_app in Hrun, Ht2. cbn [length] in *.
      assert (Hn : (length pre + (S (length e) + length (printed l)))%nat
                   = (length pre + S (length e) + length (printed l))%nat) by lia.
      exists buf2. rewrite Hn, Hrun, Ht2. split; [done|].
      rewrite <-!app_assoc. done.
Qed.

Lemma printed_length l n :
  foldl (λ n e, n + 1 + length e)%nat n l = (n + length (printed l))%nat.
Proof.
  revert n. induction l as [|e l IH]; intros n; cbn [foldl]; [cbn; lia|].
  rewrite IH. change (printed (e :: l)) with ((32 :: e) ++ printed l).
  rewrite length_app. cbn [length]. lia.
Qed.

Lemma printed_ok l : Forall text_ok l → text_ok (printed l).
Proof.
  induction 1 as [|e l He Hl IH]; [constructor|].
  change (printed (e :: l)) with ((32 :: e) ++ printed l).
  apply Forall_app. split; [constructor; done | done].
Qed.

Lemma entries_nil t k : entries (drop k t) = Some [] → t !! k = Some None.
Proof.
  intros He. rewrite <-(Nat.add_0_r k), <-lookup_drop.
  destruct (drop k t) as [|[e|] t']; [done| |done]. cbn in He. by destruct (entries t').
Qed.

(** The buffer allocated for the message is exactly large enough, and the
    message is the options behind the program name and behind the two default
    variables, separated by blanks. *)
Lemma print_unknown_text b args envs :
  panic_later b = None →
  (argv_init b !! 1%nat ≠ Some None ∨ envp_init b !! 2%nat ≠ Some None) →
  entries (drop 1 (argv_init b)) = Some args → entries (drop 2 (envp_init b)) = Some envs →
  Forall text_ok (args ++ envs) →
  print_unknown_bootoptions b = Some (Some (drop 1 (printed (args ++ envs)))).
Proof.
  intros Hnone Hsome Ha He Hok. unfold print_unknown_bootoptions. rewrite Hnone. cbn [orb].
  assert (Hb : bool_decide (argv_init b !! 1%nat = Some None) && bool_decide (envp_init b !! 2%nat = Some None)
               = false).
  { apply andb_false_iff. rewrite !bool_decide_eq_false. done. }
  rewrite Hb, Ha, He. cbn [mbind option_bind]. cbn zeta. rewrite printed_length.
  destruct (print_entries_run (replicate (1 + length (printed (args ++ envs))) 0) [] (args ++ envs))
    as (buf & Hrun & Ht); [rewrite length_replicate; cbn; lia | done|].
  cbn [length] in Hrun. rewrite Hrun. cbn [mbind option_bind].
  do 2 f_equal. cbn [length app Nat.add] in Ht.
  rewrite <-(take_drop (length (printed (args ++ envs)) + 1) buf), Ht, <-app_assoc.
  pose proof (printed_ok _ Hok) as Hpok. destruct (printed (args ++ envs)) as [|c p] eqn:Hp.
  - exfalso. assert (Hnil : args ++ envs = []) by (by destruct (args ++ envs)).
    apply app_eq_nil in Hnil as [-> ->]. apply entries_nil in Ha, He. tauto.
  - cbn [app drop]. apply cstr_text. by inversion Hpok.
Qed.

(** With well-formed tables the message can always be put together. *)
Lemma print_unknown_total MAX b :
  (1 <= MAX)%nat → tables_wf MAX b → is_Some (print_unknown_bootoptions b).
Proof.
  intros HM (Hla & Hle & _ & Hp). unfold print_unknown_bootoptions.
  destruct (panic_later b) eqn:Hnone; [by eexists|]. destruct (_ && _); [by eexists|]. cbn [orb].
  destruct (Hp eq_refl) as (Hlast & kvs & Hk & _ & _ & Hlen).
  assert (Hlaste : envp_init b !! (MAX + 1)%nat = Some None).
  { rewrite Hk. unfold env_table. rewrite lookup_app_r by (rewrite length_fmap; lia).
    rewrite length_fmap. apply lookup_replicate. split; [done | lia]. }
  destruct (entries_some (drop 1 (argv_init b))) as (args & Ha & _).
  { apply (list_elem_of_lookup_2 _ MAX). rewrite lookup_drop. by rewrite Nat.add_comm. }
  destruct (entries_some (drop 2 (envp_init b))) as (envs & He & _).
  { apply (list_elem_of_lookup_2 _ (MAX - 1)). rewrite lookup_drop.
    by replace (2 + (MAX - 1))%nat with (MAX + 1)%nat by lia. }
  rewrite Ha, He. cbn [mbind option_bind]. cbn zeta. rewrite printed_length.
  destruct (print_entries_run (replicate (1 + length (printed (args ++ envs))) 0) [] (args ++ envs))
    as (buf & Hrun & _); [rewrite length_replicate; cbn; lia | done|].
  cbn [length] in Hrun. rewrite Hrun. by eexists.
Qed.

(** Early options: nothing is called through a null pointer. *)
Lemma do_early_param_ok MAX parameq tbl param val b :
  setup_safe MAX tbl →
  Forall (λ p, early p = true ∨ param_str p = bytes_of_string "earlycon" → is_Some (setup_func p)) tbl →
  tables_wf MAX b →
  ∃ b', do_early_param parameq tbl param val b = Some (0, b') ∧ tables_wf MAX b'.
Proof.
  intros Hsafe Hnn Hwf. unfold do_early_param.
  cut (∀ bad, ∃ n b', early_param_loop parameq tbl param val bad b = Some (n, b') ∧ tables_wf MAX b').
  { intros Hloop. destruct (Hloop O) as (n & b' & Hrun & Hwf'). exists b'.
    by rewrite (kbind_some _ _ _ _ _ Hrun). }
  unfold setup_safe in Hsafe. revert b Hwf Hsafe.
  induction Hnn as [|p tbl Hp _ IH]; intros b Hwf Hsafe bad; cbn [early_param_loop]; [by eexists _, b|].
  apply Forall_cons in Hsafe as [Hs Hsafe].
  destruct (_ || _) eqn:Hm; [|by apply IH].
  assert (Hf : is_Some (setup_func p)).
  { apply Hp. apply orb_true_iff in Hm as [[? _]%andb_true_iff|[_ Hm]%andb_true_iff]; [by left|].
    right. by apply bool_decide_eq_true in Hm. }
  destruct Hf as [f Hf]. rewrite Hf. cbn [kderef]. rewrite kbind_ret, kbind_get.
  specialize (Hs f Hf val b Hwf). destruct (f val b) as [r b1]. rewrite kbind_modify. by apply IH.
Qed.

(** ** Runs *)
Module BootRuns.
Abbreviation str := bytes_of_string (only parsing).

Definition prefix_eq (a b : list Z) (n : nat) : bool := bool_decide (take n a = take n b).
Definition table0 : list obs_kernel_param :=
  [ObsParam (str "reset_devices") false (Some set_reset_devices);
   ObsParam (str "init=") false (Some (init_setup 32));
   ObsParam (str "rdinit=") false (Some (rdinit_setup 32));
   ObsParam (str "debug") true (Some debug_kernel);
   ObsParam (str "noacpi") false None].
Definition bare (s : string) : bootopt := BootOpt (str s ++ [0]) None.
Definition valued (n v : string) : bootopt :=
  BootOpt (str n ++ 0 :: str v ++ [0]) (Some (length (str n) + 1)%nat).
Definition quoted (n v : string) : bootopt :=
  BootOpt (str n ++ 0 :: 34 :: str v ++ [0]) (Some (length (str n) + 2)%nat).

Definition boot (opts init_args : list bootopt) : option BootParams.boot :=
  snd <$> process_options 32 prefix_eq table0 opts init_args (boot_init 32 7).

Example options_run :
  (λ b, (entries (argv_init b), entries (envp_init b), execute_command b, print_unknown_bootoptions b))
    <$> boot [bare "auto"; quoted "TERM" "xterm"; valued "init" "/bin/sh"; bare "single";
              valued "mod.opt" "1"; valued "LANG" "C"] [bare "-l"]
  = Some (Some [str "init"; str "single"; str "-l"],
          Some [str "HOME=/"; str "TERM=xterm"; str "LANG=C"], Some (str "/bin/sh"),
          Some (Some (str "single -l LANG=C"))).
Proof. vm_compute. reflexivity. Qed.

(** Options before "init=" are dropped, except for the last one of a full
    table: it is behind the range that is cleared, and init gets it when the
    table fills up again. *)
Example stale_argument :
  (λ b, (last <$> entries (argv_init b), panic_later b))
    <$> boot (replicate 31 (bare "old") ++ [bare "stale"; valued "init" "/bin/sh"]
              ++ replicate 31 (bare "new")) []
  = Some (Some (Some (str "stale")), None).
Proof. vm_compute. reflexivity. Qed.

(** An "=" at the start of an option belongs to the name. *)
Example equals_first :
  (λ b, (entries (argv_init b), entries (envp_init b)))
    <$> boot [bare "=x"; valued "=x" "1"; valued "=x" "2"] []
  = Some (Some [str "init"; str "=x"], Some [str "HOME=/"; str "TERM=linux"; str "=x=2"]).
Proof. vm_compute. reflexivity. Qed.

(** A variable that is set again in the last slot is reported as an
    overflow although it takes no new slot. *)
Example last_slot_overflow :
  (λ b, panic_later b)
    <$> boot (imap (λ i _, valued (String.append "V" (pretty i)) "1") (replicate 31 tt)
              ++ [valued "V30" "2"]) []
  = Some (Some (PanicEnv, str "V30=2")).
Proof. vm_compute. reflexivity. Qed.

Lemma table0_safe : setup_safe 32 table0.
Proof.
  repeat apply Forall_cons_2; try apply Forall_nil_2; intros f Hf s b Hwf; cbn in Hf; simplify_eq.
  - done.
  - by apply init_setup_wf.
  - by apply rdinit_setup_wf.
  - done.
Qed.

Lemma valued_shape n v :
  text_ok (str n) → option_name_ok (str n) → text_ok (str v) → option_shape (valued n v) (str n) (Some (str v)).
Proof. intros. by apply (shape_value (str n) (str v) []). Qed.

Lemma boot_tables_invariant_witness :
  ∃ b', process_options 32 prefix_eq table0 [valued "LANG" "C"] [] (boot_init 32 7) = Some (tt, b') ∧
    tables_wf 32 b'.
Proof.
  destruct (boot_tables_invariant 32 prefix_eq table0 (boot_init 32 7) [valued "LANG" "C"] [])
    as (b' & Hrun & Hwf & _).
  - apply table0_safe.
  - apply boot_init_wf. lia.
  - apply Forall_singleton. eexists _, _. apply valued_shape; apply (bool_decide_unpack _); by vm_compute.
  - constructor.
  - exists b'. split; [exact Hrun | exact Hwf].
Defined.

Lemma bootoption_sets_variable_witness :
  ∃ b', unknown_bootoption 32 prefix_eq table0 (valued "TERM" "xterm") (boot_init 32 7) = Some (0, b') ∧
    env_of b' = <[str "TERM" := str "xterm"]> (env_of (boot_init 32 7)).
Proof.
  destruct (bootoption_sets_variable 32 prefix_eq table0 (valued "TERM" "xterm") (str "TERM")
              (str "xterm") (boot_init 32 7)) as (b' & Hrun & _ & _ & Henv & _).
  - apply boot_init_wf. lia.
  - reflexivity.
  - apply valued_shape; apply (bool_decide_unpack _); by vm_compute.
  - vm_compute. reflexivity.
  - apply (bool_decide_unpack _). by vm_compute.
  - exists b'. split; [exact Hrun | exact Henv].
Defined.
End BootRuns.
