(* ===== verification/CommandLine.v ===== *)
(** * CommandLine: the kernel command line and the boot configuration

    The part of [init/main.c] that puts the command lines together:
    [get_boot_config_from_initrd], [xbc_snprint_cmdline], [xbc_make_cmdline],
    [setup_boot_config] and [setup_command_line].  The boot configuration
    library ([lib/bootconfig.c]) and the option parser are outside of this
    repository: the nodes of a configuration, its checksum and the outcome of
    the parser are parameters.  A copy past the end of a buffer is an oops
    ([None]). *)

From S2P Require Import Prelude UserMem CString.

(** ** The configuration appended to the initial ram disk *)

Definition BOOTCONFIG_MAGIC : list Z := bytes_of_string "#BOOTCONFIG" ++ [10].
Definition BOOTCONFIG_MAGIC_LEN : Z := 12.

Section initrd.
(** The memory of the kernel and [xbc_calc_checksum]. *)
Context (mem : Z → Z) (xbc_calc_checksum : list Z → Z).

Definition read_bytes (a : Z) (n : nat) : list Z := (λ i, mem (a + Z.of_nat i)) <$> seq 0 n.
Definition read_le32 (a : Z) : Z := le_value (read_bytes a 4).

(** The loop over the four places the magic may be at, from [data] down. *)
Fixpoint find_magic (tries : nat) (data : Z) : option Z :=
  match tries with
  | O => None
  | S tries =>
      if bool_decide (read_bytes data (length BOOTCONFIG_MAGIC) = BOOTCONFIG_MAGIC) then Some data
      else find_magic tries (u64 (data - 1))
  end.

(** The start and size of the configuration, and the end of the ram disk
    without it. *)
Definition get_boot_config_from_initrd (initrd_start initrd_end : Z) : option (Z * Z) * Z :=
  if initrd_end =? 0 then (None, initrd_end)
  else match find_magic 4 (u64 (initrd_end - BOOTCONFIG_MAGIC_LEN)) with
  | None => (None, initrd_end)
  | Some data =>
      let hdr := u64 (data - 8) in
      let size := read_le32 hdr in
      let csum := read_le32 (u64 (hdr + 4)) in
      let data := u64 (hdr - size) in
      if data <? initrd_start then (None, initrd_end)
      else if negb (xbc_calc_checksum (read_bytes data (Z.to_nat size)) =? csum) then (None, initrd_end)
      else (Some (data, size), data)
  end.
End initrd.

(** ** Command lines out of a configuration *)

(** A key of the configuration: what composing its name gives (an error or
    the name) and its values, [None] for a key without a value. *)
Record xbc_key := XbcKey { key_name : Z + list Z; key_values : option (list (list Z)) }.

(** [snprintf(buf + off, rest, "%s", text)]: the characters that fit, and a
    NUL; nothing when there is no room at all. *)
Definition snprintf_at (buf : list Z) (off : nat) (text : list Z) : list Z :=
  let room := (length buf - off)%nat in
  match room with
  | O => buf
  | S m =>
      let n := (length text `min` m)%nat in
      take off buf ++ take n text ++ [0] ++ drop (off + n + 1) buf
  end.

(** ["%s "] and ["%s=\"%s\" "]. *)
Definition key_text (name : list Z) : list Z := name ++ [SPACE].
Definition value_text (name val : list Z) : list Z :=
  name ++ [61; QUOTE] ++ val ++ [QUOTE; SPACE].

(** The values of one key. *)
Fixpoint snprint_values (buf : list Z) (off : nat) (name : list Z) (vals : list (list Z))
    : list Z * nat :=
  match vals with
  | [] => (buf, off)
  | v :: vals =>
      let t := value_text name v in
      snprint_values (snprintf_at buf off t) (off + length t) name vals
  end.

(** The result is an error or the length of the whole text. *)
Fixpoint snprint_loop (buf : list Z) (off : nat) (keys : list xbc_key) : list Z * (Z + nat) :=
  match keys with
  | [] => (buf, inr off)
  | k :: keys =>
      match key_name k with
      | inl ret => (buf, inl ret)
      | inr name =>
          match key_values k with
          | None => snprint_loop (snprintf_at buf off (key_text name)) (off + length (key_text name)) keys
          | Some vals =>
              let '(buf, off) := snprint_values buf off name vals in snprint_loop buf off keys
          end
      end
  end.
Definition xbc_snprint_cmdline (buf : list Z) (root : list xbc_key) : list Z * (Z + nat) :=
  snprint_loop buf 0 root.

Section make.
(** [memblock_alloc] of a number of bytes succeeds; [xbc_find_node]. *)
Context (alloc_ok : nat → bool) (xbc_find_node : list Z → option (list xbc_key)).

(** The counting pass runs on no buffer at all. *)
Definition xbc_make_cmdline (key : list Z) : option (list Z) :=
  match xbc_find_node key with
  | None => None
  | Some root =>
      match (xbc_snprint_cmdline [] root).2 with
      | inl _ => None
      | inr O => None
      | inr len =>
          if negb (alloc_ok (len + 1)) then None
          else
            let '(new_cmdline, ret) := xbc_snprint_cmdline (replicate (len + 1) 0) root in
            match ret with
            | inl _ => None
            | inr ret => if (len <? ret)%nat then None else Some new_cmdline
            end
      end
  end.

(** ** setup_boot_config *)

Record bootconfig := BootConfig {
  bootconfig_found : bool;
  initargs_offs : nat;
  extra_command_line : option (list Z);
  extra_init_args : option (list Z);
}.

Definition XBC_DATA_MAX : Z := 32767.

(** [bootconfig_params], called for each option of the line. *)
Definition bootconfig_params (found : bool) (param : list Z) : bool :=
  found || bool_decide (param = bytes_of_string "bootconfig").

(** What [parse_args] returns: an error, or the offset of what follows "--". *)
Inductive parse_result := ParseError | ParseEnd | ParseDashes (offs : nat).

(** [force] is [CONFIG_BOOT_CONFIG_FORCE]; [initrd] and [embedded] are the
    configurations found (size); [xbc_init] its result for that data. *)
Definition setup_boot_config (force : bool) (initrd embedded : option Z) (params : list (list Z))
    (err : parse_result) (xbc_init : Z) : bootconfig :=
  let data := match initrd with Some size => Some size | None => embedded end in
  let found := foldl bootconfig_params false params in
  let none offs := BootConfig found offs None None in
  match err with
  | ParseError => none 0%nat
  | _ =>
      if negb (found || force) then none 0%nat
      else
        let offs := match err with ParseDashes o => o | _ => 0%nat end in
        match data with
        | None => none offs
        | Some size =>
            if XBC_DATA_MAX <=? size then none offs
            else if xbc_init <? 0 then none offs
            else BootConfig found offs (cstr <$> xbc_make_cmdline (bytes_of_string "kernel"))
                   (cstr <$> xbc_make_cmdline (bytes_of_string "init"))
        end
  end.

(** ** setup_command_line *)

Definition DASHES : list Z := bytes_of_string " -- ".

(** [if (ilen)]: the arguments the configuration has for init, behind the
    "--" of the line or behind one that is added. *)
Definition append_init_args (cfg : bootconfig) (xlen ilen : nat) (boot_command_line saved : list Z)
    : option (list Z) :=
  match extra_init_args cfg with
  | None => Some saved
  | Some args =>
      if (0 <? initargs_offs cfg)%nat then
        let len := (xlen + initargs_offs cfg)%nat in
        saved ← strcpy saved len args;
        strcpy saved (len + (ilen - 4)) (drop (initargs_offs cfg - 1) boot_command_line)
      else
        let len := length (cstr saved) in
        saved ← strcpy saved len DASHES;
        strcpy saved (len + 4) args
  end.

(** [inl] is the panic of a failed allocation. *)
Definition setup_command_line (cfg : bootconfig) (boot_command_line command_line : list Z)
    : option (unit + (list Z * list Z * nat)) :=
  let xlen := match extra_command_line cfg with Some x => length x | None => O end in
  let ilen := match extra_init_args cfg with Some a => (length a + 4)%nat | None => O end in
  let len := (xlen + length boot_command_line + 1)%nat in
  if negb (alloc_ok (len + ilen)) then Some (inl tt)
  else if negb (alloc_ok len) then Some (inl tt)
  else
    let extra := default [] (extra_command_line cfg) in
    let saved := replicate (len + ilen) 0 in
    let static := replicate len 0 in
    saved ← (if (xlen =? 0)%nat then Some saved else strcpy saved 0 extra);
    static ← (if (xlen =? 0)%nat then Some static else strcpy static 0 extra);
    saved ← strcpy saved xlen boot_command_line;
    static ← strcpy static xlen command_line;
    saved ← append_init_args cfg xlen ilen boot_command_line saved;
    Some (inr (saved, static, length (cstr saved))).
End make.

(** ** What the texts should be *)

(** All of a configuration as text, or the first name that fails. *)
Fixpoint config_text (keys : list xbc_key) : eres (list Z) :=
  match keys with
  | [] => mret []
  | k :: keys =>
      name ← key_name k;
      rest ← config_text keys;
      mret (match key_values k with
            | None => key_text name
            | Some vals => vals ≫= value_text name
            end ++ rest)
  end.

(** The command line to report: the keys of the configuration in front, its
    arguments for init behind the "--" of the line, or behind one that is
    added. *)
Definition init_text (cfg : bootconfig) (boot_command_line : list Z) : list Z :=
  match extra_init_args cfg with
  | None => boot_command_line
  | Some args =>
      if (0 <? initargs_offs cfg)%nat then
        take (initargs_offs cfg) boot_command_line ++ args ++
        drop (initargs_offs cfg - 1) boot_command_line
      else boot_command_line ++ DASHES ++ args
  end.
Definition saved_text (cfg : bootconfig) (boot_command_line : list Z) : list Z :=
  default [] (extra_command_line cfg) ++ init_text cfg boot_command_line.

(** Where the arguments of the configuration for init go, by the position
    behind the "--" of the line (0 when there is none).  The order meant is
    " -- ", the arguments of the configuration, those of the line.  The code
    takes the character before the position for the space behind the "--" and
    repeats it; in a line that ends in the "--" that character is a "-". *)
Inductive init_args_saved (args line : list Z) : nat → list Z → Prop :=
  | args_behind_dashes :
      init_args_saved args line 0 (line ++ bytes_of_string " -- " ++ args)
  | args_in_order front rest :
      line = front ++ SPACE :: rest →
      init_args_saved args line (length front + 1) (front ++ [SPACE] ++ args ++ [SPACE] ++ rest)
  | args_with_stray front c rest :
      line = front ++ c :: rest → c ≠ SPACE →
      init_args_saved args line (length front + 1) (front ++ [c] ++ args ++ [c] ++ rest).

(** The line that is saved behind the keys of the configuration. *)
Definition line_saved (cfg : bootconfig) (line text : list Z) : Prop :=
  match extra_init_args cfg with
  | None => text = line
  | Some args => init_args_saved args line (initargs_offs cfg) text
  end.

(** ** Lemmas *)

(** A text at the front of a buffer, with its NUL. *)
Definition holds (buf text : list Z) : Prop := take (length text + 1) buf = text ++ [0].

Lemma holds_cstr buf text : text_ok text → holds buf text → cstr buf = text.
Proof.
  intros Hok Hh. rewrite <-(take_drop (length text + 1) buf), Hh, <-app_assoc. by apply cstr_text.
Qed.
Lemma holds_length buf text : holds buf text → (length text < length buf)%nat.
Proof.
  intros Hh. apply (f_equal length) in Hh. rewrite length_take, length_app in Hh. cbn in Hh. lia.
Qed.
Lemma holds_nil n : (0 < n)%nat → holds (replicate n 0) [].
Proof. intros Hn. destruct n; [lia | done]. Qed.

Lemma holds_prefix buf pre rest : holds buf (pre ++ rest) → take (length pre) buf = pre.
Proof.
  intros Hh. apply (f_equal (take (length pre))) in Hh.
  rewrite take_take, length_app, <-app_assoc, take_app_length in Hh.
  by rewrite Nat.min_l in Hh by lia.
Qed.

(** Copying behind a part of the text a buffer holds. *)
Lemma strcpy_holds buf pre rest text :
  holds buf (pre ++ rest) → (length pre + length text < length buf)%nat →
  ∃ buf', strcpy buf (length pre) text = Some buf' ∧ holds buf' (pre ++ text) ∧
    length buf' = length buf.
Proof.
  intros Hh Hlen. destruct (strcpy_append pre text buf Hlen) as (buf' & Hc & Hl & Ht);
    [by eapply holds_prefix|].
  exists buf'. split; [done|]. split; [|done]. unfold holds.
  by rewrite length_app, Ht, <-app_assoc.
Qed.
Lemma strcpy_end buf pre text :
  holds buf pre → (length pre + length text < length buf)%nat →
  ∃ buf', strcpy buf (length pre) text = Some buf' ∧ holds buf' (pre ++ text) ∧
    length buf' = length buf.
Proof. intros Hh. apply (strcpy_holds buf pre []). by rewrite app_nil_r. Qed.

Lemma snprintf_is_strcpy buf off text buf' :
  strcpy buf off text = Some buf' → snprintf_at buf off text = buf'.
Proof.
  intros (Hlt & ->)%strcpy_Some. unfold snprintf_at.
  destruct (length buf - off)%nat as [|m] eqn:Hr; [lia|].
  rewrite Nat.min_l by lia. by rewrite (take_ge text).
Qed.

Lemma snprint_values_len buf off name vals :
  (snprint_values buf off name vals).2 = (off + length (vals ≫= value_text name))%nat.
Proof.
  revert buf off. induction vals as [|v vals IH]; intros buf off; [cbn; lia|].
  cbn [snprint_values]. rewrite IH, bind_cons, length_app. lia.
Qed.
Lemma snprint_values_fits buf pre name vals :
  holds buf pre → (length pre + length (vals ≫= value_text name) < length buf)%nat →
  holds (snprint_values buf (length pre) name vals).1 (pre ++ (vals ≫= value_text name)) ∧
  length (snprint_values buf (length pre) name vals).1 = length buf.
Proof.
  revert buf pre. induction vals as [|v vals IH]; intros buf pre Hh Hlen.
  { cbn. by rewrite app_nil_r. }
  rewrite bind_cons, length_app in *. cbn [snprint_values].
  destruct (strcpy_end buf pre (value_text name v) Hh) as (buf' & Hc & Hh' & Hl); [lia|].
  rewrite (snprintf_is_strcpy _ _ _ _ Hc), app_assoc, <-length_app.
  destruct (IH buf' (pre ++ value_text name v) Hh') as [IH1 IH2]; [rewrite length_app; lia|].
  split; [done | congruence].
Qed.

(** The counting pass finds the length of the text whatever the buffer. *)
Lemma snprint_loop_len buf off keys :
  (snprint_loop buf off keys).2 =
    match config_text keys with inl e => inl e | inr t => inr (off + length t)%nat end.
Proof.
  revert buf off. induction keys as [|k keys IH]; intros buf off; cbn [snprint_loop config_text].
  { cbn. by rewrite Nat.add_0_r. }
  destruct (key_name k) as [e|name]; [done|]. cbn [mbind eres_bind].
  destruct (key_values k) as [vals|].
  - pose proof (snprint_values_len buf off name vals) as Hl.
    destruct (snprint_values buf off name vals) as [buf' off']. cbn in Hl. rewrite IH, Hl.
    destruct (config_text keys); [done|]. cbn. rewrite length_app. f_equal. lia.
  - rewrite IH. destruct (config_text keys); [done|]. cbn [mbind eres_bind mret eres_ret].
    rewrite length_app. f_equal. lia.
Qed.

Lemma snprint_loop_fits buf pre keys text :
  config_text keys = inr text → holds buf pre → (length pre + length text < length buf)%nat →
  holds (snprint_loop buf (length pre) keys).1 (pre ++ text).
Proof.
  revert buf pre text. induction keys as [|k keys IH]; intros buf pre text; cbn [config_text snprint_loop].
  { intros [= <-] Hh _. by rewrite app_nil_r. }
  destruct (key_name k) as [e|name]; [done|]. cbn [mbind eres_bind].
  destruct (config_text keys) as [e|rest] eqn:Hk; [done|]. cbn [mbind eres_bind].
  intros [= <-] Hh. rewrite length_app. intros Hlen. destruct (key_values k) as [vals|].
  - destruct (snprint_values_fits buf pre name vals Hh) as [Hh' Hl']; [lia|].
    pose proof (snprint_values_len buf (length pre) name vals) as Ho.
    destruct (snprint_values buf (length pre) name vals) as [buf' off']. cbn in Hh', Hl', Ho.
    rewrite app_assoc, Ho, <-length_app. apply IH; [done | done|]. rewrite length_app. lia.
  - destruct (strcpy_end buf pre (key_text name) Hh) as (buf' & Hc & Hh' & Hl); [lia|].
    rewrite (snprintf_is_strcpy _ _ _ _ Hc), app_assoc, <-length_app.
    apply IH; [done | done|]. rewrite length_app. lia.
Qed.

(** The configuration's part and a line behind it, in a cleared buffer. *)
Lemma strcpy_both n extra line :
  (length extra + length line < n)%nat →
  ∃ buf1 buf, (if (length extra =? 0)%nat then Some (replicate n 0)
                 else strcpy (replicate n 0) 0 extra) = Some buf1 ∧
          strcpy buf1 (length extra) line = Some buf ∧
    holds buf (extra ++ line) ∧ length buf = n.
Proof.
  intros Hn. destruct extra as [|c extra].
  - destruct (strcpy_end (replicate n 0) [] line) as (buf & Hc & Hh & Hl);
      [apply holds_nil; lia | by rewrite length_replicate |].
    exists (replicate n 0), buf. rewrite length_replicate in Hl. done.
  - destruct (strcpy_end (replicate n 0) [] (c :: extra)) as (buf & Hc & Hh & Hl);
      [apply holds_nil; lia | rewrite length_replicate; cbn in *; lia |].
    rewrite length_replicate in Hl.
    destruct (strcpy_end buf (c :: extra) line Hh) as (buf' & Hc' & Hh' & Hl'); [cbn in *; lia|].
    exists buf, buf'. split_and!; [exact Hc | exact Hc' | done | congruence].
Qed.

(** The part for init fits the room left for it. *)
Lemma append_init_args_run cfg extra boot ilen saved :
  text_ok (extra ++ boot) → (initargs_offs cfg <= length boot)%nat →
  ilen = match extra_init_args cfg with Some a => (length a + 4)%nat | None => O end →
  holds saved (extra ++ boot) → length saved = (length extra + length boot + 1 + ilen)%nat →
  ∃ saved', append_init_args cfg (length extra) ilen boot saved = Some saved' ∧
    holds saved' (extra ++ init_text cfg boot).
Proof.
  intros Hok Hoffs Hilen Hh Hl. unfold append_init_args, init_text.
  destruct (extra_init_args cfg) as [args|]; [|by exists saved]. subst ilen.
  destruct (Nat.ltb_spec 0 (initargs_offs cfg)) as [Ho|Ho].
  - set (offs := initargs_offs cfg) in *.
    assert (Hl1 : length (extra ++ take offs boot) = (length extra + offs)%nat)
      by (rewrite length_app, length_take; lia).
    rewrite <-(take_drop offs boot), app_assoc in Hh.
    destruct (strcpy_holds saved _ _ args Hh) as (b1 & H1 & Hh1 & Hb1); [lia|].
    rewrite Hl1 in H1. rewrite H1. cbn [mbind option_bind].
    destruct (strcpy_end b1 _ (drop (offs - 1) boot) Hh1) as (b2 & H2 & Hh2 & _);
      [rewrite length_app, length_drop; lia|].
    rewrite length_app, Hl1 in H2. exists b2. rewrite Nat.add_sub, H2.
    by rewrite <-!app_assoc in Hh2.
  - rewrite (holds_cstr saved (extra ++ boot)) by done.
    destruct (strcpy_end saved _ DASHES Hh) as (b1 & H1 & Hh1 & Hb1); [rewrite length_app; cbn; lia|].
    rewrite H1. cbn [mbind option_bind].
    destruct (strcpy_end b1 _ args Hh1) as (b2 & H2 & Hh2 & _); [rewrite !length_app; cbn; lia|].
    rewrite length_app in H2. exists b2. by rewrite <-!app_assoc in Hh2.
Qed.

Lemma DASHES_ok : text_ok DASHES.
Proof. by apply (bool_decide_unpack _). Qed.
Lemma init_text_ok cfg boot :
  text_ok boot → text_ok (default [] (extra_init_args cfg)) → text_ok (init_text cfg boot).
Proof.
  intros Hb Ha. unfold init_text. destruct (extra_init_args cfg) as [args|]; [|done].
  destruct (0 <? initargs_offs cfg)%nat; unfold text_ok; rewrite !Forall_app; split_and!;
    [by apply Forall_take | done | by apply Forall_drop | done | apply DASHES_ok | done].
Qed.

(** ** The ram disk *)

Section initrd_facts.
Context (mem : Z → Z) (csum_of : list Z → Z).

Lemma read_bytes_length a n : length (read_bytes mem a n) = n.
Proof. unfold read_bytes. by rewrite length_fmap, length_seq. Qed.
Lemma read_bytes_app a n m :
  read_bytes mem a (n + m) = read_bytes mem a n ++ read_bytes mem (a + Z.of_nat n) m.
Proof.
  unfold read_bytes. rewrite seq_app, fmap_app. f_equal.
  rewrite Nat.add_comm, <-(fmap_add_seq n 0 m), <-list_fmap_compose.
  apply list_fmap_ext. intros _ i _. cbn. f_equal. lia.
Qed.

(** A part of an image in memory. *)
Lemma read_part a image pre xs post :
  read_bytes mem a (length image) = image → image = pre ++ xs ++ post →
  read_bytes mem (a + Z.of_nat (length pre)) (length xs) = xs.
Proof.
  intros Hr ->. rewrite !length_app, !read_bytes_app in Hr.
  apply app_inj_1 in Hr as [_ Hr]; [|by rewrite read_bytes_length].
  by apply app_inj_1 in Hr as [Hr _]; [|rewrite read_bytes_length].
Qed.

(** A window that starts with another character than the magic is passed. *)
Lemma find_magic_miss t a :
  0 < a < 2 ^ 64 → mem a ≠ 35 → find_magic mem (S t) a = find_magic mem t (a - 1).
Proof.
  intros Ha Hm. cbn [find_magic]. rewrite bool_decide_false, u64_small; [done | red; lia |].
  change BOOTCONFIG_MAGIC with (35 :: drop 1 BOOTCONFIG_MAGIC). cbn. rewrite Z.add_0_r.
  intros Heq. injection Heq. intros. congruence.
Qed.

(** The magic is found behind up to three bytes of padding, whatever they are. *)
Lemma find_magic_padded a pad :
  (pad <= 3)%nat → 0 <= a → a + Z.of_nat pad < 2 ^ 64 → read_bytes mem a 12 = BOOTCONFIG_MAGIC →
  find_magic mem 4 (a + Z.of_nat pad) = Some a.
Proof.
  intros Hpad Ha Hhi Hr.
  assert (Hmem : ∀ i c, BOOTCONFIG_MAGIC !! i = Some c → mem (a + Z.of_nat i) = c).
  { intros i c Hi. rewrite <-Hr in Hi. apply list_lookup_fmap_Some in Hi as (k & -> & Hk).
    apply lookup_seq in Hk as [-> _]. done. }
  pose proof (Hmem 1%nat 66 eq_refl). pose proof (Hmem 2%nat 79 eq_refl).
  pose proof (Hmem 3%nat 79 eq_refl). clear Hmem.
  assert (Hhit : ∀ t, find_magic mem (S t) a = Some a)
    by (intros t; cbn [find_magic]; by rewrite bool_decide_true).
  assert (Hstep : ∀ t j, (0 < j <= pad)%nat →
    find_magic mem (S t) (a + Z.of_nat j) = find_magic mem t (a + Z.of_nat (j - 1))).
  { intros t j Hj. rewrite find_magic_miss; [f_equal; lia | lia |].
    assert (j = 1 ∨ j = 2 ∨ j = 3)%nat as [->|[->| ->]] by lia; congruence. }
  destruct (decide (pad = 0)%nat) as [->|]; [by rewrite Z.add_0_r|].
  rewrite Hstep by lia. destruct (decide (pad = 1)%nat) as [->|]; [by rewrite Z.add_0_r|].
  rewrite Hstep by lia. destruct (decide (pad = 2)%nat) as [->|]; [by rewrite Z.add_0_r|].
  rewrite Hstep by lia. replace (pad - 1 - 1 - 1)%nat with O by lia. by rewrite Z.add_0_r.
Qed.

(** C34. A configuration appended to a ram disk image with its size, its
    checksum and the magic is found again, also when the boot loader padded
    the image with up to three bytes, and is cut off: the ram disk ends where
    the configuration starts. *)
Theorem boot_config_roundtrip initrd_start initrd_end payload config pad :
  let image := payload ++ config ++ bytes_of_u32 (Z.of_nat (length config)) ++
    bytes_of_u32 (csum_of config) ++ BOOTCONFIG_MAGIC ++ pad in
  (length pad <= 3)%nat → Z.of_nat (length config) < 2 ^ 32 → in_u32 (csum_of config) →
  0 <= initrd_start → initrd_end = initrd_start + Z.of_nat (length image) → initrd_end < 2 ^ 64 →
  read_bytes mem initrd_start (length image) = image →
  get_boot_config_from_initrd mem csum_of initrd_start initrd_end =
    (Some (initrd_start + Z.of_nat (length payload), Z.of_nat (length config)),
     initrd_start + Z.of_nat (length payload)).
Proof.
  intros image Hpad Hsize Hcsum Hstart Hend Hhi Hr.
  pose proof (λ pre xs post, read_part initrd_start image pre xs post Hr) as Hpart.
  set (size := Z.of_nat (length config)) in *. set (at_ := initrd_start + Z.of_nat (length payload)).
  assert (Hlen : initrd_end = at_ + size + 20 + Z.of_nat (length pad)).
  { subst image. rewrite !length_app, !bytes_of_u32_length in Hend. change (length BOOTCONFIG_MAGIC) with 12%nat in Hend. subst at_ size. lia. }
  pose proof (Hpart payload config _ eq_refl) as Hconfig.
  pose proof (Hpart (payload ++ config) (bytes_of_u32 size) _ ltac:(by rewrite <-app_assoc)) as Hsz.
  pose proof (Hpart (payload ++ config ++ bytes_of_u32 size) (bytes_of_u32 (csum_of config)) _
    ltac:(by rewrite <-!app_assoc)) as Hcs.
  pose proof (Hpart (payload ++ config ++ bytes_of_u32 size ++ bytes_of_u32 (csum_of config))
    BOOTCONFIG_MAGIC pad ltac:(by rewrite <-!app_assoc)) as Hmagic.
  clear Hpart Hr. rewrite !length_app, !bytes_of_u32_length in *. fold at_ in Hconfig.
  unfold get_boot_config_from_initrd, BOOTCONFIG_MAGIC_LEN, read_le32.
  destruct (Z.eqb_spec initrd_end 0); [lia|]. rewrite (u64_small (initrd_end - 12)) by (red; lia).
  replace (initrd_end - 12) with (at_ + size + 8 + Z.of_nat (length pad)) by lia.
  rewrite find_magic_padded; [| done | lia | lia |].
  2: { replace (at_ + size + 8)
         with (initrd_start + Z.of_nat (length payload + (length config + (4 + 4))))
         by (subst at_ size; lia). exact Hmagic. }
  rewrite (u64_small (at_ + size + 8 - 8)) by (red; lia).
  rewrite (u64_small (at_ + size + 8 - 8 + 4)) by (red; lia).
  replace (at_ + size + 8 - 8) with (initrd_start + Z.of_nat (length payload + length config)) by lia.
  rewrite Hsz, le_value_u32, u32_small by (red; lia).
  replace (initrd_start + Z.of_nat (length payload + length config) + 4)
    with (initrd_start + Z.of_nat (length payload + (length config + 4))) by lia.
  rewrite Hcs, le_value_u32, u32_small by done.
  replace (initrd_start + Z.of_nat (length payload + length config) - size) with at_ by lia.
  rewrite u64_small by (red; lia). destruct (Z.ltb_spec at_ initrd_start); [lia|].
  subst size. rewrite Nat2Z.id, Hconfig, Z.eqb_refl. done.
Qed.

Lemma find_magic_Some t a x :
  Z.of_nat t <= x < 2 ^ 64 → find_magic mem t x = Some a →
  read_bytes mem a 12 = BOOTCONFIG_MAGIC ∧ x - Z.of_nat t < a <= x.
Proof.
  revert x. induction t as [|t IH]; intros x Hx; [done|]. cbn [find_magic].
  case_bool_decide as Hb; [intros [= <-]; split; [done | lia]|].
  rewrite u64_small by (red; lia). intros [Hr Ha]%IH; [|lia]. split; [done | lia].
Qed.

Lemma le_value_range bs :
  Forall (λ b, 0 <= b < 256) bs → 0 <= le_value bs < 256 ^ Z.of_nat (length bs).
Proof.
  induction 1 as [|b bs Hb Hbs IH]; [done|]. cbn [le_value length].
  rewrite Nat2Z.inj_succ, Z.pow_succ_r by lia. lia.
Qed.

(** Whatever the memory of the ram disk holds, a configuration that is
    reported lies within the ram disk, with its header and the magic behind
    it, has the checksum of its header, and is exactly what the ram disk
    loses; otherwise the ram disk keeps its end. *)
Theorem boot_config_inside initrd_start initrd_end :
  (∀ a, 0 <= mem a < 256) → 2 ^ 33 <= initrd_start <= initrd_end → initrd_end < 2 ^ 64 →
  match get_boot_config_from_initrd mem csum_of initrd_start initrd_end with
  | (None, initrd_end') => initrd_end' = initrd_end
  | (Some (data, size), initrd_end') =>
      initrd_end' = data ∧ initrd_start <= data ∧ 0 <= size ∧ data + size + 20 <= initrd_end ∧
      size = read_le32 mem (data + size) ∧
      csum_of (read_bytes mem data (Z.to_nat size)) = read_le32 mem (data + size + 4) ∧
      read_bytes mem (data + size + 8) 12 = BOOTCONFIG_MAGIC
  end.
Proof.
  intros Hbyte Hlo Hhi. unfold get_boot_config_from_initrd, BOOTCONFIG_MAGIC_LEN.
  destruct (Z.eqb_spec initrd_end 0); [done|]. rewrite (u64_small (initrd_end - 12)) by (red; lia).
  destruct (find_magic mem 4 (initrd_end - 12)) as [a|] eqn:Hf; [|done].
  apply find_magic_Some in Hf as [Hmagic Ha]; [|lia].
  rewrite (u64_small (a - 8)), (u64_small (a - 8 + 4)) by (red; lia).
  assert (Hs : 0 <= read_le32 mem (a - 8) < 2 ^ 32).
  { apply (le_value_range (read_bytes mem (a - 8) 4)).
    apply Forall_fmap, Forall_forall. intros i _. apply Hbyte. }
  set (size := read_le32 mem (a - 8)) in *. rewrite u64_small by (red; lia).
  destruct (Z.ltb_spec (a - 8 - size) initrd_start); [done|].
  destruct (Z.eqb_spec (csum_of (read_bytes mem (a - 8 - size) (Z.to_nat size)))
    (read_le32 mem (a - 8 + 4))) as [Hc|]; cbn [negb]; [|done].
  replace (a - 8 - size + size) with (a - 8) by lia. replace (a - 8 + 8) with a by lia.
  split_and!; (done || lia).
Qed.
End initrd_facts.
Section command_line.
Context (alloc_ok : nat → bool) (xbc_find_node : list Z → option (list xbc_key)).

(** The command line made out of a configuration: the counting pass and
    the printing pass agree, so the buffer of the counted size holds all of
    the text and nothing is written past its end.  There is no command line
    exactly when the key is absent, a name cannot be composed, the text is
    empty or the memory cannot be had. *)
Theorem xbc_make_cmdline_spec key :
  match xbc_find_node key with
  | None => xbc_make_cmdline alloc_ok xbc_find_node key = None
  | Some root =>
      match config_text root with
      | inl _ => xbc_make_cmdline alloc_ok xbc_find_node key = None
      | inr text =>
          if bool_decide (text = []) || negb (alloc_ok (length text + 1))
          then xbc_make_cmdline alloc_ok xbc_find_node key = None
          else ∃ buf, xbc_make_cmdline alloc_ok xbc_find_node key = Some buf ∧ holds buf text
      end
  end.
Proof.
  unfold xbc_make_cmdline. destruct (xbc_find_node key) as [root|]; [|done].
  unfold xbc_snprint_cmdline. rewrite (snprint_loop_len [] 0 root).
  destruct (config_text root) as [e|text] eqn:Ht; [done|]. cbn [Nat.add].
  destruct text as [|c text]; [done|]. rewrite bool_decide_false by done. cbn [orb].
  set (t := c :: text) in *. change (length t) with (S (length text)). cbn iota.
  destruct (alloc_ok (S (length text) + 1)); cbn [negb]; [|done].
  pose proof (snprint_loop_len (replicate (S (length text) + 1) 0) 0 root) as Hl.
  pose proof (snprint_loop_fits (replicate (S (length text) + 1) 0) [] root t Ht) as Hf.
  destruct (snprint_loop _ _ root) as [buf ret]. cbn [fst snd] in *. rewrite Ht in Hl. subst ret.
  change (0 + length t)%nat with (S (length text)).
  rewrite (proj2 (Nat.ltb_ge (S (length text)) (S (length text)))) by lia.
  exists buf. split; [done|]. apply Hf; [apply holds_nil; lia|].
  rewrite length_replicate. cbn [length t]. lia.
Qed.

Lemma init_text_saved cfg line :
  (initargs_offs cfg <= length line)%nat → line_saved cfg line (init_text cfg line).
Proof.
  unfold line_saved, init_text. intros Hoffs.
  destruct (extra_init_args cfg) as [args|]; [|done].
  destruct (initargs_offs cfg) as [|offs]; cbn [Nat.ltb Nat.leb]; [constructor|].
  destruct (lookup_lt_is_Some_2 line offs) as [c Hc]; [lia|].
  pose proof (take_drop_middle line offs c Hc) as Hline.
  assert (Hlen : length (take offs line) = offs) by (rewrite length_take; lia).
  rewrite Nat.sub_succ, Nat.sub_0_r, (take_S_r _ _ _ Hc), (drop_S _ _ _ Hc), <-app_assoc.
  rewrite <-(Nat.add_1_r offs), <-Hlen at 1.
  destruct (decide (c = SPACE)) as [->|Hsp]; [by apply args_in_order | by apply args_with_stray].
Qed.

(** Either an allocation fails, or both copies fit. *)
Lemma setup_command_line_fits cfg boot_command_line command_line :
  text_ok boot_command_line → text_ok command_line →
  text_ok (default [] (extra_command_line cfg)) → text_ok (default [] (extra_init_args cfg)) →
  (length command_line <= length boot_command_line)%nat →
  (initargs_offs cfg <= length boot_command_line)%nat →
  (setup_command_line alloc_ok cfg boot_command_line command_line = Some (inl tt) ∧
   ∃ n, alloc_ok n = false) ∨
  ∃ saved static, setup_command_line alloc_ok cfg boot_command_line command_line
      = Some (inr (saved, static, length (saved_text cfg boot_command_line))) ∧
    cstr saved = saved_text cfg boot_command_line ∧
    cstr static = default [] (extra_command_line cfg) ++ command_line.
Proof.
  intros Hboot Hcmd Hextra Hargs Hle Hoffs. unfold setup_command_line, saved_text.
  set (extra := default [] (extra_command_line cfg)) in *.
  assert (Hx : match extra_command_line cfg with Some x => length x | None => O end = length extra)
    by (subst extra; by destruct (extra_command_line cfg)).
  rewrite Hx. clear Hx. 
  destruct (alloc_ok _) eqn:Ha1; [|left; split; [done | by eexists]].
  destruct (alloc_ok (length extra + length boot_command_line + 1)%nat) eqn:Ha2;
    [|left; split; [done | by eexists]].
  right. cbn [negb].
  destruct (strcpy_both (length extra + length boot_command_line + 1) extra command_line)
    as (st1 & st & Hst1 & Hst & Hhst & _); [lia|].
  set (ilen := match extra_init_args cfg with Some a => (length a + 4)%nat | None => O end).
  destruct (strcpy_both (length extra + length boot_command_line + 1 + ilen) extra boot_command_line)
    as (sv1 & sv & Hsv1 & Hsv & Hhsv & Hlsv); [lia|].
  rewrite Hst1, Hsv1. cbn [mbind option_bind]. rewrite Hsv, Hst. cbn [mbind option_bind].
  destruct (append_init_args_run cfg extra boot_command_line ilen sv) as (saved & -> & Hh);
    [by apply Forall_app | done..|].
  apply holds_cstr in Hh; [|by apply Forall_app; split; [|apply init_text_ok]].
  exists saved, st. cbn [mbind option_bind]. rewrite Hh. split_and!; [done | done |].
  apply holds_cstr; [by apply Forall_app | done].
Qed.

(** C24. The two copies of the command line fit the memory allocated for
    them, with and without a configuration.  The one that is parsed is the
    configuration's part followed by the line of the architecture; the one
    that is reported is the configuration's part followed by the line, with
    the arguments of the configuration for init behind a " -- " that is added,
    or between the "-- " of the line and its own arguments - and when no space
    is in front of the place, as in a line that ends in "--", with a stray
    copy of the character there behind them.  Both are terminated, and the
    length kept with the first is the length of its text. *)
Theorem setup_command_line_spec cfg boot_command_line command_line :
  text_ok boot_command_line → text_ok command_line →
  text_ok (default [] (extra_command_line cfg)) → text_ok (default [] (extra_init_args cfg)) →
  (length command_line <= length boot_command_line)%nat →
  (initargs_offs cfg <= length boot_command_line)%nat →
  (∀ n, alloc_ok n = true) →
  ∃ saved static text, line_saved cfg boot_command_line text ∧
    setup_command_line alloc_ok cfg boot_command_line command_line
      = Some (inr (saved, static, length (default [] (extra_command_line cfg) ++ text))) ∧
    cstr saved = default [] (extra_command_line cfg) ++ text ∧
    cstr static = default [] (extra_command_line cfg) ++ command_line.
Proof.
  intros Hboot Hcmd Hextra Hargs Hle Hoffs Halloc.
  destruct (setup_command_line_fits cfg boot_command_line command_line)
    as [[_ [n Hn]]|(saved & static & Hrun & Hsaved & Hstatic)];
    [done..|by rewrite Halloc in Hn|].
  exists saved, static, (init_text cfg boot_command_line).
  split_and!; [by apply init_text_saved | done..].
Qed.
End command_line.

(** ** Runs *)

Module CommandLineRuns.

Definition always (n : nat) : bool := true.

(** A configuration with a key of two values and a key without a value. *)
Definition keys : list xbc_key :=
  [XbcKey (inr (bytes_of_string "console")) (Some [bytes_of_string "tty0"; bytes_of_string "ttyS0"]);
   XbcKey (inr (bytes_of_string "quiet")) None].
Definition find (key : list Z) : option (list xbc_key) :=
  if bool_decide (key = bytes_of_string "kernel") then Some keys else None.

Example kernel_keys :
  ((λ b, cstr b) <$> xbc_make_cmdline always find (bytes_of_string "kernel")) =
  Some (bytes_of_string "console=" ++ [QUOTE] ++ bytes_of_string "tty0" ++ [QUOTE; SPACE] ++
        bytes_of_string "console=" ++ [QUOTE] ++ bytes_of_string "ttyS0" ++ [QUOTE; SPACE] ++
        bytes_of_string "quiet ").
Proof. by vm_compute. Qed.

(** A configuration is used only when the line asks for it. *)
Example needs_bootconfig :
  extra_command_line (setup_boot_config always find false (Some 10) None [] ParseEnd 0) = None ∧
  is_Some (extra_command_line (setup_boot_config always find false (Some 10) None
    [bytes_of_string "bootconfig"] ParseEnd 0)).
Proof. split; [done | eexists; by vm_compute]. Qed.

Definition cfg : bootconfig :=
  BootConfig true 14 (Some (bytes_of_string "quiet ")) (Some (bytes_of_string "a b ")).
Definition line : list Z := bytes_of_string "bootconfig -- single".

(** The arguments of the configuration come before those of the line. *)
Example saved_line :
  saved_text cfg line = bytes_of_string "quiet bootconfig -- a b  single".
Proof. by vm_compute. Qed.

(** A line that ends in "--": the position behind it is the end of the line,
    and the arguments are saved against the dashes, with another dash. *)
Definition bare_line : list Z := bytes_of_string "bootconfig --".
Definition bare_cfg : bootconfig := BootConfig true 13 None (Some (bytes_of_string "x ")).
Example saved_bare_line :
  match setup_command_line always bare_cfg bare_line bare_line with
  | Some (inr (saved, _, _)) => cstr saved = bytes_of_string "bootconfig --x -"
  | _ => False
  end.
Proof. by vm_compute. Qed.

Lemma setup_command_line_spec_witness :
  ∃ saved static text, line_saved cfg line text ∧
    setup_command_line always cfg line line
      = Some (inr (saved, static, length (default [] (extra_command_line cfg) ++ text))) ∧
    cstr saved = default [] (extra_command_line cfg) ++ text ∧
    cstr static = default [] (extra_command_line cfg) ++ line.
Proof.
  apply (setup_command_line_spec always cfg line line);
    [by apply (bool_decide_unpack _); vm_compute..
    | by apply (bool_decide_unpack _); vm_compute
    | by apply (bool_decide_unpack _); vm_compute | done].
Defined.

(** A ram disk of four bytes at address [2^34] with the configuration "a=b"
    and two bytes of padding; the checksum is the sum of the bytes. *)
Definition base : Z := 2 ^ 34.
Definition config : list Z := bytes_of_string "a=b".
Definition disk : list Z :=
  [1; 2; 3; 4] ++ config ++ bytes_of_u32 (Z.of_nat (length config)) ++
  bytes_of_u32 (sumZ config) ++ BOOTCONFIG_MAGIC ++ [0; 0].
Definition disk_mem (a : Z) : Z := default 0 (disk !! Z.to_nat (a - base)).

Lemma boot_config_roundtrip_witness :
  get_boot_config_from_initrd disk_mem sumZ base (base + 29) = (Some (base + 4, 3), base + 4).
Proof.
  apply (boot_config_roundtrip disk_mem sumZ base (base + 29) [1; 2; 3; 4] config [0; 0]);
    [by apply (bool_decide_unpack _); vm_compute.. | by vm_compute].
Defined.

Lemma boot_config_inside_witness :
  match get_boot_config_from_initrd disk_mem sumZ base (base + 29) with
  | (None, initrd_end') => initrd_end' = base + 29
  | (Some (data, size), initrd_end') =>
      initrd_end' = data ∧ base <= data ∧ 0 <= size ∧ data + size + 20 <= base + 29 ∧
      size = read_le32 disk_mem (data + size) ∧
      sumZ (read_bytes disk_mem data (Z.to_nat size)) = read_le32 disk_mem (data + size + 4) ∧
      read_bytes disk_mem (data + size + 8) 12 = BOOTCONFIG_MAGIC
  end.
Proof.
  apply (boot_config_inside disk_mem sumZ base (base + 29)).
  - intros a. unfold disk_mem.
    assert (Hb : Forall (λ b, 0 <= b < 256) disk) by (by apply (bool_decide_unpack _); vm_compute).
    destruct (disk !! _) as [b|] eqn:Hl; cbn; [|lia]. by eapply Forall_lookup_1 in Hb.
  - split; by apply (bool_decide_unpack _); vm_compute.
  - by apply (bool_decide_unpack _); vm_compute.
Defined.

(** A wrong checksum keeps the ram disk as it is. *)
Example bad_checksum :
  get_boot_config_from_initrd disk_mem (λ _, 0) base (base + 29) = (None, base + 29).
Proof. by vm_compute. Qed.

End CommandLineRuns.
