(* ===== verification/Threads.v ===== *)
(** * Threads: two threads of control over a shared state

    A thread is a list of named actions, each of which is executed in one step
    on the state the threads share.  An action goes on with a new state, waits,
    stops the machine with a panic, or dereferences a bad pointer.  The scheduler
    picks either thread at every step.

    An outline of a thread assigns an assertion to each of its points.  The
    assertions have to survive the steps of the other thread, given by a
    relation (the rely), and the steps of the thread have to stay within the
    relation the other one relies on (the guarantee).  Two outlines that fit
    make every interleaving safe; when each thread waits only where the other
    one can go on, the pair does not deadlock. *)

From S2P Require Import Prelude.

Inductive verdict (S : Type) : Type :=
  | Goes (s : S) | Waits | Panics (msg : string) (s : S) | Oops.
Arguments Goes {S}.
Arguments Waits {S}.
Arguments Panics {S}.
Arguments Oops {S}.

Record action (S : Type) := Action { act_name : string; act_run : S → verdict S }.
Arguments Action {S}.
Arguments act_name {S}.
Arguments act_run {S}.

Inductive thread := First | Second.
#[export] Instance thread_eq_dec : EqDecision thread.
Proof. solve_decision. Defined.

Section threads.
Context {S : Type}.
Abbreviation program := (list (action S)).
Implicit Types (P Q : S → Prop) (R G : S → S → Prop) (l : program).

(** One thread alone. *)
Fixpoint run_program l (s : S) : verdict S :=
  match l with
  | [] => Goes s
  | a :: l => match act_run a s with Goes s => run_program l s | v => v end
  end.

(** What the threads have to do, the state, and a log of what they have done. *)
Abbreviation history := (list (thread * string)).
Inductive config :=
  | Pair (l1 l2 : program) (log : history) (s : S)
  | Halted (msg : string) (s : S)
  | Crashed.

Inductive sched_step : config → config → Prop :=
  | sched_first a l1 l2 log s s' :
      act_run a s = Goes s' →
      sched_step (Pair (a :: l1) l2 log s) (Pair l1 l2 (log ++ [(First, act_name a)]) s')
  | sched_second a l1 l2 log s s' :
      act_run a s = Goes s' →
      sched_step (Pair l1 (a :: l2) log s) (Pair l1 l2 (log ++ [(Second, act_name a)]) s')
  | sched_first_panic a l1 l2 log s msg s' :
      act_run a s = Panics msg s' → sched_step (Pair (a :: l1) l2 log s) (Halted msg s')
  | sched_second_panic a l1 l2 log s msg s' :
      act_run a s = Panics msg s' → sched_step (Pair l1 (a :: l2) log s) (Halted msg s')
  | sched_first_oops a l1 l2 log s : act_run a s = Oops → sched_step (Pair (a :: l1) l2 log s) Crashed
  | sched_second_oops a l1 l2 log s : act_run a s = Oops → sched_step (Pair l1 (a :: l2) log s) Crashed.

(** ** Outlines *)

Definition stable R P : Prop := ∀ s s', R s s' → P s → P s'.

(** What one action may do at a point where [P] holds; it may wait only where
    [U] does not hold, and follow a bad pointer only if [X], the excuse for it,
    holds. *)
Definition action_ok (X : Prop) (U : S → Prop) G P Q (a : action S) : Prop :=
  ∀ s, P s →
    match act_run a s with
    | Goes s' => G s s' ∧ Q s'
    | Waits => ¬ U s
    | Panics _ _ => True
    | Oops => X
    end.

Inductive outline (X : Prop) (U : S → Prop) R G : (S → Prop) → program → (S → Prop) → Prop :=
  | outline_done P : stable R P → outline X U R G P [] P
  | outline_cons P Q a l T :
      stable R P → action_ok X U G P Q a → outline X U R G Q l T → outline X U R G P (a :: l) T.

Section excused.
Context (X : Prop).
Abbreviation action_ok := (action_ok X).
Abbreviation outline := (outline X).

Lemma outline_stable U R G P l T : outline U R G P l T → stable R P.
Proof. by intros []. Qed.

Lemma outline_end U R G P T : outline U R G P [] T → T = P.
Proof. by inversion 1. Qed.

(** A stronger assertion in front. *)
Lemma outline_pre U R G P P' a l T :
  stable R P' → (∀ s, P' s → P s) → outline U R G P (a :: l) T → outline U R G P' (a :: l) T.
Proof.
  intros HR HP Ho. inversion Ho as [|? Q ? ? ? _ Hok Hl]; subst.
  apply outline_cons with Q; [done| |done]. intros s Hs. by apply Hok, HP.
Qed.

Lemma outline_app U R G P l1 Q l2 T :
  outline U R G P l1 Q → outline U R G Q l2 T → outline U R G P (l1 ++ l2) T.
Proof. induction 1; [done|]. intros. by eapply outline_cons; eauto. Qed.

(** A stretch of actions at which the same assertion holds throughout. *)
Lemma outline_same U R G P l :
  stable R P → Forall (action_ok U G P P) l → outline U R G P l P.
Proof. intros HR. induction 1; [by constructor|]. by eapply outline_cons. Qed.

Lemma action_ok_impl U G P P' Q Q' a :
  (∀ s, P' s → P s) → (∀ s, Q s → Q' s) → action_ok U G P Q a → action_ok U G P' Q' a.
Proof.
  intros HP HQ Ha s Hs. specialize (Ha s (HP s Hs)). destruct (act_run a s); [|done..].
  destruct Ha. auto.
Qed.

(** Behind a point that is never reached everything is fine. *)
Lemma outline_false U R G a l T : stable R T → outline U R G (λ _, False) (a :: l) T.
Proof.
  intros HT. assert (HF : stable R (λ _, False)) by by intros s s'.
  assert (Hok : ∀ Q a, action_ok U G (λ _, False) Q a) by by intros Q b s.
  revert a. induction l as [|b l IH]; intros a.
  - apply outline_cons with T; [done..|]. by constructor.
  - by apply outline_cons with (λ _, False).
Qed.

(** ** Two outlines that fit *)

Section parallel.
Context (U1 U2 : S → Prop) (R1 R2 G1 G2 : S → S → Prop) (T1 T2 : S → Prop).
Context (fit12 : ∀ s s', G1 s s' → R2 s s') (fit21 : ∀ s s', G2 s s' → R1 s s').

Definition outlined (c : config) : Prop :=
  match c with
  | Pair l1 l2 _ s =>
      (∃ P, P s ∧ outline U1 R1 G1 P l1 T1) ∧ (∃ P, P s ∧ outline U2 R2 G2 P l2 T2)
  | Halted _ _ => True
  | Crashed => X
  end.

Lemma outlined_step c c' : sched_step c c' → outlined c → outlined c'.
Proof.
  intros Hstep. destruct Hstep as [a l1 l2 log s s' Ha|a l1 l2 log s s' Ha| | |a l1 l2 log s Ha|a l1 l2 log s Ha];
    cbn [outlined]; [| |done|done| |]; intros [(P & HP & Ho1) (P' & HP' & Ho2)].
  - inversion Ho1 as [|? Q ? ? ? _ Hok Ho]; subst. specialize (Hok s HP). rewrite Ha in Hok.
    destruct Hok as [HG HQ]. split; [by exists Q|]. exists P'. split; [|done].
    by eapply outline_stable; [|apply fit12|].
  - inversion Ho2 as [|? Q ? ? ? _ Hok Ho]; subst. specialize (Hok s HP'). rewrite Ha in Hok.
    destruct Hok as [HG HQ]. split; [|by exists Q]. exists P. split; [|done].
    by eapply outline_stable; [|apply fit21|].
  - inversion Ho1 as [|? Q ? ? ? _ Hok Ho]; subst. specialize (Hok s HP). by rewrite Ha in Hok.
  - inversion Ho2 as [|? Q ? ? ? _ Hok Ho]; subst. specialize (Hok s HP'). by rewrite Ha in Hok.
Qed.

Lemma outlined_steps c c' : rtc sched_step c c' → outlined c → outlined c'.
Proof. induction 1; [done|]. eauto using outlined_step. Qed.

Lemma outlined_start P1 P2 l1 l2 s :
  outline U1 R1 G1 P1 l1 T1 → outline U2 R2 G2 P2 l2 T2 → P1 s → P2 s →
  outlined (Pair l1 l2 [] s).
Proof. intros H1 H2 Hs1 Hs2. split; [by exists P1 | by exists P2]. Qed.

(** When the first thread has no end and waits only where the second one can go
    on, the pair stops only with the second thread done. *)
Lemma outlined_progress l1 l2 log s :
  (∀ s, ¬ T1 s) → (∀ s, ¬ U1 s → U2 s) → outlined (Pair l1 l2 log s) →
  (∃ a l, l1 = a :: l ∧ act_run a s = Waits ∧ l2 = [] ∧ T2 s) ∨ ∃ c, sched_step (Pair l1 l2 log s) c.
Proof.
  intros HT1 HU [(P & HP & Ho1) (P' & HP' & Ho2)]. destruct l1 as [|a l1].
  { apply outline_end in Ho1 as <-. by destruct (HT1 s). }
  inversion Ho1 as [|? Q ? ? ? _ Hok Ho]; subst. specialize (Hok s HP).
  destruct (act_run a s) eqn:Ha;
    [right; by eexists; eapply sched_first | | right; by eexists; eapply sched_first_panic
    | right; by eexists; eapply sched_first_oops].
  destruct l2 as [|a' l2]; [apply outline_end in Ho2 as <-; left; by eexists _, _|]. right.
  inversion Ho2 as [|? Q' ? ? ? _ Hok' Ho']; subst. specialize (Hok' s HP').
  destruct (act_run a' s) eqn:Ha';
    [by eexists; eapply sched_second | | by eexists; eapply sched_second_panic
    | by eexists; eapply sched_second_oops].
  destruct Hok'. by apply HU.
Qed.

(** A property of the state that both guarantees keep. *)
Definition state_is (I : S → Prop) (c : config) : Prop :=
  match c with Pair _ _ _ s => I s | _ => True end.
Lemma outlined_keeps (I : S → Prop) c c' :
  (∀ s s', G1 s s' → I s → I s') → (∀ s s', G2 s s' → I s → I s') →
  outlined c → rtc sched_step c c' → state_is I c → state_is I c'.
Proof.
  intros HI1 HI2 Ho Hsteps. induction Hsteps as [|c1 c2 c3 Hs Hss IH]; [done|]. intros HI.
  apply IH; [by eapply outlined_step|]. clear IH Hss.
  destruct Hs as [a l1 l2 log s s' Ha|a l1 l2 log s s' Ha| | | |]; cbn [state_is] in *; try done;
    destruct Ho as [(P & HP & Ho1) (P' & HP' & Ho2)].
  - inversion Ho1 as [|? Q ? ? ? _ Hok _]; subst. specialize (Hok s HP). rewrite Ha in Hok.
    destruct Hok as [HG _]. by apply (HI1 s).
  - inversion Ho2 as [|? Q ? ? ? _ Hok _]; subst. specialize (Hok s HP'). rewrite Ha in Hok.
    destruct Hok as [HG _]. by apply (HI2 s).
Qed.
End parallel.
End excused.

(** ** What cannot be avoided

    [inevitable P c]: whatever the scheduler does from [c] on, it does not get
    stuck before a configuration with [P], and it gets there. *)

Definition todo (c : config) : nat :=
  match c with Pair l1 l2 _ _ => Datatypes.S (length l1 + length l2) | _ => 0 end.
Lemma sched_step_todo c c' : sched_step c c' → (todo c' < todo c)%nat.
Proof. destruct 1; cbn; lia. Qed.

Inductive inevitable (P : config → Prop) (c : config) : Prop :=
  | inevitable_now : P c → inevitable P c
  | inevitable_later :
      (∃ c', sched_step c c') → (∀ c', sched_step c c' → inevitable P c') → inevitable P c.

Lemma inevitable_intro (P : config → Prop) c :
  (∀ c', rtc sched_step c c' → P c' ∨ ∃ c'', sched_step c' c'') → inevitable P c.
Proof.
  remember (todo c) as n eqn:Hn. revert c Hn. induction (lt_wf n) as [n _ IH]. intros c -> Hc.
  destruct (Hc c (rtc_refl _ _)) as [?|Hs]; [by apply inevitable_now|].
  apply inevitable_later; [done|]. intros c' Hc'. eapply IH; [by apply sched_step_todo | done|].
  intros c2 Hc2. apply Hc. by eapply rtc_l.
Qed.

(** ** What is left, and where a panic comes from *)

Definition remains (p1 p2 : program) (c : config) : Prop :=
  match c with
  | Pair l1 l2 _ _ => l1 `suffix_of` p1 ∧ l2 `suffix_of` p2
  | Halted msg s' => ∃ a s, a ∈ p1 ++ p2 ∧ act_run a s = Panics msg s'
  | Crashed => True
  end.
Lemma remains_step p1 p2 c c' : sched_step c c' → remains p1 p2 c → remains p1 p2 c'.
Proof.
  assert (Htail : ∀ a l p, a :: l `suffix_of` p → l `suffix_of` p ∧ a ∈ p).
  { intros a l p [k ->]. split; [by exists (k ++ [a]); rewrite <-app_assoc|].
    apply elem_of_app. right. by left. }
  intros Hs. destruct Hs; cbn [remains]; try done; intros [H1 H2];
    try apply Htail in H1 as [H1 Ha]; try apply Htail in H2 as [H2 Hb]; try done;
    eexists _, _; (split; [|done]); apply elem_of_app; tauto.
Qed.
Lemma remains_steps p1 p2 s c : rtc sched_step (Pair p1 p2 [] s) c → remains p1 p2 c.
Proof.
  assert (Hgen : ∀ c c', rtc sched_step c c' → remains p1 p2 c → remains p1 p2 c').
  { induction 1; [done|]. eauto using remains_step. }
  intros Hs. by apply (Hgen _ _ Hs).
Qed.

(** ** Running with a given scheduler *)

(** One step of the chosen thread; nothing when it waits or has ended. *)
Definition choose (t : thread) (c : config) : config :=
  match c with
  | Pair l1 l2 log s =>
      match t, l1, l2 with
      | First, a :: l1', _ =>
          match act_run a s with
          | Goes s' => Pair l1' l2 (log ++ [(First, act_name a)]) s'
          | Waits => c
          | Panics msg s' => Halted msg s'
          | Oops => Crashed
          end
      | Second, _, a :: l2' =>
          match act_run a s with
          | Goes s' => Pair l1 l2' (log ++ [(Second, act_name a)]) s'
          | Waits => c
          | Panics msg s' => Halted msg s'
          | Oops => Crashed
          end
      | _, _, _ => c
      end
  | _ => c
  end.
Definition run_choices (ts : list thread) (c : config) : config := foldl (λ c t, choose t c) c ts.

Lemma choose_steps t c : rtc sched_step c (choose t c).
Proof.
  destruct c as [l1 l2 log s| |]; [|reflexivity..].
  destruct t, l1 as [|a l1], l2 as [|a' l2]; cbn [choose]; try reflexivity;
    destruct (act_run _ s) eqn:Ha; try reflexivity; apply rtc_once; by constructor.
Qed.
Lemma run_choices_steps ts c : rtc sched_step c (run_choices ts c).
Proof.
  revert c. induction ts as [|t ts IH]; intros c; [reflexivity|]. cbn [run_choices foldl].
  etransitivity; [apply choose_steps | apply IH].
Qed.
End threads.
