(* ===== verification/Initcalls.v ===== *)
(** * Initcalls: running the initcalls and starting init

    The part of [init/main.c] that runs after the boot options are known: the
    blacklist of initcalls, [do_one_initcall], the levels of initcalls
    ([do_pre_smp_initcalls], [do_initcall_level], [do_initcalls]) and the choice
    of the program that becomes init ([run_init_process], [kernel_init]).

    The initcalls themselves, the table the linker makes of them, the symbol
    names, the option parser and [kernel_execve] are code outside of this
    repository: they are parameters, and every one of them may change the state
    of the machine ([W]) as it likes. *)

From stdpp Require Import sorting.
From S2P Require Import Prelude CString BootParams.

(** ** The blacklist *)

Definition COMMA : Z := 44.

(** [strsep(&str, ",")]: the part before the first comma, and the rest of the
    line, [None] once the line is used up. *)
Fixpoint strsep (str : list Z) : list Z * option (list Z) :=
  match str with
  | [] => ([], None)
  | c :: str =>
      if c =? COMMA then ([], Some str)
      else let '(entry, rest) := strsep str in (c :: entry, rest)
  end.

Section blacklist.
(** [memblock_alloc] of that many bytes succeeds; the size of an entry. *)
Context (alloc_ok : nat → bool) (entry_size : nat).

(** The loop, at most [fuel] times; [Some None] is the panic of a failed
    allocation, [None] means out of fuel.  The entries are kept in the order of
    the kernel's list, where [list_add] puts a new one in front. *)
Fixpoint blacklist_loop (fuel : nat) (str : option (list Z)) (blacklisted : list (list Z))
    : option (option (list (list Z))) :=
  match fuel with
  | O => None
  | S fuel =>
      match str with
      | None => Some (Some blacklisted)
      | Some str =>
          let '(str_entry, str) := strsep str in
          if negb (alloc_ok entry_size) then Some None
          else if negb (alloc_ok (length str_entry + 1)) then Some None
          else blacklist_loop fuel str (str_entry :: blacklisted)
      end
  end.
(** [initcall_blacklist]; it returns 1. *)
Definition initcall_blacklist (str : list Z) (blacklisted : list (list Z))
    : option (option (list (list Z))) :=
  blacklist_loop (length str + 2) (Some str) blacklisted.
End blacklist.

(** ** Initcalls *)

(** What an initcall can disturb: the preemption count, the interrupt flag and
    everything else. *)
Record cpu (W : Type) := Cpu { preempt_count : Z; irqs_disabled : bool; world : W }.
Arguments Cpu {W}.
Arguments preempt_count {W}.
Arguments irqs_disabled {W}.
Arguments world {W}.

Section initcalls.
Context {initcall W : Type}.
(** The name [sprint_symbol_no_offset] prints, and what a call does. *)
Context (symbol : initcall → list Z) (call : initcall → cpu W → Z * cpu W).
Context (blacklisted : list (list Z)).

(** [strreplace(fn_name, ' ', '\0')], after which the name is a shorter C
    string, without the module. *)
Definition strreplace (s : list Z) (old new : Z) : list Z := (λ c, if c =? old then new else c) <$> s.
Definition initcall_blacklisted (fn : initcall) : bool :=
  match blacklisted with
  | [] => false
  | _ => bool_decide (cstr (strreplace (symbol fn) SPACE 0) ∈ blacklisted)
  end.

Definition IMBALANCE : list Z := bytes_of_string "preemption imbalance ".
Definition IRQS : list Z := bytes_of_string "disabled interrupts ".
(** [strlcat] into a buffer of that size. *)
Definition strlcat (dst text : list Z) (size : nat) : list Z := take (size - 1) (dst ++ text).

(** The result, the text of the warning (empty when there is none) and the
    state. *)
Definition do_one_initcall (fn : initcall) (s : cpu W) : Z * list Z * cpu W :=
  let count := preempt_count s in
  if initcall_blacklisted fn then (- EPERM, [], s)
  else
    let '(ret, s) := call fn s in
    let '(msgbuf, s) :=
      if negb (preempt_count s =? count) then (IMBALANCE, Cpu count (irqs_disabled s) (world s))
      else ([], s) in
    let '(msgbuf, s) :=
      if irqs_disabled s then (strlcat msgbuf IRQS 64, Cpu (preempt_count s) false (world s))
      else (msgbuf, s) in
    (ret, msgbuf, s).

(** A log of the calls made: which, what it returned, the warning. *)
Definition call_log : Type := list (initcall * Z * list Z).
Definition log_one (fn : initcall) (s : cpu W * call_log) : cpu W * call_log :=
  let '(ret, msg, c) := do_one_initcall fn s.1 in (c, s.2 ++ [(fn, ret, msg)]).

(** [for (fn = from; fn < to; fn++) do_one_initcall(...)] over the table of
    initcalls, with [n] entries to go; an entry outside of the table is an
    oops. *)
Fixpoint for_initcalls (table : list initcall) (from n : nat) : kst (cpu W * call_log) unit :=
  match n with
  | O => mret tt
  | S n =>
      fn ← kderef (table !! from);
      kmodify (log_one fn);;
      for_initcalls table (S from) n
  end.

(** The table of the linker script: the initcalls between [__initcall_start]
    and [__initcall_end], and where each level begins ([initcall_levels], whose
    last entry is the end). *)
Context (table : list initcall) (initcall_levels : list nat).
(** [parse_args] for the parameters of a level: it may change the copy of the
    command line it is given, and the state. *)
Context (parse_args : nat → list Z → cpu W → list Z * cpu W).

Definition do_pre_smp_initcalls : kst (cpu W * call_log) unit :=
  l0 ← kderef (initcall_levels !! 0%nat);
  for_initcalls table 0 l0.

(** The level and the copy of the command line it was parsed from are part of
    the result, to be able to speak about them. *)
Definition do_initcall_level (level : nat) (command_line : list Z)
    : kst (cpu W * call_log) (list Z) :=
  s ← kget;
  let '(command_line, c) := parse_args level command_line s.1 in
  kput (c, s.2);;
  fn ← kderef (initcall_levels !! level);
  last ← kderef (initcall_levels !! S level);
  for_initcalls table fn (last - fn);;
  mret command_line.

(** The loop over the levels; each copies the saved command line over what the
    level before left in the buffer. *)
Fixpoint level_loop (saved_command_line : list Z) (level n : nat) (command_line : list Z)
    : kst (cpu W * call_log) unit :=
  match n with
  | O => mret tt
  | S n =>
      command_line ← kderef (strcpy command_line 0 saved_command_line);
      command_line ← do_initcall_level level command_line;
      level_loop saved_command_line (S level) n command_line
  end.

(** The result says that the buffer could be allocated; a failure is a panic. *)
Definition do_initcalls (kzalloc_ok : bool) (saved_command_line : list Z)
    (saved_command_line_len : nat) : kst (cpu W * call_log) bool :=
  let len := (saved_command_line_len + 1)%nat in
  if negb kzalloc_ok then mret false
  else
    let command_line := replicate len 0 in
    level_loop saved_command_line 0 (length initcall_levels - 1) command_line;;
    mret true.
End initcalls.

(** [do_ctors]: the constructors, from first to last. *)
Definition do_ctors {W} (ctors : list (W → W)) (w : W) : W := foldl (λ w ctor, ctor w) w ctors.

(** ** The program that becomes init *)

Section kernel_init.
Context {W : Type}.
(** [kernel_execve] of a program with arguments and an environment;
    [init_eaccess]. *)
Context (kernel_execve : list Z → table → table → W → Z * W).

Record launch := Launch { tables : boot; outside : W; attempts : list (list Z * Z) }.

(** [argv_init[0]] is in the table whatever its size; the attempts are logged. *)
Definition run_init_process (init_filename : list Z) (s : launch) : Z * launch :=
  let b := set_argv (<[O := Some init_filename]> (argv_init (tables s))) (tables s) in
  let '(ret, w) := kernel_execve init_filename (argv_init b) (envp_init b) (outside s) in
  (ret, Launch b w (attempts s ++ [(init_filename, ret)])).
(** The message it may print is not modelled. *)
Definition try_to_run_init_process (init_filename : list Z) (s : launch) : Z * launch :=
  run_init_process init_filename s.

Inductive init_outcome := Running (init_filename : list Z) | PanicRequested (cmd : list Z) (error : Z)
  | PanicNoInit.
#[export] Instance init_outcome_eq_dec : EqDecision init_outcome.
Proof. solve_decision. Defined.

(** The end of [kernel_init_freeable]: without access to the early user space
    there is none.  [None] is a null pointer. *)
Definition check_ramdisk (init_eaccess : option (list Z) → Z) (b : boot) : boot :=
  if nz (init_eaccess (ramdisk_execute_command b)) then set_ramdisk None b else b.

Fixpoint try_each (names : list (list Z)) (s : launch) : option (list Z) * launch :=
  match names with
  | [] => (None, s)
  | name :: names =>
      let '(ret, s) := try_to_run_init_process name s in
      if ret =? 0 then (Some name, s) else try_each names s
  end.

Definition FALLBACKS : list (list Z) :=
  bytes_of_string <$> ["/sbin/init"; "/etc/init"; "/bin/init"; "/bin/sh"]%string.

(** The end of [kernel_init], from [CONFIG_DEFAULT_INIT] on. *)
Definition default_init (CONFIG_DEFAULT_INIT : list Z) (s : launch) : init_outcome * launch :=
  let fallback s :=
    match try_each FALLBACKS s with
    | (Some name, s) => (Running name, s)
    | (None, s) => (PanicNoInit, s)
    end in
  match CONFIG_DEFAULT_INIT with
  | [] => fallback s
  | _ =>
      let '(ret, s) := run_init_process CONFIG_DEFAULT_INIT s in
      if nz ret then fallback s else (Running CONFIG_DEFAULT_INIT, s)
  end.
Definition requested_init (CONFIG_DEFAULT_INIT : list Z) (s : launch) : init_outcome * launch :=
  match execute_command (tables s) with
  | Some cmd =>
      let '(ret, s) := run_init_process cmd s in
      if ret =? 0 then (Running cmd, s) else (PanicRequested cmd ret, s)
  | None => default_init CONFIG_DEFAULT_INIT s
  end.
Definition kernel_init (CONFIG_DEFAULT_INIT : list Z) (s : launch) : init_outcome * launch :=
  match ramdisk_execute_command (tables s) with
  | Some cmd =>
      let '(ret, s) := run_init_process cmd s in
      if ret =? 0 then (Running cmd, s) else requested_init CONFIG_DEFAULT_INIT s
  | None => requested_init CONFIG_DEFAULT_INIT s
  end.
End kernel_init.

(** ** The specifications *)

(** The fields of a comma-separated line. *)
Fixpoint fields (str : list Z) : list (list Z) :=
  match str with
  | [] => [[]]
  | c :: str =>
      if c =? COMMA then [] :: fields str
      else match fields str with
           | entry :: rest => (c :: entry) :: rest
           | [] => [[c]]
           end
  end.

(** What happens when the kernel runs its initcalls: the calls of the table in
    order, and before the calls of each level the parameters of that level. *)
Inductive event (initcall : Type) := Run (fn : initcall) | Parse (level : nat).
Arguments Run {initcall}.
Arguments Parse {initcall}.

Fixpoint level_schedule {initcall} (table : list initcall) (level from : nat) (bounds : list nat)
    : list (event initcall) :=
  match bounds with
  | [] => []
  | to :: bounds =>
      Parse level :: (Run <$> take (to - from) (drop from table))
        ++ level_schedule table (S level) to bounds
  end.
Definition schedule {initcall} (table : list initcall) (initcall_levels : list nat)
    : list (event initcall) :=
  match initcall_levels with
  | [] => []
  | l0 :: bounds => (Run <$> take l0 table) ++ level_schedule table 0 l0 bounds
  end.
Definition run_of {initcall} (e : event initcall) : option initcall :=
  match e with Run fn => Some fn | Parse _ => None end.

(** What the linker script promises of the levels. *)
Definition levels_ok {initcall} (table : list initcall) (initcall_levels : list nat) : Prop :=
  StronglySorted le initcall_levels ∧ last initcall_levels = Some (length table).

(** ** Lemmas *)

Lemma fields_nonempty str : fields str ≠ [].
Proof. destruct str as [|c str]; [done|]. cbn. destruct (c =? COMMA); [done|]. by destruct (fields str). Qed.

Lemma strsep_fields str :
  match strsep str with
  | (entry, None) => fields str = [entry]
  | (entry, Some rest) => fields str = entry :: fields rest ∧ (length rest < length str)%nat
  end.
Proof.
  induction str as [|c str IH]; [done|]. cbn [strsep fields].
  destruct (c =? COMMA); [split; [done | cbn; lia]|].
  destruct (strsep str) as [entry [rest|]].
  - destruct IH as [-> Hl]. split; [done | cbn; lia].
  - by rewrite IH.
Qed.

Lemma blacklist_loop_run alloc_ok entry_size fuel str bl :
  (∀ n, alloc_ok n = true) → (length str + 2 <= fuel)%nat →
  blacklist_loop alloc_ok entry_size fuel (Some str) bl = Some (Some (rev (fields str) ++ bl)).
Proof.
  intros Halloc. revert str bl. induction fuel as [|fuel IH]; intros str bl Hf; [lia|].
  cbn [blacklist_loop]. rewrite !Halloc. pose proof (strsep_fields str) as Hs.
  destruct (strsep str) as [entry [rest|]]; rewrite ?Halloc; cbn [negb].
  - destruct Hs as [-> Hl]. rewrite IH by lia. cbn. by rewrite <-app_assoc.
  - rewrite Hs. destruct fuel; [lia | done].
Qed.

Section initcall_facts.
Context {initcall W : Type} (symbol : initcall → list Z) (call : initcall → cpu W → Z * cpu W).
Context (blacklisted : list (list Z)) (table : list initcall) (initcall_levels : list nat).
Context (parse_args : nat → list Z → cpu W → list Z * cpu W).

Local Abbreviation log1 := (log_one symbol call blacklisted).

(** One event: the parser of a level sees the saved command line. *)
Definition step (saved : list Z) (s : cpu W * call_log (initcall := initcall)) (e : event initcall) :=
  match e with
  | Run fn => log1 fn s
  | Parse level => ((parse_args level (saved ++ [0]) s.1).2, s.2)
  end.

Lemma for_initcalls_run from n s :
  (from + n <= length table)%nat →
  for_initcalls symbol call blacklisted table from n s =
    Some (tt, foldl (λ s fn, log1 fn s) s (take n (drop from table))).
Proof.
  revert from s. induction n as [|n IH]; intros from s Hn; [done|]. cbn [for_initcalls].
  destruct (lookup_lt_is_Some_2 table from) as [fn Hfn]; [lia|].
  rewrite Hfn. cbn [kderef]. rewrite kbind_ret, kbind_modify, IH by lia.
  by rewrite (drop_S table fn from Hfn).
Qed.

Lemma foldl_runs saved s fns :
  foldl (step saved) s (Run <$> fns) = foldl (λ s fn, log1 fn s) s fns.
Proof. revert s. induction fns as [|fn fns IH]; intros s; [done|]. apply IH. Qed.

Lemma levels_cons_ok l l' ls :
  levels_ok table (l :: l' :: ls) → (l <= l' <= length table)%nat ∧ levels_ok table (l' :: ls).
Proof.
  intros [[Hle Hs]%StronglySorted_cons Hlast]. rewrite last_cons_cons in Hlast.
  inversion_clear Hle. split; [split; [done|] | done].
  apply last_Some_elem_of in Hlast. apply StronglySorted_cons in Hs as [Hs _].
  apply elem_of_cons in Hlast as [->|Hin]; [done|].
  rewrite Forall_forall in Hs. by apply Hs.
Qed.

Lemma level_schedule_runs level from bounds :
  levels_ok table (from :: bounds) →
  omap run_of (level_schedule table level from bounds) = drop from table.
Proof.
  revert level from. induction bounds as [|to bounds IH]; intros level from Hok.
  - destruct Hok as [_ [= ->]]. cbn. by rewrite drop_ge.
  - apply levels_cons_ok in Hok as [Hle Hok]. cbn [level_schedule omap list_omap run_of].
    rewrite omap_app, IH by done.
    assert (Hr : ∀ fns : list initcall, omap run_of (Run <$> fns) = fns)
      by (intros fns; induction fns as [|fn fns IHf]; [done | cbn; by rewrite IHf]).
    rewrite Hr. rewrite <-(take_drop (to - from) (drop from table)) at 2. rewrite drop_drop.
    by replace (from + (to - from))%nat with to by lia.
Qed.
Lemma schedule_runs : levels_ok table initcall_levels →
  omap run_of (schedule table initcall_levels) = table.
Proof.
  intros Hok. unfold schedule. destruct initcall_levels as [|l0 bounds]; [by destruct Hok|].
  rewrite omap_app, level_schedule_runs by done.
  assert (Hr : ∀ fns : list initcall, omap run_of (Run <$> fns) = fns)
    by (intros fns; induction fns as [|fn fns IHf]; [done | cbn; by rewrite IHf]).
  rewrite Hr. apply take_drop.
Qed.

Lemma steps_log saved s es :
  (foldl (step saved) s es).2.*1.*1 = s.2.*1.*1 ++ omap run_of es.
Proof.
  revert s. induction es as [|[fn|level] es IH]; intros s; cbn [foldl omap list_omap run_of].
  - by rewrite app_nil_r.
  - rewrite IH. cbn [step]. unfold log_one.
    destruct (do_one_initcall symbol call blacklisted fn s.1) as [[ret msg] c]. cbn [snd].
    by rewrite !fmap_app, <-app_assoc.
  - by rewrite IH.
Qed.

Context (Hparse : ∀ level buf s, length (parse_args level buf s).1 = length buf).

Lemma level_loop_run saved level from bounds buf s :
  drop level initcall_levels = from :: bounds → levels_ok table (from :: bounds) →
  length buf = (length saved + 1)%nat →
  level_loop symbol call blacklisted table initcall_levels parse_args saved level (length bounds) buf s =
    Some (tt, foldl (step saved) s (level_schedule table level from bounds)).
Proof.
  revert level from buf s. induction bounds as [|to bounds IH]; intros level from buf s Hl Hok Hbuf; [done|].
  assert (Hfrom : initcall_levels !! level = Some from)
    by (rewrite <-(Nat.add_0_r level), <-lookup_drop, Hl; done).
  assert (Hto : initcall_levels !! S level = Some to)
    by (rewrite <-(Nat.add_1_r level), <-lookup_drop, Hl; done).
  apply levels_cons_ok in Hok as [Hle Hok].
  cbn [level_loop length]. assert (Hc : strcpy buf 0 saved = Some (saved ++ [0])).
  { apply strcpy_Some. split; [lia|]. rewrite drop_ge by lia. done. }
  rewrite Hc. cbn [kderef]. rewrite kbind_ret. unfold do_initcall_level. rewrite kbind_assoc, kbind_get.
  cbn [level_schedule foldl step].
  pose proof (Hparse level (saved ++ [0]) s.1) as Hpl.
  destruct (parse_args level (saved ++ [0]) s.1) as [buf' c]. cbn [fst snd] in *.
  rewrite kbind_assoc. erewrite kbind_some by reflexivity. rewrite Hfrom, Hto. cbn [kderef].
  rewrite kbind_assoc, kbind_ret, kbind_assoc, kbind_ret, kbind_assoc.
  rewrite (kbind_some _ _ _ _ _ (for_initcalls_run from (to - from) _ ltac:(lia))), kbind_ret.
  rewrite (IH (S level) to); [| | done | rewrite Hpl, length_app; done].
  - by rewrite foldl_app, foldl_runs.
  - rewrite <-Nat.add_1_r, <-drop_drop, Hl. done.
Qed.

Lemma pre_smp_run l0 bounds s :
  initcall_levels = l0 :: bounds → levels_ok table initcall_levels →
  do_pre_smp_initcalls symbol call blacklisted table initcall_levels s =
    Some (tt, foldl (λ s fn, log1 fn s) s (take l0 table)).
Proof.
  intros Hl Hok. rewrite Hl in Hok. unfold do_pre_smp_initcalls. rewrite Hl.
  cbn [lookup list_lookup kderef]. rewrite kbind_ret, for_initcalls_run; [by rewrite drop_0|].
  destruct bounds; [destruct Hok as [_ [= ->]]; lia | apply levels_cons_ok in Hok as [? _]; lia].
Qed.

Lemma do_initcalls_run l0 bounds saved s :
  initcall_levels = l0 :: bounds → levels_ok table initcall_levels →
  do_initcalls symbol call blacklisted table initcall_levels parse_args true saved (length saved) s =
    Some (true, foldl (step saved) s (level_schedule table 0 l0 bounds)).
Proof.
  intros Hl Hok. unfold do_initcalls. cbn [negb].
  pose proof (level_loop_run saved 0 l0 bounds (replicate (length saved + 1) 0) s) as Hloop.
  rewrite Hl in *. rewrite drop_0 in Hloop. cbn [length]. rewrite Nat.sub_1_r. cbn [Nat.pred].
  erewrite kbind_some; [apply kret_run|].
  apply Hloop; [done | done | by rewrite length_replicate].
Qed.

(** C19. Running all initcalls is running the table of the linker from its
    first entry to its last, the early ones first and the levels in their
    order, each initcall once; before the calls of a level its parameters are
    parsed from the whole saved command line, whatever the parser left of the
    copy used for the level before. *)
Theorem initcalls_run_in_order saved s :
  levels_ok table initcall_levels →
  ∃ s', (do_pre_smp_initcalls symbol call blacklisted table initcall_levels;;
         do_initcalls symbol call blacklisted table initcall_levels parse_args true saved (length saved)) s
    = Some (true, s') ∧
    s' = foldl (step saved) s (schedule table initcall_levels) ∧
    s'.2.*1.*1 = s.2.*1.*1 ++ table.
Proof.
  intros Hok. eexists. split; [|split; [reflexivity|]].
  2: { rewrite steps_log, schedule_runs by done. done. }
  assert (∃ l0 bounds, initcall_levels = l0 :: bounds) as (l0 & bounds & Hl).
  { destruct initcall_levels as [|l0 bounds]; [by destruct Hok | by exists l0, bounds]. }
  rewrite (kbind_some _ _ _ _ _ (pre_smp_run l0 bounds s Hl Hok)), (do_initcalls_run l0 bounds) by done.
  unfold schedule. rewrite Hl. by rewrite foldl_app, foldl_runs.
Qed.
End initcall_facts.

(** The blacklist option always comes to an end: each field of its line is
    added, and afterwards an initcall is blacklisted exactly when its name,
    up to the first blank, is a field of the line or was blacklisted before. *)
Theorem initcall_blacklist_fields {initcall} (symbol : initcall → list Z) alloc_ok entry_size str bl :
  (∀ n, alloc_ok n = true) →
  ∃ bl', initcall_blacklist alloc_ok entry_size str bl = Some (Some bl') ∧
    ∀ fn, initcall_blacklisted symbol bl' fn = true ↔
      cstr (strreplace (symbol fn) SPACE 0) ∈ fields str ∨ initcall_blacklisted symbol bl fn = true.
Proof.
  intros Halloc. eexists. split; [by apply blacklist_loop_run|]. intros fn.
  assert (Hb : ∀ l, initcall_blacklisted symbol l fn = true ↔
      cstr (strreplace (symbol fn) SPACE 0) ∈ l).
  { intros [|e l]; cbn [initcall_blacklisted]; [split; [done | by intros ?%elem_of_nil]|].
    apply bool_decide_eq_true. }
  rewrite !Hb, elem_of_app, !list_elem_of_In, <-in_rev. done.
Qed.

(** An initcall leaves the machine preemptible as it was and with
    interrupts on, whatever it does, and every repair is reported: the warning
    names exactly what was wrong and fits its buffer.  A blacklisted initcall
    is not called at all. *)
Theorem do_one_initcall_spec {initcall W} (symbol : initcall → list Z)
    (call : initcall → cpu W → Z * cpu W) blacklisted fn s :
  let '(ret, s1) := call fn s in
  let msg := (if negb (preempt_count s1 =? preempt_count s) then IMBALANCE else []) ++
             (if irqs_disabled s1 then IRQS else []) in
  do_one_initcall symbol call blacklisted fn s =
    (if initcall_blacklisted symbol blacklisted fn then (- EPERM, [], s)
     else (ret, msg, Cpu (preempt_count s) false (world s1))) ∧
  (length msg < 64)%nat.
Proof.
  unfold do_one_initcall. destruct (call fn s) as [ret [count irqs w]]. cbn [preempt_count irqs_disabled world].
  split.
  - destruct (initcall_blacklisted symbol blacklisted fn); [done|].
    destruct (Z.eqb_spec count (preempt_count s)) as [->|]; by destruct irqs.
  - destruct (count =? preempt_count s), irqs; cbn; lia.
Qed.

Section kernel_init_facts.
Context {W : Type} (kernel_execve : list Z → table → table → W → Z * W).
Implicit Types s : launch (W := W).

(** Programs are tried one after the other until one runs. *)
Inductive tries : launch (W := W) → list (list Z) → option (list Z) → launch (W := W) → Prop :=
  | tries_none s : tries s [] None s
  | tries_win s name rest s' :
      run_init_process kernel_execve name s = (0, s') → tries s (name :: rest) (Some name) s'
  | tries_fail s name rest ret s1 won s' :
      run_init_process kernel_execve name s = (ret, s1) → ret ≠ 0 →
      tries s1 rest won s' → tries s (name :: rest) won s'.

(** What may become init: the program of the ram disk; then the one that was
    asked for and no other, or else the default one and the usual places. *)
Definition after_ramdisk (CONFIG_DEFAULT_INIT : list Z) (b : boot) : list (list Z) :=
  match execute_command b with
  | Some cmd => [cmd]
  | None => match CONFIG_DEFAULT_INIT with [] => [] | d => [d] end ++ FALLBACKS
  end.
Definition candidates (CONFIG_DEFAULT_INIT : list Z) (b : boot) : list (list Z) :=
  match ramdisk_execute_command b with Some cmd => [cmd] | None => [] end ++
  after_ramdisk CONFIG_DEFAULT_INIT b.

Lemma run_init_frame name s :
  let s' := (run_init_process kernel_execve name s).2 in
  execute_command (tables s') = execute_command (tables s) ∧
  envp_init (tables s') = envp_init (tables s) ∧
  argv_init (tables s') = <[O := Some name]> (argv_init (tables s)).
Proof. unfold run_init_process. by destruct (kernel_execve _ _ _ _). Qed.

Lemma try_each_tries names s :
  tries s names (try_each kernel_execve names s).1 (try_each kernel_execve names s).2.
Proof.
  revert s. induction names as [|name names IH]; intros s; [constructor|].
  cbn [try_each]. unfold try_to_run_init_process.
  destruct (run_init_process kernel_execve name s) as [ret s1] eqn:Hr.
  destruct (Z.eqb_spec ret 0) as [->|Hret]; [by constructor | by econstructor].
Qed.

Definition outcome (b : boot) (won : option (list Z)) (out : init_outcome) : Prop :=
  match won, execute_command b with
  | Some name, _ => out = Running name
  | None, Some cmd => ∃ error, error ≠ 0 ∧ out = PanicRequested cmd error
  | None, None => out = PanicNoInit
  end.

Lemma default_init_tries D s :
  execute_command (tables s) = None →
  ∃ won, tries s (after_ramdisk D (tables s)) won (default_init kernel_execve D s).2 ∧
    outcome (tables s) won (default_init kernel_execve D s).1.
Proof.
  intros Hn. unfold after_ramdisk, outcome, default_init. rewrite Hn.
  assert (Hfall : ∀ s0, let r := match try_each kernel_execve FALLBACKS s0 with
      | (Some name, s1) => (Running name, s1) | (None, s1) => (PanicNoInit, s1) end in
    ∃ won, tries s0 FALLBACKS won r.2 ∧
      match won with Some name => r.1 = Running name | None => r.1 = PanicNoInit end).
  { intros s0. pose proof (try_each_tries FALLBACKS s0) as Ht.
    destruct (try_each kernel_execve FALLBACKS s0) as [[name|] s1]; by eexists. }
  destruct D as [|d0 d]; [apply Hfall|].
  destruct (run_init_process kernel_execve (d0 :: d) s) as [ret s1] eqn:Hr. unfold nz.
  destruct (Z.eqb_spec ret 0) as [->|Hret]; cbn [negb].
  - exists (Some (d0 :: d)). split; [by constructor | done].
  - destruct (Hfall s1) as (won & Ht & Ho). exists won. split; [by econstructor | done].
Qed.

Lemma requested_init_tries D s :
  ∃ won, tries s (after_ramdisk D (tables s)) won (requested_init kernel_execve D s).2 ∧
    outcome (tables s) won (requested_init kernel_execve D s).1.
Proof.
  unfold requested_init. destruct (execute_command (tables s)) as [cmd|] eqn:Hx;
    [|by apply default_init_tries].
  unfold after_ramdisk, outcome. rewrite Hx.
  destruct (run_init_process kernel_execve cmd s) as [ret s1] eqn:Hr.
  destruct (Z.eqb_spec ret 0) as [->|Hret].
  - exists (Some cmd). split; [by constructor | done].
  - exists None. split; [by eapply tries_fail; [..|constructor] | by exists ret].
Qed.

Lemma kernel_init_run D s :
  ∃ won, tries s (candidates D (tables s)) won (kernel_init kernel_execve D s).2 ∧
    outcome (tables s) won (kernel_init kernel_execve D s).1.
Proof.
  unfold kernel_init, candidates.
  destruct (ramdisk_execute_command (tables s)) as [cmd|]; [|apply requested_init_tries].
  pose proof (run_init_frame cmd s) as (Hx & _ & _).
  destruct (run_init_process kernel_execve cmd s) as [ret s1] eqn:Hr. cbn [snd] in Hx.
  destruct (Z.eqb_spec ret 0) as [->|Hret].
  - exists (Some cmd). split; [by constructor | done].
  - destruct (requested_init_tries D s1) as (won & Ht & Ho). exists won.
    unfold after_ramdisk, outcome in *. rewrite Hx in *. split; [by econstructor | done].
Qed.

Lemma tries_tables s names won s' :
  tries s names won s' →
  match won with
  | Some name => ∃ w, kernel_execve name (<[O := Some name]> (argv_init (tables s)))
      (envp_init (tables s)) w = (0, outside s')
  | None => True
  end.
Proof.
  induction 1 as [|s name rest s' Hr|s name rest ret s1 won s' Hr Hret Ht IH]; [done| |].
  - unfold run_init_process in Hr.
    destruct (kernel_execve _ _ _ _) as [ret w] eqn:Hx. injection Hr as -> <-.
    eexists. exact Hx.
  - destruct won as [name'|]; [|done]. destruct IH as (w & Hw). exists w.
    pose proof (run_init_frame name s) as (_ & He & Ha). rewrite Hr in He, Ha. cbn [snd] in He, Ha.
    by rewrite Ha, He, list_insert_insert_eq in Hw.
Qed.

Lemma tries_attempts s names won s' :
  tries s names won s' →
  ∃ rets, (length rets <= length names)%nat ∧
    attempts s' = attempts s ++ zip (take (length rets) names) rets.
Proof.
  assert (Hlog : ∀ name s ret s1, run_init_process kernel_execve name s = (ret, s1) →
    attempts s1 = attempts s ++ [(name, ret)]).
  { intros name s0 ret s1. unfold run_init_process. destruct (kernel_execve _ _ _ _). by intros [= -> <-]. }
  induction 1 as [s|s name rest s' Hr|s name rest ret s1 won s' Hr Hret Ht (rets & Hl & Ha)].
  - exists []. split; [done|]. by rewrite app_nil_r.
  - exists [0]. split; [cbn; lia|]. by rewrite (Hlog _ _ _ _ Hr).
  - exists (ret :: rets). split; [cbn; lia|]. by rewrite Ha, (Hlog _ _ _ _ Hr), <-app_assoc.
Qed.

(** C28. Starting init refines the search for a program that runs: the one of
    the ram disk, then the one asked for with init= and nothing else, or the
    configured one and the usual four places.  They are executed in this order
    and no others; the kernel goes on with the first that can be executed, and
    panics exactly when none can. *)
Theorem kernel_init_tries D s :
  ∃ won rets, tries s (candidates D (tables s)) won (kernel_init kernel_execve D s).2 ∧
    outcome (tables s) won (kernel_init kernel_execve D s).1 ∧
    attempts (kernel_init kernel_execve D s).2 =
      attempts s ++ zip (take (length rets) (candidates D (tables s))) rets.
Proof.
  destruct (kernel_init_run D s) as (won & Ht & Ho).
  destruct (tries_attempts _ _ _ _ Ht) as (rets & _ & Ha). by exists won, rets.
Qed.

(** The program that becomes init is executed with the arguments and the
    environment that the boot options made, only the first argument being its
    own name, however many programs were tried before. *)
Theorem init_gets_boot_options D s name s' :
  kernel_init kernel_execve D s = (Running name, s') →
  ∃ w, kernel_execve name (<[O := Some name]> (argv_init (tables s))) (envp_init (tables s)) w
    = (0, outside s').
Proof.
  intros Hk. destruct (kernel_init_run D s) as (won & Ht & Ho). rewrite Hk in Ht, Ho. cbn in Ht, Ho.
  unfold outcome in Ho. destruct won as [n|].
  - injection Ho as <-. apply (tries_tables _ _ _ _ Ht).
  - destruct (execute_command (tables s)); [by destruct Ho as (? & _ & ?) | done].
Qed.

Lemma tries_won s names name s' : tries s names (Some name) s' → name ∈ names.
Proof.
  remember (Some name) as won eqn:Hwon. induction 1 as [|s n rest s' Hr|]; [done| |].
  - injection Hwon as ->. apply elem_of_cons. by left.
  - apply elem_of_cons. right. auto.
Qed.
Lemma tries_none_runnable s names s' name :
  tries s names None s' → name ∈ names → ∃ argv envp w, (kernel_execve name argv envp w).1 ≠ 0.
Proof.
  remember None as won eqn:Hwon. induction 1 as [| |s n rest ret s1 won s' Hr Hret Ht IH];
    [by intros ?%elem_of_nil | done |].
  rewrite elem_of_cons. intros [->|Hin]; [|by apply IH].
  unfold run_init_process in Hr. destruct (kernel_execve n _ _ _) as [r w] eqn:Hx.
  injection Hr as -> _. eexists _, _, _. by rewrite Hx.
Qed.

(** C36. If there is a program among the candidates that can always be
    executed, the kernel ends up running an init; it does not panic. *)
Theorem kernel_init_starts D s name :
  name ∈ candidates D (tables s) → (∀ argv envp w, (kernel_execve name argv envp w).1 = 0) →
  ∃ name', (kernel_init kernel_execve D s).1 = Running name' ∧ name' ∈ candidates D (tables s).
Proof.
  intros Hin Hruns. destruct (kernel_init_run D s) as (won & Ht & Ho). destruct won as [n|].
  - exists n. split; [exact Ho | by eapply tries_won].
  - destruct (tries_none_runnable _ _ _ _ Ht Hin) as (argv & envp & w & Hne). by destruct Hne.
Qed.
End kernel_init_facts.

(** ** Runs *)

Module InitRuns.

Definition always (n : nat) : bool := true.

(** Three initcalls; the first leaves the interrupts off, the second a
    preemption count.  The world is the list of what happened. *)
Definition symbol (fn : nat) : list Z :=
  bytes_of_string (match fn with 1%nat => "foo_init [foo]" | 2%nat => "bar_init" | _ => "baz_init" end).
Definition call (fn : nat) (s : cpu (list (nat + nat))) : Z * cpu (list (nat + nat)) :=
  (- Z.of_nat fn,
   match fn with
   | 1%nat => Cpu (preempt_count s) true (world s ++ [inl fn])
   | 2%nat => Cpu (preempt_count s + 1) true (world s ++ [inl fn])
   | _ => Cpu (preempt_count s) (irqs_disabled s) (world s ++ [inl fn])
   end).
(** A parser that ruins its copy of the line, and records whether the copy it
    was given was the line. *)
Definition line : list Z := bytes_of_string "quiet a=b".
Definition parse (level : nat) (buf : list Z) (s : cpu (list (nat + nat))) :
    list Z * cpu (list (nat + nat)) :=
  ((λ c, if c =? 61 then 0 else c) <$> buf,
   Cpu (preempt_count s) (irqs_disabled s)
     (if bool_decide (cstr buf = line) then world s ++ [inr level] else world s)).
Definition table : list nat := [3; 1; 2]%nat.
Definition levels : list nat := [1; 1; 3]%nat.
Definition machine : cpu (list (nat + nat)) := Cpu 1 false [].

Example all_levels :
  (λ r, (world r.2.1, preempt_count r.2.1, irqs_disabled r.2.1, r.2.2.*2)) <$>
    (do_pre_smp_initcalls symbol call [] table levels;;
     do_initcalls symbol call [] table levels parse true line (length line)) (machine, [])
  = Some ([inl 3; inr 0; inr 1; inl 1; inl 2]%nat, 1, false, [[]; IRQS; IMBALANCE ++ IRQS]).
Proof. by vm_compute. Qed.

(** A blacklisted initcall is named without its module. *)
Example blacklisted_foo :
  initcall_blacklist always 24 (bytes_of_string "x,foo_init") [] =
    Some (Some [bytes_of_string "foo_init"; bytes_of_string "x"]) ∧
  initcall_blacklisted symbol [bytes_of_string "foo_init"; bytes_of_string "x"] 1%nat = true ∧
  (do_one_initcall symbol call [bytes_of_string "foo_init"] 1%nat machine).1.1 = - EPERM.
Proof. by vm_compute. Qed.

Lemma initcalls_run_in_order_witness :
  ∃ s', (do_pre_smp_initcalls symbol call [] table levels;;
         do_initcalls symbol call [] table levels parse true line (length line)) (machine, [])
    = Some (true, s') ∧
    s' = foldl (step symbol call [] parse line) (machine, []) (schedule table levels) ∧
    s'.2.*1.*1 = [] ++ table.
Proof.
  apply (initcalls_run_in_order symbol call [] table levels parse
    (λ level buf s, length_fmap _ buf) line (machine, [])).
  split; [|done]. repeat constructor.
Defined.

Lemma initcall_blacklist_fields_witness :
  ∃ bl', initcall_blacklist always 24 (bytes_of_string "x,foo_init") [] = Some (Some bl') ∧
    ∀ fn, initcall_blacklisted symbol bl' fn = true ↔
      cstr (strreplace (symbol fn) SPACE 0) ∈ fields (bytes_of_string "x,foo_init") ∨
      initcall_blacklisted symbol [] fn = true.
Proof. by apply (initcall_blacklist_fields symbol always 24 (bytes_of_string "x,foo_init") []). Defined.

(** Only "/bin/sh" can be executed. *)
Definition execve (name : list Z) (argv envp : list (option (list Z))) (w : nat) : Z * nat :=
  (if bool_decide (name = bytes_of_string "/bin/sh") then 0 else - ENOENT, S w).
Definition start : launch := Launch (set_ramdisk None (boot_init 3 7)) 0%nat [].

Example falls_back :
  (kernel_init execve [] start).1 = Running (bytes_of_string "/bin/sh") ∧
  outside (kernel_init execve [] start).2 = 4%nat.
Proof. by vm_compute. Qed.

(** An init that was asked for and cannot run is a panic, without a fall
    back. *)
Example requested_only :
  (kernel_init execve [] (Launch (set_execute (Some (bytes_of_string "/x")) (boot_init 3 7)) 0%nat [])).1
    = PanicRequested (bytes_of_string "/x") (- ENOENT).
Proof. by vm_compute. Qed.

Lemma init_gets_boot_options_witness :
  ∃ w, execve (bytes_of_string "/bin/sh")
      (<[O := Some (bytes_of_string "/bin/sh")]> (argv_init (tables start)))
      (envp_init (tables start)) w = (0, outside (kernel_init execve [] start).2).
Proof.
  apply (init_gets_boot_options execve [] start).
  apply pair_of_fst. by vm_compute.
Defined.

Lemma kernel_init_starts_witness :
  ∃ name', (kernel_init execve [] start).1 = Running name' ∧ name' ∈ candidates [] (tables start).
Proof.
  apply (kernel_init_starts execve [] start (bytes_of_string "/bin/sh")).
  - by apply (bool_decide_unpack _); vm_compute.
  - done.
Defined.

End InitRuns.
