(* ===== verification/Startup.v ===== *)
(** * Startup: from start_kernel to the first process

    The order of events in [init/main.c]: [start_kernel] and [rest_init], which
    the boot processor runs, and [kernel_init] with [kernel_init_freeable],
    which run in the thread that becomes init.  The two threads share the
    variables of the file; they are synchronised by the completion
    [kthreadd_done].  The functions of the file itself are those of [BootParams],
    [CommandLine] and [Initcalls], composed here; the initialisation functions of
    other subsystems are parameters that may change the machine ([cpu W]) and
    create tasks.

    Two things are an oops beyond a bad pointer: to create a task through
    kthreadd before there is a kthreadd, and to run code or use data of the init
    sections after they were freed. *)

From S2P Require Import Prelude CString BootParams CommandLine Initcalls Threads.

(** [enum system_states], as far as the start-up goes. *)
Inductive system_states :=
  | SYSTEM_BOOTING | SYSTEM_SCHEDULING | SYSTEM_FREEING_INITMEM | SYSTEM_RUNNING.
#[export] Instance system_states_eq_dec : EqDecision system_states.
Proof. solve_decision. Defined.
Definition state_rank (s : system_states) : nat :=
  match s with
  | SYSTEM_BOOTING => 0 | SYSTEM_SCHEDULING => 1
  | SYSTEM_FREEING_INITMEM => 2 | SYSTEM_RUNNING => 3
  end.

Definition PF_NO_SETAFFINITY : Z := 0x04000000.
Definition GFP_BITS_MASK : Z := 2 ^ 27 - 1.

(** What the start-up code finds around it. *)
Class StartupEnv (W initcall : Type) := {
  (** the initialisation function of that name, the number of tasks it creates *)
  ext_call : string → cpu W → cpu W;
  spawns : string → nat;
  (** 0 or the error of creating the two threads of [rest_init] *)
  thread_error : string → Z;
  (** the line of the boot loader, what [setup_arch] makes of it, and whether it
      calls [parse_early_param] *)
  COMMAND_LINE_SIZE : nat;
  boot_command_line : list Z;
  setup_arch_fn : cpu W → list Z * cpu W;
  arch_parses_early : bool;
  (** the option parser: the options of a line, and the offset behind "--" *)
  parse_line : list Z → list bootopt * option nat;
  (** the parameters of the kernel and of its modules *)
  kernel_param : bootopt → option (cpu W → Z * cpu W);
  MAX_INIT : nat;
  parameqn_fn : list Z → list Z → nat → bool;
  parameq_fn : list Z → list Z → bool;
  setup_params : list obs_kernel_param;
  (** memory early on, and the boot configuration *)
  memblock_ok : nat → bool;
  kernel_mem : Z → Z;
  xbc_checksum : list Z → Z;
  config_force : bool;
  embedded_config : option Z;
  xbc_load : option (Z * Z) → Z * (list Z → option (list xbc_key));
  (** conditions of [start_kernel] *)
  initcall_debug : W → bool;
  tracepoint_errors : option (Z * Z);
  initrd_pfn : Z → Z;
  min_low_pfn : W → Z;
  initrd_below_start_ok : W → bool;
  has_late_time_init : W → bool;
  efi_runtime : W → bool;
  (** initcalls *)
  initcall_symbol : initcall → list Z;
  initcall_run : initcall → cpu W → Z * cpu W;
  blacklisted_initcalls : list (list Z);
  initcall_table : list initcall;
  level_starts : list nat;
  parse_level : nat → list Z → cpu W → list Z * cpu W;
  kzalloc_ok : bool;
  constructors : list (W → W);
  (** the end of the start-up *)
  open_console : cpu W → bool;
  init_access : W → option (list Z) → Z;
  execve_fn : list Z → table → table → W → Z * W;
  CONFIG_DEFAULT_INIT : list Z;
}.

(** ** The state *)

(** The command lines; [command_line] and [after_dashes] are locals of
    [start_kernel]. *)
Record lines := Lines {
  command_line : list Z;
  boot_config : bootconfig;
  saved_command_line : list Z;
  saved_command_line_len : nat;
  static_command_line : list Z;
  after_dashes : option (list Z);
}.

(** Tasks by number with their flags; the completion [kthreadd_done] and how
    many waits for it have returned. *)
Record scheduling := Scheduling {
  system_state : system_states;
  next_pid : Z;
  tasks : gmap Z Z;
  init_pid : option Z;
  kthreadd_task : option Z;
  kthreadd_done : nat;
  waits_returned : nat;
}.

(** [local_pid] and [rcu_depth] are those of [rest_init]. *)
Record shared (initcall : Type) := Shared {
  tabs : boot;
  cmdlines : lines;
  early_params_done : bool;
  early_boot_irqs_disabled : bool;
  initrd : Z * Z;
  sched : scheduling;
  local_pid : Z;
  rcu_depth : nat;
  initmem_freed : bool;
  gfp_allowed_mask : Z;
  cad_pid : option Z;
  warnings : list string;
  initcall_log : call_log (initcall := initcall);
  started : option init_outcome;
}.
Arguments Shared {initcall}.
Arguments tabs {initcall}.
Arguments cmdlines {initcall}.
Arguments early_params_done {initcall}.
Arguments early_boot_irqs_disabled {initcall}.
Arguments initrd {initcall}.
Arguments sched {initcall}.
Arguments local_pid {initcall}.
Arguments rcu_depth {initcall}.
Arguments initmem_freed {initcall}.
Arguments gfp_allowed_mask {initcall}.
Arguments cad_pid {initcall}.
Arguments warnings {initcall}.
Arguments initcall_log {initcall}.
Arguments started {initcall}.

Record sys (W initcall : Type) := Sys { mach : cpu W; core : shared initcall }.
Arguments Sys {W initcall}.
Arguments mach {W initcall}.
Arguments core {W initcall}.

Section updates.
Context {initcall : Type}.
Implicit Types c : shared initcall.
Definition upd_boot (t : boot) (l : lines) (e : bool) (rd : Z * Z) c : shared initcall :=
  Shared t l e (early_boot_irqs_disabled c) rd (sched c) (local_pid c) (rcu_depth c)
    (initmem_freed c) (gfp_allowed_mask c) (cad_pid c) (warnings c) (initcall_log c) (started c).
Definition set_tabs (t : boot) c := upd_boot t (cmdlines c) (early_params_done c) (initrd c) c.
Definition set_lines (l : lines) c := upd_boot (tabs c) l (early_params_done c) (initrd c) c.
Definition set_initrd (rd : Z * Z) c := upd_boot (tabs c) (cmdlines c) (early_params_done c) rd c.
Definition upd_run (q : scheduling) (pid : Z) (rcu : nat) c : shared initcall :=
  Shared (tabs c) (cmdlines c) (early_params_done c) (early_boot_irqs_disabled c) (initrd c) q pid rcu
    (initmem_freed c) (gfp_allowed_mask c) (cad_pid c) (warnings c) (initcall_log c) (started c).
Definition set_sched (q : scheduling) c := upd_run q (local_pid c) (rcu_depth c) c.
Definition upd_misc (e fr : bool) (gfp : Z) (cad : option Z) (ws : list string) (log : call_log)
    (st : option init_outcome) c : shared initcall :=
  Shared (tabs c) (cmdlines c) (early_params_done c) e (initrd c) (sched c) (local_pid c) (rcu_depth c)
    fr gfp cad ws log st.
Definition set_early (e : bool) c :=
  upd_misc e (initmem_freed c) (gfp_allowed_mask c) (cad_pid c) (warnings c) (initcall_log c) (started c) c.
Definition set_freed c :=
  upd_misc (early_boot_irqs_disabled c) true (gfp_allowed_mask c) (cad_pid c) (warnings c)
    (initcall_log c) (started c) c.
Definition set_gfp (gfp : Z) c :=
  upd_misc (early_boot_irqs_disabled c) (initmem_freed c) gfp (cad_pid c) (warnings c)
    (initcall_log c) (started c) c.
Definition set_cad (pid : option Z) c :=
  upd_misc (early_boot_irqs_disabled c) (initmem_freed c) (gfp_allowed_mask c) pid (warnings c)
    (initcall_log c) (started c) c.
Definition warn (msg : string) c :=
  upd_misc (early_boot_irqs_disabled c) (initmem_freed c) (gfp_allowed_mask c) (cad_pid c)
    (warnings c ++ [msg]) (initcall_log c) (started c) c.
Definition set_log (log : call_log) c :=
  upd_misc (early_boot_irqs_disabled c) (initmem_freed c) (gfp_allowed_mask c) (cad_pid c)
    (warnings c) log (started c) c.
Definition set_started (o : init_outcome) c :=
  upd_misc (early_boot_irqs_disabled c) (initmem_freed c) (gfp_allowed_mask c) (cad_pid c)
    (warnings c) (initcall_log c) (Some o) c.
End updates.

Section scheduling_updates.
Implicit Types q : scheduling.
Definition set_state (st : system_states) q : scheduling :=
  Scheduling st (next_pid q) (tasks q) (init_pid q) (kthreadd_task q) (kthreadd_done q) (waits_returned q).
Definition set_tasks (n : Z) (ts : gmap Z Z) q : scheduling :=
  Scheduling (system_state q) n ts (init_pid q) (kthreadd_task q) (kthreadd_done q) (waits_returned q).
Definition set_init_pid (pid : Z) q : scheduling :=
  Scheduling (system_state q) (next_pid q) (tasks q) (Some pid) (kthreadd_task q) (kthreadd_done q)
    (waits_returned q).
Definition set_kthreadd (t : option Z) q : scheduling :=
  Scheduling (system_state q) (next_pid q) (tasks q) (init_pid q) t (kthreadd_done q) (waits_returned q).
Definition set_completion (d w : nat) q : scheduling :=
  Scheduling (system_state q) (next_pid q) (tasks q) (init_pid q) (kthreadd_task q) d w.
Definition new_task q : scheduling := set_tasks (next_pid q + 1) (<[next_pid q := 0]> (tasks q)) q.
End scheduling_updates.

(** ** Actions *)

Section startup.
Context {W initcall : Type} `{StartupEnv W initcall}.
Abbreviation state := (sys W initcall).
Abbreviation act := (action (sys W initcall)).
Implicit Types (s : sys W initcall) (c : shared initcall).

(** A call of another subsystem; the tasks it creates are created by kthreadd. *)
Fixpoint new_tasks (n : nat) (q : scheduling) : scheduling :=
  match n with O => q | S n => new_tasks n (new_task q) end.
Definition ext (f : string) s : verdict state :=
  let q := sched (core s) in
  match spawns f, kthreadd_task q with
  | S _, None => Oops
  | n, _ => Goes (Sys (ext_call f (mach s)) (set_sched (new_tasks n q) (core s)))
  end.

(** Code of the init sections. *)
Definition init_only (run : state → verdict state) s : verdict state :=
  if initmem_freed (core s) then Oops else run s.
Definition init_call (f : string) : act := Action f (init_only (ext f)).
Definition late_call (f : string) : act := Action f (ext f).

(** Code of this file that only works on the shared variables. *)
Definition local (name : string) (f : shared initcall → option (shared initcall)) s : verdict state :=
  match f (core s) with
  | Some c => Goes (Sys (mach s) c)
  | None => Oops
  end.
Definition init_local name f : act := Action name (init_only (local name f)).
Definition late_local name f : act := Action name (local name f).

Definition set_irqs (off : bool) s : state :=
  Sys (Cpu (preempt_count (mach s)) off (world (mach s))) (core s).
Definition local_irq_disable : act :=
  Action "local_irq_disable" (init_only (λ s, Goes (set_irqs true s))).
Definition local_irq_enable : act :=
  Action "local_irq_enable" (init_only (λ s, Goes (set_irqs false s))).
Definition set_early_irqs (b : bool) : act :=
  init_local "early_boot_irqs_disabled" (λ c, Some (set_early b c)).

(** [WARN(!irqs_disabled(), msg)], the first time with a repair. *)
Definition warn_irqs (msg : string) (fix_it : bool) : act :=
  Action "irqs_disabled" (init_only (λ s,
    if irqs_disabled (mach s) then Goes s
    else
      let s := Sys (mach s) (warn msg (core s)) in
      Goes (if fix_it then set_irqs true s else s))).

(** *** Command lines *)

Definition opt_name (o : bootopt) : list Z := cstr (opt_buf o).
Definition opt_value (o : bootopt) : option (list Z) := (λ v, cstr (drop v (opt_buf o))) <$> opt_val o.

Definition parse_early_options (cmdline : list Z) : kst boot unit :=
  for_options (λ o, do_early_param parameq_fn setup_params (opt_name o) (opt_value o))
    (parse_line cmdline).1.
Definition parse_early_param c : option (shared initcall) :=
  if early_params_done c then Some c
  else
    let tmp_cmdline := take (COMMAND_LINE_SIZE - 1) boot_command_line in
    '(_, b) ← parse_early_options tmp_cmdline (tabs c);
    Some (upd_boot b (cmdlines c) true (initrd c) c).

(** The local [command_line] is set; the architecture may parse the early
    options. *)
Definition setup_arch : act :=
  Action "setup_arch" (init_only (λ s,
    let '(line, m) := setup_arch_fn (mach s) in
    let l := cmdlines (core s) in
    let c := set_lines (Lines line (boot_config l) (saved_command_line l) (saved_command_line_len l)
                         (static_command_line l) (after_dashes l)) (core s) in
    local "setup_arch" (λ c, if arch_parses_early then parse_early_param c else Some c)
      (Sys m c))).

Definition run_setup_boot_config c : shared initcall :=
  let '(found, end_) := get_boot_config_from_initrd kernel_mem xbc_checksum (initrd c).1 (initrd c).2 in
  let tmp_cmdline := take (COMMAND_LINE_SIZE - 1) boot_command_line in
  let '(opts, dashes) := parse_line tmp_cmdline in
  let '(ret, find_node) := xbc_load found in
  let cfg := setup_boot_config memblock_ok find_node config_force (snd <$> found) embedded_config
    (opt_name <$> opts) (match dashes with Some offs => ParseDashes offs | None => ParseEnd end) ret in
  let l := cmdlines c in
  upd_boot (tabs c)
    (Lines (command_line l) cfg (saved_command_line l) (saved_command_line_len l)
      (static_command_line l) (after_dashes l))
    (early_params_done c) ((initrd c).1, end_) c.

Definition run_setup_command_line s : verdict state :=
  let l := cmdlines (core s) in
  match setup_command_line memblock_ok (boot_config l) boot_command_line (command_line l) with
  | None => Oops
  | Some (inl _) => Panics "setup_command_line: Failed to allocate" s
  | Some (inr (saved, static, len)) =>
      Goes (Sys (mach s)
        (set_lines (Lines (command_line l) (boot_config l) saved len static (after_dashes l)) (core s)))
  end.

(** One pass of the parser over the line: a parameter of the kernel is set
    there, the others go to [unknown_bootoption].  The flag tells whether a
    parameter was refused. *)
Fixpoint booting_options (opts : list bootopt) (m : cpu W) (b : boot) (refused : bool)
    : option (cpu W * boot * bool) :=
  match opts with
  | [] => Some (m, b, refused)
  | o :: opts =>
      match kernel_param o with
      | Some set =>
          let '(ret, m) := set m in booting_options opts m b (refused || nz ret)
      | None =>
          '(ret, b) ← unknown_bootoption MAX_INIT parameqn_fn setup_params o b;
          booting_options opts m b (refused || nz ret)
      end
  end.
Definition parse_booting s : verdict state :=
  let l := cmdlines (core s) in
  let line := cstr (static_command_line l) in
  let '(opts, dashes) := parse_line line in
  match booting_options opts (mach s) (tabs (core s)) false with
  | None => Oops
  | Some (m, b, refused) =>
      let rest := if (refused : bool) then None else (λ offs, drop offs line) <$> dashes in
      Goes (Sys m
        (set_tabs b (set_lines (Lines (command_line l) (boot_config l) (saved_command_line l)
           (saved_command_line_len l) (static_command_line l) rest) (core s))))
  end.

Definition print_unknown c : option (shared initcall) :=
  _ ← print_unknown_bootoptions (tabs c); Some c.

(** The arguments of init in a text, [None] for no text. *)
Definition parse_init_args (args : option (list Z)) c : option (shared initcall) :=
  match args with
  | None => Some c
  | Some args =>
      '(_, b) ← for_options (set_init_arg MAX_INIT) (parse_line args).1 (tabs c);
      Some (set_tabs b c)
  end.

(** *** The rest of start_kernel *)

Definition initcall_debug_enable c : shared initcall :=
  match tracepoint_errors with
  | None => c
  | Some (start, finish) =>
      if nz (Z.lor start finish) then warn "Failed to register initcall tracepoints" c else c
  end.

Definition check_panic_later s : verdict state :=
  match panic_later (tabs (core s)) with
  | Some _ => Panics "Too many boot vars" s
  | None => Goes s
  end.

Definition check_initrd s : verdict state :=
  let '(start, end_) := initrd (core s) in
  if negb (start =? 0) && negb (initrd_below_start_ok (world (mach s))) &&
     (initrd_pfn start <? min_low_pfn (world (mach s)))
  then Goes (Sys (mach s) (set_initrd (0, end_) (warn "initrd overwritten" (core s))))
  else Goes s.

(** [if (cond) f();] *)
Definition call_if (cond : W → bool) (f : string) : act :=
  Action f (init_only (λ s, if cond (world (mach s)) then ext f s else Goes s)).

(** [start_kernel], in six parts. *)
Definition start_kernel_entry : list act :=
  (init_call <$> ["set_task_stack_end_magic"; "smp_setup_processor_id"; "debug_objects_early_init";
    "init_vmlinux_build_id"; "cgroup_init_early"]%string) ++
  [local_irq_disable; set_early_irqs true].

Definition start_kernel_lines : list act :=
  (init_call <$> ["boot_cpu_init"; "page_address_init"; "early_security_init"]%string) ++
  [setup_arch;
   init_local "setup_boot_config" (λ c, Some (run_setup_boot_config c));
   Action "setup_command_line" (init_only run_setup_command_line)] ++
  (init_call <$> ["setup_nr_cpu_ids"; "setup_per_cpu_areas"; "smp_prepare_boot_cpu";
    "boot_cpu_hotplug_init"; "jump_label_init"]%string).

Definition start_kernel_options : list act :=
  [init_local "parse_early_param" parse_early_param;
   Action "Booting kernel" (init_only parse_booting);
   init_local "print_unknown_bootoptions" print_unknown;
   init_local "Setting init args" (λ c, parse_init_args (after_dashes (cmdlines c)) c);
   init_local "Setting extra init args"
     (λ c, parse_init_args (extra_init_args (boot_config (cmdlines c))) c)].

Definition start_kernel_core : list act :=
  (init_call <$> ["random_init_early"; "setup_log_buf"; "vfs_caches_init_early"; "sort_main_extable";
    "trap_init"; "mm_core_init"; "poking_init"; "ftrace_init"; "early_trace_init"; "sched_init"]%string) ++
  [warn_irqs "Interrupts were enabled *very* early, fixing it" true] ++
  (init_call <$> ["radix_tree_init"; "maple_tree_init"; "housekeeping_init"; "workqueue_init_early";
    "rcu_init"; "trace_init"]%string) ++
  [Action "initcall_debug_enable" (init_only (λ s,
     if initcall_debug (world (mach s))
     then local "initcall_debug_enable" (λ c, Some (initcall_debug_enable c)) s else Goes s))] ++
  (init_call <$> ["context_tracking_init"; "early_irq_init"; "init_IRQ"; "tick_init"; "rcu_init_nohz";
    "init_timers"; "srcu_init"; "hrtimers_init"; "softirq_init"; "timekeeping_init"; "time_init";
    "random_init"; "kfence_init"; "boot_init_stack_canary"; "perf_event_init"; "profile_init";
    "call_function_init"]%string) ++
  [warn_irqs "Interrupts were enabled early" false].

Definition start_kernel_irqs : list act :=
  [set_early_irqs false; local_irq_enable; init_call "kmem_cache_init_late"; init_call "console_init";
   Action "panic_later" (init_only check_panic_later);
   init_call "lockdep_init"; init_call "locking_selftest";
   Action "initrd" (init_only check_initrd)].

Definition start_kernel_rest : list act :=
  (init_call <$> ["setup_per_cpu_pageset"; "numa_policy_init"; "acpi_early_init"]%string) ++
  [call_if has_late_time_init "late_time_init"] ++
  (init_call <$> ["sched_clock_init"; "calibrate_delay"; "arch_cpu_finalize_init"; "pid_idr_init";
    "anon_vma_init"]%string) ++
  [call_if efi_runtime "efi_enter_virtual_mode"] ++
  (init_call <$> ["thread_stack_cache_init"; "cred_init"; "fork_init"; "proc_caches_init";
    "uts_ns_init"; "key_init"; "security_init"; "dbg_late_init"; "net_ns_init"; "vfs_caches_init";
    "pagecache_init"; "signals_init"; "seq_file_init"; "proc_root_init"; "nsfs_init"; "cpuset_init";
    "cgroup_init"; "taskstats_init_early"; "delayacct_init"; "acpi_subsystem_init";
    "arch_post_acpi_subsys_init"; "kcsan_init"]%string).

Definition start_kernel : list act :=
  start_kernel_entry ++ start_kernel_lines ++ start_kernel_options ++ start_kernel_core ++
  start_kernel_irqs ++ start_kernel_rest.

(** *** rest_init *)

(** [user_mode_thread(kernel_init, ...)] and [kernel_thread(kthreadd, ...)]: the
    number of the new task, or an error. *)
Definition create_thread (name : string) (is_init : bool) c : option (shared initcall) :=
  let q := sched c in
  if thread_error name =? 0 then
    let pid := next_pid q in
    let q := new_task q in
    Some (upd_run (if is_init then set_init_pid pid q else q) pid (rcu_depth c) c)
  else Some (upd_run q (thread_error name) (rcu_depth c) c).

Definition rcu_read_lock c : option (shared initcall) :=
  Some (upd_run (sched c) (local_pid c) (S (rcu_depth c)) c).
Definition rcu_read_unlock c : option (shared initcall) :=
  match rcu_depth c with O => None | S n => Some (upd_run (sched c) (local_pid c) n c) end.

(** A task may be looked up within an RCU section only. *)
Definition find_task (pid : Z) c : option (option Z) :=
  match rcu_depth c with O => None | _ => Some (tasks (sched c) !! pid) end.

(** [tsk = find_task_by_pid_ns(pid, ...); tsk->flags |= PF_NO_SETAFFINITY;] *)
Definition pin_init c : option (shared initcall) :=
  tsk ← find_task (local_pid c) c;
  flags ← tsk;
  let q := sched c in
  Some (set_sched (set_tasks (next_pid q)
    (<[local_pid c := Z.lor flags PF_NO_SETAFFINITY]> (tasks q)) q) c).

Definition set_kthreadd_task c : option (shared initcall) :=
  tsk ← find_task (local_pid c) c;
  Some (set_sched (set_kthreadd ((λ _, local_pid c) <$> tsk) (sched c)) c).

Definition enter_state (st : system_states) c : option (shared initcall) :=
  Some (set_sched (set_state st (sched c)) c).

(** [complete(&kthreadd_done)] and the wait for it; the completion is init
    data. *)
Definition complete c : option (shared initcall) :=
  let q := sched c in Some (set_sched (set_completion (S (kthreadd_done q)) (waits_returned q) q) c).
Definition wait_for_completion s : verdict state :=
  let q := sched (core s) in
  match kthreadd_done q with
  | O => Waits
  | S n => local "wait_for_completion"
             (λ c, Some (set_sched (set_completion n (S (waits_returned q)) q) c)) s
  end.

(** The boot processor idles: the call does not return. *)
Definition cpu_startup_entry : act := Action "cpu_startup_entry" (λ _, Waits).

Definition rest_init : list act :=
  [late_call "rcu_scheduler_starting";
   late_local "user_mode_thread" (create_thread "kernel_init" true);
   late_local "rcu_read_lock" rcu_read_lock;
   late_local "find_task_by_pid_ns" pin_init;
   late_call "set_cpus_allowed_ptr";
   late_local "rcu_read_unlock" rcu_read_unlock;
   late_call "numa_default_policy";
   late_local "kernel_thread" (create_thread "kthreadd" false);
   late_local "rcu_read_lock" rcu_read_lock;
   late_local "kthreadd_task" set_kthreadd_task;
   late_local "rcu_read_unlock" rcu_read_unlock;
   late_local "SYSTEM_SCHEDULING" (enter_state SYSTEM_SCHEDULING);
   init_local "complete" complete;
   late_call "schedule_preempt_disabled";
   cpu_startup_entry].

(** *** kernel_init *)

(** The new thread runs once it was created. *)
Definition ret_from_fork : act :=
  Action "ret_from_fork" (λ s, match init_pid (sched (core s)) with None => Waits | Some _ => Goes s end).

(** The initcalls may create kernel threads. *)
Definition run_initcalls (name : string)
    (run : kst (cpu W * call_log (initcall := initcall)) bool) s : verdict state :=
  match kthreadd_task (sched (core s)), run (mach s, initcall_log (core s)) with
  | None, _ | _, None => Oops
  | _, Some (ok, (m, log)) =>
      let s := Sys m (set_log log (core s)) in
      if (ok : bool) then Goes s else Panics "do_initcalls: Failed to allocate" s
  end.
Definition run_pre_smp_initcalls s : verdict state :=
  run_initcalls "do_pre_smp_initcalls"
    (do_pre_smp_initcalls initcall_symbol initcall_run blacklisted_initcalls initcall_table level_starts;;
     mret true) s.
Definition run_do_initcalls s : verdict state :=
  let l := cmdlines (core s) in
  run_initcalls "do_initcalls"
    (do_initcalls initcall_symbol initcall_run blacklisted_initcalls initcall_table level_starts
       parse_level kzalloc_ok (cstr (saved_command_line l)) (saved_command_line_len l)) s.

Definition do_basic_setup : list act :=
  (init_call <$> ["cpuset_init_smp"; "driver_init"; "init_irq_proc"]%string) ++
  [Action "do_ctors" (init_only (λ s,
     let m := mach s in
     Goes (Sys (Cpu (preempt_count m) (irqs_disabled m) (do_ctors constructors (world m)))
             (core s))));
   Action "do_initcalls" (init_only run_do_initcalls)].

Definition console_on_rootfs s : verdict state :=
  if open_console (mach s) then
    run_program [late_call "init_dup"; late_call "init_dup"; late_call "init_dup"; late_call "fput"] s
  else Goes (Sys (mach s) (warn "unable to open an initial console." (core s))).

(** Without access to an early user space the root file system is mounted. *)
Definition early_userspace s : verdict state :=
  let b := tabs (core s) in
  let init_eaccess := init_access (world (mach s)) in
  let s' := Sys (mach s) (set_tabs (check_ramdisk init_eaccess b) (core s)) in
  if nz (init_eaccess (ramdisk_execute_command b)) then ext "prepare_namespace" s' else Goes s'.

Definition kernel_init_freeable : list act :=
  [init_local "gfp_allowed_mask" (λ c, Some (set_gfp GFP_BITS_MASK c));
   init_call "set_mems_allowed";
   init_local "cad_pid" (λ c, Some (set_cad (init_pid (sched c)) c));
   init_call "smp_prepare_cpus"; init_call "workqueue_init"; init_call "init_mm_internals";
   init_call "rcu_init_tasks_generic";
   Action "do_pre_smp_initcalls" (init_only run_pre_smp_initcalls);
   init_call "lockup_detector_init"; init_call "smp_init"; init_call "sched_init_smp";
   init_call "padata_init"; init_call "page_alloc_init_late"] ++
  do_basic_setup ++
  [init_call "kunit_run_all_tests"; init_call "wait_for_initramfs";
   Action "console_on_rootfs" (init_only console_on_rootfs);
   Action "init_eaccess" (init_only early_userspace);
   init_call "integrity_load_keys"].

Definition mark_readonly s : verdict state :=
  if rodata_enabled (tabs (core s)) then
    run_program [late_call "rcu_barrier"; late_call "mark_rodata_ro"; late_call "rodata_test"] s
  else Goes s.

Definition free_initmem : act := late_local "free_initmem" (λ c, Some (set_freed c)).

(** The choice of the program, and its start. *)
Definition run_init s : verdict state :=
  let m := mach s in
  let '(out, l) := Initcalls.kernel_init execve_fn CONFIG_DEFAULT_INIT
                     (Launch (tabs (core s)) (world m) []) in
  let s := Sys (Cpu (preempt_count m) (irqs_disabled m) (outside l))
             (set_started out (set_tabs (tables l) (core s))) in
  match out with
  | Running _ => Goes s
  | PanicRequested _ _ => Panics "Requested init failed" s
  | PanicNoInit => Panics "No working init found." s
  end.

Definition kernel_init_thread : list act :=
  [ret_from_fork; Action "wait_for_completion" (init_only wait_for_completion)] ++
  kernel_init_freeable ++
  [late_call "async_synchronize_full";
   late_local "SYSTEM_FREEING_INITMEM" (enter_state SYSTEM_FREEING_INITMEM);
   late_call "kprobe_free_init_mem"; late_call "ftrace_free_init_mem"; late_call "kgdb_free_init_mem";
   init_call "exit_boot_config"; free_initmem;
   Action "mark_readonly" mark_readonly;
   late_call "pti_finalize";
   late_local "SYSTEM_RUNNING" (enter_state SYSTEM_RUNNING);
   late_call "numa_default_policy"; late_call "rcu_end_inkernel_boot"; late_call "do_sysctl_args";
   Action "run_init" run_init].

(** The machine as the boot loader leaves it, and the two threads. *)
Definition sched_start : scheduling := Scheduling SYSTEM_BOOTING 1 ∅ None None 0 0.
Definition shared_start (loglevel : Z) (rd : Z * Z) : shared initcall :=
  Shared (boot_init MAX_INIT loglevel) (Lines [] (BootConfig false 0 None None) [] 0 [] None) false false rd
    sched_start 0 0 false 0 None [] [] None.
Definition power_on (loglevel : Z) (rd : Z * Z) (m : cpu W) : config :=
  Pair (start_kernel ++ rest_init) kernel_init_thread [] (Sys m (shared_start loglevel rd)).
End startup.
