(* ===== verification/StartupFacts.v ===== *)
(** * StartupFacts: the start-up is safe in every interleaving

    Outlines of the two threads of [Startup]: what holds between any two of
    their actions, whatever the other thread does meanwhile.  From them: the
    start-up oopses only when one of its two threads could not be created, the
    thread that becomes init goes on only after kthreadd was asked for, the state
    of the system only advances, init memory is freed after its last use, every
    run gets to an end, and init is started with what the command line says. *)

From S2P Require Import Prelude CString BootParams CommandLine Initcalls Threads Startup.

Section facts.
Context {W initcall : Type} {env : StartupEnv W initcall}.
Implicit Types (s : sys W initcall) (c : shared initcall) (q : scheduling) (f : string).

(** ** What the code relies on *)

(** The functions that run in the boot thread; none of them creates tasks. *)
Definition boot_names : list string := act_name <$> (start_kernel (H := env) ++ rest_init).

Class StartupLaws : Prop := {
  some_slots : (2 <= MAX_INIT)%nat;
  setup_ok : setup_safe MAX_INIT setup_params;
  early_ok : Forall (λ p, early p = true ∨ param_str p = bytes_of_string "earlycon" →
    is_Some (setup_func p)) setup_params;
  parse_shaped line : Forall shaped (parse_line line).1;
  parse_dashes line offs : (parse_line line).2 = Some offs → (offs <= length line)%nat;
  boot_line_ok : text_ok boot_command_line;
  arch_line_ok m : text_ok (setup_arch_fn m).1 ∧
    (length (setup_arch_fn m).1 <= length boot_command_line)%nat;
  thread_errors f : thread_error f <= 0;
  boot_spawns f : f ∈ boot_names → spawns f = O;
  linker_levels : levels_ok initcall_table level_starts;
  level_parser level buf m : length (parse_level level buf m).1 = length buf;
}.

(** One of the threads of [rest_init] could not be created. *)
Definition kthreadd_made : Prop := thread_error "kthreadd" = 0.
Definition unmade : Prop := thread_error "kernel_init" ≠ 0 ∨ ¬ kthreadd_made.

(** The functions called before interrupts are enabled keep them off. *)
Definition quiet_start : Prop :=
  (∀ f m, f ∈ boot_names → irqs_disabled m = true → irqs_disabled (ext_call f m) = true) ∧
  (∀ m, irqs_disabled m = true → irqs_disabled (setup_arch_fn m).2 = true) ∧
  (∀ o set m, kernel_param o = Some set → irqs_disabled m = true → irqs_disabled (set m).2 = true).

(** ** The specification of the tables of init *)

(** The line that is parsed; its options that are no parameters of the kernel;
    the arguments behind its "--" (none when a parameter of the kernel refused its
    value) and those of the boot configuration. *)
Definition parsed_line (l : lines) : list Z :=
  default [] (extra_command_line (boot_config l)) ++ command_line l.
Definition unknown_options (line : list Z) : list bootopt :=
  filter (λ o, kernel_param (W := W) o = None) (parse_line line).1.
Definition dash_args (line : list Z) (refused : bool) : option (list Z) :=
  if refused then None else (λ offs, drop offs line) <$> (parse_line line).2.

(** What the parameters of the kernel on a line answer, on a machine [m]. *)
Fixpoint param_results (opts : list bootopt) (m : cpu W) : list Z :=
  match opts with
  | [] => []
  | o :: opts =>
      match kernel_param o with
      | Some set => let '(ret, m) := set m in ret :: param_results opts m
      | None => param_results opts m
      end
  end.
Definition refused_in (line : list Z) (m : cpu W) : bool := existsb nz (param_results (parse_line line).1 m).

Definition arg_options (args : option (list Z)) : list bootopt :=
  match args with Some args => (parse_line args).1 | None => [] end.

Definition early_tables (b0 : boot) : option boot :=
  snd <$> parse_early_options (H := env) (take (COMMAND_LINE_SIZE - 1) boot_command_line) b0.
Definition boot_tables (b0 : boot) (l : lines) (refused : bool) : option boot :=
  b ← early_tables b0;
  snd <$> process_options MAX_INIT parameqn_fn setup_params (unknown_options (parsed_line l))
    (arg_options (dash_args (parsed_line l) refused) ++ arg_options (extra_init_args (boot_config l))) b.

(** ** What holds of the shared variables *)

Definition released c : Prop := (0 < kthreadd_done (sched c) + waits_returned (sched c))%nat.
Definition pinned q (pid : Z) : Prop :=
  ∃ flags, tasks q !! pid = Some flags ∧ Z.land flags PF_NO_SETAFFINITY = PF_NO_SETAFFINITY.

(** Init could be created, is task 1 and kept on its processor; kthreadd is task 2
    if it could be created. *)
Definition threads_up q : Prop :=
  thread_error "kernel_init" = 0 ∧ init_pid q = Some 1 ∧ pinned q 1 ∧ 1 < next_pid q ∧
  kthreadd_task q = (if thread_error "kthreadd" =? 0 then Some 2 else None) ∧
  (kthreadd_made → is_Some (tasks q !! 2) ∧ 2 < next_pid q).

Context (loglevel : Z).
Abbreviation b0 := (boot_init MAX_INIT loglevel).

(** The command lines and the tables are those of the specification; the
    program of the ram disk may have been dropped. *)
Definition lines_ok (l : lines) : Prop :=
  cstr (saved_command_line l) = saved_text (boot_config l) boot_command_line ∧
  saved_command_line_len l = length (saved_text (boot_config l) boot_command_line).
Definition tables_ok c : Prop :=
  ∃ m b, boot_tables b0 (cmdlines c) (refused_in (parsed_line (cmdlines c)) m) = Some b ∧
    panic_later b = None ∧ argv_init (tabs c) = argv_init b ∧ envp_init (tabs c) = envp_init b ∧
    execute_command (tabs c) = execute_command b.
Definition launched c (name : list Z) : Prop :=
  ∃ m b w w', boot_tables b0 (cmdlines c) (refused_in (parsed_line (cmdlines c)) m) = Some b ∧
    panic_later b = None ∧
    execve_fn name (<[O := Some name]> (argv_init b)) (envp_init b) w = (0, w').

(** The invariant. *)
Record shared_ok c : Prop := {
  ok_order : (1 <= state_rank (system_state (sched c)))%nat → threads_up (sched c);
  ok_wait : released c → (1 <= state_rank (system_state (sched c)))%nat;
  ok_freed : initmem_freed c = true → released c ∧ kthreadd_made ∧ (2 <= state_rank (system_state (sched c)))%nat;
  ok_started o : started c = Some o →
    kthreadd_made ∧ system_state (sched c) = SYSTEM_RUNNING ∧ ∃ name, o = Running name ∧ launched c name;
}.
Definition irqs_ok s : Prop :=
  early_boot_irqs_disabled (core s) = true → quiet_start → irqs_disabled (mach s) = true.
Definition sys_ok s : Prop := shared_ok (core s) ∧ irqs_ok s.

(** From the completion on, until init is started: the state of the system, and
    whether the init sections are gone. *)
Record ready (st : system_states) (freed : bool) c : Prop := {
  ready_released : released c;
  ready_state : system_state (sched c) = st;
  ready_threads : threads_up (sched c);
  ready_freed : initmem_freed c = freed;
  ready_started : started c = None;
  ready_early : early_boot_irqs_disabled c = false;
  ready_lines : lines_ok (cmdlines c);
  ready_tables : tables_ok c;
}.

(** ** The guarantees of the two threads *)

Definition advances s s' : Prop :=
  (state_rank (system_state (sched (core s))) <= state_rank (system_state (sched (core s'))))%nat.
Definition boot_steps s s' : Prop :=
  sys_ok s' ∧ advances s s' ∧
  waits_returned (sched (core s')) = waits_returned (sched (core s)) ∧
  (released (core s) → core s' = core s) ∧
  (¬ released (core s) → released (core s') → ready SYSTEM_SCHEDULING false (core s')).
Definition init_steps s s' : Prop :=
  sys_ok s' ∧ advances s s' ∧
  init_pid (sched (core s')) = init_pid (sched (core s)) ∧
  (released (core s) → released (core s')) ∧
  (¬ released (core s) → s' = s).

Lemma ready_ok st fr c :
  (1 <= state_rank st)%nat → (fr = true → kthreadd_made ∧ (2 <= state_rank st)%nat) →
  ready st fr c → shared_ok c.
Proof.
  intros Hst Hfr []. split; [done | congruence | | congruence].
  rewrite ready_freed0, ready_state0. auto.
Qed.
Lemma irqs_off_ok s : early_boot_irqs_disabled (core s) = false → irqs_ok s.
Proof. intros He Ht. congruence. Qed.

(** Tasks created by kthreadd leave the first two alone. *)
Lemma new_tasks_facts n q :
  system_state (new_tasks n q) = system_state q ∧ init_pid (new_tasks n q) = init_pid q ∧
  kthreadd_task (new_tasks n q) = kthreadd_task q ∧ kthreadd_done (new_tasks n q) = kthreadd_done q ∧
  waits_returned (new_tasks n q) = waits_returned q ∧ next_pid q <= next_pid (new_tasks n q) ∧
  (∀ pid, pid < next_pid q → tasks (new_tasks n q) !! pid = tasks q !! pid).
Proof.
  revert q. induction n as [|n IH]; intros q; cbn [new_tasks]; [split_and!; done|].
  destruct (IH (new_task q)) as (H1 & H2 & H3 & H4 & H5 & H6 & H7).
  rewrite H1, H2, H3, H4, H5. cbn in H6, H7. split_and!; [done..|lia|].
  intros pid Hpid. rewrite H7 by lia. apply lookup_insert_ne. lia.
Qed.

Lemma threads_up_new n q : threads_up q → threads_up (new_tasks n q).
Proof.
  intros (H0 & H1 & (fl & H2 & Hfl) & H3 & H4 & H5).
  destruct (new_tasks_facts n q) as (_ & E2 & E3 & _ & _ & E6 & E7).
  split_and!; [done | by rewrite E2 | exists fl; by rewrite E7 by lia | lia | by rewrite E3|].
  intros Hm. destruct (H5 Hm) as [? ?]. rewrite E7 by lia. split; [done | lia].
Qed.
Lemma ready_new n st fr c : ready st fr c → ready st fr (set_sched (new_tasks n (sched c)) c).
Proof.
  intros []. destruct (new_tasks_facts n (sched c)) as (E1 & _ & _ & E4 & E5 & _ & _).
  split; try done; unfold released in *; cbn [sched set_sched upd_run].
  - by rewrite E4, E5.
  - by rewrite E1.
  - by apply threads_up_new.
Qed.

(** ** The boot thread: start_kernel *)

Context `{!StartupLaws}.

(** Nothing but the boot thread runs yet. *)
Record calm c : Prop := {
  calm_sched : sched c = sched_start;
  calm_started : started c = None;
  calm_freed : initmem_freed c = false;
  calm_rcu : rcu_depth c = O;
  calm_pid : local_pid c = 0;
}.
Definition stage (F : shared initcall → Prop) s : Prop := calm (core s) ∧ F (core s) ∧ irqs_ok s.

Lemma calm_unreleased c : calm c → ¬ released c.
Proof. intros []. unfold released. rewrite calm_sched0. cbn. lia. Qed.
Lemma calm_ok c : calm c → shared_ok c.
Proof.
  intros Hc. pose proof (calm_unreleased c Hc). destruct Hc.
  split; [rewrite calm_sched0; cbn; lia | done | congruence..].
Qed.
Lemma stage_stable F : stable init_steps (stage F).
Proof. intros s s' (_ & _ & _ & _ & Hs) Hst. destruct Hst as [Hc ?]. rewrite Hs; [done|]. by apply calm_unreleased. Qed.

(** What an action of this stretch has to do. *)
Definition boot_does (F F' : shared initcall → Prop) (run : sys W initcall → verdict (sys W initcall)) : Prop :=
  ∀ s, stage F s →
    match run s with
    | Goes s' => stage F' s'
    | Panics _ _ => True
    | Waits | Oops => False
    end.

(** The boot thread waits in its idle loop only. *)
Definition go_ahead s : Prop := released (core s) ∧ is_Some (init_pid (sched (core s))).
Definition busy s : Prop := ¬ go_ahead s.

Lemma stage_steps F F' s s' : stage F s → stage F' s' → boot_steps s s'.
Proof.
  intros (Hc & _) (Hc' & _ & Hi). pose proof (calm_unreleased _ Hc). pose proof (calm_unreleased _ Hc').
  split; [split; [by apply calm_ok | done]|]. destruct Hc as [Hq _ _ _ _], Hc' as [Hq' _ _ _ _].
  unfold advances. rewrite Hq, Hq'. split_and!; [done..| |]; tauto.
Qed.
Lemma boot_does_ok F F' name run :
  boot_does F F' run → action_ok unmade busy boot_steps (stage F) (stage F') (Action name (init_only run)).
Proof.
  intros Hdoes s Hs. cbn [act_run]. unfold init_only. rewrite calm_freed by apply Hs.
  specialize (Hdoes s Hs). destruct (run s) as [s'| |msg s'|]; [|done..].
  split; [|done]. by eapply stage_steps.
Qed.

Lemma boot_outline_cons F F' name run l T :
  boot_does F F' run → outline unmade busy init_steps boot_steps (stage F') l T →
  outline unmade busy init_steps boot_steps (stage F) (Action name (init_only run) :: l) T.
Proof. intros Hd. apply outline_cons; [apply stage_stable | by apply boot_does_ok]. Qed.

Lemma set_sched_same c : set_sched (sched c) c = c.
Proof. by destruct c. Qed.
Lemma ext_boot f s : spawns f = O → ext f s = Goes (Sys (ext_call f (mach s)) (core s)).
Proof. intros Hf. unfold ext. rewrite Hf. cbn [new_tasks]. by rewrite set_sched_same. Qed.

Lemma call_does F f : f ∈ boot_names → boot_does F F (ext f).
Proof.
  intros Hf s (Hc & HF & Hi). rewrite ext_boot by by apply boot_spawns.
  split; [done|]. split; [done|]. intros He Hq. by apply Hq, Hi.
Qed.
Lemma calls_outline F fs l T :
  Forall (λ f, f ∈ boot_names) fs → outline unmade busy init_steps boot_steps (stage F) l T →
  outline unmade busy init_steps boot_steps (stage F) ((init_call <$> fs) ++ l) T.
Proof.
  induction 1 as [|f fs Hf _ IH]; [done|]. intros Hl. cbn [fmap list_fmap app].
  apply boot_outline_cons with F; [by apply call_does | by apply IH].
Qed.

(** Code of this file that leaves the threads alone. *)
Lemma local_does (F F' : shared initcall → Prop) name g :
  (∀ c, calm c → F c → ∃ c', g c = Some c' ∧ calm c' ∧ F' c' ∧
     early_boot_irqs_disabled c' = early_boot_irqs_disabled c) →
  boot_does F F' (local name g).
Proof.
  intros Hg s (Hc & HF & Hi). destruct (Hg _ Hc HF) as (c' & Hc' & Hcalm & HF' & He).
  unfold local. rewrite Hc'. split; [done|]. split; [done|]. unfold irqs_ok in *. cbn [core mach]. by rewrite He.
Qed.

(** *** The stages of the command line *)

Definition tmp_cmdline : list Z := take (COMMAND_LINE_SIZE - 1) boot_command_line.
Definition early_stage c : Prop :=
  tables_wf MAX_INIT (tabs c) ∧
  if early_params_done c then early_tables b0 = Some (tabs c) else tabs c = b0.
Definition arch_stage c : Prop :=
  early_stage c ∧ text_ok (command_line (cmdlines c)) ∧
  (length (command_line (cmdlines c)) <= length boot_command_line)%nat.
Definition config_stage c : Prop :=
  arch_stage c ∧ text_ok (default [] (extra_command_line (boot_config (cmdlines c)))) ∧
  text_ok (default [] (extra_init_args (boot_config (cmdlines c)))) ∧
  (initargs_offs (boot_config (cmdlines c)) <= length boot_command_line)%nat.
Definition copied (l : lines) : Prop :=
  lines_ok l ∧ cstr (static_command_line l) = parsed_line l.
Definition lines_stage c : Prop := early_stage c ∧ copied (cmdlines c).
Definition options_stage c : Prop :=
  tables_wf MAX_INIT (tabs c) ∧ early_tables b0 = Some (tabs c) ∧ copied (cmdlines c).

(** Behind the unknown options the arguments of init follow, [args] of them so
    far. *)
Definition args_stage (args : lines → bool → list bootopt) c : Prop :=
  tables_wf MAX_INIT (tabs c) ∧ lines_ok (cmdlines c) ∧
  ∃ m b b1, let refused := refused_in (parsed_line (cmdlines c)) m in
    early_tables b0 = Some b ∧
    for_options (unknown_bootoption MAX_INIT parameqn_fn setup_params)
      (unknown_options (parsed_line (cmdlines c))) b = Some (tt, b1) ∧
    for_options (set_init_arg MAX_INIT) (args (cmdlines c) refused) b1 = Some (tt, tabs c) ∧
    after_dashes (cmdlines c) = dash_args (parsed_line (cmdlines c)) refused.
Definition no_args (l : lines) (refused : bool) : list bootopt := [].
Definition line_args (l : lines) (refused : bool) : list bootopt :=
  arg_options (dash_args (parsed_line l) refused).
Definition tables_stage c : Prop :=
  tables_wf MAX_INIT (tabs c) ∧ lines_ok (cmdlines c) ∧
  ∃ m, boot_tables b0 (cmdlines c) (refused_in (parsed_line (cmdlines c)) m) = Some (tabs c).
Definition alive_stage c : Prop := tables_stage c ∧ panic_later (tabs c) = None.

Lemma init_args_ok opts b :
  Forall shaped opts → tables_wf MAX_INIT b →
  ∃ b', for_options (set_init_arg MAX_INIT) opts b = Some (tt, b') ∧ tables_wf MAX_INIT b'.
Proof.
  intros Ho Hwf. apply for_options_ok; [|done|done]. intros o b' Hwf' (name & val & Hs).
  destruct (set_init_arg_ok _ o name val b' Hwf' Hs) as (b2 & Hr & Hwf2 & _). by exists b2.
Qed.

Lemma early_run b :
  tables_wf MAX_INIT b →
  ∃ b', parse_early_options (H := env) tmp_cmdline b = Some (tt, b') ∧ tables_wf MAX_INIT b'.
Proof.
  intros Hwf. unfold parse_early_options. apply for_options_ok; [|done|apply parse_shaped].
  intros o b' Hwf' _. apply do_early_param_ok; [apply setup_ok | apply early_ok | done].
Qed.
Lemma parse_early_ok c :
  early_stage c →
  ∃ b, parse_early_param c = Some (upd_boot b (cmdlines c) true (initrd c) c) ∧
    tables_wf MAX_INIT b ∧ early_tables b0 = Some b.
Proof.
  intros [Hwf He]. unfold parse_early_param. destruct (early_params_done c) eqn:Hd.
  - exists (tabs c). split; [|done]. rewrite <-Hd. by destruct c.
  - destruct (early_run (tabs c) Hwf) as (b & Hr & Hwf'). fold tmp_cmdline. rewrite Hr. exists b.
    split; [done|]. split; [done|]. unfold early_tables. fold tmp_cmdline. by rewrite <-He, Hr.
Qed.

Lemma setup_arch_does :
  boot_does early_stage arch_stage (λ s,
    let '(line, m) := setup_arch_fn (mach s) in
    let l := cmdlines (core s) in
    let c := set_lines (Lines line (boot_config l) (saved_command_line l) (saved_command_line_len l)
                         (static_command_line l) (after_dashes l)) (core s) in
    local "setup_arch" (λ c, if arch_parses_early then parse_early_param c else Some c) (Sys m c)).
Proof.
  intros s (Hc & HF & Hi). pose proof (arch_line_ok (mach s)) as [Hok Hlen].
  assert (Hq : quiet_start → irqs_disabled (mach s) = true → irqs_disabled (setup_arch_fn (mach s)).2 = true)
    by (intros Hq; apply Hq).
  destruct (setup_arch_fn (mach s)) as [line m]. cbn [fst snd] in *. cbn zeta.
  set (c := set_lines _ (core s)).
  apply (local_does (λ c, early_stage c ∧ command_line (cmdlines c) = line) arch_stage).
  - intros c1 Hc1 [He Hl]. destruct arch_parses_early.
    + destruct (parse_early_ok c1 He) as (b & Hb & Hwf & Ht). rewrite Hb. eexists. split; [done|].
      split; [by destruct Hc1|]. split; [|done]. unfold arch_stage. cbn [cmdlines upd_boot].
      by rewrite Hl.
    + exists c1. split; [done|]. split; [done|]. split; [|done]. split; [done|]. by rewrite Hl.
  - split; [by destruct Hc|]. split; [done|]. intros He Hk. cbn [mach]. by apply Hq, Hi.
Qed.

Lemma config_texts alloc find force i e params err ret :
  let cfg := setup_boot_config alloc find force i e params err ret in
  text_ok (default [] (extra_command_line cfg)) ∧ text_ok (default [] (extra_init_args cfg)) ∧
  (initargs_offs cfg <= match err with ParseDashes o => o | _ => 0 end)%nat.
Proof.
  assert (Hopt : ∀ o : option (list Z), text_ok (default [] (cstr <$> o)))
    by (intros [t|]; [apply cstr_ok | constructor]).
  assert (Hnil : text_ok []) by constructor.
  cbn zeta. unfold setup_boot_config. destruct err; [split_and!; cbn; done || lia|..];
    (destruct (_ || force); [|split_and!; cbn; done || lia]); cbn [negb];
    (destruct (match i with Some _ => _ | None => _ end); [|split_and!; cbn; done || lia]);
    (destruct (_ <=? _); [split_and!; cbn; done || lia|]);
    (destruct (_ <? _); split_and!; cbn; try apply Hopt; done || lia).
Qed.

Lemma boot_config_does :
  boot_does arch_stage config_stage (local "setup_boot_config" (λ c, Some (run_setup_boot_config c))).
Proof.
  apply local_does. intros c Hc HF. eexists. split; [reflexivity|]. unfold run_setup_boot_config.
  destruct (get_boot_config_from_initrd _ _ _ _) as [found end_]. fold tmp_cmdline.
  pose proof (parse_dashes tmp_cmdline) as Hd.
  destruct (parse_line tmp_cmdline) as [opts dashes]. destruct (xbc_load found) as [ret find_node].
  set (err := match dashes with Some offs => ParseDashes offs | None => ParseEnd end).
  pose proof (config_texts memblock_ok find_node config_force (snd <$> found) embedded_config
                (opt_name <$> opts) err ret) as (Hx & Ha & Ho).
  split; [by destruct Hc|]. split; [|done].
  split; [by destruct HF as (? & ? & ?)|]. cbn [cmdlines upd_boot boot_config]. split_and!; [done..|].
  etransitivity; [exact Ho|]. subst err. destruct dashes as [offs|]; [|lia].
  etransitivity; [by apply Hd|]. unfold tmp_cmdline. rewrite length_take. lia.
Qed.

Lemma command_line_does : boot_does config_stage lines_stage run_setup_command_line.
Proof.
  intros s (Hc & ((He & Hl & Hlen) & Hx & Ha & Ho) & Hi). unfold run_setup_command_line.
  destruct (setup_command_line_fits memblock_ok (boot_config (cmdlines (core s))) boot_command_line
              (command_line (cmdlines (core s)))) as [[-> _]|(saved & static & -> & Hs & Hst)];
    [apply boot_line_ok | done..|].
  split; [by destruct Hc|]. split; [|done]. split; [done|]. split; [|done]. by split.
Qed.

Lemma early_param_does : boot_does lines_stage options_stage (local "parse_early_param" parse_early_param).
Proof.
  apply local_does. intros c Hc [He Hl]. destruct (parse_early_ok c He) as (b & Hb & Hwf & Ht).
  eexists. split; [exact Hb|]. split; [by destruct Hc|]. done.
Qed.

(** The pass over the line hands every option that is no parameter of the
    kernel to unknown_bootoption, in order. *)
Lemma booting_run opts (m : cpu W) b refused :
  Forall shaped opts → tables_wf MAX_INIT b →
  ∃ m' b', booting_options opts m b refused = Some (m', b', refused || existsb nz (param_results opts m)) ∧
    tables_wf MAX_INIT b' ∧
    for_options (unknown_bootoption MAX_INIT parameqn_fn setup_params)
      (filter (λ o, kernel_param (W := W) o = None) opts) b = Some (tt, b') ∧
    (quiet_start → irqs_disabled m = true → irqs_disabled m' = true).
Proof.
  intros Ho. revert m b refused. induction Ho as [|o opts Hs _ IH]; intros m b refused Hwf;
    cbn [booting_options param_results]; [by eexists m, b; rewrite orb_false_r|].
  destruct (kernel_param o) as [set|] eqn:Hp.
  - rewrite filter_cons_False by congruence. destruct (set m) as [ret m1] eqn:Hm.
    destruct (IH m1 b (refused || nz ret) Hwf) as (m' & b' & -> & Hwf' & Hf & Hq).
    cbn [existsb]. rewrite orb_assoc. eexists _, _. split_and!; [done..|]. intros Hk Hi. apply Hq; [done|].
    destruct Hk as (_ & _ & Hk). specialize (Hk o set m Hp Hi). by rewrite Hm in Hk.
  - rewrite filter_cons_True by done. destruct Hs as (name & val & Hs).
    destruct (unknown_bootoption_ok MAX_INIT parameqn_fn setup_params o name val b)
      as (b1 & Hu & Hwf1); [apply setup_ok | done..|].
    rewrite Hu. cbn [mbind option_bind for_options]. rewrite (kbind_some _ _ _ _ _ Hu), orb_false_r.
    by apply IH.
Qed.

Lemma parse_booting_does : boot_does options_stage (args_stage no_args) parse_booting.
Proof.
  intros s (Hc & (Hwf & He & [Hl Hst]) & Hi). unfold parse_booting. rewrite Hst.
  pose proof (parse_shaped (parsed_line (cmdlines (core s)))) as Hsh.
  destruct (parse_line (parsed_line (cmdlines (core s)))) as [opts dashes] eqn:Hp.
  destruct (booting_run opts (mach s) (tabs (core s)) false Hsh Hwf) as (m & b & -> & Hwf' & Hf & Hq).
  split; [by destruct Hc|]. split; [|intros Hearly Hk; apply Hq; [done|]; by apply Hi].
  assert (Hr : refused_in (parsed_line (cmdlines (core s))) (mach s) = existsb nz (param_results opts (mach s)))
    by (unfold refused_in; by rewrite Hp).
  split; [done|]. split; [done|]. exists (mach s), (tabs (core s)), b. cbn zeta.
  set (l := cmdlines (core _)). change (parsed_line l) with (parsed_line (cmdlines (core s))).
  rewrite Hr. unfold unknown_options, dash_args. by rewrite Hp.
Qed.

Lemma print_unknown_does args :
  boot_does (args_stage args) (args_stage args) (local "print_unknown_bootoptions" print_unknown).
Proof.
  apply local_does. intros c Hc HF. exists c. split; [|done]. unfold print_unknown.
  pose proof some_slots. destruct (print_unknown_total MAX_INIT (tabs c)) as [r ->]; [lia | apply HF | done].
Qed.

(** A text with further arguments of init. *)
Lemma more_args_does name args (get : shared initcall → option (list Z)) (more : lines → bool → option (list Z)) :
  (∀ c refused, after_dashes (cmdlines c) = dash_args (parsed_line (cmdlines c)) refused →
     get c = more (cmdlines c) refused) →
  boot_does (args_stage args) (args_stage (λ l refused, args l refused ++ arg_options (more l refused)))
    (local name (λ c, parse_init_args (get c) c)).
Proof.
  intros Hget. apply local_does. intros c Hc (Hwf & Hl & m & b & b1 & He & Hu & Ha & Hd).
  set (refused := refused_in (parsed_line (cmdlines c)) m) in *.
  rewrite (Hget c refused Hd).
  assert (Hsh : Forall shaped (arg_options (more (cmdlines c) refused))).
  { unfold arg_options. destruct (more _ _); [apply parse_shaped | constructor]. }
  destruct (init_args_ok _ (tabs c) Hsh Hwf) as (b' & Hrun & Hwf').
  assert (Hp : parse_init_args (more (cmdlines c) refused) c =
               Some (if more (cmdlines c) refused is Some _ then set_tabs b' c else c) ∧
               tabs (if more (cmdlines c) refused is Some _ then set_tabs b' c else c) = b').
  { unfold parse_init_args, arg_options in *. destruct (more _ _); [by rewrite Hrun|].
    by injection Hrun as ->. }
  destruct Hp as [-> Ht]. set (c' := if more _ _ is Some _ then _ else _) in *.
  assert (Hrest : cmdlines c' = cmdlines c ∧ calm c' ∧ early_boot_irqs_disabled c' = early_boot_irqs_disabled c).
  { subst c'. destruct (more _ _); [|done]. split; [done|]. split; [by destruct Hc | done]. }
  clearbody c'. destruct Hrest as (Hlines & Hcalm & Hearly). exists c'. split; [done|]. split; [done|].
  split; [|done]. unfold args_stage. rewrite Ht, Hlines. split; [done|]. split; [done|].
  exists m, b, b1. fold refused. split_and!; [done..| |done]. rewrite for_options_app.
  by rewrite (kbind_some _ _ _ _ _ Ha).
Qed.

Lemma line_args_does :
  boot_does (args_stage no_args) (args_stage line_args)
    (local "Setting init args" (λ c, parse_init_args (after_dashes (cmdlines c)) c)).
Proof. by apply (more_args_does _ no_args _ (λ l refused, dash_args (parsed_line l) refused)). Qed.

Lemma extra_args_does :
  boot_does (args_stage line_args) tables_stage
    (local "Setting extra init args"
       (λ c, parse_init_args (extra_init_args (boot_config (cmdlines c))) c)).
Proof.
  intros s Hs. pose proof (more_args_does "Setting extra init args" line_args
    (λ c, extra_init_args (boot_config (cmdlines c))) (λ l _, extra_init_args (boot_config l))) as Hd.
  specialize (Hd ltac:(done) s Hs). destruct (local _ _ _) as [s'| | |]; [|done..].
  destruct Hd as (Hc & (Hwf & Hl & m & b & b1 & He & Hu & Ha & _) & Hi).
  split; [done|]. split; [|done]. split; [done|]. split; [done|]. exists m.
  unfold boot_tables. rewrite He. cbn [mbind option_bind]. unfold process_options.
  rewrite (kbind_some _ _ _ _ _ Hu). unfold line_args in Ha. by rewrite Ha.
Qed.

(** *** The outline of start_kernel *)

Ltac boot_names_tac :=
  repeat first [apply Forall_nil_2 | apply Forall_cons_2]; apply (bool_decide_unpack _); vm_compute; exact I.

(** What the later stages say does not change when something is reported or
    the ram disk is given up. *)
Definition settled (F : shared initcall → Prop) : Prop :=
  ∀ c msg rd, F c → F (warn msg c) ∧ F (set_initrd rd c).

Lemma warn_does F msg (fix_it : bool) :
  settled F → boot_does F F (λ s,
    if irqs_disabled (mach s) then Goes s
    else
      let s := Sys (mach s) (warn msg (core s)) in Goes (if fix_it then set_irqs true s else s)).
Proof.
  intros HF s (Hc & HFs & Hi). destruct (irqs_disabled (mach s)) eqn:Hirq; [done|].
  assert (Hw : stage F (Sys (mach s) (warn msg (core s)))).
  { split; [by destruct Hc|]. split; [apply (HF _ msg (0, 0) HFs) | done]. }
  destruct fix_it; [|done]. destruct Hw as (? & ? & _). done.
Qed.
Lemma call_if_does F (cond : W → bool) f :
  f ∈ boot_names → boot_does F F (λ s, if cond (world (mach s)) then ext f s else Goes s).
Proof. intros Hf s Hs. destruct (cond _); [by apply call_does | done]. Qed.
Lemma initcall_debug_does F :
  settled F → boot_does F F (λ s,
    if initcall_debug (world (mach s))
    then local "initcall_debug_enable" (λ c, Some (initcall_debug_enable c)) s else Goes s).
Proof.
  intros HF s Hs. destruct (initcall_debug _); [|done]. revert s Hs. apply local_does. intros c Hc HFc.
  eexists. split; [done|]. unfold initcall_debug_enable. destruct tracepoint_errors as [[a b]|]; [|done].
  destruct (nz _); [|done]. split; [by destruct Hc|]. split; [|done]. apply (HF c _ (0, 0) HFc).
Qed.
Lemma check_initrd_does F : settled F → boot_does F F check_initrd.
Proof.
  intros HF s (Hc & HFs & Hi). unfold check_initrd. destruct (initrd (core s)) as [start end_] eqn:Hrd.
  destruct (_ && _); [|done]. split; [by destruct Hc|]. split; [|done].
  apply (HF _ "initrd"%string). apply (HF (core s) _ (0, 0) HFs).
Qed.

(** Interrupts are off when the flag is set, and the flag is cleared when they
    are turned on. *)
Definition irqs_are_off (F : shared initcall → Prop) s : Prop := stage F s ∧ irqs_disabled (mach s) = true.
Lemma irqs_off_outline F l T :
  (∀ c b, F c → F (set_early b c)) → outline unmade busy init_steps boot_steps (stage F) l T →
  outline unmade busy init_steps boot_steps (stage F) (local_irq_disable :: set_early_irqs true :: l) T.
Proof.
  intros HF Hl. apply outline_cons with (irqs_are_off F); [apply stage_stable| |].
  { intros s Hs. cbn [act_run local_irq_disable]. unfold init_only. rewrite calm_freed by apply Hs.
    assert (Hs' : stage F (set_irqs true s)) by (destruct Hs as (? & ? & ?); split_and!; done).
    split; [by eapply stage_steps | done]. }
  apply outline_cons with (stage F); [| |exact Hl].
  { intros s s' Hst [Hs Hi]. pose proof (stage_stable F s s' Hst Hs). split; [done|].
    destruct Hst as (_ & _ & _ & _ & Hsame). rewrite Hsame; [done|]. by apply calm_unreleased, Hs. }
  intros s [Hs Hi]. cbn [act_run set_early_irqs init_local]. unfold init_only. rewrite calm_freed by apply Hs.
  cbn [local core]. destruct Hs as (Hc & HFs & _).
  assert (Hs' : stage F (Sys (mach s) (set_early true (core s)))).
  { split; [by destruct Hc|]. split; [by apply HF | by intros _ _]. }
  split; [|done]. eapply (stage_steps (λ _, True) F); [|done]. split; [done|]. split; [done|].
  intros _ _. done.
Qed.

Definition alive c : Prop := alive_stage c ∧ early_boot_irqs_disabled c = false.
Definition tables_early c : Prop := tables_stage c ∧ early_boot_irqs_disabled c = false.

Lemma clear_early_does :
  boot_does tables_stage tables_early (local "early_boot_irqs_disabled" (λ c, Some (set_early false c))).
Proof. intros s (Hc & HF & Hi). split; [by destruct Hc|]. split; [done|]. intros He. done. Qed.
Lemma irqs_on_does : boot_does tables_early tables_early (λ s, Goes (set_irqs false s)).
Proof. intros s (Hc & [HF He] & Hi). split; [done|]. split; [done|]. intros He'. cbn in *. congruence. Qed.
Lemma check_panic_does : boot_does tables_early alive check_panic_later.
Proof.
  intros s (Hc & [HF He] & Hi). unfold check_panic_later.
  destruct (panic_later (tabs (core s))) eqn:Hp; [done|]. split; [done|]. split; [|done]. done.
Qed.

Lemma start_kernel_outline l T :
  outline unmade busy init_steps boot_steps (stage alive) l T →
  outline unmade busy init_steps boot_steps (stage early_stage) (start_kernel ++ l) T.
Proof.
  intros Hl. unfold start_kernel, start_kernel_entry, start_kernel_lines, start_kernel_options,
    start_kernel_core, start_kernel_irqs, start_kernel_rest. rewrite <-!app_assoc.
  apply calls_outline; [boot_names_tac|]. apply irqs_off_outline; [done|].
  apply calls_outline; [boot_names_tac|].
  apply boot_outline_cons with arch_stage; [apply setup_arch_does|].
  apply boot_outline_cons with config_stage; [apply boot_config_does|].
  apply boot_outline_cons with lines_stage; [apply command_line_does|].
  apply calls_outline; [boot_names_tac|].
  apply boot_outline_cons with options_stage; [apply early_param_does|].
  apply boot_outline_cons with (args_stage no_args); [apply parse_booting_does|].
  apply boot_outline_cons with (args_stage no_args); [apply print_unknown_does|].
  apply boot_outline_cons with (args_stage line_args); [apply line_args_does|].
  apply boot_outline_cons with tables_stage; [apply extra_args_does|].
  apply calls_outline; [boot_names_tac|].
  apply boot_outline_cons with tables_stage; [by apply (warn_does tables_stage _ true)|].
  apply calls_outline; [boot_names_tac|].
  apply boot_outline_cons with tables_stage; [by apply initcall_debug_does|].
  apply calls_outline; [boot_names_tac|].
  apply boot_outline_cons with tables_stage; [by apply (warn_does tables_stage _ false)|].
  apply boot_outline_cons with tables_early; [apply clear_early_does|].
  apply boot_outline_cons with tables_early; [apply irqs_on_does|].
  apply (calls_outline _ ["kmem_cache_init_late"; "console_init"]%string); [boot_names_tac|].
  apply boot_outline_cons with alive; [apply check_panic_does|].
  apply (calls_outline _ ["lockdep_init"; "locking_selftest"]%string); [boot_names_tac|].
  apply boot_outline_cons with alive; [by apply check_initrd_does|].
  apply calls_outline; [boot_names_tac|].
  apply boot_outline_cons with alive; [apply call_if_does; boot_names_tac|].
  apply calls_outline; [boot_names_tac|].
  apply boot_outline_cons with alive; [apply call_if_does; boot_names_tac|].
  apply calls_outline; [boot_names_tac|]. exact Hl.
Qed.

(** ** The boot thread: rest_init *)

(** The scheduling variables, the locals of [rest_init], and what is left of
    [start_kernel]. *)
Record resting q (pid : Z) (rcu : nat) c : Prop := {
  resting_sched : sched c = q;
  resting_pid : local_pid c = pid;
  resting_rcu : rcu_depth c = rcu;
  resting_started : started c = None;
  resting_freed : initmem_freed c = false;
  resting_early : early_boot_irqs_disabled c = false;
  resting_alive : alive_stage c;
}.
Definition rest_at q pid rcu s : Prop := resting q pid rcu (core s).
Definition before_complete q : Prop :=
  kthreadd_done q = O ∧ waits_returned q = O ∧
  ((1 <= state_rank (system_state q))%nat → threads_up q).

Lemma rest_unreleased q pid rcu c : before_complete q → resting q pid rcu c → ¬ released c.
Proof. intros (Hd & Hw & _) []. unfold released. rewrite resting_sched0, Hd, Hw. lia. Qed.
Lemma rest_ok q pid rcu s : before_complete q → rest_at q pid rcu s → sys_ok s.
Proof.
  intros Hq Hs. pose proof (rest_unreleased _ _ _ _ Hq Hs). destruct Hs, Hq as (_ & _ & Hup).
  split; [|by apply irqs_off_ok]. split; [by rewrite resting_sched0 | done | congruence..].
Qed.
Lemma rest_stable q pid rcu : before_complete q → stable init_steps (rest_at q pid rcu).
Proof.
  intros Hq s s' (_ & _ & _ & _ & Hsame) Hs. rewrite Hsame; [done|]. by eapply rest_unreleased.
Qed.

Lemma rest_cons q q' pid pid' rcu rcu' name run l T :
  before_complete q → before_complete q' →
  (state_rank (system_state q) <= state_rank (system_state q'))%nat →
  (∀ s, rest_at q pid rcu s → ∃ s', run s = Goes s' ∧ rest_at q' pid' rcu' s') →
  outline unmade busy init_steps boot_steps (rest_at q' pid' rcu') l T →
  outline unmade busy init_steps boot_steps (rest_at q pid rcu) (Action name run :: l) T.
Proof.
  intros Hq Hq' Hrank Hrun Hl.
  apply outline_cons with (rest_at q' pid' rcu'); [by apply rest_stable| |exact Hl].
  intros s Hs. cbn [act_run]. destruct (Hrun s Hs) as (s' & -> & Hs'). split; [|done].
  pose proof (rest_unreleased _ _ _ _ Hq Hs). pose proof (rest_unreleased _ _ _ _ Hq' Hs').
  split; [by eapply rest_ok|]. unfold advances. destruct Hs, Hs', Hq as (? & ? & _), Hq' as (? & ? & _).
  rewrite resting_sched0, resting_sched1. split_and!; [done | congruence | tauto..].
Qed.
Lemma rest_call q pid rcu f l T :
  before_complete q → f ∈ boot_names →
  outline unmade busy init_steps boot_steps (rest_at q pid rcu) l T →
  outline unmade busy init_steps boot_steps (rest_at q pid rcu) (late_call f :: l) T.
Proof.
  intros Hq Hf. apply rest_cons; [done..|]. intros s Hs. rewrite ext_boot by by apply boot_spawns.
  by eexists.
Qed.
Lemma rest_local q q' pid pid' rcu rcu' name g l T :
  before_complete q → before_complete q' →
  (state_rank (system_state q) <= state_rank (system_state q'))%nat →
  (∀ c, resting q pid rcu c → g c = Some (upd_run q' pid' rcu' c)) →
  outline unmade busy init_steps boot_steps (rest_at q' pid' rcu') l T →
  outline unmade busy init_steps boot_steps (rest_at q pid rcu) (late_local name g :: l) T.
Proof.
  intros Hq Hq' Hrank Hg. apply rest_cons; [done..|]. intros s Hs. unfold local. rewrite (Hg _ Hs).
  eexists. split; [done|]. unfold rest_at in *. cbn [core]. by destruct Hs.
Qed.

(** The stations of [rest_init]. *)
Definition q_init : scheduling := Scheduling SYSTEM_BOOTING 2 {[ 1 := 0 ]} (Some 1) None 0 0.
Definition q_pinned : scheduling :=
  Scheduling SYSTEM_BOOTING 2 {[ 1 := PF_NO_SETAFFINITY ]} (Some 1) None 0 0.
Definition q_late (st : system_states) (d : nat) : scheduling :=
  if thread_error "kthreadd" =? 0
  then Scheduling st 3 (<[2 := 0]> {[ 1 := PF_NO_SETAFFINITY ]}) (Some 1) (Some 2) d 0
  else Scheduling st 2 {[ 1 := PF_NO_SETAFFINITY ]} (Some 1) None d 0.
Definition q_made : scheduling :=
  if thread_error "kthreadd" =? 0
  then Scheduling SYSTEM_BOOTING 3 (<[2 := 0]> {[ 1 := PF_NO_SETAFFINITY ]}) (Some 1) None 0 0
  else q_pinned.
Definition kthreadd_pid : Z := if thread_error "kthreadd" =? 0 then 2 else thread_error "kthreadd".

Lemma q_late_up st d : thread_error "kernel_init" = 0 → threads_up (q_late st d).
Proof.
  intros Hi. unfold threads_up, q_late, kthreadd_made. destruct (Z.eqb_spec (thread_error "kthreadd") 0) as [Hk|Hk].
  - split_and!; [done | done | by exists PF_NO_SETAFFINITY | done | done | by split; [eexists|]].
  - split_and!; [done | done | by exists PF_NO_SETAFFINITY | done..].
Qed.
Lemma q_late_before st : thread_error "kernel_init" = 0 → before_complete (q_late st 0).
Proof.
  intros Hi. split; [|split; [|intros _; by apply q_late_up]]; unfold q_late; by destruct (_ =? _).
Qed.
Lemma q_late_state st d : system_state (q_late st d) = st.
Proof. unfold q_late. by destruct (_ =? _). Qed.
Lemma q_made_before : before_complete q_made.
Proof. unfold q_made. destruct (_ =? _); (split_and!; [done..|cbn; lia]). Qed.
Lemma q_made_state : system_state q_made = SYSTEM_BOOTING.
Proof. unfold q_made. by destruct (_ =? _). Qed.
Lemma q_late_sched st : set_state st (q_late SYSTEM_BOOTING 0) = q_late st 0.
Proof. unfold q_late. by destruct (_ =? _). Qed.
(** The lookup of kthreadd, by an error in place of a number when there is none. *)
Lemma find_kthreadd : set_kthreadd ((λ _, kthreadd_pid) <$> tasks q_made !! kthreadd_pid) q_made = q_late SYSTEM_BOOTING 0.
Proof.
  unfold q_made, q_late, kthreadd_pid, q_pinned. pose proof (thread_errors "kthreadd").
  destruct (Z.eqb_spec (thread_error "kthreadd") 0); cbn [tasks]; [done|].
  by rewrite lookup_singleton_ne by lia.
Qed.

(** After the completion the boot thread only idles. *)
Definition idle s : Prop := sys_ok s ∧ released (core s) ∧ is_Some (init_pid (sched (core s))).
Lemma idle_stable : stable init_steps idle.
Proof. intros s s' (Hok & _ & Hp & Hr & _) (_ & Hrel & Hpid). split; [done|]. rewrite Hp. auto. Qed.
Lemma idle_calls fs :
  Forall (λ f, f ∈ boot_names) fs → outline unmade busy init_steps boot_steps idle (late_call <$> fs) idle.
Proof.
  intros Hfs. apply outline_same; [apply idle_stable|]. apply Forall_fmap. eapply Forall_impl; [exact Hfs|].
  intros f Hf s (Hok & Hrel & Hpid). cbn [act_run late_call]. rewrite ext_boot by by apply boot_spawns.
  assert (Hok' : sys_ok (Sys (ext_call f (mach s)) (core s))).
  { destruct Hok as [? Hi]. split; [done|]. intros He Hk. by apply Hk, Hi. }
  split; [|done]. split; [done|]. unfold advances. cbn [core]. split_and!; tauto || lia.
Qed.

Lemma complete_ready pid c :
  thread_error "kernel_init" = 0 → resting (q_late SYSTEM_SCHEDULING 0) pid 0 c →
  ∃ c', complete c = Some c' ∧ ready SYSTEM_SCHEDULING false c' ∧ sched c' = q_late SYSTEM_SCHEDULING 1.
Proof.
  intros Hi []. eexists. split; [done|]. rewrite resting_sched0.
  assert (Hq : set_completion (S (kthreadd_done (q_late SYSTEM_SCHEDULING 0)))
    (waits_returned (q_late SYSTEM_SCHEDULING 0)) (q_late SYSTEM_SCHEDULING 0) = q_late SYSTEM_SCHEDULING 1)
    by (unfold q_late; by destruct (_ =? _)).
  rewrite Hq. split; [|done]. destruct resting_alive0 as [(Hwf & Hl & m & Ht) Hp].
  split; try done.
  - unfold released. cbn [sched set_sched upd_run]. unfold q_late. destruct (_ =? _); cbn; lia.
  - cbn [sched set_sched upd_run]. apply q_late_state.
  - by apply q_late_up.
  - by exists m, (tabs c).
Qed.

(** The end of [rest_init], whether there is a kthreadd or not. *)
Lemma complete_outline pid :
  thread_error "kernel_init" = 0 →
  outline unmade busy init_steps boot_steps (rest_at (q_late SYSTEM_SCHEDULING 0) pid 0)
    [init_local "complete" complete; late_call "schedule_preempt_disabled"; cpu_startup_entry] (λ _, False).
Proof.
  intros Hi. pose proof (q_late_before SYSTEM_SCHEDULING Hi) as Hsch.
  apply outline_cons with idle; [by apply rest_stable| |].
  2: { refine (outline_app unmade busy init_steps boot_steps idle
         (late_call <$> ["schedule_preempt_disabled"%string]) idle [cpu_startup_entry] (λ _, False) _ _);
         [apply idle_calls; boot_names_tac|].
       apply outline_cons with (λ _, False); [apply idle_stable| |by apply outline_done; intros ?].
       intros s (_ & Hgo) Hbusy. by apply Hbusy. }
  intros s Hs. cbn [act_run init_local]. unfold init_only. rewrite (resting_freed _ _ _ _ Hs).
  destruct (complete_ready _ _ Hi Hs) as (c' & Hc & Hr & Hq). unfold local. rewrite Hc.
  pose proof (rest_unreleased _ _ _ _ Hsch Hs) as Hun.
  assert (Hok : sys_ok (Sys (mach s) c')).
  { split; [by eapply ready_ok; [| |exact Hr]; [cbn; lia|]|]. apply irqs_off_ok. by destruct Hr. }
  destruct Hs as [Hq0 _ _ _ _ _ _]. split.
  - split; [done|]. unfold advances. cbn [core]. rewrite Hq, Hq0, !q_late_state.
    split_and!; [done | unfold q_late; by destruct (_ =? _) | tauto | done].
  - split; [done|]. cbn [core]. split; [by destruct Hr|]. rewrite Hq. unfold q_late. by destruct (_ =? _).
Qed.

(** With no thread for init, the lookup gives a null pointer, which is followed. *)
Lemma rest_init_outline :
  outline unmade busy init_steps boot_steps (rest_at sched_start 0 0) rest_init (λ _, False).
Proof.
  unfold rest_init.
  assert (Hstart : before_complete sched_start) by (split_and!; [done..|cbn; lia]).
  assert (Hinit : before_complete q_init) by (split_and!; [done..|cbn; lia]).
  assert (Hpin : before_complete q_pinned) by (split_and!; [done..|cbn; lia]).
  pose proof q_made_before as Hmade.
  apply rest_call; [done | boot_names_tac|].
  destruct (Z.eqb_spec (thread_error "kernel_init") 0) as [Hi|Hi].
  2: { apply rest_local with sched_start (thread_error "kernel_init") O; [done..| |].
    { intros c []. unfold create_thread. rewrite resting_sched0, resting_rcu0.
      by destruct (Z.eqb_spec (thread_error "kernel_init") 0). }
    apply rest_local with sched_start (thread_error "kernel_init") 1%nat; [done..| |].
    { intros c []. unfold rcu_read_lock. by rewrite resting_sched0, resting_pid0, resting_rcu0. }
    apply outline_cons with (λ _, False); [by apply rest_stable| |by apply outline_false; intros ?].
    intros s Hs. cbn [act_run late_local]. unfold local, pin_init, find_task. destruct Hs.
    rewrite resting_rcu0, resting_pid0, resting_sched0. cbn. by left. }
  pose proof (q_late_before SYSTEM_BOOTING Hi) as Hup. pose proof (q_late_before SYSTEM_SCHEDULING Hi) as Hsch.
  apply rest_local with q_init 1 O; [done..| |].
  { intros c []. unfold create_thread. by rewrite Hi, resting_sched0, resting_rcu0. }
  apply rest_local with q_init 1 1%nat; [done..| |].
  { intros c []. unfold rcu_read_lock. by rewrite resting_sched0, resting_pid0, resting_rcu0. }
  apply rest_local with q_pinned 1 1%nat; [done..| |].
  { intros c []. unfold pin_init, find_task, set_sched.
    by rewrite resting_sched0, resting_pid0, resting_rcu0. }
  apply rest_call; [done | boot_names_tac|].
  apply rest_local with q_pinned 1 O; [done..| |].
  { intros c []. unfold rcu_read_unlock. by rewrite resting_sched0, resting_pid0, resting_rcu0. }
  apply rest_call; [done | boot_names_tac|].
  apply rest_local with q_made kthreadd_pid O; [done | done | by rewrite q_made_state | |].
  { intros c []. unfold create_thread, q_made, kthreadd_pid. rewrite resting_sched0, resting_rcu0.
    by destruct (_ =? _). }
  apply rest_local with q_made kthreadd_pid 1%nat; [done | done | done | |].
  { intros c []. unfold rcu_read_lock. by rewrite resting_sched0, resting_pid0, resting_rcu0. }
  apply rest_local with (q_late SYSTEM_BOOTING 0) kthreadd_pid 1%nat;
    [done | done | by rewrite q_made_state, q_late_state | |].
  { intros c []. unfold set_kthreadd_task, find_task, set_sched.
    rewrite resting_sched0, resting_pid0, resting_rcu0. cbn [mbind option_bind]. by rewrite find_kthreadd. }
  apply rest_local with (q_late SYSTEM_BOOTING 0) kthreadd_pid O; [done | done | done | |].
  { intros c []. unfold rcu_read_unlock. by rewrite resting_sched0, resting_pid0, resting_rcu0. }
  apply rest_local with (q_late SYSTEM_SCHEDULING 0) kthreadd_pid O;
    [done | done | rewrite !q_late_state; cbn; lia | |].
  { intros c []. unfold enter_state, set_sched. by rewrite resting_sched0, resting_pid0, resting_rcu0, q_late_sched. }
  by apply complete_outline.
Qed.

Lemma boot_outline :
  outline unmade busy init_steps boot_steps (stage early_stage) (start_kernel ++ rest_init) (λ _, False).
Proof.
  apply start_kernel_outline. eapply outline_pre; [apply stage_stable| |exact rest_init_outline].
  intros s (Hc & [Ha He] & _). by destruct Hc.
Qed.

(** ** The thread of init *)

Definition waiting s : Prop :=
  sys_ok s ∧ waits_returned (sched (core s)) = O ∧
  (released (core s) → ready SYSTEM_SCHEDULING false (core s)).
Definition running st fr s : Prop := sys_ok s ∧ ready st fr (core s).

Lemma released_dec c : released c ∨ ¬ released c.
Proof. unfold released. lia. Qed.

Lemma go_ahead_dec s : go_ahead s ∨ ¬ go_ahead s.
Proof.
  unfold go_ahead. destruct (released_dec (core s)); [|right; tauto].
  destruct (init_pid (sched (core s))); [left; by split|]. right. by intros [_ []].
Qed.

Lemma waiting_stable : stable boot_steps waiting.
Proof.
  intros s s' (Hok & _ & Hw & Hsame & Hnew) (_ & Hw0 & Hr). split; [done|]. split; [congruence|].
  destruct (released_dec (core s)) as [Hrel|Hrel]; [|by apply Hnew]. rewrite Hsame by done. auto.
Qed.
Lemma running_stable st fr : stable boot_steps (running st fr).
Proof.
  intros s s' (Hok & _ & _ & Hsame & _) [_ Hr]. split; [done|].
  rewrite Hsame; [done | by destruct Hr].
Qed.

(** What an action has to do between two such points. *)
Definition init_does st fr st' fr' (run : sys W initcall → verdict (sys W initcall)) : Prop :=
  ∀ s, ready st fr (core s) →
    match run s with
    | Goes s' => ready st' fr' (core s')
    | Panics _ _ => True
    | Waits => False
    | Oops => unmade
    end.

Definition proper_state st (fr : bool) : Prop :=
  (1 <= state_rank st)%nat ∧ (fr = true → kthreadd_made ∧ (2 <= state_rank st)%nat).
Lemma ready_sys_ok st fr s : proper_state st fr → ready st fr (core s) → sys_ok s.
Proof.
  intros [H1 H2] Hr. split; [by eapply ready_ok|]. apply irqs_off_ok. by destruct Hr.
Qed.
Lemma ready_steps st fr st' fr' s s' :
  ready st fr (core s) → ready st' fr' (core s') → proper_state st' fr' →
  (state_rank st <= state_rank st')%nat → init_steps s s'.
Proof.
  intros Hr Hr' Hp Hrank. split; [by eapply ready_sys_ok|]. unfold advances.
  destruct Hr as [Hrel -> (_ & Hp1 & _) _ _ _ _ _], Hr' as [Hrel' -> (_ & Hp2 & _) _ _ _ _ _].
  split_and!; [done | congruence | done | done].
Qed.

Lemma init_cons st fr st' fr' name run l T :
  init_does st fr st' fr' run → proper_state st' fr' → (state_rank st <= state_rank st')%nat →
  outline unmade go_ahead boot_steps init_steps (running st' fr') l T →
  outline unmade go_ahead boot_steps init_steps (running st fr) (Action name run :: l) T.
Proof.
  intros Hd Hp Hrank Hl. apply outline_cons with (running st' fr'); [apply running_stable| |exact Hl].
  intros s [_ Hs]. cbn [act_run]. specialize (Hd s Hs). destruct (run s) as [s'| | |]; [|done..].
  split; [by eapply ready_steps; [apply Hs|..]|]. split; [by eapply ready_sys_ok | done].
Qed.
Lemma init_only_does st st' fr' run :
  init_does st false st' fr' run → init_does st false st' fr' (init_only run).
Proof. intros Hd s Hs. unfold init_only. rewrite (ready_freed _ _ _ Hs). by apply Hd. Qed.

(** Whoever creates a task finds kthreadd, if there could be one. *)
Lemma kthreadd_there st fr c : ready st fr c → kthreadd_task (sched c) = None → unmade.
Proof.
  intros Hr Hn. destruct (ready_threads _ _ _ Hr) as (_ & _ & _ & _ & Hk & _). rewrite Hk in Hn.
  right. unfold kthreadd_made. by destruct (Z.eqb_spec (thread_error "kthreadd") 0).
Qed.
Lemma ext_does st fr f : init_does st fr st fr (ext f).
Proof.
  intros s Hr. unfold ext. destruct (spawns f) as [|n], (kthreadd_task (sched (core s))) eqn:Hk;
    try (by apply (ready_new 0)); try by apply (ready_new (S n)).
  by eapply kthreadd_there.
Qed.
Lemma init_calls_outline st fs l T :
  proper_state st false →
  outline unmade go_ahead boot_steps init_steps (running st false) l T →
  outline unmade go_ahead boot_steps init_steps (running st false) ((init_call <$> fs) ++ l) T.
Proof.
  intros Hp Hl. induction fs as [|f fs IH]; [done|]. cbn [fmap list_fmap app].
  eapply init_cons; [apply init_only_does, ext_does | done | done | exact IH].
Qed.
Lemma late_calls_outline st fr fs l T :
  proper_state st fr →
  outline unmade go_ahead boot_steps init_steps (running st fr) l T →
  outline unmade go_ahead boot_steps init_steps (running st fr) ((late_call <$> fs) ++ l) T.
Proof.
  intros Hp Hl. induction fs as [|f fs IH]; [done|]. cbn [fmap list_fmap app].
  eapply init_cons; [apply ext_does | done | done | exact IH].
Qed.
Lemma late_calls_does st fr fs : init_does st fr st fr (run_program (late_call <$> fs)).
Proof.
  induction fs as [|f fs IH]; intros s Hr; [done|]. cbn [fmap list_fmap run_program late_call act_run].
  pose proof (ext_does st fr f s Hr) as Hf. destruct (ext f s) as [s'| | |]; [by apply IH | done..].
Qed.
Lemma ready_local st fr st' fr' name g :
  (∀ c, ready st fr c → ∃ c', g c = Some c' ∧ ready st' fr' c') → init_does st fr st' fr' (local name g).
Proof. intros Hg s Hr. destruct (Hg _ Hr) as (c' & Hc & Hr'). unfold local. by rewrite Hc. Qed.

(** *** The actions of kernel_init_freeable *)

Lemma initcalls_does st name run :
  (∀ s l, ready st false (core s) → l = initcall_log (core s) → ∃ ok m', run (core s) (mach s, l) = Some (ok, m')) →
  init_does st false st false (λ s, run_initcalls name (run (core s)) s).
Proof.
  intros Hrun s Hr. unfold run_initcalls. destruct (kthreadd_task (sched (core s))) eqn:Hk;
    [|by eapply kthreadd_there]. destruct (Hrun s _ Hr eq_refl) as (ok & [m log] & ->). destruct ok; [|done]. cbn [core]. by destruct Hr.
Qed.
Lemma levels_cons : ∃ l0 bounds, level_starts = l0 :: bounds.
Proof. destruct level_starts as [|l0 bounds] eqn:Hl; [|by exists l0, bounds]. pose proof linker_levels as [_ Hb]. by rewrite Hl in Hb. Qed.
Lemma pre_smp_does st : init_does st false st false run_pre_smp_initcalls.
Proof.
  unfold run_pre_smp_initcalls. apply (initcalls_does st _ (λ _, _)). intros s l _ _.
  destruct levels_cons as (l0 & bounds & Hl). eexists true, _.
  erewrite kbind_some; [apply kret_run|]. eapply pre_smp_run; [exact Hl | apply linker_levels].
Qed.
Lemma do_initcalls_does st : init_does st false st false run_do_initcalls.
Proof.
  unfold run_do_initcalls.
  apply (initcalls_does st "do_initcalls" (λ c,
    do_initcalls initcall_symbol initcall_run blacklisted_initcalls initcall_table level_starts
       parse_level kzalloc_ok (cstr (saved_command_line (cmdlines c)))
       (saved_command_line_len (cmdlines c)))).
  intros s l Hr _. destruct levels_cons as (l0 & bounds & Hl).
  destruct (ready_lines _ _ _ Hr) as [Hsaved Hlen]. rewrite Hsaved, Hlen.
  destruct kzalloc_ok; [|by eexists false, _]. eexists true, _.
  eapply do_initcalls_run; [apply level_parser | exact Hl | apply linker_levels].
Qed.

Lemma console_does st : init_does st false st false console_on_rootfs.
Proof.
  intros s Hr. unfold console_on_rootfs. destruct (open_console _).
  - exact (late_calls_does st false ["init_dup"; "init_dup"; "init_dup"; "fput"]%string s Hr).
  - cbn [core]. by destruct Hr.
Qed.
Lemma early_userspace_does st : init_does st false st false early_userspace.
Proof.
  intros s Hr. unfold early_userspace. set (b' := check_ramdisk _ _).
  assert (Hr' : ready st false (set_tabs b' (core s))).
  { destruct Hr. split; try done. destruct ready_tables0 as (m & b & Hb & Hp & Ha & He & Hx).
    exists m, b. cbn [tabs set_tabs upd_boot cmdlines].
    assert (argv_init b' = argv_init (tabs (core s)) ∧ envp_init b' = envp_init (tabs (core s)) ∧
            execute_command b' = execute_command (tabs (core s))) as (-> & -> & ->); [|done].
    subst b'. unfold check_ramdisk. by destruct (nz _). }
  destruct (nz _); [|done]. exact (ext_does st false "prepare_namespace" (Sys (mach s) _) Hr').
Qed.
Lemma mark_readonly_does st fr : init_does st fr st fr mark_readonly.
Proof.
  intros s Hr. unfold mark_readonly. destruct (rodata_enabled _); [|done].
  exact (late_calls_does st fr ["rcu_barrier"; "mark_rodata_ro"; "rodata_test"]%string s Hr).
Qed.

(** The end: init is started, or the machine has stopped. *)
Definition init_runs s : Prop :=
  sys_ok s ∧ released (core s) ∧ ¬ unmade ∧ system_state (sched (core s)) = SYSTEM_RUNNING ∧
  ∃ name, started (core s) = Some (Running name) ∧ launched (core s) name.
Lemma init_runs_stable : stable boot_steps init_runs.
Proof. intros s s' (Hok & _ & _ & Hsame & _) (_ & Hrel & Hs). split; [done|]. by rewrite Hsame. Qed.

Lemma run_init_ok : action_ok unmade go_ahead init_steps (running SYSTEM_RUNNING true) init_runs (Action "run_init" run_init).
Proof.
  intros s [Hok Hr]. cbn [act_run]. unfold run_init.
  pose proof (init_gets_boot_options execve_fn CONFIG_DEFAULT_INIT
    (Launch (tabs (core s)) (world (mach s)) [])) as Hl.
  destruct (kernel_init execve_fn CONFIG_DEFAULT_INIT _) as [out l]. destruct out as [name| |]; [|done..].
  destruct (Hl name l eq_refl) as [w Hw]. cbn [tables] in Hw. clear Hl.
  destruct Hr as [Hrel Hst Hup Hfr _ He Hlines (m & b & Hb & Hp & Ha & Henv & _)].
  destruct (ok_freed _ (proj1 Hok) Hfr) as (_ & Hmade & _).
  assert (Hnu : ¬ unmade) by (intros [Hn|Hn]; [by destruct Hup | done]).
  set (s' := Sys _ _).
  assert (Hlaunch : launched (core s') name).
  { exists m, b, w, (outside l). by rewrite <-Ha, <-Henv. }
  assert (Hok' : sys_ok s').
  { split; [|by apply irqs_off_ok]. assert (Hq : sched (core s') = sched (core s)) by done.
    split; rewrite ?Hq, ?Hst; [done | cbn; lia | intros _; split_and!; [done | done | cbn; lia] |].
    intros o [= <-]. split; [done|]. split; [done|]. by exists name. }
  split.
  - split; [done|]. unfold advances. split_and!; [done..|]. by intros [].
  - do 4 (split; [done|]). by exists name.
Qed.

(** Without a kthreadd the first initcalls are as far as it gets. *)
Lemma kernel_init_freeable_outline l T :
  stable boot_steps T →
  (kthreadd_made → outline unmade go_ahead boot_steps init_steps (running SYSTEM_SCHEDULING false) l T) →
  outline unmade go_ahead boot_steps init_steps (running SYSTEM_SCHEDULING false) (kernel_init_freeable ++ l) T.
Proof.
  intros HT Hl. assert (Hp : proper_state SYSTEM_SCHEDULING false) by by split.
  unfold kernel_init_freeable, do_basic_setup. rewrite <-!app_assoc.
  eapply init_cons; [apply init_only_does, ready_local|done|done|].
  { intros c Hr. eexists. split; [done|]. by destruct Hr. }
  apply (init_calls_outline _ ["set_mems_allowed"]%string); [done|].
  eapply init_cons; [apply init_only_does, ready_local|done|done|].
  { intros c Hr. eexists. split; [done|]. by destruct Hr. }
  apply (init_calls_outline _ ["smp_prepare_cpus"; "workqueue_init"; "init_mm_internals";
    "rcu_init_tasks_generic"]%string); [done|].
  destruct (Z.eq_dec (thread_error "kthreadd") 0) as [Hmade|Hmade].
  2: { apply outline_cons with (λ _, False); [apply running_stable| |by apply outline_false].
    intros s [_ Hr]. cbn [act_run]. unfold init_only, run_pre_smp_initcalls, run_initcalls.
    rewrite (ready_freed _ _ _ Hr). destruct (ready_threads _ _ _ Hr) as (_ & _ & _ & _ & -> & _).
    rewrite (proj2 (Z.eqb_neq _ _) Hmade). by right. }
  specialize (Hl Hmade).
  eapply init_cons; [apply init_only_does, pre_smp_does|done|done|].
  apply (init_calls_outline _ ["lockup_detector_init"; "smp_init"; "sched_init_smp"; "padata_init";
    "page_alloc_init_late"]%string); [done|].
  apply init_calls_outline; [done|].
  eapply init_cons; [apply init_only_does|done|done|].
  { intros s Hr. exact Hr. }
  eapply init_cons; [apply init_only_does, do_initcalls_does|done|done|].
  apply (init_calls_outline _ ["kunit_run_all_tests"; "wait_for_initramfs"]%string); [done|].
  eapply init_cons; [apply init_only_does, console_does|done|done|].
  eapply init_cons; [apply init_only_does, early_userspace_does|done|done|].
  by apply (init_calls_outline _ ["integrity_load_keys"]%string).
Qed.

Lemma wait_ok :
  action_ok unmade go_ahead init_steps waiting (running SYSTEM_SCHEDULING false)
    (Action "wait_for_completion" (init_only wait_for_completion)).
Proof.
  intros s (Hok & Hw & Hr). cbn [act_run]. unfold init_only.
  destruct (initmem_freed (core s)) eqn:Hf.
  { destruct (ok_freed _ (proj1 Hok) Hf) as (Hrel & _). by rewrite (ready_freed _ _ _ (Hr Hrel)) in Hf. }
  unfold wait_for_completion. destruct (kthreadd_done (sched (core s))) as [|n] eqn:Hd.
  { intros [Hrel _]. unfold released in Hrel. lia. }
  assert (Hrel : released (core s)) by (unfold released; lia). specialize (Hr Hrel).
  cbn [local core]. set (s' := Sys _ _).
  assert (Hr' : ready SYSTEM_SCHEDULING false (core s')).
  { destruct Hr. split; try done. unfold released. cbn. lia. }
  assert (Hp : proper_state SYSTEM_SCHEDULING false) by by split.
  split; [by eapply ready_steps|]. split; [by eapply ready_sys_ok | done].
Qed.

Lemma kernel_init_outline :
  outline unmade go_ahead boot_steps init_steps waiting kernel_init_thread init_runs.
Proof.
  unfold kernel_init_thread. cbn [app].
  apply outline_cons with waiting; [apply waiting_stable| |].
  { intros s Hs. cbn [act_run ret_from_fork]. destruct (init_pid (sched (core s))) eqn:Hpid.
    - split; [|done]. split; [apply Hs|]. unfold advances. split_and!; done.
    - intros [_ Hg]. rewrite Hpid in Hg. by destruct Hg. }
  apply outline_cons with (running SYSTEM_SCHEDULING false); [apply waiting_stable | apply wait_ok|].
  apply kernel_init_freeable_outline; [apply init_runs_stable|]. intros Hmade.
  assert (Hfree : ∀ st, (2 <= state_rank st)%nat → proper_state st true) by (intros st ?; split; [lia | done]).
  apply (late_calls_outline _ false ["async_synchronize_full"]%string); [by split|].
  eapply init_cons with SYSTEM_FREEING_INITMEM false; [apply ready_local|by split; [cbn; lia|]|cbn; lia|].
  { intros c Hr. eexists. split; [done|]. by destruct Hr. }
  apply (late_calls_outline _ false ["kprobe_free_init_mem"; "ftrace_free_init_mem";
    "kgdb_free_init_mem"]%string); [by split; [cbn; lia|]|].
  apply (init_calls_outline _ ["exit_boot_config"]%string); [by split; [cbn; lia|]|].
  eapply init_cons with SYSTEM_FREEING_INITMEM true; [apply ready_local|by apply Hfree|done|].
  { intros c Hr. eexists. split; [done|]. by destruct Hr. }
  eapply init_cons; [apply mark_readonly_does|by apply Hfree|done|].
  apply (late_calls_outline _ true ["pti_finalize"]%string); [by apply Hfree|].
  eapply init_cons with SYSTEM_RUNNING true; [apply ready_local|apply Hfree; cbn; lia|cbn; lia|].
  { intros c Hr. eexists. split; [done|]. by destruct Hr. }
  apply (late_calls_outline _ true ["numa_default_policy"; "rcu_end_inkernel_boot";
    "do_sysctl_args"]%string); [apply Hfree; cbn; lia|].
  apply outline_cons with init_runs; [apply running_stable | apply run_init_ok|].
  apply outline_done, init_runs_stable.
Qed.

(** ** Where the threads wait, and the panics *)

Definition panics : list string :=
  ["setup_command_line: Failed to allocate"; "Too many boot vars"; "do_initcalls: Failed to allocate";
   "Requested init failed"; "No working init found."]%string.

(** [waits] if the action may wait. *)
Definition tame (waits : bool) (run : sys W initcall → verdict (sys W initcall)) : Prop :=
  ∀ s, match run s with Waits => waits = true | Panics msg _ => msg ∈ panics | _ => True end.

Lemma ext_tame w f : tame w (ext f).
Proof. intros s. unfold ext. by destruct (spawns f), (kthreadd_task (sched (core s))). Qed.
Lemma local_tame w name g : tame w (local name g).
Proof. intros s. unfold local. by destruct (g _). Qed.
Lemma init_only_tame w run : tame w run → tame w (init_only run).
Proof. intros Hr s. unfold init_only. destruct (initmem_freed _); [done | apply Hr]. Qed.
Lemma if_tame w (cond : W → bool) run :
  tame w run → tame w (λ s, if cond (world (mach s)) then run s else Goes s).
Proof. intros Hr s. destruct (cond _); [apply Hr | done]. Qed.
Lemma late_calls_tame w fs : tame w (run_program (late_call <$> fs)).
Proof.
  induction fs as [|f fs IH]; intros s; [done|]. cbn [fmap list_fmap run_program late_call act_run].
  pose proof (ext_tame w f s). destruct (ext f s); [apply IH | done..].
Qed.
Lemma init_calls_tame w fs : Forall (λ a, tame w (act_run a)) (init_call <$> fs).
Proof. apply Forall_fmap, Forall_forall. intros f _. apply init_only_tame, ext_tame. Qed.
Lemma late_call_list_tame w fs : Forall (λ a, tame w (act_run a)) (late_call <$> fs).
Proof. apply Forall_fmap, Forall_forall. intros f _. apply ext_tame. Qed.

Ltac panic_tac := apply (bool_decide_unpack _); vm_compute; exact I.
Ltac inner_cases :=
  repeat match goal with
  | |- context [match ?x with _ => _ end] =>
      lazymatch x with context [match _ with _ => _ end] => fail | _ => destruct x end
  end.
Ltac tame_tac := intros s0; cbn beta zeta; inner_cases; first [done | panic_tac].

Lemma setup_arch_tame w : tame w (act_run setup_arch).
Proof. apply init_only_tame. intros s0. destruct (setup_arch_fn _). apply local_tame. Qed.
Lemma setup_command_line_tame w : tame w run_setup_command_line.
Proof. unfold run_setup_command_line. tame_tac. Qed.
Lemma parse_booting_tame w : tame w parse_booting.
Proof. unfold parse_booting. tame_tac. Qed.
Lemma check_panic_tame w : tame w check_panic_later.
Proof. unfold check_panic_later. tame_tac. Qed.
Lemma check_initrd_tame w : tame w check_initrd.
Proof. unfold check_initrd. tame_tac. Qed.
Lemma run_initcalls_tame w name run : tame w (λ s, run_initcalls name (run (core s)) s).
Proof. unfold run_initcalls. tame_tac. Qed.
Lemma run_init_tame w : tame w run_init.
Proof. unfold run_init. tame_tac. Qed.
Lemma early_userspace_tame w : tame w early_userspace.
Proof. intros s0. unfold early_userspace. destruct (nz _); [apply ext_tame | done]. Qed.
Lemma console_tame w : tame w console_on_rootfs.
Proof.
  intros s0. unfold console_on_rootfs. destruct (open_console _); [|done].
  exact (late_calls_tame w ["init_dup"; "init_dup"; "init_dup"; "fput"]%string s0).
Qed.
Lemma mark_readonly_tame w : tame w mark_readonly.
Proof.
  intros s0. unfold mark_readonly. destruct (rodata_enabled _); [|done].
  exact (late_calls_tame w ["rcu_barrier"; "mark_rodata_ro"; "rodata_test"]%string s0).
Qed.

Ltac tame_list :=
  repeat first
    [ apply Forall_nil_2 | apply Forall_app_2 | apply init_calls_tame | apply late_call_list_tame
    | apply Forall_cons_2 ];
  repeat first
    [ apply setup_arch_tame | apply setup_command_line_tame | apply parse_booting_tame
    | apply check_panic_tame | apply check_initrd_tame | apply ext_tame | apply local_tame
    | apply console_tame | apply early_userspace_tame | apply mark_readonly_tame | apply run_init_tame
    | apply (run_initcalls_tame _ _ (λ _, _)) | apply init_only_tame
    | apply (if_tame _ initcall_debug (local _ _)) | apply (if_tame _ has_late_time_init)
    | apply (if_tame _ efi_runtime) ];
  try tame_tac.

Lemma start_kernel_tame : Forall (λ a, tame false (act_run a)) (start_kernel (H := env)).
Proof.
  unfold start_kernel, start_kernel_entry, start_kernel_lines, start_kernel_options,
    start_kernel_core, start_kernel_irqs, start_kernel_rest. tame_list.
Qed.
Definition rest_init_body : list (action (sys W initcall)) := take 14 rest_init.
Lemma rest_init_split : rest_init = rest_init_body ++ [cpu_startup_entry].
Proof. done. Qed.
Lemma rest_init_tame : Forall (λ a, tame false (act_run a)) rest_init_body.
Proof. unfold rest_init_body, rest_init. cbn [take]. tame_list. Qed.
Lemma kernel_init_tame : Forall (λ a, tame true (act_run a)) (kernel_init_thread (H := env)).
Proof.
  unfold kernel_init_thread, kernel_init_freeable, do_basic_setup. tame_list.
  - intros s0. cbn [act_run ret_from_fork]. by destruct (init_pid (sched (core s0))).
  - intros s0. unfold wait_for_completion. destruct (kthreadd_done _); [done | apply local_tame].
  - apply (run_initcalls_tame true "do_initcalls" (λ c,
      do_initcalls initcall_symbol initcall_run blacklisted_initcalls initcall_table level_starts
        parse_level kzalloc_ok (cstr (saved_command_line (cmdlines c)))
        (saved_command_line_len (cmdlines c)))).
Qed.

(** The boot thread waits at its end only. *)
Lemma waits_last a l s :
  a :: l `suffix_of` start_kernel ++ rest_init → act_run a s = Waits → a :: l = [cpu_startup_entry].
Proof.
  rewrite rest_init_split, app_assoc. intros [k Hk] Ha.
  destruct l as [|x l _] using rev_ind.
  - by apply app_inj_tail in Hk as [_ <-].
  - rewrite app_comm_cons, app_assoc in Hk. apply app_inj_tail in Hk as [Hk _]. exfalso.
    pose proof (Forall_app_2 _ _ _ start_kernel_tame rest_init_tame) as Ht. rewrite Hk in Ht.
    apply Forall_app in Ht as [_ Ht%Forall_cons]. specialize (proj1 Ht s). by rewrite Ha.
Qed.
Lemma actions_panic a s msg s' :
  a ∈ (start_kernel ++ rest_init) ++ kernel_init_thread → act_run a s = Panics msg s' → msg ∈ panics.
Proof.
  intros Hin Ha.
  assert (Hall : Forall (λ a, ∃ w, tame w (act_run a)) ((start_kernel ++ rest_init) ++ kernel_init_thread)).
  { rewrite rest_init_split, !Forall_app. split_and!.
    - eapply Forall_impl; [apply start_kernel_tame | by eexists].
    - eapply Forall_impl; [apply rest_init_tame | by eexists].
    - apply Forall_singleton. by exists true.
    - eapply Forall_impl; [apply kernel_init_tame | by eexists]. }
  rewrite Forall_forall in Hall. destruct (Hall a Hin) as [w Ht]. specialize (Ht s). by rewrite Ha in Ht.
Qed.

(** ** The theorems *)

Context (rd : Z * Z) (m0 : cpu W).
(** The machine as it is switched on, with these start values. *)
Definition start := power_on (H := env) loglevel rd m0.

Lemma start_outlined cf :
  rtc sched_step start cf →
  outlined unmade busy go_ahead init_steps boot_steps boot_steps init_steps (λ _, False) init_runs cf.
Proof.
  intros Hs. eapply (outlined_steps unmade busy go_ahead init_steps boot_steps boot_steps init_steps);
    [done|done|exact Hs|].
  eapply outlined_start; [apply boot_outline | apply kernel_init_outline | |].
  - split; [by split|]. split; [|done]. split; [|done]. apply boot_init_wf, some_slots.
  - split; [|split; [done | unfold released; cbn; lia]]. split; [apply calm_ok; by split | done].
Qed.
Lemma start_sys_ok l1 l2 log s : rtc sched_step start (Pair l1 l2 log s) → sys_ok s.
Proof.
  intros Hs.
  apply (outlined_keeps unmade busy go_ahead init_steps boot_steps boot_steps init_steps (λ _, False) init_runs
           ltac:(done) ltac:(done) sys_ok _ _ ltac:(by intros ?? []) ltac:(by intros ?? [])
           (start_outlined _ (rtc_refl _ _)) Hs).
  split; [apply calm_ok; by split | done].
Qed.

(** C9. However the two threads are interleaved, the start-up follows a bad
    pointer only if [user_mode_thread] or [kernel_thread] could not create one of
    them (their results are not looked at; see the finding): with both threads
    created, no pointer is bad, no task is created before there is a kthreadd, no
    RCU section is missing or left open, no option handler leaves its table, and
    nothing of the init sections is used after they were freed. *)
Theorem startup_oopses_without_threads_only cf :
  rtc sched_step start cf → cf = Crashed →
  thread_error "kernel_init" ≠ 0 ∨ thread_error "kthreadd" ≠ 0.
Proof. intros Hs%start_outlined ->. exact Hs. Qed.

(** C13. In every state of every interleaving: once the wait of the init thread has
    returned, init is task 1 and kept on its processor, and [kthreadd_task] is task
    2, or a null pointer if kthreadd could not be created; the init sections are
    freed after that only, with a kthreadd, and when the system says so; the
    system state never goes back; and while early_boot_irqs_disabled is set,
    interrupts are off, if no initialisation function turns them on. *)
Theorem startup_invariant l1 l2 log s l1' l2' log' s' :
  rtc sched_step start (Pair l1 l2 log s) → rtc sched_step (Pair l1 l2 log s) (Pair l1' l2' log' s') →
  let q := sched (core s) in
  ((0 < waits_returned q)%nat → threads_up q ∧ system_state q ≠ SYSTEM_BOOTING) ∧
  (initmem_freed (core s) = true →
     threads_up q ∧ kthreadd_task q = Some 2 ∧
     system_state q ∈ [SYSTEM_FREEING_INITMEM; SYSTEM_RUNNING]) ∧
  (state_rank (system_state q) <= state_rank (system_state (sched (core s'))))%nat ∧
  (early_boot_irqs_disabled (core s) = true → quiet_start → irqs_disabled (mach s) = true).
Proof.
  intros Hs Hs' q. pose proof (start_sys_ok _ _ _ _ Hs) as [[Ho Hw Hf _] Hi].
  assert (Hrel : released (core s) → threads_up q) by (intros ?; by apply Ho, Hw).
  split; [|split; [|split; [|exact Hi]]].
  - intros Hpos. assert (Hr : released (core s)) by (unfold released; fold q; lia).
    split; [by apply Hrel|]. specialize (Hw Hr). intros Hb. fold q in Hw. rewrite Hb in Hw. cbn in Hw. lia.
  - intros Hfr. destruct (Hf Hfr) as (Hr & Hm & Hk). split; [by apply Hrel|]. split.
    { destruct (Hrel Hr) as (_ & _ & _ & _ & -> & _). by rewrite (proj2 (Z.eqb_eq _ _) Hm). }
    fold q in Hk. destruct (system_state q); cbn in Hk; [lia..| |]; rewrite !elem_of_cons; tauto.
  - apply (outlined_keeps unmade busy go_ahead init_steps boot_steps boot_steps init_steps (λ _, False) init_runs
      ltac:(done) ltac:(done)
      (λ s1, state_rank (system_state q) <= state_rank (system_state (sched (core s1))))%nat
      _ _ ltac:(intros ?? (_ & Ha & _) ?; unfold advances in Ha; lia)
      ltac:(intros ?? (_ & Ha & _) ?; unfold advances in Ha; lia) (start_outlined _ Hs) Hs').
    exact (Nat.le_refl _).
Qed.

(** How a start-up ends: with the boot processor idle and init running in the
    state SYSTEM_RUNNING, both threads created; in one of the panics of the file;
    or with a bad pointer, when a thread could not be created. *)
Definition outcome (cf : config (S := sys W initcall)) : Prop :=
  match cf with
  | Pair l1 l2 _ s =>
      l1 = [cpu_startup_entry] ∧ l2 = [] ∧ thread_error "kernel_init" = 0 ∧ thread_error "kthreadd" = 0 ∧
      system_state (sched (core s)) = SYSTEM_RUNNING ∧ ∃ name, started (core s) = Some (Running name)
  | Halted msg _ => msg ∈ panics
  | Crashed => thread_error "kernel_init" ≠ 0 ∨ thread_error "kthreadd" ≠ 0
  end.

(** C22. The start-up comes to an end, and not in a deadlock: whatever the
    scheduler does, it gets to one of the outcomes, and does not get stuck
    before: init runs, with both threads created, the system in its final state
    and the boot thread in its idle loop; or the kernel panics, with one of the
    messages of the file; or a thread could not be created and a bad pointer
    was followed. *)
Theorem startup_ends : inevitable outcome start.
Proof.
  apply inevitable_intro. intros cf Hs. pose proof (start_outlined cf Hs) as Ho.
  pose proof (remains_steps _ _ _ _ Hs) as Hr. destruct cf as [l1 l2 log s|msg s|].
  - destruct (outlined_progress unmade busy go_ahead init_steps boot_steps boot_steps init_steps
      (λ _, False) init_runs l1 l2 log s) as [(a & l & -> & Ha & -> & _ & _ & Hnu & Hst & name & Hn & _)|Hc];
      [by intros ? [] | | exact Ho | left | by right].
    { intros s1 Hb. destruct (go_ahead_dec s1); [done|]. by destruct Hb. }
    destruct Hr as [Hsuf _]. rewrite (waits_last _ _ _ Hsuf Ha).
    split; [done|]. split; [done|]. unfold unmade, kthreadd_made in Hnu.
    split; [lia|]. split; [lia|]. split; [done|]. by exists name.
  - left. destruct Hr as (a & s0 & Hin & Ha). by eapply actions_panic.
  - by left.
Qed.

(** C18. The program that is started as init is executed with the tables that the
    command line specifies: the early options first, whoever parses them, then
    the options of the line with the keys of the boot configuration in front
    that no kernel parameter takes, then the arguments behind the "--", unless
    one of the parameters of the kernel on the line answered with an error, and
    those of the configuration; and these options fitted the tables. *)
Theorem init_started_as_specified l1 l2 log s o :
  rtc sched_step start (Pair l1 l2 log s) → started (core s) = Some o →
  ∃ name m b w w', o = Running name ∧
    boot_tables (boot_init MAX_INIT loglevel) (cmdlines (core s))
      (refused_in (parsed_line (cmdlines (core s))) m) = Some b ∧
    panic_later b = None ∧
    execve_fn name (<[O := Some name]> (argv_init b)) (envp_init b) w = (0, w').
Proof.
  intros Hs Ho. destruct (start_sys_ok _ _ _ _ Hs) as [[_ _ _ Hst] _].
  destruct (Hst o Ho) as (_ & _ & name & -> & m & b & w & w' & Hb). exists name, m, b, w, w'. tauto.
Qed.

End facts.

(** ** Runs *)

Module StartupRuns.
Abbreviation str := bytes_of_string (only parsing).

(** A machine that remembers what was called.  The parser knows one option,
    [LANG=C], and the arguments behind "--"; initcall 1 leaves the interrupts
    off. *)
Definition call_it (f : string) (m : cpu (list string)) : cpu (list string) :=
  Cpu (preempt_count m) (irqs_disabled m) (world m ++ [f]).
Definition line : list Z := str "LANG=C -- -s".
Definition parse (l : list Z) : list bootopt * option nat :=
  if bool_decide (l = line) then ([BootRuns.valued "LANG" "C"], Some 10%nat)
  else if bool_decide (l = str "-s") then ([BootRuns.bare "-s"], None)
  else ([], None).
Definition run_one (fn : nat) (m : cpu (list string)) : Z * cpu (list string) :=
  (0, Cpu (preempt_count m) (fn =? 1)%nat (world m)).

Definition small_with (error : Z) : StartupEnv (list string) nat := {|
  ext_call := call_it;
  spawns f := if bool_decide (f = "driver_init"%string) then 2%nat else O;
  thread_error _ := error;
  COMMAND_LINE_SIZE := 64;
  boot_command_line := line;
  setup_arch_fn m := (line, m);
  arch_parses_early := true;
  parse_line := parse;
  kernel_param _ := None;
  MAX_INIT := 32;
  parameqn_fn := BootRuns.prefix_eq;
  parameq_fn a b := bool_decide (a = b);
  setup_params := BootRuns.table0;
  memblock_ok _ := true;
  kernel_mem _ := 0;
  xbc_checksum _ := 0;
  config_force := false;
  embedded_config := None;
  xbc_load _ := (0, λ _, None);
  initcall_debug _ := false;
  tracepoint_errors := Some (0, 0);
  initrd_pfn z := z / 4096;
  min_low_pfn _ := 1;
  initrd_below_start_ok _ := false;
  has_late_time_init _ := true;
  efi_runtime _ := false;
  initcall_symbol fn := str "fn";
  initcall_run := run_one;
  blacklisted_initcalls := [];
  initcall_table := [0; 1; 2]%nat;
  level_starts := [1; 2; 3]%nat;
  parse_level _ buf m := (buf, m);
  kzalloc_ok := true;
  constructors := [λ w, w ++ ["ctor"%string]];
  open_console _ := true;
  init_access _ _ := 0;
  execve_fn name argv envp w := (if bool_decide (name = str "/init") then 0 else - ENOENT, w);
  CONFIG_DEFAULT_INIT := [];
|}.
#[local] Instance small : StartupEnv (list string) nat := small_with 0.

Lemma small_with_laws error : error <= 0 → StartupLaws (env := small_with error).
Proof.
  intros Herr. split.
  - vm_compute. lia.
  - apply BootRuns.table0_safe.
  - apply (bool_decide_unpack _). by vm_compute.
  - intros l. cbn [parse_line small_with]. unfold parse.
    assert (Hv : shaped (BootRuns.valued "LANG" "C")).
    { eexists _, _. apply BootRuns.valued_shape; apply (bool_decide_unpack _); by vm_compute. }
    assert (Hs : shaped (BootRuns.bare "-s")).
    { exists (str "-s"), None. apply (shape_bare (str "-s") []). apply (bool_decide_unpack _); by vm_compute. }
    repeat case_bool_decide; repeat constructor; done.
  - intros l offs. cbn [parse_line small_with]. unfold parse. case_bool_decide; [|by case_bool_decide].
    subst l. intros [= <-]. apply (bool_decide_unpack _). by vm_compute.
  - apply (bool_decide_unpack _). by vm_compute.
  - intros m. split; [apply (bool_decide_unpack _); by vm_compute | done].
  - done.
  - intros f Hf. cbn [spawns small_with]. case_bool_decide as Hd; [|done]. subst f. exfalso. revert Hf.
    apply (bool_decide_unpack _). by vm_compute.
  - split; [repeat constructor | done].
  - done.
Qed.
Lemma small_laws : StartupLaws.
Proof. by apply small_with_laws. Qed.

(** The threads in turn; the second one waits for a while. *)
Definition turns (n : nat) : list thread := concat (replicate n [First; Second]).
Definition machine : cpu (list string) := Cpu 0 false [].
Definition finished := run_choices (turns 160) (power_on 7 (0, 0) machine).

Example all_done :
  match finished with
  | Pair [_] [] log s =>
      (started (core s), system_state (sched (core s)), kthreadd_task (sched (core s)),
       next_pid (sched (core s)), initmem_freed (core s), length log) =
      (Some (Running (str "/init")), SYSTEM_RUNNING, Some 2, 5, true, 152%nat)
  | _ => False
  end.
Proof. by vm_compute. Qed.

(** Another order: the init thread runs only once the boot thread is done. *)
Definition finished_later := run_choices (replicate 120 First ++ replicate 60 Second) (power_on 7 (0, 0) machine).
Example same_end :
  match finished, finished_later with
  | Pair [_] [] _ s, Pair [_] [] _ s' => tabs (core s) = tabs (core s') ∧ started (core s) = started (core s')
  | _, _ => False
  end.
Proof. by vm_compute. Qed.

(** The result of creating the init thread is not looked at: without memory
    for it the boot thread follows a null pointer. *)
Definition no_memory := run_choices (turns 160) (power_on (H := small_with (- ENOMEM)) 7 (0, 0) machine).
Lemma no_memory_run : rtc sched_step (power_on (H := small_with (- ENOMEM)) 7 (0, 0) machine) no_memory.
Proof. apply run_choices_steps. Qed.
Example no_memory_for_init : no_memory = Crashed.
Proof. by vm_compute. Qed.

Lemma finished_run : rtc sched_step (power_on 7 (0, 0) machine) finished.
Proof. apply run_choices_steps. Qed.

Definition final_log : list (thread * string) :=
  match finished with Pair _ _ log _ => log | _ => [] end.
Definition final_state : sys (list string) nat :=
  match finished with Pair _ _ _ s => s | _ => Sys machine (shared_start 7 (0, 0)) end.
Lemma finished_is : finished = Pair [cpu_startup_entry] [] final_log final_state.
Proof. by vm_compute. Qed.
Lemma final_run :
  rtc sched_step (power_on 7 (0, 0) machine) (Pair [cpu_startup_entry] [] final_log final_state).
Proof. rewrite <-finished_is. apply finished_run. Qed.

Lemma startup_oopses_without_threads_only_witness :
  finished ≠ Crashed ∧ (no_memory = Crashed ∧ - ENOMEM ≠ 0).
Proof.
  split.
  - intros Hc. destruct (startup_oopses_without_threads_only (H := small_laws) 7 (0, 0) machine finished
      finished_run Hc) as [H|H]; apply H; reflexivity.
  - split; [exact no_memory_for_init|].
    destruct (startup_oopses_without_threads_only (env := small_with (- ENOMEM))
      (H := small_with_laws (- ENOMEM) ltac:(done))
      7 (0, 0) machine no_memory no_memory_run no_memory_for_init) as [H|H]; exact H.
Defined.

Lemma startup_invariant_witness : threads_up (sched (core final_state)).
Proof.
  apply (startup_invariant (H := small_laws) 7 (0, 0) machine [cpu_startup_entry] [] final_log final_state
           [cpu_startup_entry] [] final_log final_state final_run (rtc_refl _ _)).
  by vm_compute.
Defined.

Lemma startup_ends_witness : inevitable outcome (start 7 (0, 0) machine) ∧ outcome finished.
Proof.
  split; [exact (startup_ends (H := small_laws) 7 (0, 0) machine)|].
  rewrite finished_is. split; [done|]. split; [done|]. split; [done|]. split; [done|].
  split; [by vm_compute|]. exists (str "/init"). by vm_compute.
Defined.

Lemma init_started_as_specified_witness :
  ∃ name m b w w', Running (str "/init") = Running name ∧
    boot_tables (boot_init 32 7) (cmdlines (core final_state))
      (refused_in (parsed_line (cmdlines (core final_state))) m) = Some b ∧
    panic_later b = None ∧
    execve_fn name (<[O := Some name]> (argv_init b)) (envp_init b) w = (0, w').
Proof.
  apply (init_started_as_specified (H := small_laws) 7 (0, 0) machine [cpu_startup_entry] [] final_log final_state
           (Running (str "/init")) final_run).
  by vm_compute.
Defined.

(** What init is started with: the variable of the line, and its argument. *)
Example init_vectors :
  (entries (argv_init (tabs (core final_state))), entries (envp_init (tabs (core final_state)))) =
  (Some [str "/init"; str "-s"], Some [str "HOME=/"; str "TERM=linux"; str "LANG=C"]).
Proof. by vm_compute. Qed.
End StartupRuns.
