(* ===== verification/Accounting.v ===== *)
(** * Accounting: process ids, times, resource usage and the file mask

    The system calls of [kernel/sys.c] that report on the caller: [getpid],
    [gettid], [getppid], [times] (also the compat call), [getrusage] (also the
    compat call), and [umask].  The conversions between nanoseconds, ticks and
    time values, the adjusted CPU times, and the high-water mark of a memory map
    are kernel code outside of this repository and are parameters. *)

From S2P Require Import Prelude UserMem.

(** ** Process ids *)

(** The task, its thread-group leader and its real parent's, as pids of the
    caller's namespace ([task_pid_vnr], [task_tgid_vnr]). *)
Record pids := Pids { pid_vnr : Z; tgid_vnr : Z; parent_tgid_vnr : Z }.

Definition sys_getpid (p : pids) : Z := tgid_vnr p.
Definition sys_gettid (p : pids) : Z := pid_vnr p.
Definition sys_getppid (p : pids) : Z := parent_tgid_vnr p.

(** ** Resource usage *)

(** The counters a thread, a thread group and its reaped children each have.
    All are 64-bit and wrap. *)
Record counters := Counters {
  nvcsw : Z; nivcsw : Z; min_flt : Z; maj_flt : Z; inblock : Z; oublock : Z;
}.
#[export] Instance counters_eq_dec : EqDecision counters.
Proof. solve_decision. Defined.

Definition zero_counters : counters := Counters 0 0 0 0 0 0.
Definition add_counters (a b : counters) : counters :=
  Counters (u64 (nvcsw a + nvcsw b)) (u64 (nivcsw a + nivcsw b)) (u64 (min_flt a + min_flt b))
    (u64 (maj_flt a + maj_flt b)) (u64 (inblock a + inblock b)) (u64 (oublock a + oublock b)).

(** [struct signal_struct], the part that is read here. *)
Record signal_struct := Signal {
  cutime : Z; cstime : Z;
  exited : counters;     (** of threads that have exited *)
  children : counters;   (** of reaped children *)
  maxrss : Z; cmaxrss : Z;
}.

(** A task: its own counters, those of the threads of its group in the order of
    the walk that starts with the task itself, its signal structure, and what
    the kernel answers about its CPU times (user, system) and its memory map
    ([None] for a kernel thread).  [sighand] tells whether
    [lock_task_sighand] succeeds. *)
Record task := Task {
  own : counters;
  others : list counters;
  signal : signal_struct;
  sighand : bool;
  cputime_adjusted : Z * Z;
  group_cputime_adjusted : Z * Z;
  mm_hiwater : option Z;
}.

Record rusage := Rusage {
  ru_utime : Z * Z; ru_stime : Z * Z; ru_maxrss : Z; ru_counters : counters;
}.
Definition zero_rusage : rusage := Rusage (0, 0) (0, 0) 0 zero_counters.

Definition RUSAGE_SELF : Z := 0.
Definition RUSAGE_CHILDREN : Z := -1.
Definition RUSAGE_BOTH : Z := -2.
Definition RUSAGE_THREAD : Z := 1.

Definition accumulate_thread_rusage (t : counters) (r : counters) : counters := add_counters r t.

Section usage.
(** [ns_to_kernel_old_timeval]; [setmax_mm_hiwater_rss], which raises the
    first to the second. *)
Context (ns_to_timeval : Z → Z * Z) (setmax_mm_hiwater_rss : Z → Z → Z).

(** What follows the label [out]. *)
Definition finish_rusage (p : task) (who utime stime maxrss : Z) (r : counters) : rusage :=
  let maxrss :=
    if negb (who =? RUSAGE_CHILDREN) then
      match mm_hiwater p with Some hw => setmax_mm_hiwater_rss maxrss hw | None => maxrss end
    else maxrss in
  Rusage (ns_to_timeval utime) (ns_to_timeval stime) (u64 (maxrss * (PAGE_SIZE / 1024))) r.

(** The case RUSAGE_SELF, from what the case before it left. *)
Definition add_self (p : task) (utime stime maxrss0 : Z) (r : counters) : Z * Z * Z * counters :=
  let utime := u64 (utime + (group_cputime_adjusted p).1) in
  let stime := u64 (stime + (group_cputime_adjusted p).2) in
  let r := add_counters r (exited (signal p)) in
  let maxrss0 := if maxrss0 <? maxrss (signal p) then maxrss (signal p) else maxrss0 in
  (utime, stime, maxrss0, foldl (λ r t, accumulate_thread_rusage t r) r (own p :: others p)).

(** No result is the [BUG()] of the default case. *)
Definition getrusage (p : task) (who : Z) : option rusage :=
  if who =? RUSAGE_THREAD then
    let '(utime, stime) := cputime_adjusted p in
    Some (finish_rusage p who utime stime (maxrss (signal p))
            (accumulate_thread_rusage (own p) zero_counters))
  else if negb (sighand p) then Some zero_rusage
  else if (who =? RUSAGE_BOTH) || (who =? RUSAGE_CHILDREN) then
    let s := signal p in
    if who =? RUSAGE_CHILDREN then
      Some (finish_rusage p who (cutime s) (cstime s) (cmaxrss s) (children s))
    else
      let '(utime, stime, m, r) := add_self p (cutime s) (cstime s) (cmaxrss s) (children s) in
      Some (finish_rusage p who utime stime m r)
  else if who =? RUSAGE_SELF then
    let '(utime, stime, m, r) := add_self p 0 0 0 zero_counters in
    Some (finish_rusage p who utime stime m r)
  else None.

(** The words of [struct rusage], those nothing is recorded for being 0. *)
Definition rusage_words (r : rusage) : list Z :=
  let c := ru_counters r in
  [(ru_utime r).1; (ru_utime r).2; (ru_stime r).1; (ru_stime r).2; ru_maxrss r; 0; 0; 0;
   min_flt c; maj_flt c; 0; inblock c; oublock c; 0; 0; 0; nvcsw c; nivcsw c].

Definition who_ok (who : Z) : bool :=
  negb (negb (who =? RUSAGE_SELF) && negb (who =? RUSAGE_CHILDREN) && negb (who =? RUSAGE_THREAD)).

Section calls.
Context {M : Type} `{UserAccess M}.

Definition sys_getrusage (current : task) (who ru : Z) : kst M Z := λ m,
  if negb (who_ok who) then Some (- EINVAL, m)
  else
    match getrusage current who with
    | None => None
    | Some r =>
        let '(rest, m) := copy_to_user m ru (rusage_words r ≫= bytes_of_u64) in
        Some (if nz rest then - EFAULT else 0, m)
    end.

(** [put_compat_rusage] is another file's. *)
Definition compat_sys_getrusage (put_compat_rusage : rusage → Z → M → Z * M)
    (current : task) (who ru : Z) : kst M Z := λ m,
  if negb (who_ok who) then Some (- EINVAL, m)
  else match getrusage current who with
       | None => None
       | Some r => Some (put_compat_rusage r ru m)
       end.

(** ** Times *)

Section times.
Context (nsec_to_clock_t jiffies_64_to_clock_t : Z → Z).
Context (compat_jiffies_to_clock_t clock_t_to_jiffies : Z → Z).

(** user, system, and the same of the reaped children *)
Definition do_sys_times (current : task) : list Z :=
  let '(tgutime, tgstime) := group_cputime_adjusted current in
  [nsec_to_clock_t tgutime; nsec_to_clock_t tgstime;
   nsec_to_clock_t (cutime (signal current)); nsec_to_clock_t (cstime (signal current))].

Definition sys_times (current : task) (jiffies tbuf : Z) (m : M) : Z * M :=
  if nz tbuf then
    let '(rest, m) := copy_to_user m tbuf (do_sys_times current ≫= bytes_of_u64) in
    if nz rest then (- EFAULT, m) else (jiffies_64_to_clock_t jiffies, m)
  else (jiffies_64_to_clock_t jiffies, m).

Definition clock_t_to_compat_clock_t (x : Z) : Z := compat_jiffies_to_clock_t (clock_t_to_jiffies x).
Definition compat_sys_times (current : task) (jiffies tbuf : Z) (m : M) : Z * M :=
  if nz tbuf then
    let '(rest, m) := copy_to_user m tbuf
      ((clock_t_to_compat_clock_t <$> do_sys_times current) ≫= bytes_of_u32) in
    if nz rest then (- EFAULT, m) else (compat_jiffies_to_clock_t jiffies, m)
  else (compat_jiffies_to_clock_t jiffies, m).
End times.
End calls.
End usage.

(** ** The file mode creation mask *)

Definition S_IRWXUGO : Z := 511.
(** The old mask, which is returned, and the new one. *)
Definition sys_umask (mask umask : Z) : Z * Z := (umask, Z.land mask S_IRWXUGO).

(** ** Lemmas *)

(** What is counted for each kind of request. *)
Definition counted (p : task) (who : Z) : list counters :=
  if who =? RUSAGE_THREAD then [own p]
  else if who =? RUSAGE_CHILDREN then [children (signal p)]
  else if who =? RUSAGE_BOTH then children (signal p) :: exited (signal p) :: own p :: others p
  else exited (signal p) :: own p :: others p.
Definition cpu_times (p : task) (who : Z) : Z * Z :=
  if who =? RUSAGE_THREAD then cputime_adjusted p
  else
    let c := (cutime (signal p), cstime (signal p)) in
    let t := group_cputime_adjusted p in
    if who =? RUSAGE_CHILDREN then c
    else if who =? RUSAGE_BOTH then (u64 (c.1 + t.1), u64 (c.2 + t.2))
    else (u64 t.1, u64 t.2).
Definition peak_rss (p : task) (who : Z) : Z :=
  if who =? RUSAGE_CHILDREN then cmaxrss (signal p)
  else if who =? RUSAGE_BOTH then Z.max (cmaxrss (signal p)) (maxrss (signal p))
  else maxrss (signal p).

Definition counter_fields : list (counters → Z) := [nvcsw; nivcsw; min_flt; maj_flt; inblock; oublock].
Definition counters_ok (c : counters) : Prop := ∀ f, f ∈ counter_fields → in_u64 (f c).

Lemma add_counters_field f a b : f ∈ counter_fields → f (add_counters a b) = u64 (f a + f b).
Proof. unfold counter_fields. rewrite !elem_of_cons, elem_of_nil. by intros [->|[->|[->|[->|[->|[->|[]]]]]]]. Qed.
Lemma zero_counters_field f : f ∈ counter_fields → f zero_counters = 0.
Proof. unfold counter_fields. rewrite !elem_of_cons, elem_of_nil. by intros [->|[->|[->|[->|[->|[->|[]]]]]]]. Qed.

Lemma accumulate_field f r l : f ∈ counter_fields → in_u64 (f r) →
  f (foldl (λ r t, accumulate_thread_rusage t r) r l) = u64 (f r + sumZ (f <$> l)).
Proof.
  intros Hf. revert r. induction l as [|t l IH]; intros r Hr.
  { unfold sumZ. cbn. by rewrite Z.add_0_r, u64_small. }
  cbn [foldl]. rewrite IH; unfold accumulate_thread_rusage; rewrite add_counters_field by done;
    [|apply u64_range]. rewrite fmap_cons, sumZ_cons, u64_add_l. f_equal. lia.
Qed.

Lemma add_self_field p u s m r f : f ∈ counter_fields →
  f (add_self p u s m r).2 = u64 (f r + sumZ (f <$> exited (signal p) :: own p :: others p)).
Proof.
  intros Hf. unfold add_self. cbn [snd]. rewrite accumulate_field; rewrite ?add_counters_field by done;
    [|done|apply u64_range]. rewrite !fmap_cons, !sumZ_cons, u64_add_l. f_equal. lia.
Qed.

Section usage_facts.
Context (ns_to_timeval : Z → Z * Z) (setmax : Z → Z → Z).

Lemma add_self_parts p u s m r :
  add_self p u s m r =
    (u64 (u + (group_cputime_adjusted p).1), u64 (s + (group_cputime_adjusted p).2),
     Z.max m (maxrss (signal p)), (add_self p u s m r).2).
Proof. unfold add_self. cbn [snd]. destruct (Z.ltb_spec m (maxrss (signal p))); repeat f_equal; lia. Qed.

Lemma getrusage_run p who :
  sighand p = true → counters_ok (children (signal p)) → 0 <= maxrss (signal p) →
  who ∈ [RUSAGE_SELF; RUSAGE_CHILDREN; RUSAGE_BOTH; RUSAGE_THREAD] →
  ∃ c, getrusage ns_to_timeval setmax p who =
      Some (finish_rusage ns_to_timeval setmax p who (cpu_times p who).1 (cpu_times p who).2
              (peak_rss p who) c) ∧
    ∀ f, f ∈ counter_fields → f c = u64 (sumZ (f <$> counted p who)).
Proof.
  intros Hs Hc Hm Hwho. unfold getrusage. rewrite Hs.
  rewrite !elem_of_cons, elem_of_nil in Hwho. destruct Hwho as [->|[->|[->|[->|[]]]]];
    cbn -[add_self add_counters finish_rusage fmap sumZ accumulate_thread_rusage].
  - rewrite (add_self_parts p 0), Z.max_r by done. eexists. split; [reflexivity|]. intros f Hf.
    by rewrite add_self_field, zero_counters_field.
  - eexists. split; [reflexivity|]. intros f Hf. unfold sumZ. cbn. rewrite Z.add_0_r.
    symmetry. by apply u64_small, Hc.
  - rewrite add_self_parts. eexists. split; [reflexivity|]. intros f Hf.
    by rewrite add_self_field.
  - destruct (cputime_adjusted p). eexists. split; [reflexivity|]. intros f Hf.
    unfold accumulate_thread_rusage. rewrite add_counters_field, zero_counters_field by done.
    unfold sumZ. cbn. by rewrite Z.add_0_r.
Qed.

(** Resource usage is what it says: the counters are the sums over the
    threads that count (all of the group and what exited threads left, the
    reaped children, both, or the thread alone), modulo the word size, the
    times and the peak are those of the same parts, the peak in kilobytes, and
    raised to the high-water mark of the memory map unless only children
    count. *)
Theorem getrusage_sums p who :
  sighand p = true → counters_ok (children (signal p)) → 0 <= maxrss (signal p) →
  who ∈ [RUSAGE_SELF; RUSAGE_CHILDREN; RUSAGE_BOTH; RUSAGE_THREAD] →
  ∃ r, getrusage ns_to_timeval setmax p who = Some r ∧
    (∀ f, f ∈ counter_fields → f (ru_counters r) = u64 (sumZ (f <$> counted p who))) ∧
    ru_utime r = ns_to_timeval (cpu_times p who).1 ∧
    ru_stime r = ns_to_timeval (cpu_times p who).2 ∧
    ru_maxrss r = u64 (4 * match mm_hiwater p with
                           | Some hw => if who =? RUSAGE_CHILDREN then peak_rss p who
                                        else setmax (peak_rss p who) hw
                           | None => peak_rss p who
                           end).
Proof.
  intros Hs Hc Hm Hwho. destruct (getrusage_run p who Hs Hc Hm Hwho) as (c & -> & Hsum).
  eexists. split; [reflexivity|]. split; [done|]. split; [done|]. split; [done|].
  unfold finish_rusage. cbn [ru_maxrss]. change (PAGE_SIZE / 1024) with 4.
  rewrite Z.mul_comm. destruct (mm_hiwater p); by destruct (who =? RUSAGE_CHILDREN).
Qed.
End usage_facts.

Section call_facts.
Context (ns_to_timeval : Z → Z * Z) (setmax : Z → Z → Z).
Context {M : Type} `{UserAccess M}.

Lemma getrusage_total p who : who_ok who = true → is_Some (getrusage ns_to_timeval setmax p who).
Proof.
  unfold who_ok, getrusage. destruct (who =? RUSAGE_THREAD); [by destruct (cputime_adjusted p)|].
  destruct (sighand p); [|done]. cbn [negb].
  destruct (who =? RUSAGE_CHILDREN); [by rewrite orb_true_r|].
  destruct (who =? RUSAGE_SELF); [|done]. destruct (who =? RUSAGE_BOTH); cbn [orb]; by repeat destruct (add_self _ _ _ _ _) as [[[]]].
Qed.

(** The system call never runs into the kernel's BUG: it refuses every
    other request, the one for both sums included, without touching the memory
    of the program; otherwise it succeeds exactly when the program's structure
    is writable, which then holds the usage, word by word. *)
Theorem sys_getrusage_spec current who ru (m : M) :
  ∃ r m', sys_getrusage ns_to_timeval setmax current who ru m = Some (r, m') ∧
    if who_ok who then
      (r = 0 ∨ r = - EFAULT) ∧ (r = 0 ↔ user_wr m ru 144 = true) ∧
      ∃ u, getrusage ns_to_timeval setmax current who = Some u ∧
        (r = 0 → ∀ i z, rusage_words u !! i = Some z → uread_u64 m' (ru + 8 * Z.of_nat i) = Some (u64 z))
    else r = - EINVAL ∧ m' = m.
Proof.
  unfold sys_getrusage. destruct (who_ok who) eqn:Hw; cbn [negb]; [|by eexists _, _].
  destruct (getrusage_total current who Hw) as [u Hu]. rewrite Hu.
  pose proof (copy_to_user_ok m ru (rusage_words u ≫= bytes_of_u64)) as Hok.
  rewrite words_length in Hok.
  pose proof (copy_to_user_words m ru (rusage_words u)) as Hwords.
  destruct (copy_to_user m ru _) as [rest m']. cbn [fst snd] in *.
  eexists _, m'. split; [reflexivity|]. change (Z.of_nat (8 * length (rusage_words u))) with 144 in Hok.
  unfold nz. destruct (Z.eqb_spec rest 0) as [->|Hr]; cbn [negb].
  - split; [auto|]. split; [tauto|]. exists u. split; [done|]. intros _ i z. by apply Hwords.
  - split; [auto|]. split; [by rewrite <-Hok | by exists u].
Qed.

(** [times] without a buffer only reports the ticks; with one, the four times
    are there when it succeeds. *)
Lemma sys_times_spec to_clock ticks current jiffies tbuf (m : M) :
  let '(r, m') := sys_times to_clock ticks current jiffies tbuf m in
  if tbuf =? 0 then r = ticks jiffies ∧ m' = m
  else if user_wr m tbuf 32 then
    r = ticks jiffies ∧ ∀ i z, do_sys_times to_clock current !! i = Some z →
      uread_u64 m' (tbuf + 8 * Z.of_nat i) = Some (u64 z)
  else r = - EFAULT.
Proof.
  unfold sys_times, nz. destruct (tbuf =? 0); [done|]. cbn [negb].
  pose proof (copy_to_user_ok m tbuf (do_sys_times to_clock current ≫= bytes_of_u64)) as Hok.
  pose proof (copy_to_user_words m tbuf (do_sys_times to_clock current)) as Hwords.
  assert (Hlen : length (do_sys_times to_clock current ≫= bytes_of_u64) = 32%nat)
    by (rewrite words_length; unfold do_sys_times; by destruct (group_cputime_adjusted current)).
  rewrite Hlen in Hok. destruct (copy_to_user m tbuf _) as [rest m']. cbn [fst snd] in *.
  change (Z.of_nat 32) with 32 in Hok. unfold nz.
  destruct (Z.eqb_spec rest 0) as [->|Hr]; cbn [negb].
  - rewrite (proj1 Hok eq_refl). split; [done|]. intros i z. by apply Hwords.
  - destruct (user_wr m tbuf 32); [|done]. by destruct (Hr (proj2 Hok eq_refl)).
Qed.
End call_facts.

(** The mask keeps the permission bits only, and setting it back restores it. *)
Lemma sys_umask_range mask umask : 0 <= (sys_umask mask umask).2 < 512.
Proof.
  unfold sys_umask, S_IRWXUGO. cbn [snd]. change 511 with (Z.ones 9). rewrite Z.land_ones by lia.
  apply Z.mod_pos_bound. lia.
Qed.
Lemma sys_umask_restore mask umask : 0 <= umask < 512 →
  let '(old, new) := sys_umask mask umask in sys_umask old new = (new, umask).
Proof.
  intros Hu. unfold sys_umask, S_IRWXUGO. f_equal. change 511 with (Z.ones 9).
  rewrite Z.land_ones by lia. by apply Z.mod_small.
Qed.

(** ** Runs *)

Module UsageRuns.
Definition timeval (ns : Z) : Z * Z := (ns / 10 ^ 9, ns mod 10 ^ 9 / 1000).
Definition c (n : Z) : counters := Counters n n n n n n.
Definition p : task :=
  Task (c 1) [c 10; c 100] (Signal (3 * 10 ^ 9) 5000 (c 1000) (c 10000) 70 50) true (1, 2)
    (2 * 10 ^ 9, 7000) (Some 90).

Example both_is_sum :
  (λ r, (nvcsw (ru_counters r), ru_utime r, ru_maxrss r)) <$> getrusage timeval Z.max p RUSAGE_BOTH
    = Some (11111, (5, 0), 360) ∧
  (λ r, (nvcsw (ru_counters r), ru_utime r, ru_maxrss r)) <$> getrusage timeval Z.max p RUSAGE_SELF
    = Some (1111, (2, 0), 360) ∧
  (λ r, (nvcsw (ru_counters r), ru_utime r, ru_maxrss r)) <$> getrusage timeval Z.max p RUSAGE_CHILDREN
    = Some (10000, (3, 0), 200).
Proof. by vm_compute. Qed.

Lemma getrusage_sums_witness :
  ∃ r, getrusage timeval Z.max p RUSAGE_BOTH = Some r ∧
    (∀ f, f ∈ counter_fields → f (ru_counters r) = u64 (sumZ (f <$> counted p RUSAGE_BOTH))) ∧
    ru_utime r = timeval (cpu_times p RUSAGE_BOTH).1 ∧
    ru_stime r = timeval (cpu_times p RUSAGE_BOTH).2 ∧
    ru_maxrss r = u64 (4 * match mm_hiwater p with
                           | Some hw => if RUSAGE_BOTH =? RUSAGE_CHILDREN then peak_rss p RUSAGE_BOTH
                                        else Z.max (peak_rss p RUSAGE_BOTH) hw
                           | None => peak_rss p RUSAGE_BOTH
                           end).
Proof.
  apply (getrusage_sums timeval Z.max p RUSAGE_BOTH); [done | | done | by apply (bool_decide_unpack _)].
  intros f Hf. unfold counter_fields in Hf. rewrite !elem_of_cons, elem_of_nil in Hf.
  by destruct Hf as [->|[->|[->|[->|[->|[->|[]]]]]]]; apply (bool_decide_unpack _).
Defined.
End UsageRuns.
