(* ===== verification/Prctl.v ===== *)
(** * Prctl: operations on the calling task

    [prctl] of [kernel/sys.c] with its helpers ([propagate_has_child_subreaper],
    [is_valid_name_char], [prctl_set_vma], [prctl_set_mdwe], [prctl_get_mdwe],
    [prctl_get_auxv], [prctl_get_tid_address]) and [getcpu], on x86-64: the
    options whose macros the architecture leaves to this file are refused, as
    the file defines them.  [PR_SET_MM] is the model of [PrctlMM].

    Options another part of the kernel carries out (seccomp, the time stamp
    counter, performance events, speculation control, system call dispatch,
    core scheduling, page merging, and what the security modules handle before
    the switch) are a parameter that works on the state of the rest of the
    kernel ([W]). *)

From S2P Require Import Prelude UserMem CString PrctlMM.

(** ** Constants ([include/uapi/linux/prctl.h], [include/linux/sched.h]) *)

Definition PR_SET_PDEATHSIG : Z := 1.
Definition PR_GET_PDEATHSIG : Z := 2.
Definition PR_GET_DUMPABLE : Z := 3.
Definition PR_SET_DUMPABLE : Z := 4.
Definition PR_GET_UNALIGN : Z := 5.
Definition PR_SET_UNALIGN : Z := 6.
Definition PR_GET_FPEMU : Z := 9.
Definition PR_SET_FPEMU : Z := 10.
Definition PR_GET_FPEXC : Z := 11.
Definition PR_SET_FPEXC : Z := 12.
Definition PR_GET_TIMING : Z := 13.
Definition PR_SET_TIMING : Z := 14.
Definition PR_SET_NAME : Z := 15.
Definition PR_GET_NAME : Z := 16.
Definition PR_GET_ENDIAN : Z := 19.
Definition PR_SET_ENDIAN : Z := 20.
Definition PR_GET_SECCOMP : Z := 21.
Definition PR_SET_SECCOMP : Z := 22.
Definition PR_GET_TSC : Z := 25.
Definition PR_SET_TSC : Z := 26.
Definition PR_SET_TIMERSLACK : Z := 29.
Definition PR_GET_TIMERSLACK : Z := 30.
Definition PR_TASK_PERF_EVENTS_DISABLE : Z := 31.
Definition PR_TASK_PERF_EVENTS_ENABLE : Z := 32.
Definition PR_MCE_KILL : Z := 33.
Definition PR_MCE_KILL_GET : Z := 34.
Definition PR_SET_MM : Z := 35.
Definition PR_SET_CHILD_SUBREAPER : Z := 36.
Definition PR_GET_CHILD_SUBREAPER : Z := 37.
Definition PR_SET_NO_NEW_PRIVS : Z := 38.
Definition PR_GET_NO_NEW_PRIVS : Z := 39.
Definition PR_GET_TID_ADDRESS : Z := 40.
Definition PR_SET_THP_DISABLE : Z := 41.
Definition PR_GET_THP_DISABLE : Z := 42.
Definition PR_MPX_ENABLE_MANAGEMENT : Z := 43.
Definition PR_MPX_DISABLE_MANAGEMENT : Z := 44.
Definition PR_SET_FP_MODE : Z := 45.
Definition PR_GET_FP_MODE : Z := 46.
Definition PR_SVE_SET_VL : Z := 50.
Definition PR_SVE_GET_VL : Z := 51.
Definition PR_GET_SPECULATION_CTRL : Z := 52.
Definition PR_SET_SPECULATION_CTRL : Z := 53.
Definition PR_PAC_RESET_KEYS : Z := 54.
Definition PR_SET_TAGGED_ADDR_CTRL : Z := 55.
Definition PR_GET_TAGGED_ADDR_CTRL : Z := 56.
Definition PR_SET_IO_FLUSHER : Z := 57.
Definition PR_GET_IO_FLUSHER : Z := 58.
Definition PR_SET_SYSCALL_USER_DISPATCH : Z := 59.
Definition PR_PAC_SET_ENABLED_KEYS : Z := 60.
Definition PR_PAC_GET_ENABLED_KEYS : Z := 61.
Definition PR_SCHED_CORE : Z := 62.
Definition PR_SME_SET_VL : Z := 63.
Definition PR_SME_GET_VL : Z := 64.
Definition PR_SET_MDWE : Z := 65.
Definition PR_GET_MDWE : Z := 66.
Definition PR_SET_MEMORY_MERGE : Z := 67.
Definition PR_GET_MEMORY_MERGE : Z := 68.
Definition PR_RISCV_V_SET_CONTROL : Z := 69.
Definition PR_RISCV_V_GET_CONTROL : Z := 70.
Definition PR_SET_VMA : Z := 1398164801.
Definition PR_GET_AUXV : Z := 1096112214.

Definition PR_SET_VMA_ANON_NAME : Z := 0.
Definition PR_MDWE_REFUSE_EXEC_GAIN : Z := 1.
Definition PR_TIMING_STATISTICAL : Z := 0.
Definition PR_MCE_KILL_CLEAR : Z := 0.
Definition PR_MCE_KILL_SET : Z := 1.
Definition PR_MCE_KILL_LATE : Z := 0.
Definition PR_MCE_KILL_EARLY : Z := 1.
Definition PR_MCE_KILL_DEFAULT : Z := 2.
Definition SUID_DUMP_DISABLE : Z := 0.
Definition SUID_DUMP_USER : Z := 1.
Definition NSIG : Z := 64.
Definition TASK_COMM_LEN : nat := 16.

Definition PF_MCE_PROCESS : Z := Z.shiftl 1 7.
Definition PF_MCE_EARLY : Z := Z.shiftl 1 27.
Definition PF_MEMALLOC_NOIO : Z := Z.shiftl 1 19.
Definition PF_LOCAL_THROTTLE : Z := Z.shiftl 1 20.
Definition PR_IO_FLUSHER : Z := Z.lor PF_MEMALLOC_NOIO PF_LOCAL_THROTTLE.
(** [x & ~bits] *)
Definition clear_bits (x bits : Z) : Z := Z.land x (Z.lnot bits).

(** ** The calling task *)

(** What [prctl] reads and writes of the task itself. *)
Record task_core := TaskCore {
  pdeath_signal : Z;
  dumpable : Z;
  comm : list Z;
  timer_slack_ns : Z;
  pflags : Z;
  is_child_subreaper : bool;
  no_new_privs : bool;
  has_mdwe : bool;              (** MMF_HAS_MDWE *)
  thp_disabled : bool;          (** MMF_DISABLE_THP *)
}.
#[export] Instance task_core_eq_dec : EqDecision task_core.
Proof. solve_decision. Defined.

Definition set_pdeath (z : Z) (t : task_core) : task_core :=
  TaskCore z (dumpable t) (comm t) (timer_slack_ns t) (pflags t) (is_child_subreaper t)
    (no_new_privs t) (has_mdwe t) (thp_disabled t).
Definition set_dumpable (z : Z) (t : task_core) : task_core :=
  TaskCore (pdeath_signal t) z (comm t) (timer_slack_ns t) (pflags t) (is_child_subreaper t)
    (no_new_privs t) (has_mdwe t) (thp_disabled t).
Definition set_comm (c : list Z) (t : task_core) : task_core :=
  TaskCore (pdeath_signal t) (dumpable t) c (timer_slack_ns t) (pflags t) (is_child_subreaper t)
    (no_new_privs t) (has_mdwe t) (thp_disabled t).
Definition set_slack (z : Z) (t : task_core) : task_core :=
  TaskCore (pdeath_signal t) (dumpable t) (comm t) z (pflags t) (is_child_subreaper t)
    (no_new_privs t) (has_mdwe t) (thp_disabled t).
Definition set_flags (z : Z) (t : task_core) : task_core :=
  TaskCore (pdeath_signal t) (dumpable t) (comm t) (timer_slack_ns t) z (is_child_subreaper t)
    (no_new_privs t) (has_mdwe t) (thp_disabled t).
Definition set_subreaper (b : bool) (t : task_core) : task_core :=
  TaskCore (pdeath_signal t) (dumpable t) (comm t) (timer_slack_ns t) (pflags t) b
    (no_new_privs t) (has_mdwe t) (thp_disabled t).
Definition set_nnp (b : bool) (t : task_core) : task_core :=
  TaskCore (pdeath_signal t) (dumpable t) (comm t) (timer_slack_ns t) (pflags t)
    (is_child_subreaper t) b (has_mdwe t) (thp_disabled t).
Definition set_mdwe (b : bool) (t : task_core) : task_core :=
  TaskCore (pdeath_signal t) (dumpable t) (comm t) (timer_slack_ns t) (pflags t)
    (is_child_subreaper t) (no_new_privs t) b (thp_disabled t).
Definition set_thp (b : bool) (t : task_core) : task_core :=
  TaskCore (pdeath_signal t) (dumpable t) (comm t) (timer_slack_ns t) (pflags t)
    (is_child_subreaper t) (no_new_privs t) (has_mdwe t) b.

(** The task, its memory map (with the memory of the program), the tasks with
    [has_child_subreaper], and the rest of the kernel. *)
Record task_state (M W : Type) := TaskState {
  core : task_core;
  mm : mm_state M;
  subreaped : gset Z;
  rest : W;
}.
Arguments TaskState {M W}.
Arguments core {M W}.
Arguments mm {M W}.
Arguments subreaped {M W}.
Arguments rest {M W}.

(** What the call depends on besides the state. *)
Record prctl_env (M W : Type) := PrctlEnv {
  mm_of : mm_env;
  security_task_prctl : Z → list Z → W → Z * W;
  external : Z → list Z → W → Z * W;          (** the options of other parts of the kernel *)
  strncpy_from_user : M → Z → Z → Z * list Z; (** length or error, and the characters *)
  set_task_comm : list Z → list Z;            (** the new [comm], of a C string *)
  get_task_comm : list Z → list Z;            (** the bytes of [comm] that are handed out *)
  proc_comm_connector : W → W;
  strndup_user : M → Z → Z → Z + list Z;
  anon_vma_name_alloc : list Z → bool;        (** whether it succeeds *)
  madvise_set_anon_name : Z → Z → option (list Z) → W → Z * W;
  walk_process_tree : (Z → gset Z → Z * gset Z) → gset Z → gset Z;
  is_child_reaper : Z → bool;
  mmap_write_lock_killable : Z;
  default_timer_slack_ns : Z;
  clear_child_tid : Z;
  vm_merge_any : W → bool;                    (** MMF_VM_MERGE_ANY, kept by the page merger *)
  config_ksm : bool;
  config_anon_vma_name : bool;
}.
Arguments mm_of {M W}.
Arguments security_task_prctl {M W}.
Arguments external {M W}.
Arguments strncpy_from_user {M W}.
Arguments set_task_comm {M W}.
Arguments get_task_comm {M W}.
Arguments proc_comm_connector {M W}.
Arguments strndup_user {M W}.
Arguments anon_vma_name_alloc {M W}.
Arguments madvise_set_anon_name {M W}.
Arguments walk_process_tree {M W}.
Arguments is_child_reaper {M W}.
Arguments mmap_write_lock_killable {M W}.
Arguments default_timer_slack_ns {M W}.
Arguments clear_child_tid {M W}.
Arguments vm_merge_any {M W}.
Arguments config_ksm {M W}.
Arguments config_anon_vma_name {M W}.

(** ** The helpers *)

(** The visitor of the walk over the descendants: [p] is skipped with its
    subtree (0) when it has the flag or reaps its namespace, and gets the flag
    (1) otherwise. *)
Definition propagate_has_child_subreaper (is_child_reaper : Z → bool) (p : Z) (has : gset Z)
    : Z * gset Z :=
  if bool_decide (p ∈ has) || is_child_reaper p then (0, has) else (1, {[p]} ∪ has).

(** [ANON_VMA_NAME_INVALID_CHARS]: backslash, backquote, dollar, brackets.
    [strchr] also finds the NUL at the end of the set. *)
Definition INVALID_CHARS : list Z := [92; 96; 36; 91; 93].
Definition ANON_VMA_NAME_MAX_LEN : Z := 80.
Definition is_valid_name_char (ch : Z) : bool :=
  (31 <? ch) && (ch <? 127) && negb (bool_decide (ch ∈ INVALID_CHARS ++ [0])).
(** The loop over the name; [char] is signed. *)
Fixpoint name_ok (name : list Z) : bool :=
  match name with
  | [] => true
  | c :: name =>
      if negb (is_valid_name_char (if c <? 128 then c else c - 256)) then false else name_ok name
  end.

Definition valid_signal (sig : Z) : bool := sig <=? NSIG.

(** [put_user] of a 64-bit variable. *)
Definition put_user_u64 {M} `{UserAccess M} (v p : Z) (m : M) : Z * M :=
  let '(rest, m) := copy_to_user m p (bytes_of_u64 v) in
  (if nz rest then - EFAULT else 0, m).

Section handlers.
Context {M W : Type} `{UserAccess M}.
Context (env : prctl_env M W).
Abbreviation st := (task_state M W).
Implicit Types (s : st).

Definition upd (f : task_core → task_core) : kst st unit :=
  kmodify (λ s, TaskState (f (core s)) (mm s) (subreaped s) (rest s)).
Definition with_mm (c : kst (mm_state M) Z) : kst st Z := λ s,
  match c (mm s) with
  | Some (r, m) => Some (r, TaskState (core s) m (subreaped s) (rest s))
  | None => None
  end.
Definition on_user (f : M → Z * M) : kst st Z :=
  with_mm (λ m, let '(r, u) := f (mm_user m) in
    Some (r, mk_mm_state (layout m) (saved_auxv m) (exe_file m) (mmap_locks m) (fd_refs m) u)).
Definition on_rest (f : W → Z * W) : kst st Z := λ s,
  let '(r, w) := f (rest s) in Some (r, TaskState (core s) (mm s) (subreaped s) w).

Definition prctl_get_tid_address (tid_addr : Z) : kst st Z :=
  if config_checkpoint_restore (mm_of env) then on_user (put_user_u64 (clear_child_tid env) tid_addr)
  else mret (- EINVAL).

Definition prctl_set_vma (opt addr size arg : Z) : kst st Z :=
  if negb (config_anon_vma_name env) then mret (- EINVAL)
  else if opt =? PR_SET_VMA_ANON_NAME then
    s ← kget;
    if nz arg then
      match strndup_user env (mm_user (mm s)) arg ANON_VMA_NAME_MAX_LEN with
      | inl error => mret error
      | inr name =>
          if negb (name_ok name) then mret (- EINVAL)
          else if negb (anon_vma_name_alloc env name) then mret (- ENOMEM)
          else on_rest (madvise_set_anon_name env addr size (Some name))
      end
    else on_rest (madvise_set_anon_name env addr size None)
  else mret (- EINVAL).

Definition prctl_set_mdwe (bits arg3 arg4 arg5 : Z) : kst st Z :=
  if nz arg3 || nz arg4 || nz arg5 then mret (- EINVAL) else
  if nz (clear_bits bits PR_MDWE_REFUSE_EXEC_GAIN) then mret (- EINVAL) else
  s ← kget;
  if nz (Z.land bits PR_MDWE_REFUSE_EXEC_GAIN) then upd (set_mdwe true);; mret 0
  else if has_mdwe (core s) then mret (- EPERM)
  else mret 0.
Definition prctl_get_mdwe (arg2 arg3 arg4 arg5 : Z) : kst st Z :=
  if nz arg2 || nz arg3 || nz arg4 || nz arg5 then mret (- EINVAL) else
  s ← kget;
  mret (if has_mdwe (core s) then PR_MDWE_REFUSE_EXEC_GAIN else 0).

(** [size] is the smaller of the size of the vector and the length asked for. *)
Definition prctl_get_auxv (addr len : Z) : kst st Z :=
  s ← kget;
  let sizeof := Z.of_nat (length (saved_auxv (mm s))) in
  let size := Z.min sizeof len in
  r ← (if nz size then
         on_user (λ u, copy_to_user u addr (take (Z.to_nat size) (saved_auxv (mm s))))
       else mret 0);
  mret (if nz r then - EFAULT else sizeof).

(** *** Groups of options *)

Definition prctl_mce_kill (arg2 arg3 arg4 arg5 : Z) : kst st Z :=
  if nz (Z.lor arg4 arg5) then mret (- EINVAL) else
  s ← kget;
  let fl := pflags (core s) in
  if arg2 =? PR_MCE_KILL_CLEAR then
    if nz arg3 then mret (- EINVAL) else upd (set_flags (clear_bits fl PF_MCE_PROCESS));; mret 0
  else if arg2 =? PR_MCE_KILL_SET then
    let fl := Z.lor fl PF_MCE_PROCESS in
    upd (set_flags fl);;
    if arg3 =? PR_MCE_KILL_EARLY then upd (set_flags (Z.lor fl PF_MCE_EARLY));; mret 0
    else if arg3 =? PR_MCE_KILL_LATE then upd (set_flags (clear_bits fl PF_MCE_EARLY));; mret 0
    else if arg3 =? PR_MCE_KILL_DEFAULT then
      upd (set_flags (clear_bits fl (Z.lor PF_MCE_EARLY PF_MCE_PROCESS)));; mret 0
    else mret (- EINVAL)
  else mret (- EINVAL).
Definition prctl_mce_kill_get (arg2 arg3 arg4 arg5 : Z) : kst st Z :=
  if nz (Z.lor (Z.lor (Z.lor arg2 arg3) arg4) arg5) then mret (- EINVAL) else
  s ← kget;
  let fl := pflags (core s) in
  mret (if nz (Z.land fl PF_MCE_PROCESS) then
          if nz (Z.land fl PF_MCE_EARLY) then PR_MCE_KILL_EARLY else PR_MCE_KILL_LATE
        else PR_MCE_KILL_DEFAULT).

Definition prctl_set_child_subreaper (arg2 : Z) : kst st Z :=
  upd (set_subreaper (nz arg2));;
  if negb (nz arg2) then mret 0
  else
    kmodify (λ s, TaskState (core s) (mm s)
      (walk_process_tree env (propagate_has_child_subreaper (is_child_reaper env)) (subreaped s))
      (rest s));;
    mret 0.

Definition prctl_set_io_flusher (arg2 arg3 arg4 arg5 : Z) : kst st Z :=
  if negb (cap_sys_resource (mm_of env)) then mret (- EPERM) else
  if nz arg3 || nz arg4 || nz arg5 then mret (- EINVAL) else
  s ← kget;
  let fl := pflags (core s) in
  if arg2 =? 1 then upd (set_flags (Z.lor fl PR_IO_FLUSHER));; mret 0
  else if arg2 =? 0 then upd (set_flags (clear_bits fl PR_IO_FLUSHER));; mret 0
  else mret (- EINVAL).
Definition prctl_get_io_flusher (arg2 arg3 arg4 arg5 : Z) : kst st Z :=
  if negb (cap_sys_resource (mm_of env)) then mret (- EPERM) else
  if nz arg2 || nz arg3 || nz arg4 || nz arg5 then mret (- EINVAL) else
  s ← kget;
  mret (if Z.land (pflags (core s)) PR_IO_FLUSHER =? PR_IO_FLUSHER then 1 else 0).

Definition prctl_set_name (arg2 : Z) : kst st Z :=
  s ← kget;
  let '(n, name) := strncpy_from_user env (mm_user (mm s)) arg2 15 in
  if n <? 0 then mret (- EFAULT)
  else
    upd (set_comm (set_task_comm env name));;
    on_rest (λ w, (0, proc_comm_connector env w)).
Definition prctl_get_name (arg2 : Z) : kst st Z :=
  s ← kget;
  r ← on_user (λ u, copy_to_user u arg2 (get_task_comm env (comm (core s))));
  mret (if nz r then - EFAULT else 0).

Definition prctl_set_thp (arg2 arg3 arg4 arg5 : Z) : kst st Z :=
  if nz arg3 || nz arg4 || nz arg5 then mret (- EINVAL) else
  if nz (mmap_write_lock_killable env) then mret (- EINTR) else
  upd (set_thp (nz arg2));; mret 0.
Definition prctl_set_memory_merge (arg2 arg3 arg4 arg5 : Z) : kst st Z :=
  if negb (config_ksm env) then mret (- EINVAL) else
  if nz arg3 || nz arg4 || nz arg5 then mret (- EINVAL) else
  if nz (mmap_write_lock_killable env) then mret (- EINTR) else
  on_rest (external env PR_SET_MEMORY_MERGE [arg2]).

(** The options of x86-64 whose macro this file defines as [-EINVAL], after the
    checks of their own that come first. *)
Definition arch_refused (opt : Z) : bool :=
  bool_decide (opt ∈ [PR_SET_UNALIGN; PR_GET_UNALIGN; PR_SET_FPEMU; PR_GET_FPEMU; PR_SET_FPEXC;
    PR_GET_FPEXC; PR_GET_ENDIAN; PR_SET_ENDIAN; PR_SET_FP_MODE; PR_GET_FP_MODE; PR_SVE_SET_VL;
    PR_SVE_GET_VL; PR_SME_SET_VL; PR_SME_GET_VL; PR_PAC_RESET_KEYS; PR_PAC_SET_ENABLED_KEYS;
    PR_PAC_GET_ENABLED_KEYS; PR_SET_TAGGED_ADDR_CTRL; PR_GET_TAGGED_ADDR_CTRL;
    PR_RISCV_V_SET_CONTROL; PR_RISCV_V_GET_CONTROL]).
(** The options that go to another part of the kernel with all they need. *)
Definition external_args (opt arg2 arg3 arg4 arg5 : Z) : option (list Z) :=
  if opt =? PR_GET_SECCOMP then Some []
  else if opt =? PR_SET_SECCOMP then Some [arg2; arg3]
  else if (opt =? PR_GET_TSC) || (opt =? PR_SET_TSC) then Some [arg2]
  else if (opt =? PR_TASK_PERF_EVENTS_DISABLE) || (opt =? PR_TASK_PERF_EVENTS_ENABLE) then Some []
  else if (opt =? PR_SET_SYSCALL_USER_DISPATCH) || (opt =? PR_SCHED_CORE)
  then Some [arg2; arg3; arg4; arg5]
  else None.

(** The settings of the task and of its privileges. *)
Definition prctl_task (opt arg2 arg3 arg4 arg5 : Z) : kst st Z :=
  s ← kget;
  let t := core s in
  if opt =? PR_SET_PDEATHSIG then
    if negb (valid_signal arg2) then mret (- EINVAL) else upd (set_pdeath arg2);; mret 0
  else if opt =? PR_GET_PDEATHSIG then on_user (put_user_u32 (pdeath_signal t) arg2)
  else if opt =? PR_GET_DUMPABLE then mret (dumpable t)
  else if opt =? PR_SET_DUMPABLE then
    if negb (arg2 =? SUID_DUMP_DISABLE) && negb (arg2 =? SUID_DUMP_USER) then mret (- EINVAL)
    else upd (set_dumpable arg2);; mret 0
  else if opt =? PR_GET_TIMING then mret PR_TIMING_STATISTICAL
  else if opt =? PR_SET_TIMING then
    mret (if negb (arg2 =? PR_TIMING_STATISTICAL) then - EINVAL else 0)
  else if opt =? PR_SET_NAME then prctl_set_name arg2
  else if opt =? PR_GET_NAME then prctl_get_name arg2
  else if opt =? PR_GET_TIMERSLACK then mret (s64 (timer_slack_ns t))
  else if opt =? PR_SET_TIMERSLACK then
    (if arg2 <=? 0 then upd (set_slack (default_timer_slack_ns env)) else upd (set_slack arg2));;
    mret 0
  else if opt =? PR_MCE_KILL then prctl_mce_kill arg2 arg3 arg4 arg5
  else if opt =? PR_MCE_KILL_GET then prctl_mce_kill_get arg2 arg3 arg4 arg5
  else if opt =? PR_SET_CHILD_SUBREAPER then prctl_set_child_subreaper arg2
  else if opt =? PR_GET_CHILD_SUBREAPER then
    on_user (put_user_u32 (if is_child_subreaper t then 1 else 0) arg2)
  else if opt =? PR_SET_NO_NEW_PRIVS then
    if negb (arg2 =? 1) || nz arg3 || nz arg4 || nz arg5 then mret (- EINVAL)
    else upd (set_nnp true);; mret 0
  else if opt =? PR_GET_NO_NEW_PRIVS then
    if nz arg2 || nz arg3 || nz arg4 || nz arg5 then mret (- EINVAL)
    else mret (if no_new_privs t then 1 else 0)
  else if opt =? PR_SET_IO_FLUSHER then prctl_set_io_flusher arg2 arg3 arg4 arg5
  else if opt =? PR_GET_IO_FLUSHER then prctl_get_io_flusher arg2 arg3 arg4 arg5
  else mret (- EINVAL).

(** The settings of the memory map. *)
Definition prctl_memory (opt arg2 arg3 arg4 arg5 : Z) : kst st Z :=
  s ← kget;
  (* [prctl_set_mm] takes the option as an int *)
  if opt =? PR_SET_MM then with_mm (prctl_set_mm (mm_of env) (s32 arg2) arg3 arg4 arg5)
  else if opt =? PR_GET_TID_ADDRESS then prctl_get_tid_address arg2
  else if opt =? PR_GET_THP_DISABLE then
    if nz arg2 || nz arg3 || nz arg4 || nz arg5 then mret (- EINVAL)
    else mret (if thp_disabled (core s) then 1 else 0)
  else if opt =? PR_SET_THP_DISABLE then prctl_set_thp arg2 arg3 arg4 arg5
  else if (opt =? PR_MPX_ENABLE_MANAGEMENT) || (opt =? PR_MPX_DISABLE_MANAGEMENT)
  then mret (- EINVAL)
  else if opt =? PR_SET_MDWE then prctl_set_mdwe arg2 arg3 arg4 arg5
  else if opt =? PR_GET_MDWE then prctl_get_mdwe arg2 arg3 arg4 arg5
  else if opt =? PR_SET_VMA then prctl_set_vma arg2 arg3 arg4 arg5
  else if opt =? PR_GET_AUXV then
    if nz arg4 || nz arg5 then mret (- EINVAL) else prctl_get_auxv arg2 arg3
  else if opt =? PR_SET_MEMORY_MERGE then prctl_set_memory_merge arg2 arg3 arg4 arg5
  else if opt =? PR_GET_MEMORY_MERGE then
    if negb (config_ksm env) then mret (- EINVAL) else
    if nz arg2 || nz arg3 || nz arg4 || nz arg5 then mret (- EINVAL)
    else mret (if vm_merge_any env (rest s) then 1 else 0)
  else mret (- EINVAL).

Definition prctl_speculation (opt arg2 arg3 arg4 arg5 : Z) : kst st Z :=
  if opt =? PR_GET_SPECULATION_CTRL then
    if nz arg3 || nz arg4 || nz arg5 then mret (- EINVAL) else on_rest (external env opt [arg2])
  else if nz arg4 || nz arg5 then mret (- EINVAL) else on_rest (external env opt [arg2; arg3]).

Definition memory_option (opt : Z) : bool :=
  bool_decide (opt ∈ [PR_SET_MM; PR_GET_TID_ADDRESS; PR_GET_THP_DISABLE; PR_SET_THP_DISABLE;
    PR_MPX_ENABLE_MANAGEMENT; PR_MPX_DISABLE_MANAGEMENT; PR_SET_MDWE; PR_GET_MDWE; PR_SET_VMA;
    PR_GET_AUXV; PR_SET_MEMORY_MERGE; PR_GET_MEMORY_MERGE]).

(** The switch, its cases in groups. *)
Definition prctl_switch (opt arg2 arg3 arg4 arg5 : Z) : kst st Z :=
  if arch_refused opt then mret (- EINVAL)
  else if (opt =? PR_GET_SPECULATION_CTRL) || (opt =? PR_SET_SPECULATION_CTRL)
  then prctl_speculation opt arg2 arg3 arg4 arg5
  else if memory_option opt then prctl_memory opt arg2 arg3 arg4 arg5
  else match external_args opt arg2 arg3 arg4 arg5 with
       | Some args => on_rest (external env opt args)
       | None => prctl_task opt arg2 arg3 arg4 arg5
       end.
Definition sys_prctl (opt arg2 arg3 arg4 arg5 : Z) : kst st Z :=
  error ← on_rest (security_task_prctl env opt [arg2; arg3; arg4; arg5]);
  if negb (error =? - ENOSYS) then mret error
  else prctl_switch opt arg2 arg3 arg4 arg5.
End handlers.

(** [getcpu]: both stores are tried; [cpu_to_node] is another file's. *)
Definition sys_getcpu {M} `{UserAccess M} (cpu_to_node : Z → Z) (cpu cpup nodep : Z) (m : M) : Z * M :=
  let '(err, m) := if nz cpup then put_user_u32 cpu cpup m else (0, m) in
  let '(err2, m) := if nz nodep then put_user_u32 (cpu_to_node cpu) nodep m else (0, m) in
  let err := Z.lor err err2 in
  (if nz err then - EFAULT else 0, m).

(** ** Specification: a rule for every setting of the task

    [r_guards] are the conditions of a call with the error of each; when they
    hold, the call gives [r_result] and the task becomes [r_new]; [r_report] is
    what it writes to the word at its second argument. *)
Record rule := Rule {
  r_guards : list (bool * Z);
  r_new : task_core;
  r_result : Z;
  r_report : option Z;
}.
Fixpoint refusal (guards : list (bool * Z)) : option Z :=
  match guards with
  | [] => None
  | (holds, error) :: guards => if (holds : bool) then refusal guards else Some (- error)
  end.
Definition mce_policy (fl : Z) : Z :=
  if Z.testbit fl 7 then if Z.testbit fl 27 then PR_MCE_KILL_EARLY else PR_MCE_KILL_LATE
  else PR_MCE_KILL_DEFAULT.

Section rules.
Context {M W : Type} (env : prctl_env M W).
Context (arg2 arg3 arg4 arg5 : Z) (name : Z * list Z) (t : task_core).

Definition none (args : list Z) : bool := forallb (Z.eqb 0) args.
Definition one_of (z : Z) (l : list Z) : bool := existsb (Z.eqb z) l.
Definition set_to (guards : list (bool * Z)) (new : task_core) : rule := Rule guards new 0 None.
Definition get_value (guards : list (bool * Z)) (v : Z) : rule := Rule guards t v None.
Definition get_word (v : Z) : rule := Rule [] t 0 (Some v).

(** The flags after [PR_MCE_KILL]; a policy that is not known is refused after
    the first mark. *)
Definition mce_flags : Z :=
  let marked := Z.lor (pflags t) PF_MCE_PROCESS in
  if arg2 =? PR_MCE_KILL_CLEAR then clear_bits (pflags t) PF_MCE_PROCESS
  else if arg3 =? PR_MCE_KILL_EARLY then Z.lor marked PF_MCE_EARLY
  else if arg3 =? PR_MCE_KILL_LATE then clear_bits marked PF_MCE_EARLY
  else if arg3 =? PR_MCE_KILL_DEFAULT then clear_bits marked (Z.lor PF_MCE_EARLY PF_MCE_PROCESS)
  else marked.
Definition mce_result : Z :=
  if (arg2 =? PR_MCE_KILL_SET) &&
     negb (one_of arg3 [PR_MCE_KILL_EARLY; PR_MCE_KILL_LATE; PR_MCE_KILL_DEFAULT])
  then - EINVAL else 0.
Definition mce_rule : rule :=
  Rule [(none [arg4; arg5], EINVAL);
        ((arg2 =? PR_MCE_KILL_SET) || (arg2 =? PR_MCE_KILL_CLEAR) && none [arg3], EINVAL)]
    (set_flags mce_flags t) mce_result None.

Definition rules : list (Z * rule) :=
  [(PR_SET_PDEATHSIG, set_to [(arg2 <=? NSIG, EINVAL)] (set_pdeath arg2 t));
   (PR_GET_PDEATHSIG, get_word (pdeath_signal t));
   (PR_SET_DUMPABLE,
      set_to [(one_of arg2 [SUID_DUMP_DISABLE; SUID_DUMP_USER], EINVAL)] (set_dumpable arg2 t));
   (PR_GET_DUMPABLE, get_value [] (dumpable t));
   (PR_SET_TIMING, get_value [(arg2 =? PR_TIMING_STATISTICAL, EINVAL)] 0);
   (PR_GET_TIMING, get_value [] PR_TIMING_STATISTICAL);
   (PR_SET_NAME, set_to [(0 <=? name.1, EFAULT)] (set_comm (set_task_comm env name.2) t));
   (PR_SET_TIMERSLACK,
      set_to [] (set_slack (if arg2 =? 0 then default_timer_slack_ns env else arg2) t));
   (PR_GET_TIMERSLACK, get_value [] (s64 (timer_slack_ns t)));
   (PR_MCE_KILL, mce_rule);
   (PR_MCE_KILL_GET, get_value [(none [arg2; arg3; arg4; arg5], EINVAL)] (mce_policy (pflags t)));
   (PR_SET_CHILD_SUBREAPER, set_to [] (set_subreaper (negb (arg2 =? 0)) t));
   (PR_GET_CHILD_SUBREAPER, get_word (if is_child_subreaper t then 1 else 0));
   (PR_SET_NO_NEW_PRIVS, set_to [((arg2 =? 1) && none [arg3; arg4; arg5], EINVAL)] (set_nnp true t));
   (PR_GET_NO_NEW_PRIVS,
      get_value [(none [arg2; arg3; arg4; arg5], EINVAL)] (if no_new_privs t then 1 else 0));
   (PR_SET_THP_DISABLE,
      set_to [(none [arg3; arg4; arg5], EINVAL); (none [mmap_write_lock_killable env], EINTR)]
        (set_thp (negb (arg2 =? 0)) t));
   (PR_GET_THP_DISABLE,
      get_value [(none [arg2; arg3; arg4; arg5], EINVAL)] (if thp_disabled t then 1 else 0));
   (PR_SET_MDWE,
      set_to [(none [arg3; arg4; arg5], EINVAL); (one_of arg2 [0; PR_MDWE_REFUSE_EXEC_GAIN], EINVAL);
              ((arg2 =? PR_MDWE_REFUSE_EXEC_GAIN) || negb (has_mdwe t), EPERM)]
        (set_mdwe (arg2 =? PR_MDWE_REFUSE_EXEC_GAIN) t));
   (PR_GET_MDWE, get_value [(none [arg2; arg3; arg4; arg5], EINVAL)] (if has_mdwe t then 1 else 0));
   (PR_SET_IO_FLUSHER,
      set_to [(cap_sys_resource (mm_of env), EPERM); (none [arg3; arg4; arg5], EINVAL);
              (one_of arg2 [0; 1], EINVAL)]
        (set_flags (if arg2 =? 1 then Z.lor (pflags t) PR_IO_FLUSHER
                    else clear_bits (pflags t) PR_IO_FLUSHER) t));
   (PR_GET_IO_FLUSHER,
      get_value [(cap_sys_resource (mm_of env), EPERM); (none [arg2; arg3; arg4; arg5], EINVAL)]
        (if Z.land (pflags t) PR_IO_FLUSHER =? PR_IO_FLUSHER then 1 else 0))].
Fixpoint rule_of (opt : Z) (l : list (Z * rule)) : option rule :=
  match l with [] => None | (o, r) :: l => if opt =? o then Some r else rule_of opt l end.
End rules.

(** ** The task as a transition system

    What one call with these arguments may do to the task, and with which
    result; the result of a call that leaves the task alone is left open. *)
Section transitions.
Context {M W : Type}.
Context (env : prctl_env M W).

Inductive core_step (opt arg2 arg3 arg4 arg5 : Z) (t : task_core) : Z → task_core → Prop :=
  | step_keep r : core_step opt arg2 arg3 arg4 arg5 t r t
  | step_pdeath : opt = PR_SET_PDEATHSIG → arg2 <= NSIG →
      core_step opt arg2 arg3 arg4 arg5 t 0 (set_pdeath arg2 t)
  | step_dumpable : opt = PR_SET_DUMPABLE → arg2 = SUID_DUMP_DISABLE ∨ arg2 = SUID_DUMP_USER →
      core_step opt arg2 arg3 arg4 arg5 t 0 (set_dumpable arg2 t)
  | step_name name : opt = PR_SET_NAME →
      core_step opt arg2 arg3 arg4 arg5 t 0 (set_comm (set_task_comm env name) t)
  | step_slack : opt = PR_SET_TIMERSLACK →
      core_step opt arg2 arg3 arg4 arg5 t 0
        (set_slack (if arg2 <=? 0 then default_timer_slack_ns env else arg2) t)
  | step_mce_clear : opt = PR_MCE_KILL → arg2 = PR_MCE_KILL_CLEAR → arg3 = 0 →
      core_step opt arg2 arg3 arg4 arg5 t 0 (set_flags (clear_bits (pflags t) PF_MCE_PROCESS) t)
  | step_mce_early : opt = PR_MCE_KILL → arg2 = PR_MCE_KILL_SET → arg3 = PR_MCE_KILL_EARLY →
      core_step opt arg2 arg3 arg4 arg5 t 0
        (set_flags (Z.lor (Z.lor (pflags t) PF_MCE_PROCESS) PF_MCE_EARLY) t)
  | step_mce_late : opt = PR_MCE_KILL → arg2 = PR_MCE_KILL_SET → arg3 = PR_MCE_KILL_LATE →
      core_step opt arg2 arg3 arg4 arg5 t 0
        (set_flags (clear_bits (Z.lor (pflags t) PF_MCE_PROCESS) PF_MCE_EARLY) t)
  | step_mce_default : opt = PR_MCE_KILL → arg2 = PR_MCE_KILL_SET → arg3 = PR_MCE_KILL_DEFAULT →
      core_step opt arg2 arg3 arg4 arg5 t 0
        (set_flags (clear_bits (Z.lor (pflags t) PF_MCE_PROCESS) (Z.lor PF_MCE_EARLY PF_MCE_PROCESS)) t)
  | step_mce_refused : opt = PR_MCE_KILL → arg2 = PR_MCE_KILL_SET →
      arg3 ∉ [PR_MCE_KILL_EARLY; PR_MCE_KILL_LATE; PR_MCE_KILL_DEFAULT] →
      core_step opt arg2 arg3 arg4 arg5 t (- EINVAL) (set_flags (Z.lor (pflags t) PF_MCE_PROCESS) t)
  | step_subreaper : opt = PR_SET_CHILD_SUBREAPER →
      core_step opt arg2 arg3 arg4 arg5 t 0 (set_subreaper (nz arg2) t)
  | step_nnp : opt = PR_SET_NO_NEW_PRIVS → arg2 = 1 → arg3 = 0 → arg4 = 0 → arg5 = 0 →
      core_step opt arg2 arg3 arg4 arg5 t 0 (set_nnp true t)
  | step_mdwe : opt = PR_SET_MDWE → arg2 = PR_MDWE_REFUSE_EXEC_GAIN →
      core_step opt arg2 arg3 arg4 arg5 t 0 (set_mdwe true t)
  | step_thp : opt = PR_SET_THP_DISABLE →
      core_step opt arg2 arg3 arg4 arg5 t 0 (set_thp (nz arg2) t)
  | step_io_on : opt = PR_SET_IO_FLUSHER → arg2 = 1 → cap_sys_resource (mm_of env) = true →
      core_step opt arg2 arg3 arg4 arg5 t 0 (set_flags (Z.lor (pflags t) PR_IO_FLUSHER) t)
  | step_io_off : opt = PR_SET_IO_FLUSHER → arg2 = 0 → cap_sys_resource (mm_of env) = true →
      core_step opt arg2 arg3 arg4 arg5 t 0 (set_flags (clear_bits (pflags t) PR_IO_FLUSHER) t).
End transitions.

(** ** Lemmas *)

Lemma nz_false z : nz z = false ↔ z = 0.
Proof. unfold nz. destruct (Z.eqb_spec z 0); split; (done || congruence). Qed.
Lemma nz_true z : nz z = true ↔ z ≠ 0.
Proof. unfold nz. destruct (Z.eqb_spec z 0); split; (done || congruence). Qed.

(** A single flag bit. *)
Lemma land_bit x k : 0 <= k → nz (Z.land x (Z.shiftl 1 k)) = Z.testbit x k.
Proof.
  intros Hk. rewrite Z.shiftl_1_l. destruct (Z.testbit x k) eqn:Hb.
  - apply nz_true. intros Hz. apply (f_equal (λ y, Z.testbit y k)) in Hz.
    by rewrite Z.land_spec, Hb, Z.pow2_bits_true, Z.bits_0 in Hz.
  - apply nz_false. apply Z.bits_inj'. intros i Hi.
    rewrite Z.land_spec, Z.pow2_bits_eqb, Z.bits_0 by done.
    destruct (Z.eqb_spec k i) as [<-|]; [by rewrite Hb | by rewrite andb_false_r].
Qed.
Lemma clear_bits_spec x b i : 0 <= i → Z.testbit (clear_bits x b) i = Z.testbit x i && negb (Z.testbit b i).
Proof. intros Hi. unfold clear_bits. by rewrite Z.land_spec, Z.lnot_spec. Qed.

Section handler_facts.
Context {M W : Type} `{UserAccess M}.
Context (env : prctl_env M W).
Abbreviation st := (task_state M W).
Implicit Types (s : st) (c : kst st Z).

(** A computation that ends, and relates the task before to the result and the
    task after. *)
Definition moves (R : task_core → Z → task_core → Prop) s (c : kst st Z) : Prop :=
  ∃ r s', c s = Some (r, s') ∧ R (core s) r (core s').

Section moves.
Context (R : task_core → Z → task_core → Prop) (Hkeep : ∀ t r, R t r t).

Lemma moves_ret s r : moves R s (mret r).
Proof using Hkeep. by exists r, s. Qed.
Lemma moves_upd s f r : R (core s) r (f (core s)) → moves R s (upd f;; mret r).
Proof using. intros Hr. by eexists r, _. Qed.
Lemma moves_user s (f : M → Z * M) : moves R s (on_user f).
Proof using Hkeep.
  unfold moves, on_user, with_mm. destruct (f (mm_user (mm s))) as [r u]. eexists r, _.
  split; [reflexivity | apply Hkeep].
Qed.
Lemma moves_rest s (f : W → Z * W) : moves R s (on_rest f).
Proof using Hkeep.
  unfold moves, on_rest. destruct (f (rest s)) as [r w]. eexists r, _.
  split; [reflexivity | apply Hkeep].
Qed.
Lemma moves_get s (k : st → kst st Z) : moves R s (k s) → moves R s (kget ≫= k).
Proof using. done. Qed.
End moves.

End handler_facts.

Lemma mdwe_bits b : clear_bits b 1 = 0 → Z.land b 1 ≠ 0 → b = 1.
Proof.
  unfold clear_bits. rewrite <-Z.ldiff_land. change 1 with (Z.ones 1) at 1 2.
  rewrite Z.ldiff_ones_r, Z.land_ones, Z.shiftl_mul_pow2, Z.shiftr_div_pow2 by lia. intros Hc Hm.
  pose proof (Z.div_mod b 2 ltac:(lia)). pose proof (Z.mod_pos_bound b 2 ltac:(lia)).
  change (2 ^ 1) with 2 in *. lia.
Qed.

(** Case analysis on the tests of the code, with [subst] of the option. *)
Ltac opt_case :=
  match goal with
  | |- moves _ _ (if ?a =? ?b then _ else _) => destruct (Z.eqb_spec a b)
  end.
Ltac args_case :=
  match goal with
  | |- moves _ _ (if ?b then _ else _) => destruct b eqn:?
  end.

Section switch_facts.
Context {M W : Type} `{UserAccess M}.
Context (env : prctl_env M W).
Abbreviation st := (task_state M W).
Implicit Types (s : st).
Context (opt arg2 arg3 arg4 arg5 : Z).

Local Abbreviation R := (core_step env opt arg2 arg3 arg4 arg5).
Local Hint Resolve step_keep : core.

Lemma mce_kill_moves s : opt = PR_MCE_KILL → moves R s (prctl_mce_kill arg2 arg3 arg4 arg5).
Proof using.
  intros Ho. unfold prctl_mce_kill. args_case; [by apply moves_ret|]. apply moves_get. cbv zeta.
  opt_case.
  { destruct (nz arg3) eqn:H3; [by apply moves_ret|]. apply nz_false in H3.
    apply moves_upd. by apply step_mce_clear. }
  opt_case; [|by apply moves_ret].
  unfold moves. unfold upd. krun.
  destruct (Z.eqb_spec arg3 PR_MCE_KILL_EARLY); [eexists _, _; split; [reflexivity|]; by apply step_mce_early|].
  destruct (Z.eqb_spec arg3 PR_MCE_KILL_LATE); [eexists _, _; split; [reflexivity|]; by apply step_mce_late|].
  destruct (Z.eqb_spec arg3 PR_MCE_KILL_DEFAULT);
    eexists _, _; (split; [reflexivity|]); [by apply step_mce_default|].
  apply step_mce_refused; [done..|]. rewrite !elem_of_cons, elem_of_nil. tauto.
Qed.

Lemma user_moves s (f : M → Z * M) (k : Z → Z) :
  moves R s (r ← on_user f; mret (k r)).
Proof using.
  destruct (moves_user R (step_keep env opt arg2 arg3 arg4 arg5) s f) as (r & s' & Hr & Hs').
  unfold moves. rewrite (kbind_some _ _ _ _ _ Hr). unfold on_user, with_mm in Hr.
  destruct (f _). injection Hr as <- <-. by eexists _, _.
Qed.

Lemma set_name_moves s : opt = PR_SET_NAME → moves R s (prctl_set_name env arg2).
Proof using.
  intros Ho. unfold prctl_set_name. apply moves_get.
  destruct (strncpy_from_user env _ _ _) as [len name]. args_case; [by apply moves_ret|].
  unfold moves, upd. krun. unfold on_rest. cbn [rest]. eexists _, _. split; [reflexivity|].
  by apply step_name.
Qed.

Lemma set_subreaper_moves s :
  opt = PR_SET_CHILD_SUBREAPER → moves R s (prctl_set_child_subreaper env arg2).
Proof using.
  intros Ho. unfold prctl_set_child_subreaper, moves, upd. krun.
  destruct (negb (nz arg2)); krun; eexists _, _; (split; [reflexivity|]); by apply step_subreaper.
Qed.

Lemma io_flusher_moves s :
  opt = PR_SET_IO_FLUSHER → moves R s (prctl_set_io_flusher env arg2 arg3 arg4 arg5).
Proof using.
  intros Ho. unfold prctl_set_io_flusher.
  destruct (cap_sys_resource (mm_of env)) eqn:Hcap; cbn [negb]; [|by apply moves_ret].
  args_case; [by apply moves_ret|]. apply moves_get.
  opt_case; [apply moves_upd; by apply step_io_on|].
  opt_case; [apply moves_upd; by apply step_io_off | by apply moves_ret].
Qed.

Lemma task_moves s : moves R s (prctl_task env opt arg2 arg3 arg4 arg5).
Proof using.
  unfold prctl_task. apply moves_get. cbv zeta.
  opt_case. { unfold valid_signal. destruct (Z.leb_spec arg2 NSIG); [|by apply moves_ret].
    apply moves_upd. by apply step_pdeath. }
  opt_case; [by apply moves_user|]. opt_case; [by apply moves_ret|].
  opt_case. { destruct (Z.eqb_spec arg2 SUID_DUMP_DISABLE), (Z.eqb_spec arg2 SUID_DUMP_USER);
    cbn [negb andb]; try (apply moves_upd; apply step_dumpable; auto). by apply moves_ret. }
  opt_case; [by apply moves_ret|]. opt_case; [by apply moves_ret|].
  opt_case; [by apply set_name_moves|].
  opt_case; [apply moves_get; apply user_moves|].
  opt_case; [by apply moves_ret|].
  opt_case. { pose proof (step_slack env opt arg2 arg3 arg4 arg5 (core s)) as Hst.
    destruct (arg2 <=? 0); by apply moves_upd, Hst. }
  opt_case; [by apply mce_kill_moves|].
  opt_case. { unfold prctl_mce_kill_get. args_case; by apply moves_ret. }
  opt_case; [by apply set_subreaper_moves|].
  opt_case; [by apply moves_user|].
  opt_case. { destruct (Z.eqb_spec arg2 1); cbn [negb orb]; [|by apply moves_ret].
    args_case; [by apply moves_ret|]. rewrite !orb_false_iff, !nz_false in *.
    apply moves_upd. apply step_nnp; tauto. }
  opt_case. { args_case; by apply moves_ret. }
  opt_case; [by apply io_flusher_moves|].
  opt_case; [|by apply moves_ret].
  unfold prctl_get_io_flusher. args_case; [by apply moves_ret|]. args_case; by apply moves_ret.
Qed.

Lemma vma_moves s : moves R s (prctl_set_vma env arg2 arg3 arg4 arg5).
Proof using.
  unfold prctl_set_vma. args_case; [by apply moves_ret|]. opt_case; [|by apply moves_ret]. apply moves_get.
  args_case; [|by apply moves_rest].
  destruct (strndup_user env _ _ _) as [er|name]; [by apply moves_ret|].
  args_case; [by apply moves_ret|]. args_case; [by apply moves_ret | by apply moves_rest].
Qed.

Lemma mdwe_moves s : opt = PR_SET_MDWE → moves R s (prctl_set_mdwe arg2 arg3 arg4 arg5).
Proof using.
  intros Ho. unfold prctl_set_mdwe. args_case; [by apply moves_ret|].
  destruct (nz (clear_bits arg2 PR_MDWE_REFUSE_EXEC_GAIN)) eqn:Hc; [by apply moves_ret|].
  apply moves_get. destruct (nz (Z.land arg2 PR_MDWE_REFUSE_EXEC_GAIN)) eqn:Hl.
  - apply moves_upd, step_mdwe; [done|]. apply mdwe_bits; [by apply nz_false | by apply nz_true].
  - args_case; by apply moves_ret.
Qed.

Lemma mm_moves s : 0 <= arg4 → moves R s (with_mm (prctl_set_mm (mm_of env) (s32 arg2) arg3 arg4 arg5)).
Proof using.
  intros H4. unfold moves, with_mm.
  destruct (set_mm_outcome (mm_of env) (s32 arg2) arg3 arg4 arg5 (mm s) H4) as (r & m' & -> & _).
  by eexists _, _.
Qed.

Lemma memory_moves s : 0 <= arg4 → moves R s (prctl_memory env opt arg2 arg3 arg4 arg5).
Proof using.
  intros H4. unfold prctl_memory. apply moves_get.
  opt_case; [by apply mm_moves|].
  opt_case. { unfold prctl_get_tid_address. args_case; [by apply moves_user | by apply moves_ret]. }
  opt_case; [args_case; by apply moves_ret|].
  opt_case. { unfold prctl_set_thp. args_case; [by apply moves_ret|]. args_case; [by apply moves_ret|].
    by apply moves_upd, step_thp. }
  args_case; [by apply moves_ret|].
  opt_case; [by apply mdwe_moves|].
  opt_case. { unfold prctl_get_mdwe. args_case; by apply moves_ret. }
  opt_case; [by apply vma_moves|].
  opt_case. { args_case; [by apply moves_ret|]. unfold prctl_get_auxv. apply moves_get. cbv zeta.
    destruct (nz (Z.min _ _)); [apply (user_moves s _ (λ r, if nz r then - EFAULT else _)) | by apply moves_ret]. }
  opt_case. { unfold prctl_set_memory_merge. do 2 (args_case; [by apply moves_ret|]).
    args_case; [by apply moves_ret | by apply moves_rest]. }
  opt_case; [repeat (args_case; [by apply moves_ret|]); by apply moves_ret | by apply moves_ret].
Qed.

Lemma switch_moves s : 0 <= arg4 → moves R s (prctl_switch env opt arg2 arg3 arg4 arg5).
Proof using.
  intros H4. unfold prctl_switch. args_case; [by apply moves_ret|].
  args_case. { unfold prctl_speculation. opt_case; (args_case; [by apply moves_ret | by apply moves_rest]). }
  args_case; [by apply memory_moves|].
  destruct (external_args opt arg2 arg3 arg4 arg5); [by apply moves_rest | apply task_moves].
Qed.
End switch_facts.

Lemma in_u32_ones z : in_u32 z ↔ Z.land z (Z.ones 32) = z.
Proof.
  rewrite Z.land_ones by lia. split; [apply Z.mod_small|]. intros <-. apply Z.mod_pos_bound. lia.
Qed.
Lemma lor_u32 a b : in_u32 a → in_u32 b → in_u32 (Z.lor a b).
Proof. rewrite !in_u32_ones, Z.land_lor_distr_l. by intros -> ->. Qed.
Lemma clear_u32 a b : in_u32 a → in_u32 (clear_bits a b).
Proof.
  unfold clear_bits. rewrite !in_u32_ones. intros Ha.
  by rewrite <-Z.land_assoc, (Z.land_comm (Z.lnot b)), Z.land_assoc, Ha.
Qed.

(** ** Properties *)

Section calls.
Context {M W : Type} `{UserAccess M}.
Implicit Types (env : prctl_env M W) (s : task_state M W).

Lemma prctl_run env opt arg2 arg3 arg4 arg5 s :
  0 <= arg4 →
  ∃ r s', sys_prctl env opt arg2 arg3 arg4 arg5 s = Some (r, s') ∧
    core_step env opt arg2 arg3 arg4 arg5 (core s) r (core s').
Proof.
  intros H4. unfold sys_prctl.
  destruct (security_task_prctl env opt [arg2; arg3; arg4; arg5] (rest s)) as [error w] eqn:Hsec.
  rewrite (kbind_some _ _ s error (TaskState (core s) (mm s) (subreaped s) w))
    by (unfold on_rest; by rewrite Hsec).
  destruct (negb (error =? - ENOSYS)).
  - eexists _, _. split; [reflexivity | apply step_keep].
  - pose proof (switch_moves env opt arg2 arg3 arg4 arg5 (TaskState (core s) (mm s) (subreaped s) w) H4) as Hm.
    unfold moves in Hm. exact Hm.
Qed.

(** A sequence of calls with their arguments, and what the transition system
    makes of it. *)
Record prctl_args := PrctlArgs { pr_option : Z; pr_arg2 : Z; pr_arg3 : Z; pr_arg4 : Z; pr_arg5 : Z }.
Fixpoint run_calls env (calls : list prctl_args) : kst (task_state M W) (list Z) :=
  match calls with
  | [] => mret []
  | c :: calls =>
      r ← sys_prctl env (pr_option c) (pr_arg2 c) (pr_arg3 c) (pr_arg4 c) (pr_arg5 c);
      rs ← run_calls env calls;
      mret (r :: rs)
  end.
Inductive core_run env : task_core → list prctl_args → list Z → task_core → Prop :=
  | run_nil t : core_run env t [] [] t
  | run_cons t c r t1 calls rs t2 :
      core_step env (pr_option c) (pr_arg2 c) (pr_arg3 c) (pr_arg4 c) (pr_arg5 c) t r t1 →
      core_run env t1 calls rs t2 → core_run env t (c :: calls) (r :: rs) t2.

(** What a rule asks of a call from [s] with result [r]. *)
Definition follows (ru : rule) (arg2 : Z) s (r : Z) s' : Prop :=
  match refusal (r_guards ru) with
  | Some error => r = error ∧ core s' = core s
  | None =>
      core s' = r_new ru ∧
      match r_report ru with
      | None => r = r_result ru
      | Some v => r = 0 ∧ uread_u32 (mm_user (mm s')) arg2 = Some (u32 v) ∨
                  r = - EFAULT ∧ user_wr (mm_user (mm s)) arg2 4 = false
      end
  end.

Section follow.
Context (env : prctl_env M W) (arg2 arg3 arg4 arg5 : Z) (s : task_state M W).
Local Abbreviation switch opt := (prctl_switch env opt arg2 arg3 arg4 arg5 s).
Local Abbreviation name := (strncpy_from_user env (mm_user (mm s)) arg2 15).
Local Abbreviation table := (rules env arg2 arg3 arg4 arg5 name (core s)).
Definition obeys (opt : Z) : Prop :=
  ∃ ru r s', rule_of opt table = Some ru ∧ switch opt = Some (r, s') ∧ follows ru arg2 s r s'.

Lemma lor_none a b : nz (Z.lor a b) = negb (none [a; b]).
Proof.
  unfold none. cbn [forallb]. rewrite andb_true_r, !(Z.eqb_sym 0). unfold nz. f_equal.
  apply eq_bool_prop_intro. rewrite !Is_true_true, andb_true_iff, !Z.eqb_eq. apply Z.lor_eq_0_iff.
Qed.

(** The tests of the code and of the rule side by side. *)
Ltac obey_tac :=
  unfold obeys; eexists; unfold upd; rewrite ?kbind_get, ?lor_none; cbv zeta;
  unfold nz, none, one_of, valid_signal; cbn [forallb existsb andb orb negb]; rewrite ?(Z.eqb_sym 0);
  repeat match goal with
    | |- context [?a =? ?b] => lazymatch a with Z0 => fail | Zpos _ => fail | _ => destruct (a =? b) eqn:? end
    | |- context [?a <=? ?b] => destruct (a <=? b) eqn:?
    end;
  eexists _, _; (split; [reflexivity|]); (split; [reflexivity|]); unfold follows; cbn [set_to get_value r_guards refusal r_report r_new r_result];
  unfold nz, none, one_of; cbn [forallb existsb andb orb negb]; rewrite ?(Z.eqb_sym 0);
  repeat match goal with E : _ = _ :> bool |- _ => rewrite E; clear E end; rewrite ?orb_true_r; cbn; auto.
Ltac reduces_to f :=
  match goal with |- obeys ?o => change (∃ ru r s', rule_of o table = Some ru ∧ f s = Some (r, s') ∧
                                          follows ru arg2 s r s') end.

Lemma word_follows v :
  ∃ r s', on_user (put_user_u32 v arg2) s = Some (r, s') ∧ follows (get_word (core s) v) arg2 s r s'.
Proof.
  unfold on_user, with_mm. destruct (put_user_u32 v arg2 (mm_user (mm s))) as [r u] eqn:Hput.
  eexists _, _. split; [reflexivity|]. unfold follows. cbn. split; [done|].
  destruct (put_user_u32_spec _ _ _ _ _ Hput) as (Hr & [->|Hf] & Hv & _); [left; auto|]. right.
  split; [done|]. apply not_true_iff_false. intros Hw%Hr. by rewrite Hw in Hf.
Qed.
(** The options one by one: the cases of the switch are what [change] exposes. *)
Local Abbreviation upd := (upd (M := M) (W := W)).
Lemma obeys_pdeath : obeys PR_SET_PDEATHSIG.
Proof.
  reduces_to (if negb (valid_signal arg2) then mret (- EINVAL) else upd (set_pdeath arg2);; mret 0).
  obey_tac.
Qed.
Lemma obeys_dumpable : obeys PR_SET_DUMPABLE.
Proof.
  reduces_to (if negb (arg2 =? SUID_DUMP_DISABLE) && negb (arg2 =? SUID_DUMP_USER) then mret (- EINVAL)
              else upd (set_dumpable arg2);; mret 0). obey_tac.
Qed.
Lemma obeys_timing : obeys PR_SET_TIMING.
Proof.
  reduces_to (mret (M := kst (task_state M W)) (if negb (arg2 =? PR_TIMING_STATISTICAL) then - EINVAL else 0)).
  obey_tac.
Qed.
Lemma obeys_nnp : obeys PR_SET_NO_NEW_PRIVS.
Proof.
  reduces_to (if negb (arg2 =? 1) || nz arg3 || nz arg4 || nz arg5 then mret (- EINVAL)
              else upd (set_nnp true);; mret 0). obey_tac.
Qed.
Lemma obeys_slack : 0 <= arg2 → obeys PR_SET_TIMERSLACK.
Proof.
  intros H2.
  reduces_to ((if arg2 <=? 0 then upd (set_slack (default_timer_slack_ns env)) else upd (set_slack arg2));; mret 0).
  assert (Hz : (arg2 <=? 0) = (arg2 =? 0)) by (destruct (Z.leb_spec arg2 0), (Z.eqb_spec arg2 0); lia || done).
  rewrite Hz. obey_tac.
Qed.
Lemma obeys_name : obeys PR_SET_NAME.
Proof.
  reduces_to (prctl_set_name env arg2). unfold prctl_set_name. rewrite kbind_get.
  destruct name as [len nm] eqn:Hn. unfold obeys. eexists.
  destruct (Z.ltb_spec len 0); eexists _, _; (split; [reflexivity|]); (split; [reflexivity|]);
    unfold follows; cbn; destruct (Z.leb_spec 0 len); done || lia.
Qed.
Lemma mce_flags_cases :
  (arg2 =? PR_MCE_KILL_SET) || (arg2 =? PR_MCE_KILL_CLEAR) && none [arg3] = true →
  ∃ s', prctl_mce_kill (M := M) (W := W) arg2 arg3 0 0 s = Some (mce_result arg2 arg3, s') ∧
    core s' = set_flags (mce_flags arg2 arg3 (core s)) (core s).
Proof.
  unfold prctl_mce_kill, mce_flags, mce_result, none, one_of, nz. cbn [forallb existsb].
  rewrite (Z.eqb_sym 0), andb_true_r, orb_false_r. change (Z.lor 0 0 =? 0) with true. cbn [negb].
  rewrite kbind_get. cbv zeta. intros Hok.
  destruct (Z.eqb_spec arg2 PR_MCE_KILL_SET) as [->|Hset].
  - change (PR_MCE_KILL_SET =? PR_MCE_KILL_CLEAR) with false. cbn [andb].
    unfold Prctl.upd. rewrite kbind_modify. cbn iota.
    destruct (arg3 =? PR_MCE_KILL_EARLY), (arg3 =? PR_MCE_KILL_LATE), (arg3 =? PR_MCE_KILL_DEFAULT);
      by eexists.
  - destruct (arg2 =? PR_MCE_KILL_CLEAR); [|done]. cbn [andb orb] in *. rewrite Hok. by eexists.
Qed.
Lemma obeys_mce : obeys PR_MCE_KILL.
Proof.
  reduces_to (prctl_mce_kill (M := M) (W := W) arg2 arg3 arg4 arg5). unfold obeys.
  exists (mce_rule arg2 arg3 arg4 arg5 (core s)). destruct (none [arg4; arg5]) eqn:H45.
  - pose proof H45 as Hz. unfold none in Hz. cbn [forallb] in Hz.
    apply andb_true_iff in Hz as [E4%Z.eqb_eq [E5%Z.eqb_eq _]%andb_true_iff]. rewrite <-E4, <-E5 in *.
    destruct ((arg2 =? PR_MCE_KILL_SET) || (arg2 =? PR_MCE_KILL_CLEAR) && none [arg3]) eqn:Hok.
    + destruct (mce_flags_cases Hok) as (s' & Hrun & Hcore). eexists _, s'. split; [reflexivity|].
      split; [exact Hrun|]. unfold follows, mce_rule. cbn [r_guards refusal]. by rewrite Hok.
    + eexists _, s. split; [reflexivity|]. split; [|unfold follows, mce_rule; cbn [r_guards refusal]; by rewrite Hok].
      revert Hok. unfold prctl_mce_kill, none, nz. cbn [forallb]. rewrite (Z.eqb_sym 0), andb_true_r.
      change (Z.lor 0 0 =? 0) with true. cbn [negb]. rewrite kbind_get. cbv zeta.
      destruct (Z.eqb_spec arg2 PR_MCE_KILL_SET), (Z.eqb_spec arg2 PR_MCE_KILL_CLEAR); try done; try congruence.
      cbn [orb andb]. by intros ->.
  - eexists _, s. split; [reflexivity|]. unfold prctl_mce_kill. rewrite lor_none, H45. split; [reflexivity|].
    unfold follows, mce_rule. cbn [r_guards refusal]. by rewrite H45.
Qed.
Lemma mce_policy_value fl :
  (if nz (Z.land fl PF_MCE_PROCESS) then
     if nz (Z.land fl PF_MCE_EARLY) then PR_MCE_KILL_EARLY else PR_MCE_KILL_LATE
   else PR_MCE_KILL_DEFAULT) = mce_policy fl.
Proof. unfold mce_policy, PF_MCE_PROCESS, PF_MCE_EARLY. by rewrite !land_bit by done. Qed.
Lemma zero_args : nz arg2 || nz arg3 || nz arg4 || nz arg5 = negb (none [arg2; arg3; arg4; arg5]).
Proof.
  unfold nz, none. cbn [forallb]. rewrite !(Z.eqb_sym 0).
  by destruct (arg2 =? 0), (arg3 =? 0), (arg4 =? 0), (arg5 =? 0).
Qed.
Lemma obeys_mce_get : obeys PR_MCE_KILL_GET.
Proof.
  reduces_to (prctl_mce_kill_get (M := M) (W := W) arg2 arg3 arg4 arg5). unfold prctl_mce_kill_get.
  assert (Hn : nz (Z.lor (Z.lor (Z.lor arg2 arg3) arg4) arg5) = negb (none [arg2; arg3; arg4; arg5])).
  { rewrite lor_none. unfold none. cbn [forallb].
    pose proof (lor_none (Z.lor arg2 arg3) arg4) as H1. pose proof (lor_none arg2 arg3) as H2.
    unfold nz, none in H1, H2. cbn [forallb] in H1, H2. rewrite !andb_true_r, !(Z.eqb_sym 0) in *.
    destruct (Z.lor (Z.lor arg2 arg3) arg4 =? 0), (Z.lor arg2 arg3 =? 0), (arg2 =? 0), (arg3 =? 0),
      (arg4 =? 0), (arg5 =? 0); done. }
  rewrite Hn. unfold obeys. eexists.
  destruct (none [arg2; arg3; arg4; arg5]) eqn:Hz; cbn [negb]; rewrite ?kbind_get;
    eexists _, _; (split; [reflexivity|]);
    (split; [reflexivity|]); unfold follows; cbn [get_value r_guards refusal r_new r_report r_result];
    rewrite Hz, ?mce_policy_value; done.
Qed.
Lemma obeys_subreaper : obeys PR_SET_CHILD_SUBREAPER.
Proof. reduces_to (prctl_set_child_subreaper env arg2). unfold prctl_set_child_subreaper. obey_tac. Qed.
Lemma obeys_thp : obeys PR_SET_THP_DISABLE.
Proof.
  reduces_to (prctl_set_thp env arg2 arg3 arg4 arg5). unfold prctl_set_thp. obey_tac.
Qed.
Lemma mdwe_word b : nz (clear_bits b 1) = negb (one_of b [0; 1]) ∧ (one_of b [0; 1] = true → nz (Z.land b 1) = (b =? 1)).
Proof.
  unfold one_of. cbn [existsb]. rewrite orb_false_r. destruct (Z.eqb_spec b 0) as [->|H0]; [done|].
  destruct (Z.eqb_spec b 1) as [->|H1]; [done|]. split; [|done]. apply nz_true. intros Hc.
  destruct (Z.eq_dec (Z.land b 1) 0) as [Hl|Hl]; [|by apply H1, mdwe_bits].
  apply H0. unfold clear_bits in Hc. rewrite <-(Z.lor_ldiff_and b 1), Hl, Z.ldiff_land, Hc. done.
Qed.
Lemma obeys_mdwe : obeys PR_SET_MDWE.
Proof.
  reduces_to (prctl_set_mdwe (M := M) (W := W) arg2 arg3 arg4 arg5). unfold prctl_set_mdwe, PR_MDWE_REFUSE_EXEC_GAIN.
  destruct (mdwe_word arg2) as [-> Hw]. unfold obeys. eexists.
  unfold none, nz. cbn [forallb].
  destruct (arg3 =? 0) eqn:E3, (arg4 =? 0) eqn:E4, (arg5 =? 0) eqn:E5; cbn [negb orb];
    try (eexists _, _; (split; [reflexivity|]); (split; [reflexivity|]); unfold follows, none, PR_MDWE_REFUSE_EXEC_GAIN;
         cbn [set_to r_guards refusal forallb]; by rewrite !(Z.eqb_sym 0), ?E3, ?E4, ?E5).
  unfold nz in Hw. destruct (one_of arg2 [0; 1]) eqn:E2; cbn [negb].
  2: { eexists _, _; (split; [reflexivity|]); (split; [reflexivity|]); unfold follows, none, PR_MDWE_REFUSE_EXEC_GAIN;
         cbn [set_to r_guards refusal forallb]. by rewrite !(Z.eqb_sym 0), E3, E4, E5, E2. }
  rewrite kbind_get, (Hw eq_refl).
  assert (Hm : ∃ b, has_mdwe (core s) = b) by eauto.
  destruct (arg2 =? 1) eqn:E1, Hm as [[] Hm]; eexists _, _; (split; [reflexivity|]);
    (split; [rewrite ?Hm; reflexivity|]); unfold follows, none, PR_MDWE_REFUSE_EXEC_GAIN;
    cbn [set_to r_guards refusal forallb r_new r_report r_result];
    rewrite !(Z.eqb_sym 0), E3, E4, E5, E2, ?E1, ?Hm; cbn; try done.
  split; [|done]. destruct (core s). cbn in Hm. by rewrite Hm.
Qed.
Lemma obeys_io : obeys PR_SET_IO_FLUSHER.
Proof.
  reduces_to (prctl_set_io_flusher env arg2 arg3 arg4 arg5). unfold prctl_set_io_flusher.
  destruct (cap_sys_resource (mm_of env)) eqn:Hcap; obey_tac.
Qed.
Lemma obeys_get_io : obeys PR_GET_IO_FLUSHER.
Proof.
  reduces_to (prctl_get_io_flusher env arg2 arg3 arg4 arg5). unfold prctl_get_io_flusher, obeys. eexists.
  destruct (cap_sys_resource (mm_of env)) eqn:Hcap; cbn [negb].
  - destruct (nz arg2 || nz arg3 || nz arg4 || nz arg5) eqn:Hz; rewrite zero_args in Hz;
      eexists _, _; (split; [reflexivity|]); (split; [reflexivity|]); unfold follows;
      cbn [get_value r_guards refusal r_new r_report r_result]; rewrite Hcap;
      [apply negb_true_iff in Hz | apply negb_false_iff in Hz]; by rewrite Hz.
  - eexists _, s. split; [reflexivity|]. split; [reflexivity|]. unfold follows. cbn [get_value r_guards refusal].
    by rewrite Hcap.
Qed.
Lemma zero_getter_run opt v :
  switch opt = (if nz arg2 || nz arg3 || nz arg4 || nz arg5 then mret (M := kst (task_state M W)) (- EINVAL)
                else mret v) s →
  switch opt = Some (if nz arg2 || nz arg3 || nz arg4 || nz arg5 then - EINVAL else v, s).
Proof. intros ->. by destruct (nz arg2 || nz arg3 || nz arg4 || nz arg5). Qed.
Lemma obeys_zero_getter opt v :
  rule_of opt table = Some (get_value (core s) [(none [arg2; arg3; arg4; arg5], EINVAL)] v) →
  switch opt = Some (if nz arg2 || nz arg3 || nz arg4 || nz arg5 then - EINVAL else v, s) →
  obeys opt.
Proof.
  intros Hrule Hrun. eexists _, _, s. split; [exact Hrule|]. split; [exact Hrun|].
  unfold follows. cbn [get_value r_guards refusal r_new r_report r_result]. rewrite zero_args.
  by destruct (none [arg2; arg3; arg4; arg5]).
Qed.
Lemma obeys_getters :
  obeys PR_GET_DUMPABLE ∧ obeys PR_GET_TIMING ∧ obeys PR_GET_TIMERSLACK ∧ obeys PR_GET_NO_NEW_PRIVS ∧
  obeys PR_GET_THP_DISABLE ∧ obeys PR_GET_MDWE.
Proof.
  assert (Hget : ∀ opt v, rule_of opt table = Some (get_value (core s) [] v) → switch opt = Some (v, s) → obeys opt).
  { intros opt v Hrule Hrun. eexists _, _, s. split; [exact Hrule|]. split; [exact Hrun|]. by split. }
  split; [by eapply Hget|]. split; [by eapply Hget|]. split; [by eapply Hget|].
  split; [|split]; (eapply obeys_zero_getter; [reflexivity|]); try (apply zero_getter_run; reflexivity).
  change (prctl_get_mdwe (M := M) (W := W) arg2 arg3 arg4 arg5 s =
    Some (if nz arg2 || nz arg3 || nz arg4 || nz arg5 then - EINVAL else if has_mdwe (core s) then 1 else 0, s)).
  unfold prctl_get_mdwe. by destruct (nz arg2 || nz arg3 || nz arg4 || nz arg5).
Qed.
Lemma obeys_words : obeys PR_GET_PDEATHSIG ∧ obeys PR_GET_CHILD_SUBREAPER.
Proof.
  split; [destruct (word_follows (pdeath_signal (core s))) as (r & s' & Hr & Hf)
         |destruct (word_follows (if is_child_subreaper (core s) then 1 else 0)) as (r & s' & Hr & Hf)];
    eexists _, r, s'; (split; [reflexivity|]); (split; [exact Hr | exact Hf]).
Qed.

(** Every option that has a rule. *)
Lemma switch_obeys opt ru : 0 <= arg2 → rule_of opt table = Some ru → obeys opt.
Proof.
  intros H2 Hr. destruct obeys_getters as (?&?&?&?&?&?), obeys_words as [??].
  cbn [rule_of rules] in Hr.
  repeat match type of Hr with
    | (if opt =? ?o then _ else _) = _ =>
        destruct (Z.eqb_spec opt o) as [->|];
          [first [assumption | apply obeys_pdeath | apply obeys_dumpable | apply obeys_timing
                 | apply obeys_nnp | by apply obeys_slack | apply obeys_name | apply obeys_mce
                 | apply obeys_mce_get | apply obeys_subreaper | apply obeys_thp | apply obeys_mdwe
                 | apply obeys_io | apply obeys_get_io]|]
    end.
  done.
Qed.
End follow.

(** What [prctl] does for the calling task: a security module may answer the
    call; the options of the table follow their rule; the other options leave
    the task alone. *)
Definition prctl_spec env (opt arg2 arg3 arg4 arg5 : Z) s (r : Z) s' : Prop :=
  let '(error, w) := security_task_prctl env opt [arg2; arg3; arg4; arg5] (rest s) in
  if error =? - ENOSYS then
    match rule_of opt (rules env arg2 arg3 arg4 arg5
                         (strncpy_from_user env (mm_user (mm s)) arg2 15) (core s)) with
    | Some ru => follows ru arg2 s r s'
    | None => core s' = core s
    end
  else r = error ∧ s' = TaskState (core s) (mm s) (subreaped s) w.

(** C14. [prctl] always returns, and does to the calling task what the
    specification says, exactly: every setting of the task has a rule, whose
    guards decide, in their order, with which error the call is refused and the
    task kept, and which gives otherwise the new value of the one field, or the
    answer (as the result, or in a word of the program); an option without a rule
    does not touch the task, nor does a call that a security module answers.
    (What the options without a rule do elsewhere is the business of [PrctlMM]
    and of other parts of the kernel.) *)
Theorem prctl_refines env opt arg2 arg3 arg4 arg5 s :
  0 <= arg2 → 0 <= arg4 →
  ∃ r s', sys_prctl env opt arg2 arg3 arg4 arg5 s = Some (r, s') ∧
    prctl_spec env opt arg2 arg3 arg4 arg5 s r s'.
Proof.
  intros H2 H4. unfold sys_prctl, prctl_spec.
  destruct (security_task_prctl env opt [arg2; arg3; arg4; arg5] (rest s)) as [error w] eqn:Hsec.
  set (s1 := TaskState (core s) (mm s) (subreaped s) w).
  rewrite (kbind_some _ _ s error s1) by (unfold on_rest; by rewrite Hsec).
  destruct (error =? - ENOSYS); cbn [negb]; [|by eexists _, _].
  destruct (rule_of opt _) as [ru|] eqn:Hru.
  - destruct (switch_obeys env arg2 arg3 arg4 arg5 s1 opt ru H2 Hru) as (ru' & r & s' & Hru' & Hrun & Hf).
    exists r, s'. split; [done|]. unfold s1 in Hru'. cbn [mm core] in Hru'. rewrite Hru in Hru'.
    by injection Hru' as <-.
  - destruct (switch_moves env opt arg2 arg3 arg4 arg5 s1 H4) as (r & s' & Hrun & Hstep).
    exists r, s'. split; [done|]. change (core s1) with (core s) in Hstep.
    cbn [rule_of rules] in Hru.
    inversion Hstep; first [subst opt; discriminate Hru | congruence].
Qed.

(** What the rest of the kernel promises of the values it supplies. *)
Definition prctl_env_ok env : Prop :=
  (∀ name, length (set_task_comm env name) = TASK_COMM_LEN) ∧ in_u64 (default_timer_slack_ns env).

(** Any sequence of calls, in changing circumstances, the program and the
    kernel changing their own parts in between. *)
Inductive prctl_steps : task_state M W → task_state M W → Prop :=
  | prctl_none s : prctl_steps s s
  | prctl_call env opt arg2 arg3 arg4 arg5 s1 s2 r s3 :
      prctl_steps s1 s2 → prctl_env_ok env → in_u64 arg2 → in_u64 arg4 →
      sys_prctl env opt arg2 arg3 arg4 arg5 s2 = Some (r, s3) → prctl_steps s1 s3
  | prctl_others s1 s2 m sr w :
      prctl_steps s1 s2 → prctl_steps s1 (TaskState (core s2) m sr w).

Definition task_ok (t : task_core) : Prop :=
  0 <= pdeath_signal t <= NSIG ∧ 0 <= dumpable t <= 2 ∧ length (comm t) = TASK_COMM_LEN ∧
  in_u64 (timer_slack_ns t) ∧ in_u32 (pflags t).

Lemma core_step_ok env opt arg2 arg3 arg4 arg5 t r t' :
  prctl_env_ok env → in_u64 arg2 → core_step env opt arg2 arg3 arg4 arg5 t r t' →
  task_ok t → task_ok t' ∧ (no_new_privs t = true → no_new_privs t' = true) ∧
  (has_mdwe t = true → has_mdwe t' = true).
Proof.
  assert (Hbits : in_u32 PF_MCE_PROCESS ∧ in_u32 PF_MCE_EARLY ∧ in_u32 PR_IO_FLUSHER)
    by (by split_and!; apply (bool_decide_unpack _)).
  destruct Hbits as (Hb1 & Hb2 & Hb3). unfold task_ok, SUID_DUMP_DISABLE, SUID_DUMP_USER, NSIG.
  intros [Hc Hs] H2 Hstep (Hp & Hd & Hn & Ht & Hf).
  destruct Hstep; (split; [cbn|done]); split_and!; try done; try lia;
    auto using clear_u32, lor_u32;
    [red in H2; lia | unfold SUID_DUMP_DISABLE, SUID_DUMP_USER in *; lia.. |].
  by destruct (arg2 <=? 0).
Qed.

(** Through any sequence of calls the fields of the task keep their types
    (a signal number, a dumpable mode, a name of sixteen bytes, a 64-bit slack,
    32 flag bits), and the two promises a task can make, to gain no new
    privileges and to make no memory executable later, are never taken back. *)
Theorem prctl_invariant s s' :
  prctl_steps s s' → task_ok (core s) →
  task_ok (core s') ∧ (no_new_privs (core s) = true → no_new_privs (core s') = true) ∧
  (has_mdwe (core s) = true → has_mdwe (core s') = true).
Proof.
  intros Hsteps Hok. induction Hsteps as [s|env opt a2 a3 a4 a5 s1 s2 r s3 Hs IH He H2 H4 Hrun|s1 s2 m sr w Hs IH];
    [done | | by apply IH].
  destruct (IH Hok) as (Hok2 & Hn & Hm).
  destruct (prctl_run env opt a2 a3 a4 a5 s2 ltac:(apply H4)) as (r' & s3' & Hrun' & Hstep).
  rewrite Hrun in Hrun'. injection Hrun' as <- <-.
  destruct (core_step_ok env _ _ _ _ _ _ _ _ He H2 Hstep Hok2) as (Hok3 & Hn3 & Hm3). auto.
Qed.

(** C38. A call that fails leaves the task as it was, with one exception: the
    machine check policy is already marked as set when its value is refused. *)
Theorem prctl_error_keeps_task env opt arg2 arg3 arg4 arg5 s r s' :
  0 <= arg4 → sys_prctl env opt arg2 arg3 arg4 arg5 s = Some (r, s') → r ≠ 0 →
  core s' = core s ∨
  (opt = PR_MCE_KILL ∧ arg2 = PR_MCE_KILL_SET ∧ r = - EINVAL ∧
   core s' = set_flags (Z.lor (pflags (core s)) PF_MCE_PROCESS) (core s)).
Proof.
  intros H4 Hrun Hr. destruct (prctl_run env opt arg2 arg3 arg4 arg5 s H4) as (r' & s'' & Hrun' & Hstep).
  rewrite Hrun in Hrun'. injection Hrun' as <- <-.
  inversion Hstep; subst; try (by destruct (Hr eq_refl)); auto.
Qed.
End calls.

(** The getter a setter has, and the value it must then report. *)
Definition reads_back (opt arg2 arg3 : Z) : option (Z * Z) :=
  if opt =? PR_SET_DUMPABLE then Some (PR_GET_DUMPABLE, arg2)
  else if opt =? PR_SET_TIMERSLACK then
    if arg2 =? 0 then None else Some (PR_GET_TIMERSLACK, s64 arg2)
  else if opt =? PR_MCE_KILL then
    Some (PR_MCE_KILL_GET, if arg2 =? PR_MCE_KILL_SET then arg3 else PR_MCE_KILL_DEFAULT)
  else if opt =? PR_SET_NO_NEW_PRIVS then Some (PR_GET_NO_NEW_PRIVS, 1)
  else if opt =? PR_SET_THP_DISABLE then Some (PR_GET_THP_DISABLE, if arg2 =? 0 then 0 else 1)
  else if opt =? PR_SET_IO_FLUSHER then Some (PR_GET_IO_FLUSHER, arg2)
  else if (opt =? PR_SET_MDWE) && (arg2 =? 1) then Some (PR_GET_MDWE, 1)
  else None.

Section mce.
Context (fl : Z).
Lemma mce_bits p e :
  Z.testbit fl 7 = p → Z.testbit fl 27 = e →
  (if nz (Z.land fl PF_MCE_PROCESS) then
     if nz (Z.land fl PF_MCE_EARLY) then PR_MCE_KILL_EARLY else PR_MCE_KILL_LATE
   else PR_MCE_KILL_DEFAULT) =
  if p then if e then PR_MCE_KILL_EARLY else PR_MCE_KILL_LATE else PR_MCE_KILL_DEFAULT.
Proof. intros <- <-. unfold PF_MCE_PROCESS, PF_MCE_EARLY. by rewrite !land_bit by done. Qed.
End mce.

Lemma io_on_bits fl : Z.land (Z.lor fl PR_IO_FLUSHER) PR_IO_FLUSHER = PR_IO_FLUSHER.
Proof.
  apply Z.bits_inj'. intros i Hi. rewrite Z.land_spec, Z.lor_spec.
  by destruct (Z.testbit fl i), (Z.testbit PR_IO_FLUSHER i).
Qed.
Lemma io_off_bits fl : Z.land (clear_bits fl PR_IO_FLUSHER) PR_IO_FLUSHER = 0.
Proof.
  unfold clear_bits. rewrite <-Z.land_assoc, (Z.land_comm (Z.lnot _)), Z.land_lnot_diag.
  apply Z.land_0_r.
Qed.

Section round_trips.
Context {M W : Type} `{UserAccess M} (env : prctl_env M W).
(** The security modules leave the call to the switch, as they do for the
    options they do not know. *)
Context (Hquiet : ∀ opt args w, security_task_prctl env opt args w = (- ENOSYS, w)).
Implicit Types (s : task_state M W).

Lemma prctl_quiet opt arg2 arg3 arg4 arg5 s :
  sys_prctl env opt arg2 arg3 arg4 arg5 s = prctl_switch env opt arg2 arg3 arg4 arg5 s.
Proof using Hquiet.
  unfold sys_prctl. rewrite (kbind_some _ _ s (- ENOSYS) s); [done|].
  unfold on_rest. rewrite Hquiet. by destruct s.
Qed.

Definition mce_value (fl : Z) : Z :=
  if nz (Z.land fl PF_MCE_PROCESS) then
    if nz (Z.land fl PF_MCE_EARLY) then PR_MCE_KILL_EARLY else PR_MCE_KILL_LATE
  else PR_MCE_KILL_DEFAULT.

Lemma getters s :
  sys_prctl env PR_GET_DUMPABLE 0 0 0 0 s = Some (dumpable (core s), s) ∧
  sys_prctl env PR_GET_TIMERSLACK 0 0 0 0 s = Some (s64 (timer_slack_ns (core s)), s) ∧
  sys_prctl env PR_MCE_KILL_GET 0 0 0 0 s = Some (mce_value (pflags (core s)), s) ∧
  sys_prctl env PR_GET_NO_NEW_PRIVS 0 0 0 0 s = Some (if no_new_privs (core s) then 1 else 0, s) ∧
  sys_prctl env PR_GET_THP_DISABLE 0 0 0 0 s = Some (if thp_disabled (core s) then 1 else 0, s) ∧
  sys_prctl env PR_GET_MDWE 0 0 0 0 s = Some (if has_mdwe (core s) then 1 else 0, s) ∧
  (cap_sys_resource (mm_of env) = true → sys_prctl env PR_GET_IO_FLUSHER 0 0 0 0 s =
     Some (if Z.land (pflags (core s)) PR_IO_FLUSHER =? PR_IO_FLUSHER then 1 else 0, s)).
Proof using Hquiet.
  rewrite !prctl_quiet. split_and!; try reflexivity. intros Hcap.
  change (prctl_get_io_flusher env 0 0 0 0 s =
    Some (if Z.land (pflags (core s)) PR_IO_FLUSHER =? PR_IO_FLUSHER then 1 else 0, s)).
  unfold prctl_get_io_flusher. by rewrite Hcap.
Qed.

(** A successful machine check policy is the one that is then reported. *)
Lemma mce_kill_value arg2 arg3 arg4 arg5 s s' :
  prctl_mce_kill arg2 arg3 arg4 arg5 s = Some (0, s') →
  mce_value (pflags (core s')) = if arg2 =? PR_MCE_KILL_SET then arg3 else PR_MCE_KILL_DEFAULT.
Proof using.
  assert (Hb : ∀ fl P E, Z.testbit fl 7 = P → Z.testbit fl 27 = E → mce_value fl =
    if P then if E then PR_MCE_KILL_EARLY else PR_MCE_KILL_LATE else PR_MCE_KILL_DEFAULT)
    by (intros; by apply mce_bits).
  unfold prctl_mce_kill, upd. destruct (nz (Z.lor arg4 arg5)); [done|]. krun. cbv zeta.
  destruct (Z.eqb_spec arg2 PR_MCE_KILL_CLEAR) as [->|].
  { destruct (nz arg3); [done|]. krun. intros [= <-]. cbn [core pflags set_flags].
    erewrite Hb; [|rewrite clear_bits_spec by done; change (Z.testbit PF_MCE_PROCESS 7) with true;
      by rewrite andb_false_r | reflexivity]. done. }
  destruct (Z.eqb_spec arg2 PR_MCE_KILL_SET) as [->|]; [|done]. krun.
  set (fl := Z.lor (pflags (core s)) PF_MCE_PROCESS).
  assert (H7 : Z.testbit fl 7 = true) by (unfold fl; rewrite Z.lor_spec; apply orb_true_r).
  destruct (Z.eqb_spec arg3 PR_MCE_KILL_EARLY) as [->|].
  { krun. intros [= <-]. apply (Hb _ true true); cbn [core pflags set_flags]; rewrite Z.lor_spec;
      [by rewrite H7 | apply orb_true_r]. }
  destruct (Z.eqb_spec arg3 PR_MCE_KILL_LATE) as [->|].
  { krun. intros [= <-]. apply (Hb _ true false); cbn [core pflags set_flags];
      rewrite clear_bits_spec by done; [by rewrite H7 | apply andb_false_r]. }
  destruct (Z.eqb_spec arg3 PR_MCE_KILL_DEFAULT) as [->|]; [|done].
  krun. intros [= <-]. cbn [core pflags set_flags].
  erewrite Hb; [|rewrite clear_bits_spec by done; apply andb_false_r | reflexivity]. done.
Qed.

(** What the setters leave in the task when they succeed. *)
Section setters.
Context (arg2 arg3 arg4 arg5 : Z) (s s' : task_state M W).
Local Abbreviation sets opt := (sys_prctl env opt arg2 arg3 arg4 arg5 s = Some (0, s')).

Lemma dumpable_set : sets PR_SET_DUMPABLE → dumpable (core s') = arg2.
Proof using Hquiet.
  rewrite prctl_quiet.
  change (prctl_switch env PR_SET_DUMPABLE arg2 arg3 arg4 arg5 s) with
    ((if negb (arg2 =? SUID_DUMP_DISABLE) && negb (arg2 =? SUID_DUMP_USER) then mret (- EINVAL)
      else upd (set_dumpable arg2);; mret 0) s).
  destruct (_ && _); [done|]. by intros [= <-].
Qed.
Lemma slack_set : 0 < arg2 → sets PR_SET_TIMERSLACK → timer_slack_ns (core s') = arg2.
Proof using Hquiet.
  intros H2. rewrite prctl_quiet.
  change (prctl_switch env PR_SET_TIMERSLACK arg2 arg3 arg4 arg5 s) with
    (((if arg2 <=? 0 then upd (set_slack (default_timer_slack_ns env)) else upd (set_slack arg2));;
      mret 0) s).
  destruct (Z.leb_spec arg2 0); [lia|]. by intros [= <-].
Qed.
Lemma nnp_set : sets PR_SET_NO_NEW_PRIVS → no_new_privs (core s') = true.
Proof using Hquiet.
  rewrite prctl_quiet.
  change (prctl_switch env PR_SET_NO_NEW_PRIVS arg2 arg3 arg4 arg5 s) with
    ((if negb (arg2 =? 1) || nz arg3 || nz arg4 || nz arg5 then mret (- EINVAL)
      else upd (set_nnp true);; mret 0) s).
  destruct (_ || _); [done|]. by intros [= <-].
Qed.
Lemma thp_set : sets PR_SET_THP_DISABLE → thp_disabled (core s') = nz arg2.
Proof using Hquiet.
  rewrite prctl_quiet.
  change (prctl_set_thp env arg2 arg3 arg4 arg5 s = Some (0, s') → thp_disabled (core s') = nz arg2).
  unfold prctl_set_thp. destruct (_ || _); [done|].
  destruct (nz (mmap_write_lock_killable env)); [done|]. by intros [= <-].
Qed.
Lemma io_flusher_set : sets PR_SET_IO_FLUSHER → cap_sys_resource (mm_of env) = true ∧
  (if Z.land (pflags (core s')) PR_IO_FLUSHER =? PR_IO_FLUSHER then 1 else 0) = arg2.
Proof using Hquiet.
  rewrite prctl_quiet.
  change (prctl_set_io_flusher env arg2 arg3 arg4 arg5 s = Some (0, s') → cap_sys_resource (mm_of env) = true ∧
    (if Z.land (pflags (core s')) PR_IO_FLUSHER =? PR_IO_FLUSHER then 1 else 0) = arg2).
  unfold prctl_set_io_flusher. destruct (cap_sys_resource (mm_of env)); [|done]. cbn [negb].
  destruct (_ || _); [done|]. krun. cbv zeta.
  destruct (Z.eqb_spec arg2 1) as [->|]; [|destruct (Z.eqb_spec arg2 0) as [->|]; [|done]];
    intros [= <-]; (split; [done|]); cbn [core set_flags pflags];
    [by rewrite io_on_bits, Z.eqb_refl | by rewrite io_off_bits].
Qed.
Lemma mdwe_set : arg2 = 1 → sets PR_SET_MDWE → has_mdwe (core s') = true.
Proof using Hquiet.
  intros ->. rewrite prctl_quiet.
  change (prctl_set_mdwe 1 arg3 arg4 arg5 s = Some (0, s') → has_mdwe (core s') = true).
  unfold prctl_set_mdwe. destruct (_ || _); [done|]. by intros [= <-].
Qed.
End setters.

(** What a successful setter has set, the getter that belongs to it
    reports: the dumpable mode, the timer slack, the machine check policy, the
    no-new-privileges and huge-page settings, the flusher flag and the promise
    about executable memory. *)
Theorem prctl_set_get opt arg2 arg3 arg4 arg5 s s' getter value :
  reads_back opt arg2 arg3 = Some (getter, value) → 0 <= arg2 →
  sys_prctl env opt arg2 arg3 arg4 arg5 s = Some (0, s') →
  sys_prctl env getter 0 0 0 0 s' = Some (value, s').
Proof using Hquiet.
  destruct (getters s') as (Gd & Gt & Gm & Gn & Gh & Gw & Gi). unfold reads_back. intros Hr H2 Hrun.
  destruct (Z.eqb_spec opt PR_SET_DUMPABLE) as [->|].
  { injection Hr as <- <-. by rewrite Gd, (dumpable_set _ _ _ _ _ _ Hrun). }
  destruct (Z.eqb_spec opt PR_SET_TIMERSLACK) as [->|].
  { destruct (Z.eqb_spec arg2 0); [done|]. injection Hr as <- <-.
    by rewrite Gt, (slack_set arg2 _ _ _ _ _ ltac:(lia) Hrun). }
  destruct (Z.eqb_spec opt PR_MCE_KILL) as [->|].
  { injection Hr as <- <-. rewrite prctl_quiet in Hrun. by rewrite Gm, (mce_kill_value _ _ _ _ _ _ Hrun). }
  destruct (Z.eqb_spec opt PR_SET_NO_NEW_PRIVS) as [->|].
  { injection Hr as <- <-. by rewrite Gn, (nnp_set _ _ _ _ _ _ Hrun). }
  destruct (Z.eqb_spec opt PR_SET_THP_DISABLE) as [->|].
  { injection Hr as <- <-. rewrite Gh, (thp_set _ _ _ _ _ _ Hrun). unfold nz. by destruct (arg2 =? 0). }
  destruct (Z.eqb_spec opt PR_SET_IO_FLUSHER) as [->|].
  { injection Hr as <- <-. destruct (io_flusher_set _ _ _ _ _ _ Hrun) as [Hcap Hv].
    by rewrite (Gi Hcap), Hv. }
  destruct (Z.eqb_spec opt PR_SET_MDWE) as [->|], (Z.eqb_spec arg2 1); try done.
  injection Hr as <- <-. by rewrite Gw, (mdwe_set arg2 _ _ _ _ _ ltac:(done) Hrun).
Qed.

Lemma copy_out_run s dst bytes :
  (copy_to_user (mm_user (mm s)) dst bytes).1 = 0 →
  ∃ s', on_user (λ u, copy_to_user u dst bytes) s = Some (0, s') ∧
    mm_user (mm s') = (copy_to_user (mm_user (mm s)) dst bytes).2.
Proof using.
  intros Hc. unfold on_user, with_mm.
  destruct (copy_to_user (mm_user (mm s)) dst bytes) as [r u]. cbn in Hc. subst r. by eexists.
Qed.

(** A task name that was accepted comes back, cut to fifteen characters
    and padded to sixteen bytes; the setting fails only when the program's
    string cannot be read, and then keeps the name. *)
Theorem name_roundtrip src dst s :
  (∀ name, get_task_comm env (set_task_comm env name) =
     take 15 name ++ replicate (16 - length (take 15 name)) 0) →
  user_wr (mm_user (mm s)) dst 16 = true →
  let '(len, name) := strncpy_from_user env (mm_user (mm s)) src 15 in
  ∃ r s1, sys_prctl env PR_SET_NAME src 0 0 0 s = Some (r, s1) ∧
    if len <? 0 then r = - EFAULT ∧ s1 = s
    else r = 0 ∧ ∃ s2, sys_prctl env PR_GET_NAME dst 0 0 0 s1 = Some (0, s2) ∧
      uread_range (mm_user (mm s2)) dst 16 = Some (take 15 name ++ replicate (16 - length (take 15 name)) 0).
Proof using Hquiet.
  intros Hlaw Hwr. destruct (strncpy_from_user env (mm_user (mm s)) src 15) as [len name] eqn:Hcopy.
  rewrite prctl_quiet. change (prctl_switch env PR_SET_NAME src 0 0 0 s) with (prctl_set_name env src s).
  unfold prctl_set_name. krun. rewrite Hcopy. destruct (len <? 0); [by eexists _, _|].
  eexists _, _. split; [reflexivity|]. split; [done|]. rewrite prctl_quiet.
  match goal with |- context [prctl_switch env PR_GET_NAME dst 0 0 0 ?st] => set (s1 := st) end.
  change (prctl_switch env PR_GET_NAME dst 0 0 0 s1) with (prctl_get_name env dst s1).
  unfold prctl_get_name. krun. change (comm (core s1)) with (set_task_comm env name). rewrite Hlaw.
  set (bytes := take 15 name ++ _). assert (Hlen : length bytes = 16%nat).
  { unfold bytes. rewrite length_app, length_replicate, length_take. lia. }
  pose proof (copy_to_user_ok (mm_user (mm s)) dst bytes) as Hok. rewrite Hlen in Hok.
  pose proof (copy_to_user_range (mm_user (mm s)) dst bytes (proj2 Hok Hwr)) as Hr.
  destruct (copy_out_run s1 dst bytes (proj2 Hok Hwr)) as (s2 & Hrun & Hu).
  rewrite (kbind_some _ _ _ _ _ Hrun). exists s2. split; [done|].
  change (mm_user (mm s1)) with (mm_user (mm s)) in Hu. by rewrite Hu, <-Hlen.
Qed.
End round_trips.

(** The characters an anonymous mapping may have in its name. *)
Lemma name_ok_spec name :
  Forall (λ c, 0 <= c < 256) name →
  name_ok name = true ↔ Forall (λ c, 32 <= c <= 126 ∧ c ∉ INVALID_CHARS) name.
Proof.
  induction 1 as [|c name Hc Hname IH]; [done|]. cbn [name_ok]. rewrite Forall_cons, <-IH.
  assert (Hv : is_valid_name_char (if c <? 128 then c else c - 256) = true ↔
      32 <= c <= 126 ∧ c ∉ INVALID_CHARS).
  { unfold is_valid_name_char. rewrite !andb_true_iff, negb_true_iff, bool_decide_eq_false, !Z.ltb_lt.
    rewrite not_elem_of_app. destruct (Z.ltb_spec c 128).
    - split; [intros [[? ?] [? _]]; split; [lia|done] | intros [? ?]; split; [lia|split; [done|]]].
      rewrite list_elem_of_singleton. lia.
    - split; [lia|]. lia. }
  destruct (is_valid_name_char _); cbn [negb].
  - split; [tauto | by intros [_ ?]].
  - split; [done|]. intros [Hcc _]. by apply Hv in Hcc.
Qed.

(** [getcpu] stores both answers, or as many as it can before it reports the
    fault. *)
Lemma sys_getcpu_ok {M} `{UserAccess M} cpu_to_node cpu cpup nodep (m : M) :
  in_u32 cpu → cpup ≠ 0 → nodep ≠ 0 → cpup + 4 <= nodep ∨ nodep + 4 <= cpup →
  user_wr m cpup 4 = true → user_wr m nodep 4 = true →
  let '(r, m') := sys_getcpu cpu_to_node cpu cpup nodep m in
  r = 0 ∧ uread_u32 m' cpup = Some cpu ∧ uread_u32 m' nodep = Some (u32 (cpu_to_node cpu)).
Proof.
  intros Hcpu Hc Hn Hd Hw1 Hw2. unfold sys_getcpu. rewrite !(proj2 (nz_true _)) by done.
  destruct (put_user_u32 cpu cpup m) as [r1 m1] eqn:H1.
  apply put_user_u32_spec in H1 as (Hr1 & _ & Hv1 & Hwr & _).
  destruct (put_user_u32 (cpu_to_node cpu) nodep m1) as [r2 m2] eqn:H2.
  apply put_user_u32_spec in H2 as (Hr2 & _ & Hv2 & _ & Hfr). rewrite Hwr in Hr2.
  apply Hr1 in Hw1 as ->. apply Hr2 in Hw2 as ->. split; [done|].
  rewrite (Hfr cpup), (Hv1 eq_refl), u32_small by (done || lia). auto.
Qed.

(** ** Runs *)

Module PrctlRuns.

Definition pad (name : list Z) : list Z := take 15 name ++ replicate (16 - length (take 15 name)) 0.
Definition menv : mm_env :=
  mk_mm_env (2 ^ 47) 4096 24 (λ _ _ _ _, 0) true true true (λ _, None) (λ _, 0) (λ _, true).
Definition env : prctl_env (gmap Z Z) nat := {|
  mm_of := menv;
  security_task_prctl _ _ w := (- ENOSYS, w);
  external _ _ w := (0, S w);
  strncpy_from_user m p n :=
    match uread_range m p (Z.to_nat n) with
    | Some bs => (Z.of_nat (length (cstr bs)), cstr bs)
    | None => (- EFAULT, [])
    end;
  set_task_comm := pad;
  get_task_comm bs := bs;
  proc_comm_connector := S;
  strndup_user _ _ _ := inl (- EFAULT);
  anon_vma_name_alloc _ := true;
  madvise_set_anon_name _ _ _ w := (0, w);
  walk_process_tree visit has := (visit 7 has).2;
  is_child_reaper _ := false;
  mmap_write_lock_killable := 0;
  default_timer_slack_ns := 50000;
  clear_child_tid := 0;
  vm_merge_any _ := false;
  config_ksm := true;
  config_anon_vma_name := true;
|}.
Definition t0 : task_core := TaskCore 0 1 (pad []) 50000 0 false false false false.
Definition user : gmap Z Z :=
  (Paged.write (zero_page 4096 64) 4096 (bytes_of_string "worker")).2.
Definition s0 : task_state (gmap Z Z) nat :=
  TaskState t0 (mk_mm_state (mk_layout 0 0 0 0 0 0 0 0 0 0 0) (replicate 192 0) 5 0 ∅ user) ∅ 0%nat.

Definition result {A S} (p : option (A * S)) : option A := fst <$> p.
Definition after (p : option (Z * task_state (gmap Z Z) nat)) : task_state (gmap Z Z) nat :=
  match p with Some (_, s) => s | None => s0 end.

(** The state after a run is known once its result is. *)
Lemma run_after p r : result p = Some r → p = Some (r, after p).
Proof. destruct p as [[r' s]|]; [by intros [= ->] | done]. Qed.

(** A refused machine check policy changes the flags; asked for, it is then
    "late". *)
Example mce_refused_marks :
  result (sys_prctl env PR_MCE_KILL PR_MCE_KILL_SET 9 0 0 s0) = Some (- EINVAL) ∧
  result (sys_prctl env PR_MCE_KILL_GET 0 0 0 0 s0) = Some PR_MCE_KILL_DEFAULT ∧
  result (sys_prctl env PR_MCE_KILL_GET 0 0 0 0
    (after (sys_prctl env PR_MCE_KILL PR_MCE_KILL_SET 9 0 0 s0))) = Some PR_MCE_KILL_LATE.
Proof. by vm_compute. Qed.

Example unset_mdwe :
  result (sys_prctl env PR_SET_MDWE 0 0 0 0 (after (sys_prctl env PR_SET_MDWE 1 0 0 0 s0)))
    = Some (- EPERM) ∧
  result (sys_prctl env PR_GET_SECCOMP 0 0 0 0 s0) = Some 0 ∧
  result (sys_prctl env PR_SVE_GET_VL 0 0 0 0 s0) = Some (- EINVAL).
Proof. by vm_compute. Qed.

(** A kept promise, one that is refused, and one read back. *)
Lemma prctl_refines_witness :
  (∃ r s', sys_prctl env PR_SET_NO_NEW_PRIVS 1 0 0 0 s0 = Some (r, s') ∧ r = 0 ∧
     core s' = set_nnp true (core s0)) ∧
  (∃ r s', sys_prctl env PR_SET_PDEATHSIG 65 0 0 0 s0 = Some (r, s') ∧ r = - EINVAL ∧ core s' = core s0).
Proof.
  split.
  - destruct (prctl_refines env PR_SET_NO_NEW_PRIVS 1 0 0 0 s0) as (r & s' & Hrun & Hs); [lia..|].
    exists r, s'. split; [exact Hrun|]. cbn in Hs. destruct Hs as [Hc Hr]. split; [exact Hr | exact Hc].
  - destruct (prctl_refines env PR_SET_PDEATHSIG 65 0 0 0 s0) as (r & s' & Hrun & Hs); [lia..|].
    exists r, s'. split; [exact Hrun|]. cbn in Hs. exact Hs.
Defined.

Definition s1 := after (sys_prctl env PR_SET_NO_NEW_PRIVS 1 0 0 0 s0).
Lemma prctl_invariant_witness :
  task_ok (core s1) ∧ (no_new_privs (core s0) = true → no_new_privs (core s1) = true) ∧
  (has_mdwe (core s0) = true → has_mdwe (core s1) = true).
Proof.
  apply (prctl_invariant s0 s1).
  - apply (prctl_call env PR_SET_NO_NEW_PRIVS 1 0 0 0 s0 s0 0 s1); [constructor | | | | apply run_after; by vm_compute].
    + split; [|by apply (bool_decide_unpack _)]. intros name.
      unfold env, set_task_comm, pad. rewrite length_app, length_replicate, length_take.
      unfold TASK_COMM_LEN. lia.
    + by apply (bool_decide_unpack _).
    + by apply (bool_decide_unpack _).
  - split_and!; (lia || done || by apply (bool_decide_unpack _)).
Defined.

Definition s2 := after (sys_prctl env PR_MCE_KILL PR_MCE_KILL_SET 9 0 0 s0).
Lemma prctl_error_keeps_task_witness :
  core s2 = core s0 ∨
  (PR_MCE_KILL = PR_MCE_KILL ∧ PR_MCE_KILL_SET = PR_MCE_KILL_SET ∧ - EINVAL = - EINVAL ∧
   core s2 = set_flags (Z.lor (pflags (core s0)) PF_MCE_PROCESS) (core s0)).
Proof.
  apply (prctl_error_keeps_task env PR_MCE_KILL PR_MCE_KILL_SET 9 0 0 s0 (- EINVAL) s2);
    [lia | apply run_after; by vm_compute | done].
Defined.

Definition s3 := after (sys_prctl env PR_SET_IO_FLUSHER 1 0 0 0 s0).
Lemma prctl_set_get_witness : sys_prctl env PR_GET_IO_FLUSHER 0 0 0 0 s3 = Some (1, s3).
Proof.
  apply (prctl_set_get env (λ _ _ _, eq_refl) PR_SET_IO_FLUSHER 1 0 0 0 s0 s3 PR_GET_IO_FLUSHER 1);
    [done | lia | apply run_after; by vm_compute].
Defined.

Lemma name_roundtrip_witness :
  let '(len, name) := strncpy_from_user env (mm_user (mm s0)) 4096 15 in
  ∃ r s1, sys_prctl env PR_SET_NAME 4096 0 0 0 s0 = Some (r, s1) ∧
    if len <? 0 then r = - EFAULT ∧ s1 = s0
    else r = 0 ∧ ∃ s2, sys_prctl env PR_GET_NAME 4120 0 0 0 s1 = Some (0, s2) ∧
      uread_range (mm_user (mm s2)) 4120 16 = Some (take 15 name ++ replicate (16 - length (take 15 name)) 0).
Proof.
  apply (name_roundtrip env (λ _ _ _, eq_refl) 4096 4120 s0); [done | by vm_compute].
Defined.

End PrctlRuns.
