(* ===== verification/Vfs.v ===== *)
(** * Vfs: open files, inodes and the descriptor table

    The data that [fs/read_write.c] works on.  [struct file], [struct inode]
    and the descriptor table are declared in headers outside this repository;
    the records below have the fields the code reads and writes.  The file
    systems, the pages of the user program and the inodes they keep are one
    abstract world [W]: the class [VfsWorld] reads an inode out of it, and its
    user memory is the [UserAccess] of [W]. *)

From S2P Require Import Prelude UserMem.

(** ** Constants of [include/linux/fs.h] and [uapi/linux/fs.h] *)

Definition SEEK_SET : Z := 0.
Definition SEEK_CUR : Z := 1.
Definition SEEK_END : Z := 2.
Definition SEEK_DATA : Z := 3.
Definition SEEK_HOLE : Z := 4.
Definition SEEK_MAX : Z := SEEK_HOLE.

Definition OFFSET_MAX : Z := 2 ^ 63 - 1.
Definition MAX_NON_LFS : Z := 2 ^ 31 - 1.
(** [INT_MAX & PAGE_MASK] *)
Definition MAX_RW_COUNT : Z := 2 ^ 31 - PAGE_SIZE.

Definition FMODE_READ : Z := 0x1.
Definition FMODE_WRITE : Z := 0x2.
Definition FMODE_LSEEK : Z := 0x4.
Definition FMODE_PREAD : Z := 0x8.
Definition FMODE_PWRITE : Z := 0x10.
Definition FMODE_UNSIGNED_OFFSET : Z := 0x2000.
Definition FMODE_CAN_READ : Z := 0x20000.
Definition FMODE_CAN_WRITE : Z := 0x40000.
Definition FMODE_STREAM : Z := 0x200000.
Definition FMODE_BUF_WASYNC : Z := 0x80000000.

Definition O_APPEND : Z := 0x400.
Definition O_NONBLOCK : Z := 0x800.
Definition O_LARGEFILE : Z := 0x8000.

Definition S_IFMT : Z := 0xF000.
Definition S_ISDIR (m : Z) : bool := Z.land m S_IFMT =? 0x4000.
Definition S_ISREG (m : Z) : bool := Z.land m S_IFMT =? 0x8000.

(** ** Inodes and open files *)

(** [i_sb] is the identity of the superblock, [s_maxbytes] the limit it
    carries; [IS_SWAPFILE] and [IS_IMMUTABLE] are flags. *)
Record inode := Inode {
  i_mode : Z;
  i_size : Z;
  i_sb : Z;
  s_maxbytes : Z;
  IS_SWAPFILE : bool;
  IS_IMMUTABLE : bool;
}.

(** [f_op] is the address of the table of file operations, [f_mapping_host]
    the inode [f_mapping->host] and [file_inode] the inode of that name; they
    differ for a block device. *)
Record file := File {
  f_mode : Z;
  f_flags : Z;
  f_pos : Z;
  f_version : Z;
  f_op : Z;
  f_mapping_host : Z;
  file_inode : Z;
}.

#[export] Instance inode_eq_dec : EqDecision inode.
Proof. solve_decision. Defined.
#[export] Instance file_eq_dec : EqDecision file.
Proof. solve_decision. Defined.

Definition set_f_pos (p : Z) (f : file) : file :=
  File (f_mode f) (f_flags f) p (f_version f) (f_op f) (f_mapping_host f) (file_inode f).
Definition set_f_version (v : Z) (f : file) : file :=
  File (f_mode f) (f_flags f) (f_pos f) v (f_op f) (f_mapping_host f) (file_inode f).

(** A test of mode or flag bits. *)
Definition has (bits flag : Z) : bool := nz (Z.land bits flag).

(** Sizes a file system keeps: offsets of a [loff_t]. *)
Definition inode_wf (i : inode) : Prop :=
  0 ≤ i_size i ≤ OFFSET_MAX ∧ 0 ≤ s_maxbytes i ≤ OFFSET_MAX.
#[export] Instance inode_wf_dec i : Decision (inode_wf i).
Proof. unfold inode_wf. apply _. Defined.

(** The inodes of a world: what a file system keeps are sizes of at most the
    largest offset. *)
Class VfsWorld (W : Type) := {
  inode_at : W → Z → inode;
  inode_at_wf w i : inode_wf (inode_at w i);
}.
#[global] Hint Mode VfsWorld ! : typeclass_instances.

(** ** The state of a process that makes system calls on files

    The table of descriptors leads to open files: two descriptors may lead to
    the same one.  [ioac] is the accounting of the task ([task_io_accounting]),
    [rlim_fsize] its soft [RLIMIT_FSIZE], [signals] the signals sent to it,
    [events] the notifications ([fsnotify]) of its accesses, newest first, and
    [sb_write_depth] the number of [file_start_write] sections it is in. *)
Record task_io := TaskIO {
  rchar : Z;
  wchar : Z;
  syscr : Z;
  syscw : Z;
}.

Inductive fsevent := FsAccess (fid : Z) | FsModify (fid : Z).

Record vstate (W : Type) := VState {
  files : gmap Z file;
  fdtable : gmap Z Z;
  world : W;
  ioac : task_io;
  rlim_fsize : Z;
  signals : list Z;
  events : list fsevent;
  sb_write_depth : Z;
}.
Arguments VState {W}.
Arguments files {W}.
Arguments fdtable {W}.
Arguments world {W}.
Arguments ioac {W}.
Arguments rlim_fsize {W}.
Arguments signals {W}.
Arguments events {W}.
Arguments sb_write_depth {W}.

Section state.
Context {W : Type}.
Implicit Types (s : vstate W).

Definition set_files (g : gmap Z file → gmap Z file) s : vstate W :=
  VState (g (files s)) (fdtable s) (world s) (ioac s) (rlim_fsize s) (signals s)
    (events s) (sb_write_depth s).
Definition set_world (w : W) s : vstate W :=
  VState (files s) (fdtable s) w (ioac s) (rlim_fsize s) (signals s)
    (events s) (sb_write_depth s).
Definition set_ioac (g : task_io → task_io) s : vstate W :=
  VState (files s) (fdtable s) (world s) (g (ioac s)) (rlim_fsize s) (signals s)
    (events s) (sb_write_depth s).
Definition send_sig (sig : Z) s : vstate W :=
  VState (files s) (fdtable s) (world s) (ioac s) (rlim_fsize s) (sig :: signals s)
    (events s) (sb_write_depth s).
Definition notify (e : fsevent) s : vstate W :=
  VState (files s) (fdtable s) (world s) (ioac s) (rlim_fsize s) (signals s)
    (e :: events s) (sb_write_depth s).
Definition set_depth (d : Z) s : vstate W :=
  VState (files s) (fdtable s) (world s) (ioac s) (rlim_fsize s) (signals s)
    (events s) d.

Definition add_rchar (n : Z) : vstate W → vstate W :=
  set_ioac (λ io, TaskIO (u64 (rchar io + n)) (wchar io) (syscr io) (syscw io)).
Definition add_wchar (n : Z) : vstate W → vstate W :=
  set_ioac (λ io, TaskIO (rchar io) (u64 (wchar io + n)) (syscr io) (syscw io)).
Definition inc_syscr : vstate W → vstate W :=
  set_ioac (λ io, TaskIO (rchar io) (wchar io) (u64 (syscr io + 1)) (syscw io)).
Definition inc_syscw : vstate W → vstate W :=
  set_ioac (λ io, TaskIO (rchar io) (wchar io) (syscr io) (u64 (syscw io + 1))).

(** [fdget], [fdget_pos]: the open file of a descriptor with its identity.
    The argument is an [unsigned int], whatever the caller's type. *)
Definition fdget (fd : Z) s : option (Z * file) :=
  fid ← fdtable s !! u32 fd; f ← files s !! fid; Some (fid, f).

(** [f.file->f_pos = pos] *)
Definition store_f_pos (fid pos : Z) s : vstate W :=
  set_files (alter (set_f_pos pos) fid) s.

Lemma fdget_Some fd s fid f :
  fdget fd s = Some (fid, f) ↔ fdtable s !! u32 fd = Some fid ∧ files s !! fid = Some f.
Proof.
  unfold fdget. split.
  - intros (i & Hi & (g & Hg & [= -> ->])%bind_Some)%bind_Some. done.
  - intros [-> Hf]. cbn. by rewrite Hf.
Qed.

Lemma store_f_pos_lookup fid pos s f :
  files s !! fid = Some f → files (store_f_pos fid pos s) !! fid = Some (set_f_pos pos f).
Proof. intros Hf. cbn. by rewrite lookup_alter, decide_True, Hf. Qed.
Lemma store_f_pos_lookup_ne fid pos s i :
  i ≠ fid → files (store_f_pos fid pos s) !! i = files s !! i.
Proof. intros Hi. cbn. by rewrite lookup_alter_ne. Qed.
End state.

(** ** A small world

    Pages of user memory next to a table of inodes, with which the witnesses
    run; an entry with impossible sizes stands for an empty inode. *)
#[export] Instance pair_user {M B} `{HM : UserAccess M} : UserAccess (M * B).
Proof.
  refine {|
    uread m a := uread m.1 a;
    user_wr m p n := user_wr m.1 p n;
    user_rd m p n := user_rd m.1 p n;
    copy_to_user m p bs :=
      let '(r, m1) := copy_to_user m.1 p bs in (r, (m1, m.2));
    copy_from_user m p n := copy_from_user m.1 p n;
  |}.
  - intros m p bs. pose proof (copy_to_user_left m.1 p bs).
    by destruct (copy_to_user m.1 p bs).
  - intros m p bs i b. pose proof (copy_to_user_done m.1 p bs i b).
    by destruct (copy_to_user m.1 p bs).
  - intros m p bs a. pose proof (copy_to_user_frame m.1 p bs a).
    by destruct (copy_to_user m.1 p bs).
  - intros m p bs. pose proof (copy_to_user_ok m.1 p bs).
    by destruct (copy_to_user m.1 p bs).
  - intros m p bs q n. pose proof (copy_to_user_wr m.1 p bs q n).
    by destruct (copy_to_user m.1 p bs).
  - intros m p bs q n. pose proof (copy_to_user_rd m.1 p bs q n).
    by destruct (copy_to_user m.1 p bs).
  - intros. by apply copy_from_user_spec.
  - intros. by apply copy_from_user_bytes.
  - intros. by apply copy_from_user_length.
Defined.

Definition no_inode : inode := Inode 0 0 0 0 false false.

#[export] Instance table_world {M} : VfsWorld (M * gmap Z inode).
Proof.
  refine {|
    inode_at w i :=
      let n := default no_inode (w.2 !! i) in
      if decide (inode_wf n) then n else no_inode;
  |}.
  intros w i. cbn zeta. destruct (decide (inode_wf _)); [done|].
  split; vm_compute; split; intros [=].
Defined.
