(* ===== verification/Seek.v ===== *)
(** * Seek: the llseek family of [fs/read_write.c]

    [vfs_setpos], the generic implementations of the [llseek] method and the
    system calls [lseek] and [llseek].  Offsets are [loff_t]: sums wrap modulo
    [2^64], and the theorems show that the wrap is never visible.  A file
    system's own [llseek] method is the parameter [op_llseek]. *)

From S2P Require Import Prelude UserMem Vfs.

(** ** The implementations *)

Definition unsigned_offsets (f : file) : bool := has (f_mode f) FMODE_UNSIGNED_OFFSET.

(** The store of a new offset, which vfs_setpos and default_llseek share. *)
Definition move_pos (offset : Z) (f : file) : file :=
  if offset =? f_pos f then f else set_f_version 0 (set_f_pos offset f).

Definition vfs_setpos (f : file) (offset maxsize : Z) : Z * file :=
  if (offset <? 0) && negb (unsigned_offsets f) then (- EINVAL, f)
  else if maxsize <? offset then (- EINVAL, f)
  else (offset, move_pos offset f).

Definition generic_file_llseek_size (f : file) (offset whence maxsize eof : Z) : Z * file :=
  if whence =? SEEK_END then vfs_setpos f (s64 (offset + eof)) maxsize
  else if whence =? SEEK_CUR then
    if offset =? 0 then (f_pos f, f)
    else vfs_setpos f (s64 (f_pos f + offset)) maxsize
  else if whence =? SEEK_DATA then
    if u64 eof <=? u64 offset then (- ENXIO, f) else vfs_setpos f offset maxsize
  else if whence =? SEEK_HOLE then
    if u64 eof <=? u64 offset then (- ENXIO, f) else vfs_setpos f eof maxsize
  else vfs_setpos f offset maxsize.

Definition fixed_size_llseek (f : file) (offset whence size : Z) : Z * file :=
  if (whence =? SEEK_SET) || (whence =? SEEK_CUR) || (whence =? SEEK_END)
  then generic_file_llseek_size f offset whence size size
  else (- EINVAL, f).

Definition no_seek_end_llseek (f : file) (offset whence : Z) : Z * file :=
  if (whence =? SEEK_SET) || (whence =? SEEK_CUR)
  then generic_file_llseek_size f offset whence OFFSET_MAX 0
  else (- EINVAL, f).

Definition no_seek_end_llseek_size (f : file) (offset whence size : Z) : Z * file :=
  if (whence =? SEEK_SET) || (whence =? SEEK_CUR)
  then generic_file_llseek_size f offset whence size 0
  else (- EINVAL, f).

Definition noop_llseek (f : file) (offset whence : Z) : Z * file := (f_pos f, f).

Section world.
Context {W : Type} `{VfsWorld W}.
Implicit Types (w : W).

Definition generic_file_llseek w (f : file) (offset whence : Z) : Z * file :=
  let inode := inode_at w (f_mapping_host f) in
  generic_file_llseek_size f offset whence (s_maxbytes inode) (i_size inode).

(** The last part of default_llseek: the move to [offset]. *)
Definition default_setpos (f : file) (offset : Z) : Z * file :=
  if (0 <=? offset) || unsigned_offsets f then (offset, move_pos offset f)
  else (- EINVAL, f).

Definition default_llseek w (f : file) (offset whence : Z) : Z * file :=
  let inode := inode_at w (file_inode f) in
  if whence =? SEEK_END then default_setpos f (s64 (offset + i_size inode))
  else if whence =? SEEK_CUR then
    if offset =? 0 then (f_pos f, f)
    else default_setpos f (s64 (offset + f_pos f))
  else if whence =? SEEK_DATA then
    if i_size inode <=? offset then (- ENXIO, f) else default_setpos f offset
  else if whence =? SEEK_HOLE then
    if i_size inode <=? offset then (- ENXIO, f) else default_setpos f (i_size inode)
  else default_setpos f offset.
End world.

(** ** The system calls

    [op_llseek op] is the [llseek] method of the operation table at [op]. *)
Class SeekOps (W : Type) := {
  op_llseek : Z → W → file → Z → Z → Z * file;
}.
#[global] Hint Mode SeekOps ! : typeclass_instances.

Section syscalls.
Context {W : Type} `{UserAccess W, SeekOps W}.
Implicit Types (w : W) (s : vstate W).

Definition vfs_llseek w (f : file) (offset whence : Z) : Z * file :=
  if negb (has (f_mode f) FMODE_LSEEK) then (- ESPIPE, f)
  else op_llseek (f_op f) w f offset whence.

(** The result is an [off_t]: the test for a truncated result of the code
    compares it with the [loff_t]. *)
Definition ksys_lseek (fd offset whence : Z) s : Z * vstate W :=
  match fdget fd s with
  | None => (- EBADF, s)
  | Some (fid, f) =>
      if whence <=? SEEK_MAX then
        let '(res, f) := vfs_llseek (world s) f offset whence in
        let retval := s64 res in
        (if negb (res =? retval) then - EOVERFLOW else retval,
         set_files <[fid := f]> s)
      else (- EINVAL, s)
  end.

Definition sys_lseek (fd offset whence : Z) s : Z * vstate W := ksys_lseek fd offset whence s.

Definition sys_llseek (fd offset_high offset_low result whence : Z) s : Z * vstate W :=
  match fdget fd s with
  | None => (- EBADF, s)
  | Some (fid, f) =>
      if SEEK_MAX <? whence then (- EINVAL, s)
      else
        let '(offset, f) :=
          vfs_llseek (world s) f
            (s64 (Z.lor (s64 (Z.shiftl (s64 offset_high) 32)) offset_low)) whence in
        let s := set_files <[fid := f]> s in
        if 0 <=? offset then
          let '(rest, w) := copy_to_user (world s) result (bytes_of_u64 offset) in
          (if nz rest then - EFAULT else 0, set_world w s)
        else (s32 offset, s)
  end.
End syscalls.

(** ** Specification

    Where a seek leads, in unbounded integers: an error, or a goal that the
    file accepts when it lies in [0 .. maxsize]. *)
Definition seek_goal (pos size offset whence : Z) : eres Z :=
  if whence =? SEEK_END then mret (size + offset)
  else if whence =? SEEK_CUR then mret (pos + offset)
  else if (whence =? SEEK_DATA) || (whence =? SEEK_HOLE) then
    guard_or ((0 <=? offset) && (offset <? size)) ENXIO
      (mret (if whence =? SEEK_DATA then offset else size))
  else mret offset.

(** A query of the position is never refused. *)
Definition lseek_spec (f : file) (maxsize size offset whence : Z) : Z * file :=
  if (whence =? SEEK_CUR) && (offset =? 0) then (f_pos f, f)
  else match seek_goal (f_pos f) size offset whence with
  | inl e => (- e, f)
  | inr goal =>
      if (0 <=? goal) && (goal <=? maxsize) then (goal, move_pos goal f) else (- EINVAL, f)
  end.

(** ** Lemmas *)

Lemma s64_sum_cases a b :
  0 ≤ a ≤ OFFSET_MAX → in_s64 b →
  (s64 (a + b) = a + b ∧ a + b ≤ OFFSET_MAX) ∨ (s64 (a + b) < 0 ∧ OFFSET_MAX < a + b).
Proof. unfold OFFSET_MAX. wrap. Qed.

Lemma vfs_setpos_signed f offset maxsize :
  unsigned_offsets f = false →
  vfs_setpos f offset maxsize =
    if (0 <=? offset) && (offset <=? maxsize) then (offset, move_pos offset f)
    else (- EINVAL, f).
Proof.
  intros Hu. unfold vfs_setpos. rewrite Hu.
  destruct (Z.ltb_spec offset 0), (Z.leb_spec 0 offset), (Z.ltb_spec maxsize offset),
    (Z.leb_spec offset maxsize); cbn; try lia; done.
Qed.

(** The setting of a wrapped sum is the setting of the exact one. *)
Lemma vfs_setpos_sum f a b maxsize :
  unsigned_offsets f = false → 0 ≤ a ≤ OFFSET_MAX → in_s64 b → maxsize ≤ OFFSET_MAX →
  vfs_setpos f (s64 (a + b)) maxsize = vfs_setpos f (a + b) maxsize.
Proof.
  intros Hu Ha Hb Hmax. rewrite !vfs_setpos_signed by done.
  destruct (s64_sum_cases a b Ha Hb) as [[-> _]|[Hneg Hbig]]; [done|].
  destruct (Z.leb_spec 0 (s64 (a + b))), (Z.leb_spec (a + b) maxsize); try lia.
  by rewrite andb_false_r.
Qed.

(** The unsigned comparison tests both bounds of the range. *)
Lemma u64_cmp_eof offset size :
  in_s64 offset → 0 ≤ size ≤ OFFSET_MAX →
  (u64 size <=? u64 offset) = negb ((0 <=? offset) && (offset <? size)).
Proof.
  intros Ho Hs. unfold OFFSET_MAX in Hs.
  assert (Hsz : u64 size = size) by wrap. rewrite Hsz.
  assert (Hoff : u64 offset = if 0 <=? offset then offset else offset + 2 ^ 64).
  { destruct (Z.leb_spec 0 offset); wrap. }
  rewrite Hoff. unfold in_s64 in Ho.
  destruct (Z.leb_spec 0 offset), (Z.ltb_spec offset size); cbn;
    zcase; try done; lia.
Qed.

Lemma move_pos_pos offset f : f_pos (move_pos offset f) = offset.
Proof. unfold move_pos. by destruct (Z.eqb_spec offset (f_pos f)). Qed.
Lemma move_pos_mode offset f : f_mode (move_pos offset f) = f_mode f.
Proof. unfold move_pos. by destruct (Z.eqb_spec offset (f_pos f)). Qed.

(** An open file between two system calls: its position is a [loff_t], and
    not negative unless the file has unsigned offsets. *)
Definition file_wf (f : file) : Prop :=
  in_s64 (f_pos f) ∧ (unsigned_offsets f = false → 0 ≤ f_pos f).

Lemma move_pos_wf p f :
  in_s64 p → unsigned_offsets f = true ∨ 0 ≤ p → file_wf (move_pos p f).
Proof.
  intros Hp Hu. unfold file_wf, unsigned_offsets. rewrite move_pos_pos, move_pos_mode.
  split; [done|]. unfold unsigned_offsets in Hu. destruct Hu as [->|]; [done | lia].
Qed.

(** What every seek of this file does to an open file: it is left alone or
    moved to the result; a result that is not an error is the position
    afterwards, and an error leaves the file alone. *)
Definition seek_ok (f : file) (r : Z * file) : Prop :=
  file_wf f →
  in_s64 r.1 ∧ file_wf r.2 ∧
  (r.2 = f ∨ r.2 = move_pos r.1 f) ∧
  (0 ≤ r.1 → f_pos r.2 = r.1) ∧
  (unsigned_offsets f = false → r.1 < 0 → r.2 = f ∧ - MAX_ERRNO ≤ r.1).

Lemma seek_ok_error f e : - MAX_ERRNO ≤ e < 0 → seek_ok f (e, f).
Proof.
  unfold MAX_ERRNO. intros He Hwf. cbn. split; [wrap|]. split; [done|].
  split; [by left|]. split; [lia|]. intros _ _. split; [done | apply He].
Qed.
Lemma seek_ok_query f : seek_ok f (f_pos f, f).
Proof.
  intros Hwf. cbn. split; [apply Hwf|]. split; [done|]. split; [by left|].
  split; [done|]. intros Hu Hneg. apply Hwf in Hu. lia.
Qed.
Lemma seek_ok_move f p :
  in_s64 p → unsigned_offsets f = true ∨ 0 ≤ p → seek_ok f (p, move_pos p f).
Proof.
  intros Hp Hu Hwf. cbn. split; [done|]. split; [by apply move_pos_wf|].
  split; [by right|]. split; [intros _; apply move_pos_pos|].
  intros Hf Hneg. destruct Hu; [congruence | lia].
Qed.
#[local] Hint Resolve seek_ok_error seek_ok_query seek_ok_move s64_range : core.
#[local] Hint Extern 1 (- _ ≤ - _ < 0) => (split; vm_compute; [intros [=] | reflexivity]) : core.

Lemma vfs_setpos_ok f o m : in_s64 o → seek_ok f (vfs_setpos f o m).
Proof.
  intros Ho. unfold vfs_setpos.
  destruct (Z.ltb_spec o 0), (unsigned_offsets f) eqn:Hu, (m <? o); cbn; auto.
Qed.
#[local] Hint Resolve vfs_setpos_ok : core.
Lemma generic_size_ok f o wh m e :
  in_s64 o → in_s64 e → seek_ok f (generic_file_llseek_size f o wh m e).
Proof.
  intros Ho He. unfold generic_file_llseek_size.
  destruct (wh =? SEEK_END), (wh =? SEEK_CUR), (wh =? SEEK_DATA), (wh =? SEEK_HOLE),
    (o =? 0), (u64 e <=? u64 o); auto.
Qed.
#[local] Hint Resolve generic_size_ok : core.

(** [fixed_size_llseek], [no_seek_end_llseek] and its sized variant restrict
    the generic seek to the positions they know. *)
Lemma fixed_size_ok f o wh sz :
  in_s64 o → in_s64 sz → seek_ok f (fixed_size_llseek f o wh sz).
Proof. unfold fixed_size_llseek. destruct (_ || (wh =? SEEK_END)); auto. Qed.
Lemma no_seek_end_size_ok f o wh sz : in_s64 o → seek_ok f (no_seek_end_llseek_size f o wh sz).
Proof.
  intros Ho. unfold no_seek_end_llseek_size. destruct (_ || (wh =? SEEK_CUR)); auto.
  apply generic_size_ok; [done | wrap].
Qed.
Lemma no_seek_end_ok f o wh : in_s64 o → seek_ok f (no_seek_end_llseek f o wh).
Proof. apply (no_seek_end_size_ok f o wh OFFSET_MAX). Qed.
Lemma noop_ok f o wh : seek_ok f (noop_llseek f o wh).
Proof. apply seek_ok_query. Qed.

Section world_facts.
Context {W : Type} `{VfsWorld W}.
Implicit Types (w : W).

Lemma i_size_range w i : in_s64 (i_size (inode_at w i)).
Proof. destruct (inode_at_wf w i) as [Hsz _]. unfold OFFSET_MAX in Hsz. wrap. Qed.
#[local] Hint Resolve i_size_range : core.

Lemma generic_ok w f o wh : in_s64 o → seek_ok f (generic_file_llseek w f o wh).
Proof. intros Ho. unfold generic_file_llseek. auto. Qed.

Lemma default_setpos_ok f o : in_s64 o → seek_ok f (default_setpos f o).
Proof.
  intros Ho. unfold default_setpos.
  destruct (Z.leb_spec 0 o), (unsigned_offsets f) eqn:Hu; cbn; auto.
Qed.
#[local] Hint Resolve default_setpos_ok : core.
Lemma default_ok w f o wh : in_s64 o → seek_ok f (default_llseek w f o wh).
Proof.
  intros Ho. unfold default_llseek.
  destruct (wh =? SEEK_END), (wh =? SEEK_CUR), (wh =? SEEK_DATA), (wh =? SEEK_HOLE),
    (o =? 0), (i_size (inode_at w (file_inode f)) <=? o); auto.
Qed.

(** The fallback and the generic seek agree on a file whose limit is the
    largest offset, but for the error of a negative [SEEK_DATA] or
    [SEEK_HOLE] offset: the fallback compares signed numbers. *)
Lemma default_vs_generic w f o wh :
  unsigned_offsets f = false → 0 ≤ f_pos f ≤ OFFSET_MAX → in_s64 o →
  f_mapping_host f = file_inode f →
  s_maxbytes (inode_at w (file_inode f)) = OFFSET_MAX →
  default_llseek w f o wh =
    if ((wh =? SEEK_DATA) || (wh =? SEEK_HOLE)) && (o <? 0) then
      (if wh =? SEEK_DATA then - EINVAL
       else i_size (inode_at w (file_inode f)),
       if wh =? SEEK_DATA then f else move_pos (i_size (inode_at w (file_inode f))) f)
    else generic_file_llseek w f o wh.
Proof.
  intros Hu Hpos Ho Hino Hmax. destruct (inode_at_wf w (file_inode f)) as [Hsz _].
  unfold default_llseek, generic_file_llseek, generic_file_llseek_size.
  rewrite Hino, Hmax. set (sz := i_size _) in *.
  assert (Hset : ∀ t, t ≤ OFFSET_MAX → default_setpos f t = vfs_setpos f t OFFSET_MAX).
  { intros t Ht. rewrite vfs_setpos_signed by done. unfold default_setpos. rewrite Hu.
    destruct (Z.leb_spec 0 t), (Z.leb_spec t OFFSET_MAX); cbn; done || lia. }
  assert (Hs64 : ∀ t, s64 t ≤ OFFSET_MAX) by (intros t; unfold OFFSET_MAX; wrap).
  rewrite (u64_cmp_eof o sz Ho Hsz).
  assert (Hom : o ≤ OFFSET_MAX) by (unfold OFFSET_MAX; wrap).
  destruct (Z.eqb_spec wh SEEK_END) as [->|]; [cbn; by apply Hset|].
  destruct (Z.eqb_spec wh SEEK_CUR) as [->|].
  { cbn. destruct (o =? 0); [done|]. rewrite Z.add_comm. by apply Hset. }
  destruct (Z.eqb_spec wh SEEK_DATA) as [->|].
  { cbn. destruct (Z.ltb_spec o 0), (Z.leb_spec sz o), (Z.leb_spec 0 o), (Z.ltb_spec o sz);
      cbn; try lia; try done; [|by apply Hset].
    rewrite Hset, vfs_setpos_signed by done. destruct (Z.leb_spec 0 o); [lia | done]. }
  destruct (Z.eqb_spec wh SEEK_HOLE) as [->|]; [|cbn; by apply Hset].
  cbn. destruct (Z.ltb_spec o 0), (Z.leb_spec sz o), (Z.leb_spec 0 o), (Z.ltb_spec o sz);
    cbn; try lia; try done; [|apply Hset; lia].
  unfold default_setpos. destruct (Z.leb_spec 0 sz); [done | lia].
Qed.
End world_facts.

(** ** What the system calls rely on from a file system's method *)
Class SeekLaws (W : Type) `{SeekOps W} := {
  op_llseek_ok op (w : W) f o wh : in_s64 o → seek_ok f (op_llseek op w f o wh);
  op_llseek_query op (w : W) f : op_llseek op w f 0 SEEK_CUR = (f_pos f, f);
}.

(** The operation tables that use the implementations of this file: one
    address per implementation. *)
Definition repo_llseek {W} `{VfsWorld W} (op : Z) (w : W) (f : file) (o wh : Z) : Z * file :=
  if op =? 1 then default_llseek w f o wh
  else if op =? 2 then no_seek_end_llseek f o wh
  else if op =? 3 then noop_llseek f o wh
  else generic_file_llseek w f o wh.

#[export] Instance repo_seek_ops {W} `{VfsWorld W} : SeekOps W := {| op_llseek := repo_llseek |}.

#[export] Instance repo_seek_laws {W} `{VfsWorld W} : SeekLaws W.
Proof.
  split; intros; cbn; unfold repo_llseek.
  - destruct (op =? 1); [by apply default_ok|].
    destruct (op =? 2); [by apply no_seek_end_ok|].
    destruct (op =? 3); [by apply noop_ok | by apply generic_ok].
  - by destruct (op =? 1), (op =? 2), (op =? 3).
Qed.

(** ** Joining the halves of an offset *)
Lemma join_halves o :
  in_s64 o →
  s64 (Z.lor (s64 (Z.shiftl (s64 (u64 o / 2 ^ 32)) 32)) (u64 o mod 2 ^ 32)) = o.
Proof.
  intros Ho. set (hi := u64 o / 2 ^ 32). set (lo := u64 o mod 2 ^ 32).
  assert (Hlo : 0 ≤ lo < 2 ^ 32) by (apply Z.mod_pos_bound; lia).
  assert (Hhi : 0 ≤ hi < 2 ^ 32).
  { unfold hi. pose proof (u64_range o) as Hr. unfold in_u64 in Hr.
    change (2 ^ 64) with (2 ^ 32 * 2 ^ 32) in Hr.
    split; [apply Z.div_pos; lia | apply Z.div_lt_upper_bound; lia]. }
  assert (Hsplit : u64 o = 2 ^ 32 * hi + lo) by (apply Z.div_mod; lia).
  rewrite (s64_small hi) by wrap.
  assert (Hs : s64 (Z.shiftl hi 32) = Z.shiftl (s32 hi) 32).
  { rewrite !Z.shiftl_mul_pow2 by lia. clearbody hi lo. clear Hsplit. wrap. }
  rewrite Hs, lor_shift32 by done.
  rewrite <-(s64_small o) by done. rewrite <-(s64_u64 o), Hsplit.
  clearbody hi lo. clear Hs Hsplit Ho. wrap.
Qed.

(** ** Properties *)

Section properties.
Context {W : Type} `{HU : UserAccess W, HV : VfsWorld W}.
Implicit Types (w : W) (s : vstate W).

(** C26. The generic seek of regular files computes in wrapping 64-bit
    offsets what the specification says in unbounded integers: the goal of
    [SEEK_SET], [SEEK_CUR], [SEEK_END], [SEEK_DATA] or [SEEK_HOLE] becomes the
    position exactly when it lies between 0 and the limit of the file system,
    [SEEK_DATA] and [SEEK_HOLE] outside of the file are [-ENXIO], everything
    else is [-EINVAL] with the file untouched, and a query of the position is
    never refused. *)
Theorem generic_file_llseek_refines w f offset whence :
  unsigned_offsets f = false → 0 ≤ f_pos f ≤ OFFSET_MAX → in_s64 offset →
  generic_file_llseek w f offset whence =
    lseek_spec f (s_maxbytes (inode_at w (f_mapping_host f)))
      (i_size (inode_at w (f_mapping_host f))) offset whence.
Proof.
  intros Hu Hpos Ho. unfold generic_file_llseek, generic_file_llseek_size, lseek_spec, seek_goal.
  destruct (inode_at_wf w (f_mapping_host f)) as [Hsz Hmax].
  set (sz := i_size _) in *. set (mx := s_maxbytes _) in *.
  rewrite (u64_cmp_eof offset sz Ho Hsz).
  destruct (Z.eqb_spec whence SEEK_END) as [->|].
  { cbn. rewrite Z.add_comm, vfs_setpos_sum, vfs_setpos_signed by (done || lia). done. }
  destruct (Z.eqb_spec whence SEEK_CUR) as [->|].
  { cbn. destruct (offset =? 0); [done|].
    rewrite vfs_setpos_sum, vfs_setpos_signed by (done || lia). done. }
  destruct (Z.eqb_spec whence SEEK_DATA) as [->|].
  { cbn. unfold guard_or. destruct (_ && _); cbn; [by rewrite vfs_setpos_signed | done]. }
  destruct (Z.eqb_spec whence SEEK_HOLE) as [->|].
  { cbn. unfold guard_or.
    destruct ((0 <=? offset) && (offset <? sz)); cbn; [by rewrite vfs_setpos_signed | done]. }
  cbn. by rewrite vfs_setpos_signed.
Qed.
End properties.

Section syscall_properties.
Context {W : Type} `{HU : UserAccess W, HO : SeekOps W, HL : !SeekLaws W}.
Implicit Types (w : W) (s : vstate W).

Lemma vfs_llseek_ok w f o wh : in_s64 o → seek_ok f (vfs_llseek w f o wh).
Proof.
  intros Ho. unfold vfs_llseek. destruct (has _ _); cbn; [by apply op_llseek_ok|].
  apply seek_ok_error. unfold MAX_ERRNO, ESPIPE. lia.
Qed.

(** A run of lseek on an open descriptor. *)
Lemma ksys_lseek_open fd o wh s fid f :
  fdget fd s = Some (fid, f) → file_wf f → in_s64 o → wh ≤ SEEK_MAX →
  ksys_lseek fd o wh s =
    ((vfs_llseek (world s) f o wh).1,
     set_files <[fid := (vfs_llseek (world s) f o wh).2]> s).
Proof.
  intros Hfd Hwf Ho Hwh. unfold ksys_lseek. rewrite Hfd.
  destruct (Z.leb_spec wh SEEK_MAX); [|lia].
  destruct (vfs_llseek_ok (world s) f o wh Ho Hwf) as [Hr _].
  destruct (vfs_llseek _ _ _ _) as [res f']. cbn in *.
  by rewrite (s64_small res), Z.eqb_refl.
Qed.

Lemma move_pos_fmode p f : f_mode (move_pos p f) = f_mode f.
Proof. apply move_pos_mode. Qed.

Lemma insert_same_files fid f s :
  files s !! fid = Some f → set_files <[fid := f]> s = s.
Proof. intros Hf. destruct s. unfold set_files. cbn in *. by rewrite insert_id. Qed.

(** The inverse view: what a call that did not refuse found. *)
Lemma ksys_lseek_inv fd o wh s r s' :
  ksys_lseek fd o wh s = (r, s') → map_Forall (λ _ f, file_wf f) (files s) →
  in_s64 o → (r, s') = (r, s) ∧ r < 0 ∨
  ∃ fid f, fdget fd s = Some (fid, f) ∧ file_wf f ∧
    r = (vfs_llseek (world s) f o wh).1 ∧
    s' = set_files <[fid := (vfs_llseek (world s) f o wh).2]> s.
Proof.
  intros Hrun Hall Ho.
  destruct (fdget fd s) as [[fid f]|] eqn:Hfd;
    [|unfold ksys_lseek in Hrun; rewrite Hfd in Hrun; injection Hrun as <- <-; by left].
  assert (Hwf : file_wf f) by (apply fdget_Some in Hfd as [_ Hf]; by apply (Hall _ _ Hf)).
  destruct (Z.leb_spec wh SEEK_MAX) as [Hwh|Hwh].
  - right. rewrite (ksys_lseek_open fd o wh s fid f) in Hrun by done.
    injection Hrun as <- <-. by exists fid, f.
  - unfold ksys_lseek in Hrun. rewrite Hfd in Hrun.
    destruct (Z.leb_spec wh SEEK_MAX); [lia|]. injection Hrun as <- <-. by left.
Qed.

(** A position set through one descriptor is the position of every
    descriptor of the same open file: after an [lseek] that returned [r], a
    query through any of them returns [r]; other open files are as before,
    and a refused [lseek] changes nothing. *)
Theorem lseek_shared fd o wh s r s' :
  ksys_lseek fd o wh s = (r, s') → map_Forall (λ _ f, file_wf f) (files s) → in_s64 o →
  (0 ≤ r → ∀ fd', fdtable s !! u32 fd' = fdtable s !! u32 fd →
     ksys_lseek fd' 0 SEEK_CUR s' = (r, s')) ∧
  (∀ fid, fdtable s !! u32 fd ≠ Some fid → files s' !! fid = files s !! fid) ∧
  (r < 0 → map_Forall (λ _ f, unsigned_offsets f = false) (files s) → s' = s) ∧
  map_Forall (λ _ f, file_wf f) (files s').
Proof.
  intros Hrun Hall Ho.
  destruct (ksys_lseek_inv fd o wh s r s' Hrun Hall Ho)
    as [[[= ->] Hneg]|(fid & f & Hfd & Hwf & -> & ->)].
  { split; [lia|]. done. }
  pose proof (vfs_llseek_ok (world s) f o wh Ho Hwf) as (Hr & Hwf' & Hf' & Hpos & Herr).
  apply fdget_Some in Hfd as [Hfid Hf].
  assert (Hmode : f_mode (vfs_llseek (world s) f o wh).2 = f_mode f)
    by (destruct Hf' as [-> | ->]; [done | apply move_pos_mode]).
  split; [|split; [|split]].
  - intros Hr0 fd' Hsame. specialize (Hpos Hr0).
    rewrite (ksys_lseek_open fd' 0 SEEK_CUR _ fid (vfs_llseek (world s) f o wh).2);
      [|by apply fdget_Some; cbn; rewrite Hsame, lookup_insert_eq|done|wrap|unfold SEEK_MAX; done].
    assert (Hq : vfs_llseek (world s) (vfs_llseek (world s) f o wh).2 0 SEEK_CUR
                 = ((vfs_llseek (world s) f o wh).1, (vfs_llseek (world s) f o wh).2)).
    { unfold vfs_llseek at 1. rewrite Hmode.
      destruct (has (f_mode f) FMODE_LSEEK) eqn:Hl; cbn.
      - by rewrite op_llseek_query, Hpos.
      - unfold vfs_llseek in Hr0. rewrite Hl in Hr0. cbn in Hr0. unfold ESPIPE in Hr0. lia. }
    cbn [world set_files]. rewrite Hq. cbn. f_equal. apply insert_same_files.
    cbn. by rewrite lookup_insert_eq.
  - intros i Hi. cbn. rewrite lookup_insert_ne; [done | congruence].
  - intros Hneg Hu. destruct (Herr (Hu _ _ Hf) Hneg) as [-> _]. by apply insert_same_files.
  - cbn. by apply map_Forall_insert_2.
Qed.

(** C37. The wide seek of 32-bit programs, given the two halves of an offset,
    is the plain seek to that offset with the new position stored in user
    memory: the halves join to the offset, negative ones included, an error is
    passed on without a store, and the position moves even when the store
    faults. *)
Theorem llseek_is_lseek fd o result wh s fid f :
  fdget fd s = Some (fid, f) → file_wf f → unsigned_offsets f = false → in_s64 o →
  sys_llseek fd (u64 o / 2 ^ 32) (u64 o mod 2 ^ 32) result wh s =
    let '(r, s') := sys_lseek fd o wh s in
    if 0 <=? r then
      let '(rest, w) := copy_to_user (world s') result (bytes_of_u64 r) in
      (if nz rest then - EFAULT else 0, set_world w s')
    else (r, s').
Proof.
  intros Hfd Hwf Hu Ho. unfold sys_llseek, sys_lseek, ksys_lseek. rewrite Hfd.
  destruct (Z.ltb_spec SEEK_MAX wh), (Z.leb_spec wh SEEK_MAX); try lia; [done|].
  rewrite join_halves by done.
  pose proof (vfs_llseek_ok (world s) f o wh Ho Hwf) as (Hr & _ & _ & _ & Herr).
  destruct (vfs_llseek _ _ _ _) as [res f']. cbn in *.
  rewrite (s64_small res), Z.eqb_refl by done. cbn.
  destruct (Z.leb_spec 0 res) as [Hp|Hneg]; [done|].
  destruct (Herr Hu Hneg) as [_ Hmin]. unfold MAX_ERRNO in Hmin.
  f_equal. wrap.
Qed.
End syscall_properties.

(** ** Runs *)
Module SeekRuns.
Definition disk : Type := gmap Z Z * gmap Z inode.

(** A regular file of 1000 bytes behind descriptors 3 and 7 (a dup), a
    directory with the fallback seek behind 4. *)
Definition w0 : disk :=
  (zero_page 4096 16,
   {[ 50 := Inode 0x8000 1000 1 OFFSET_MAX false false;
      51 := Inode 0x4000 24 1 OFFSET_MAX false false ]}).
Definition mode : Z := Z.lor FMODE_READ (Z.lor FMODE_LSEEK FMODE_PREAD).
Definition s0 : vstate disk :=
  VState {[ 1 := File mode 0 40 5 0 50 50; 2 := File mode 0 0 0 1 51 51 ]}
    {[ 3 := 1; 7 := 1; 4 := 2 ]} w0 (TaskIO 0 0 0 0) (2 ^ 64 - 1) [] [] 0.

Example lseek_end : (sys_lseek 3 (-10) SEEK_END s0).1 = 990.
Proof. vm_compute. reflexivity. Qed.
Example lseek_back : (sys_lseek 3 (-50) SEEK_CUR s0).1 = - EINVAL.
Proof. vm_compute. reflexivity. Qed.
Example lseek_hole_negative_default :
  ((sys_lseek 4 (-1) SEEK_HOLE s0).1, (sys_lseek 3 (-1) SEEK_HOLE s0).1) = (24, - ENXIO).
Proof. vm_compute. reflexivity. Qed.

Lemma generic_file_llseek_refines_witness :
  generic_file_llseek w0 (File mode 0 40 5 0 50 50) (2 ^ 63 - 1) SEEK_CUR
    = (- EINVAL, File mode 0 40 5 0 50 50) ∧
  generic_file_llseek w0 (File mode 0 40 5 0 50 50) 7 SEEK_CUR
    = (47, File mode 0 47 0 0 50 50).
Proof.
  split.
  - rewrite (generic_file_llseek_refines w0 _ (2 ^ 63 - 1) SEEK_CUR);
      [vm_compute; reflexivity | reflexivity
      | apply (bool_decide_unpack _); by vm_compute
      | apply (bool_decide_unpack _); by vm_compute].
  - rewrite (generic_file_llseek_refines w0 _ 7 SEEK_CUR);
      [vm_compute; reflexivity | reflexivity
      | apply (bool_decide_unpack _); by vm_compute
      | apply (bool_decide_unpack _); by vm_compute].
Defined.

Lemma seek_s0_wf : map_Forall (λ _ f, file_wf f) (files s0).
Proof.
  intros i f Hf. cbn in Hf.
  apply lookup_insert_Some in Hf as [[_ <-]|[_ [_ <-]%lookup_singleton_Some]];
    (split; [|intros _]); apply (bool_decide_unpack _); by vm_compute.
Qed.

Lemma llseek_is_lseek_witness :
  sys_llseek 3 (u64 (-10) / 2 ^ 32) (u64 (-10) mod 2 ^ 32) 4096 SEEK_END s0 =
    let '(r, s') := sys_lseek 3 (-10) SEEK_END s0 in
    if 0 <=? r then
      let '(rest, w) := copy_to_user (world s') 4096 (bytes_of_u64 r) in
      (if nz rest then - EFAULT else 0, set_world w s')
    else (r, s').
Proof.
  apply (llseek_is_lseek 3 (-10) 4096 SEEK_END s0 1 (File mode 0 40 5 0 50 50));
    [reflexivity | | reflexivity | by apply (bool_decide_unpack _)].
  apply (seek_s0_wf 1). reflexivity.
Defined.

Lemma lseek_shared_witness :
  let s1 := (ksys_lseek 3 (-10) SEEK_END s0).2 in ksys_lseek 7 0 SEEK_CUR s1 = (990, s1).
Proof.
  refine (proj1 (lseek_shared 3 (-10) SEEK_END s0 990 _ _ seek_s0_wf _) _ 7 _).
  - vm_compute. reflexivity.
  - apply (bool_decide_unpack _). by vm_compute.
  - lia.
  - reflexivity.
Defined.
End SeekRuns.
