(* ===== verification/ReadWrite.v ===== *)
(** * ReadWrite: the read and write paths of [fs/read_write.c]

    From [rw_verify_area] to the system calls [read], [write], [pread64],
    [pwrite64], [readv], [writev], [preadv], [pwritev] and their variants.
    The methods of a file system, the security hook and the [iov_iter] library
    are not code of this repository: they are the classes [FileOps] and
    [IovIter].  The system calls thread the state of [Vfs] with [kst]; a
    [BUG_ON] that fires is an oops. *)

From S2P Require Import Prelude UserMem Vfs Seek.

Definition READ : Z := 0.
Definition WRITE : Z := 1.
Definition MAY_WRITE : Z := 2.
Definition MAY_READ : Z := 4.
Definition EIOCBQUEUED : Z := 529.
Definition RWF_HIPRI : Z := 1.

(** ** The parameters *)

(** Iterators over user or kernel memory: [iter_len] is the rest of the
    current segment, [iter_segs] the number of segments not yet passed. *)
Class IovIter (I : Type) := {
  iov_iter_ubuf : Z → Z → I;
  iov_iter_kvec : Z → Z → I;
  iov_iter_count : I → Z;
  iter_iov_addr : I → Z;
  iter_iov_len : I → Z;
  iov_iter_advance : I → Z → I;
  iov_iter_truncate : I → Z → I;
  iter_segs : I → nat;

  iov_iter_ubuf_count b n : 0 ≤ n → iov_iter_count (iov_iter_ubuf b n) = n;
  iter_iov_len_range i : 0 ≤ iov_iter_count i → 0 ≤ iter_iov_len i ≤ iov_iter_count i;
  iov_iter_advance_count i n :
    0 ≤ n ≤ iov_iter_count i → iov_iter_count (iov_iter_advance i n) = iov_iter_count i - n;
  iov_iter_advance_segs i :
    0 < iov_iter_count i →
    (iter_segs (iov_iter_advance i (iter_iov_len i)) < iter_segs i)%nat;
  iov_iter_truncate_count i n :
    0 ≤ n → iov_iter_count (iov_iter_truncate i n) = Z.min n (iov_iter_count i);
}.
#[global] Hint Mode IovIter ! : typeclass_instances.

(** The kernel I/O control block of a synchronous request. *)
Record kiocb := Kiocb { ki_pos : Z; ki_flags : Z }.

(** What a method of a file system gets to see and may change: the world, and of
    the task its accounting, its signals (a write beyond the limit sends one) and
    the notifications.  The table of descriptors, the positions of the open
    files, the limit and the write sections of the caller are not its business. *)
Record outer (W : Type) := Outer {
  o_world : W;
  o_ioac : task_io;
  o_signals : list Z;
  o_events : list fsevent;
}.
Arguments Outer {W}.
Arguments o_world {W}.
Arguments o_ioac {W}.
Arguments o_signals {W}.
Arguments o_events {W}.
Definition outer_of {W} (s : vstate W) : outer W := Outer (world s) (ioac s) (signals s) (events s).
Definition set_outer {W} (o : outer W) (s : vstate W) : vstate W :=
  VState (files s) (fdtable s) (o_world o) (o_ioac o) (rlim_fsize s) (o_signals o) (o_events o)
    (sb_write_depth s).

(** [op_read] and the like are the methods of the operation table at an
    address, [None] for a method that is not wired up.  A method gives its
    result, the position it leaves and what it leaves of the rest. *)
Class FileOps (W I : Type) := {
  op_read : Z → option (file → Z → Z → option Z → outer W → Z * option Z * outer W);
  op_write : Z → option (file → Z → Z → option Z → outer W → Z * option Z * outer W);
  op_read_iter : Z → option (file → kiocb → I → outer W → Z * Z * I * outer W);
  op_write_iter : Z → option (file → kiocb → I → outer W → Z * Z * I * outer W);
  iocb_flags : file → Z;
  kiocb_set_rw_flags : kiocb → Z → Z * kiocb;
  security_file_permission : W → file → Z → Z;
  access_ok : Z → Z → bool;
  import_iovec : Z → W → Z → Z → Z + I;
}.

Section paths.
Context {W I : Type} `{HI : IovIter I, HF : !FileOps W I}.
Implicit Types (w : W) (i : I) (f : file) (s : vstate W).

(** ** Verification of the range *)

Definition rw_verify_area (read_write : Z) w f (ppos : option Z) (count : Z) : Z :=
  if s64 count <? 0 then - EINVAL
  else
    let range :=
      match ppos with
      | None => 0
      | Some pos =>
          if pos <? 0 then
            if negb (unsigned_offsets f) then - EINVAL
            else if u64 (- pos) <=? count then - EOVERFLOW else 0
          else if s64 (pos + count) <? 0 then
            if negb (unsigned_offsets f) then - EINVAL else 0
          else 0
      end in
    if nz range then range
    else security_file_permission w f
           (if read_write =? READ then MAY_READ else MAY_WRITE).

(** ** Calls of the methods *)

Definition init_sync_kiocb f : kiocb := Kiocb 0 (iocb_flags f).
Definition with_pos (k : kiocb) (ppos : option Z) : kiocb :=
  Kiocb (default 0 ppos) (ki_flags k).

(** [filp->f_op->read_iter(kio, iter)] and [write_iter]: an unwired method is
    a jump to the null address. *)
Definition call_iter (m : option (file → kiocb → I → outer W → Z * Z * I * outer W)) f (k : kiocb) i
    : kst (vstate W) (Z * Z * I) := λ s,
  match m with
  | None => None
  | Some op => let '(ret, pos, i, o) := op f k i (outer_of s) in Some ((ret, pos, i), set_outer o s)
  end.
Definition call_read_iter f := call_iter (op_read_iter (f_op f)) f.
Definition call_write_iter f := call_iter (op_write_iter (f_op f)) f.

Definition call_plain (m : option (file → Z → Z → option Z → outer W → Z * option Z * outer W))
    f (buf len : Z) (ppos : option Z) : kst (vstate W) (Z * option Z) := λ s,
  match m with
  | None => None
  | Some op => let '(ret, ppos, o) := op f buf len ppos (outer_of s) in Some ((ret, ppos), set_outer o s)
  end.

(** [if (ppos) *ppos = pos] *)
Definition set_pos (ppos : option Z) (pos : Z) : option Z := (λ _, pos) <$> ppos.

Definition BUG_ON {S} (b : bool) : kst S unit := if b then koops else mret tt.

Definition new_sync_read f (buf len : Z) (ppos : option Z) : kst (vstate W) (Z * option Z) :=
  let kiocb := with_pos (init_sync_kiocb f) ppos in
  r ← call_read_iter f kiocb (iov_iter_ubuf buf len);
  let '(ret, pos, _) := r in
  _ ← BUG_ON (ret =? - EIOCBQUEUED);
  mret (ret, set_pos ppos pos).

Definition new_sync_write f (buf len : Z) (ppos : option Z) : kst (vstate W) (Z * option Z) :=
  let kiocb := with_pos (init_sync_kiocb f) ppos in
  r ← call_write_iter f kiocb (iov_iter_ubuf buf len);
  let '(ret, pos, _) := r in
  _ ← BUG_ON (ret =? - EIOCBQUEUED);
  mret (ret, if (0 <? ret) then set_pos ppos pos else ppos).

Definition warn_unsupported f : Z := - EINVAL.

(** The end of a transfer: notification and accounting. *)
Definition end_read (fid ret : Z) : kst (vstate W) unit :=
  _ ← (if 0 <? ret then
         _ ← kmodify (notify (FsAccess fid));
         kmodify (add_rchar ret)
       else mret tt);
  kmodify inc_syscr.
Definition end_write (fid ret : Z) : kst (vstate W) unit :=
  _ ← (if 0 <? ret then
         _ ← kmodify (notify (FsModify fid));
         kmodify (add_wchar ret)
       else mret tt);
  kmodify inc_syscw.

Definition file_start_write : kst (vstate W) unit :=
  kmodify (λ s, set_depth (sb_write_depth s + 1) s).
Definition file_end_write : kst (vstate W) unit :=
  kmodify (λ s, set_depth (sb_write_depth s - 1) s).

(** ** Reads and writes on behalf of the kernel *)

Definition __kernel_read (fid : Z) f (buf count : Z) (ppos : option Z)
    : kst (vstate W) (Z * option Z) :=
  if negb (has (f_mode f) FMODE_READ) then mret (- EINVAL, ppos)
  else if negb (has (f_mode f) FMODE_CAN_READ) then mret (- EINVAL, ppos)
  else match op_read_iter (f_op f), op_read (f_op f) with
  | Some _, None =>
      let kiocb := with_pos (init_sync_kiocb f) ppos in
      r ← call_read_iter f kiocb (iov_iter_kvec buf (Z.min count MAX_RW_COUNT));
      let '(ret, pos, _) := r in
      _ ← end_read fid ret;
      mret (ret, if 0 <? ret then set_pos ppos pos else ppos)
  | _, _ => mret (warn_unsupported f, ppos)
  end.

Definition kernel_read (fid : Z) f (buf count : Z) (ppos : option Z)
    : kst (vstate W) (Z * option Z) :=
  s ← kget;
  let ret := rw_verify_area READ (world s) f ppos count in
  if nz ret then mret (ret, ppos) else __kernel_read fid f buf count ppos.

Definition __kernel_write_iter (fid : Z) f (from : I) (ppos : option Z)
    : kst (vstate W) (Z * option Z) :=
  if negb (has (f_mode f) FMODE_WRITE) then mret (- EBADF, ppos)
  else if negb (has (f_mode f) FMODE_CAN_WRITE) then mret (- EINVAL, ppos)
  else match op_write_iter (f_op f), op_write (f_op f) with
  | Some _, None =>
      let kiocb := with_pos (init_sync_kiocb f) ppos in
      r ← call_write_iter f kiocb from;
      let '(ret, pos, _) := r in
      _ ← end_write fid ret;
      mret (ret, if 0 <? ret then set_pos ppos pos else ppos)
  | _, _ => mret (warn_unsupported f, ppos)
  end.

Definition __kernel_write (fid : Z) f (buf count : Z) (ppos : option Z)
    : kst (vstate W) (Z * option Z) :=
  __kernel_write_iter fid f (iov_iter_kvec buf (Z.min count MAX_RW_COUNT)) ppos.

Definition kernel_write (fid : Z) f (buf count : Z) (ppos : option Z)
    : kst (vstate W) (Z * option Z) :=
  s ← kget;
  let ret := rw_verify_area WRITE (world s) f ppos count in
  if nz ret then mret (ret, ppos)
  else
    _ ← file_start_write;
    r ← __kernel_write fid f buf count ppos;
    _ ← file_end_write;
    mret r.

(** ** Reads and writes of user buffers *)

Definition vfs_read (fid : Z) f (buf count : Z) (ppos : option Z)
    : kst (vstate W) (Z * option Z) :=
  if negb (has (f_mode f) FMODE_READ) then mret (- EBADF, ppos)
  else if negb (has (f_mode f) FMODE_CAN_READ) then mret (- EINVAL, ppos)
  else if negb (access_ok buf count) then mret (- EFAULT, ppos)
  else
    s ← kget;
    let ret := rw_verify_area READ (world s) f ppos count in
    if nz ret then mret (ret, ppos)
    else
      let count := if MAX_RW_COUNT <? count then MAX_RW_COUNT else count in
      r ← match op_read (f_op f), op_read_iter (f_op f) with
          | Some op, _ => call_plain (Some op) f buf count ppos
          | None, Some _ => new_sync_read f buf count ppos
          | None, None => mret (- EINVAL, ppos)
          end;
      _ ← end_read fid r.1;
      mret r.

Definition vfs_write (fid : Z) f (buf count : Z) (ppos : option Z)
    : kst (vstate W) (Z * option Z) :=
  if negb (has (f_mode f) FMODE_WRITE) then mret (- EBADF, ppos)
  else if negb (has (f_mode f) FMODE_CAN_WRITE) then mret (- EINVAL, ppos)
  else if negb (access_ok buf count) then mret (- EFAULT, ppos)
  else
    s ← kget;
    let ret := rw_verify_area WRITE (world s) f ppos count in
    if nz ret then mret (ret, ppos)
    else
      let count := if MAX_RW_COUNT <? count then MAX_RW_COUNT else count in
      _ ← file_start_write;
      r ← match op_write (f_op f), op_write_iter (f_op f) with
          | Some op, _ => call_plain (Some op) f buf count ppos
          | None, Some _ => new_sync_write f buf count ppos
          | None, None => mret (- EINVAL, ppos)
          end;
      _ ← end_write fid r.1;
      _ ← file_end_write;
      mret r.

(** [file_ppos]: no position for a stream. *)
Definition file_ppos f : option Z :=
  if has (f_mode f) FMODE_STREAM then None else Some (f_pos f).

(** [if (ret >= 0 && ppos) f.file->f_pos = pos], with [ppos] and [pos] as the
    transfer left them. *)
Definition commit_pos (fid : Z) f (r : Z * option Z) : kst (vstate W) unit :=
  match file_ppos f, r.2 with
  | Some _, Some pos => if 0 <=? r.1 then kmodify (store_f_pos fid pos) else mret tt
  | _, _ => mret tt
  end.

Definition ksys_read (fd buf count : Z) : kst (vstate W) Z :=
  s ← kget;
  match fdget fd s with
  | None => mret (- EBADF)
  | Some (fid, f) =>
      r ← vfs_read fid f buf count (file_ppos f);
      _ ← commit_pos fid f r;
      mret r.1
  end.

Definition ksys_write (fd buf count : Z) : kst (vstate W) Z :=
  s ← kget;
  match fdget fd s with
  | None => mret (- EBADF)
  | Some (fid, f) =>
      r ← vfs_write fid f buf count (file_ppos f);
      _ ← commit_pos fid f r;
      mret r.1
  end.

Definition ksys_pread64 (fd buf count pos : Z) : kst (vstate W) Z :=
  if pos <? 0 then mret (- EINVAL)
  else
    s ← kget;
    match fdget fd s with
    | None => mret (- EBADF)
    | Some (fid, f) =>
        if has (f_mode f) FMODE_PREAD then
          r ← vfs_read fid f buf count (Some pos); mret r.1
        else mret (- ESPIPE)
    end.

Definition ksys_pwrite64 (fd buf count pos : Z) : kst (vstate W) Z :=
  if pos <? 0 then mret (- EINVAL)
  else
    s ← kget;
    match fdget fd s with
    | None => mret (- EBADF)
    | Some (fid, f) =>
        if has (f_mode f) FMODE_PWRITE then
          r ← vfs_write fid f buf count (Some pos); mret r.1
        else mret (- ESPIPE)
    end.

(** ** Vectors of buffers *)

Definition do_iter_readv_writev f i (ppos : option Z) (type flags : Z)
    : kst (vstate W) (Z * option Z * I) :=
  let '(ret, kiocb) := kiocb_set_rw_flags (init_sync_kiocb f) flags in
  if nz ret then mret (ret, ppos, i)
  else
    r ← (if type =? READ then call_read_iter f (with_pos kiocb ppos) i
         else call_write_iter f (with_pos kiocb ppos) i);
    let '(ret, pos, i) := r in
    _ ← BUG_ON (ret =? - EIOCBQUEUED);
    mret (ret, set_pos ppos pos, i).

(** The loop by hand, one method call per segment; [ret] is what the calls so
    far transferred.  The fuel bounds the number of segments. *)
Fixpoint readv_writev_loop (fuel : nat) f (type : Z) i (ppos : option Z) (ret : Z)
    : kst (vstate W) (Z * option Z * I) :=
  if nz (iov_iter_count i) then
    match fuel with
    | O => koops
    | S fuel =>
        let m := if type =? READ then op_read (f_op f)
                 else op_write (f_op f) in
        r ← call_plain m f (iter_iov_addr i) (iter_iov_len i) ppos;
        let '(nr, ppos) := r in
        if nr <? 0 then mret (if nz ret then ret else nr, ppos, i)
        else if negb (nr =? iter_iov_len i) then mret (s64 (ret + nr), ppos, i)
        else readv_writev_loop fuel f type (iov_iter_advance i nr) ppos (s64 (ret + nr))
    end
  else mret (ret, ppos, i).

Definition do_loop_readv_writev f i (ppos : option Z) (type flags : Z)
    : kst (vstate W) (Z * option Z * I) :=
  if nz (Z.land flags (Z.lnot RWF_HIPRI)) then mret (- EOPNOTSUPP, ppos, i)
  else readv_writev_loop (iter_segs i) f type i ppos 0.

Definition notify_if (b : bool) (e : fsevent) : kst (vstate W) unit :=
  if b then kmodify (notify e) else mret tt.

Definition do_iter_read (fid : Z) f i (ppos : option Z) (flags : Z)
    : kst (vstate W) (Z * option Z * I) :=
  if negb (has (f_mode f) FMODE_READ) then mret (- EBADF, ppos, i)
  else if negb (has (f_mode f) FMODE_CAN_READ) then mret (- EINVAL, ppos, i)
  else if negb (nz (iov_iter_count i)) then
    _ ← notify_if true (FsAccess fid); mret (0, ppos, i)
  else
    s ← kget;
    let ret := rw_verify_area READ (world s) f ppos (iov_iter_count i) in
    if ret <? 0 then mret (ret, ppos, i)
    else
      r ← match op_read_iter (f_op f) with
          | Some _ => do_iter_readv_writev f i ppos READ flags
          | None => do_loop_readv_writev f i ppos READ flags
          end;
      _ ← notify_if (0 <=? r.1.1) (FsAccess fid);
      mret r.

Definition do_iter_write (fid : Z) f i (ppos : option Z) (flags : Z)
    : kst (vstate W) (Z * option Z * I) :=
  if negb (has (f_mode f) FMODE_WRITE) then mret (- EBADF, ppos, i)
  else if negb (has (f_mode f) FMODE_CAN_WRITE) then mret (- EINVAL, ppos, i)
  else if negb (nz (iov_iter_count i)) then mret (0, ppos, i)
  else
    s ← kget;
    let ret := rw_verify_area WRITE (world s) f ppos (iov_iter_count i) in
    if ret <? 0 then mret (ret, ppos, i)
    else
      r ← match op_write_iter (f_op f) with
          | Some _ => do_iter_readv_writev f i ppos WRITE flags
          | None => do_loop_readv_writev f i ppos WRITE flags
          end;
      _ ← notify_if (0 <? r.1.1) (FsModify fid);
      mret r.

(** Requests that come with a control block of their own. *)
Definition vfs_iocb_iter_read (fid : Z) f (k : kiocb) i : kst (vstate W) (Z * Z * I) :=
  match op_read_iter (f_op f) with
  | None => mret (- EINVAL, ki_pos k, i)
  | Some _ =>
      if negb (has (f_mode f) FMODE_READ) then mret (- EBADF, ki_pos k, i)
      else if negb (has (f_mode f) FMODE_CAN_READ) then mret (- EINVAL, ki_pos k, i)
      else if negb (nz (iov_iter_count i)) then
        _ ← notify_if true (FsAccess fid); mret (0, ki_pos k, i)
      else
        s ← kget;
        let ret := rw_verify_area READ (world s) f (Some (ki_pos k)) (iov_iter_count i) in
        if ret <? 0 then mret (ret, ki_pos k, i)
        else
          r ← call_read_iter f k i;
          _ ← notify_if (0 <=? r.1.1) (FsAccess fid);
          mret r
  end.

Definition vfs_iocb_iter_write (fid : Z) f (k : kiocb) i : kst (vstate W) (Z * Z * I) :=
  match op_write_iter (f_op f) with
  | None => mret (- EINVAL, ki_pos k, i)
  | Some _ =>
      if negb (has (f_mode f) FMODE_WRITE) then mret (- EBADF, ki_pos k, i)
      else if negb (has (f_mode f) FMODE_CAN_WRITE) then mret (- EINVAL, ki_pos k, i)
      else if negb (nz (iov_iter_count i)) then mret (0, ki_pos k, i)
      else
        s ← kget;
        let ret := rw_verify_area WRITE (world s) f (Some (ki_pos k)) (iov_iter_count i) in
        if ret <? 0 then mret (ret, ki_pos k, i)
        else
          r ← call_write_iter f k i;
          _ ← notify_if (0 <? r.1.1) (FsModify fid);
          mret r
  end.

Definition vfs_iter_read (fid : Z) f i (ppos : option Z) (flags : Z)
    : kst (vstate W) (Z * option Z * I) :=
  match op_read_iter (f_op f) with
  | None => mret (- EINVAL, ppos, i)
  | Some _ => do_iter_read fid f i ppos flags
  end.

Definition vfs_iter_write (fid : Z) f i (ppos : option Z) (flags : Z)
    : kst (vstate W) (Z * option Z * I) :=
  match op_write_iter (f_op f) with
  | None => mret (- EINVAL, ppos, i)
  | Some _ => do_iter_write fid f i ppos flags
  end.

Definition vfs_readv (fid : Z) f (vec vlen : Z) (ppos : option Z) (flags : Z)
    : kst (vstate W) (Z * option Z) :=
  s ← kget;
  match import_iovec READ (world s) vec vlen with
  | inl ret => mret (ret, ppos)
  | inr i => r ← do_iter_read fid f i ppos flags; mret r.1
  end.

Definition vfs_writev (fid : Z) f (vec vlen : Z) (ppos : option Z) (flags : Z)
    : kst (vstate W) (Z * option Z) :=
  s ← kget;
  match import_iovec WRITE (world s) vec vlen with
  | inl ret => mret (ret, ppos)
  | inr i =>
      _ ← file_start_write;
      r ← do_iter_write fid f i ppos flags;
      _ ← file_end_write;
      mret r.1
  end.

(** The accounting of the vector calls: done also when the call failed. *)
Definition account_read (ret : Z) : kst (vstate W) unit :=
  _ ← (if 0 <? ret then kmodify (add_rchar ret) else mret tt);
  kmodify inc_syscr.
Definition account_write (ret : Z) : kst (vstate W) unit :=
  _ ← (if 0 <? ret then kmodify (add_wchar ret) else mret tt);
  kmodify inc_syscw.

Definition do_readv (fd vec vlen flags : Z) : kst (vstate W) Z :=
  s ← kget;
  ret ← match fdget fd s with
        | None => mret (- EBADF)
        | Some (fid, f) =>
            r ← vfs_readv fid f vec vlen (file_ppos f) flags;
            _ ← commit_pos fid f r;
            mret r.1
        end;
  _ ← account_read ret;
  mret ret.

Definition do_writev (fd vec vlen flags : Z) : kst (vstate W) Z :=
  s ← kget;
  ret ← match fdget fd s with
        | None => mret (- EBADF)
        | Some (fid, f) =>
            r ← vfs_writev fid f vec vlen (file_ppos f) flags;
            _ ← commit_pos fid f r;
            mret r.1
        end;
  _ ← account_write ret;
  mret ret.

Definition BITS_PER_LONG : Z := 64.
Definition HALF_LONG_BITS : Z := BITS_PER_LONG / 2.

(** Two shifts by half a word, so that the shift count is legal. *)
Definition pos_from_hilo (high low : Z) : Z :=
  s64 (Z.lor (s64 (Z.shiftl (s64 (Z.shiftl (s64 high) HALF_LONG_BITS)) HALF_LONG_BITS)) low).

Definition do_preadv (fd vec vlen pos flags : Z) : kst (vstate W) Z :=
  if pos <? 0 then mret (- EINVAL)
  else
    s ← kget;
    ret ← match fdget fd s with
          | None => mret (- EBADF)
          | Some (fid, f) =>
              if has (f_mode f) FMODE_PREAD then
                r ← vfs_readv fid f vec vlen (Some pos) flags; mret r.1
              else mret (- ESPIPE)
          end;
    _ ← account_read ret;
    mret ret.

Definition do_pwritev (fd vec vlen pos flags : Z) : kst (vstate W) Z :=
  if pos <? 0 then mret (- EINVAL)
  else
    s ← kget;
    ret ← match fdget fd s with
          | None => mret (- EBADF)
          | Some (fid, f) =>
              if has (f_mode f) FMODE_PWRITE then
                r ← vfs_writev fid f vec vlen (Some pos) flags; mret r.1
              else mret (- ESPIPE)
          end;
    _ ← account_write ret;
    mret ret.

(** ** The system calls *)

Definition sys_read (fd buf count : Z) : kst (vstate W) Z := ksys_read fd buf count.
Definition sys_write (fd buf count : Z) : kst (vstate W) Z := ksys_write fd buf count.
Definition sys_pread64 (fd buf count pos : Z) : kst (vstate W) Z := ksys_pread64 fd buf count pos.
Definition sys_pwrite64 (fd buf count pos : Z) : kst (vstate W) Z := ksys_pwrite64 fd buf count pos.
Definition sys_readv (fd vec vlen : Z) : kst (vstate W) Z := do_readv fd vec vlen 0.
Definition sys_writev (fd vec vlen : Z) : kst (vstate W) Z := do_writev fd vec vlen 0.
Definition sys_preadv (fd vec vlen pos_l pos_h : Z) : kst (vstate W) Z :=
  do_preadv fd vec vlen (pos_from_hilo pos_h pos_l) 0.
Definition sys_pwritev (fd vec vlen pos_l pos_h : Z) : kst (vstate W) Z :=
  do_pwritev fd vec vlen (pos_from_hilo pos_h pos_l) 0.

(** Position -1 stands for the position of the file. *)
Definition sys_preadv2 (fd vec vlen pos_l pos_h flags : Z) : kst (vstate W) Z :=
  let pos := pos_from_hilo pos_h pos_l in
  if pos =? -1 then do_readv fd vec vlen flags else do_preadv fd vec vlen pos flags.
Definition sys_pwritev2 (fd vec vlen pos_l pos_h flags : Z) : kst (vstate W) Z :=
  let pos := pos_from_hilo pos_h pos_l in
  if pos =? -1 then do_writev fd vec vlen flags else do_pwritev fd vec vlen pos flags.

(** The 32-bit entry points join two 32-bit halves ([u32] arguments). *)
Definition compat_pos (pos_high pos_low : Z) : Z :=
  s64 (Z.lor (s64 (Z.shiftl pos_high 32)) pos_low).
(** [pread64] and [pwrite64] of 32-bit programs: the position comes in two
    arguments, glued together by a macro of the headers. *)
Definition compat_pread64 (fd buf count pos : Z) : kst (vstate W) Z := ksys_pread64 fd buf count pos.
Definition compat_pwrite64 (fd buf count pos : Z) : kst (vstate W) Z := ksys_pwrite64 fd buf count pos.
Definition compat_preadv (fd vec vlen pos_low pos_high : Z) : kst (vstate W) Z :=
  do_preadv fd vec vlen (compat_pos pos_high pos_low) 0.
Definition compat_pwritev (fd vec vlen pos_low pos_high : Z) : kst (vstate W) Z :=
  do_pwritev fd vec vlen (compat_pos pos_high pos_low) 0.
Definition compat_preadv2 (fd vec vlen pos_low pos_high flags : Z) : kst (vstate W) Z :=
  let pos := compat_pos pos_high pos_low in
  if pos =? -1 then do_readv fd vec vlen flags else do_preadv fd vec vlen pos flags.
Definition compat_pwritev2 (fd vec vlen pos_low pos_high flags : Z) : kst (vstate W) Z :=
  let pos := compat_pos pos_high pos_low in
  if pos =? -1 then do_writev fd vec vlen flags else do_pwritev fd vec vlen pos flags.
Definition compat_preadv64 (fd vec vlen pos : Z) : kst (vstate W) Z := do_preadv fd vec vlen pos 0.
Definition compat_pwritev64 (fd vec vlen pos : Z) : kst (vstate W) Z := do_pwritev fd vec vlen pos 0.
Definition compat_preadv64v2 (fd vec vlen pos flags : Z) : kst (vstate W) Z :=
  if pos =? -1 then do_readv fd vec vlen flags else do_preadv fd vec vlen pos flags.
Definition compat_pwritev64v2 (fd vec vlen pos flags : Z) : kst (vstate W) Z :=
  if pos =? -1 then do_writev fd vec vlen flags else do_pwritev fd vec vlen pos flags.
End paths.

(** ** What the paths rely on from a file system

    A position is acceptable for a file when it is an offset the file may
    have.  A method leaves an acceptable position, transfers at most what it
    was asked for, and completes a synchronous request before it returns (this is
    what the [BUG_ON]s of the code check, so that they do not fire); the
    security hook answers 0 or an error; [import_iovec] cuts the vector at
    [MAX_RW_COUNT] bytes. *)
Definition pos_ok (f : file) (ppos : option Z) : Prop :=
  match ppos with Some pos => file_wf (set_f_pos pos f) | None => True end.

Class FileLaws (W I : Type) `{HI : IovIter I, HF : !FileOps W I} := {
  plain_law (op : Z) m :
    op_read (W := W) (I := I) op = Some m ∨ op_write (W := W) (I := I) op = Some m →
    ∀ f buf len ppos (w : outer W), 0 ≤ len → pos_ok f ppos →
      pos_ok f (m f buf len ppos w).1.2 ∧ (ppos = None → (m f buf len ppos w).1.2 = None) ∧
      (m f buf len ppos w).1.1 ≤ len;
  iter_law (op : Z) m :
    op_read_iter (W := W) (I := I) op = Some m ∨ op_write_iter (W := W) (I := I) op = Some m →
    ∀ f k i (w : outer W), 0 ≤ iov_iter_count i → pos_ok f (Some (ki_pos k)) →
      pos_ok f (Some (m f k i w).1.1.2) ∧ (m f k i w).1.1.1 ≠ - EIOCBQUEUED ∧
      (m f k i w).1.1.1 ≤ iov_iter_count i;
  rw_flags_law k flags : (kiocb_set_rw_flags (W := W) (I := I) k flags).1 ≤ 0;
  security_law (w : W) f mask : security_file_permission (I := I) w f mask ≤ 0;
  import_law rw (w : W) vec vlen :
    match import_iovec (I := I) rw w vec vlen with
    | inl e => e < 0
    | inr i => 0 ≤ iov_iter_count i ≤ MAX_RW_COUNT
    end;
}.

(** ** A small logic for the transfers

    [effect d] says what a piece of a system call leaves alone: the table of
    descriptors, the open files and the limit; [d] is the change of the
    write-protection depth.  [safe d P m]: [m] returns from every
    state, with effect [d] and a result in [P]. *)
Section logic.
Context {W : Type}.
Implicit Types (s : vstate W).

Definition effect (d : Z) s s' : Prop :=
  files s' = files s ∧ fdtable s' = fdtable s ∧ rlim_fsize s' = rlim_fsize s ∧
  sb_write_depth s' = sb_write_depth s + d.

Definition safe {A} (d : Z) (P : A → Prop) (m : kst (vstate W) A) : Prop :=
  ∀ s, ∃ a s', m s = Some (a, s') ∧ effect d s s' ∧ P a.

Lemma effect_refl s : effect 0 s s.
Proof. repeat split; lia. Qed.
Lemma effect_trans d e s1 s2 s3 : effect d s1 s2 → effect e s2 s3 → effect (d + e) s1 s3.
Proof.
  intros (A1 & A2 & A3 & A4) (B1 & B2 & B3 & B4).
  repeat split; try congruence. lia.
Qed.

Lemma safe_ret {A} (P : A → Prop) a : P a → safe 0 P (mret a).
Proof. intros Ha s. exists a, s. auto using effect_refl. Qed.
Lemma safe_bind {A B} d e (P : A → Prop) (Q : B → Prop) (m : kst (vstate W) A) g :
  safe d P m → (∀ a, P a → safe e Q (g a)) → safe (d + e) Q (m ≫= g).
Proof.
  intros Hm Hg s. destruct (Hm s) as (a & s1 & Hs1 & He1 & Ha).
  destruct (Hg a Ha s1) as (b & s2 & Hs2 & He2 & Hb).
  exists b, s2. rewrite (kbind_some _ _ _ _ _ Hs1). eauto using effect_trans.
Qed.
(** The common case of no net change of the depth. *)
Lemma safe_bind0 {A B} (P : A → Prop) (Q : B → Prop) (m : kst (vstate W) A) g :
  safe 0 P m → (∀ a, P a → safe 0 Q (g a)) → safe 0 Q (m ≫= g).
Proof. apply (safe_bind 0 0). Qed.
Lemma safe_weaken {A} d (P Q : A → Prop) m : safe d P m → (∀ a, P a → Q a) → safe d Q m.
Proof.
  intros Hm HPQ s. destruct (Hm s) as (a & s' & Hs & He & Ha). exists a, s'. auto.
Qed.
Lemma safe_bind_l {A B} d (P : A → Prop) (Q : B → Prop) (m : kst (vstate W) A) g :
  safe 0 P m → (∀ a, P a → safe d Q (g a)) → safe d Q (m ≫= g).
Proof. apply (safe_bind 0 d). Qed.
(** The brackets of a write. *)
Lemma safe_start {A} (Q : A → Prop) (k : kst (vstate W) A) :
  safe (-1) Q k → safe 0 Q (_ ← file_start_write; k).
Proof.
  intros Hk. apply (safe_bind 1 (-1) (λ _, True)); [|auto].
  intros s. eexists tt, _. split; [reflexivity|]. split; [repeat split|done].
Qed.
Lemma safe_end {A} (Q : A → Prop) (k : kst (vstate W) A) :
  safe 0 Q k → safe (-1) Q (_ ← file_end_write; k).
Proof.
  intros Hk. apply (safe_bind (-1) 0 (λ _, True)); [|auto].
  intros s. eexists tt, _. split; [reflexivity|]. split; [repeat split|done].
Qed.
(** A computation that first looks at the state. *)
Lemma safe_get {A} d (P : A → Prop) (g : vstate W → kst (vstate W) A) :
  (∀ s, safe d P (g s)) → safe d P (kget ≫= g).
Proof. intros Hg s. apply (Hg s s). Qed.
Lemma safe_modify d (g : vstate W → vstate W) :
  (∀ s, effect d s (g s)) → safe d (λ _, True) (kmodify g).
Proof. intros Hg s. exists tt, (g s). auto. Qed.
Lemma safe_if {A} d (P : A → Prop) (b : bool) m1 m2 :
  (b = true → safe d P m1) → (b = false → safe d P m2) → safe d P (if b then m1 else m2).
Proof. destruct b; auto. Qed.
End logic.

Create HintDb safe discriminated.
#[export] Hint Resolve safe_ret : safe.

(** One step of a safety proof: the state is read, a branch is taken, a
    command is known to be safe. *)
Ltac safe_step :=
  lazymatch goal with
  | |- safe _ _ (kget ≫= _) => apply safe_get; intros ?
  | |- safe _ _ (if _ then _ else _) => apply safe_if; intros ?
  | |- safe _ _ (mret _) => apply safe_ret
  | |- safe _ _ (_ ≫= _) => eapply safe_bind0; [solve [eauto with safe]|intros ? ?]
  | |- safe _ _ _ => solve [eauto with safe]
  end.

Section path_facts.
Context {W I : Type} `{HI : IovIter I, HF : !FileOps W I, HL : !FileLaws W I}.
Implicit Types (w : W) (i : I) (f : file) (s : vstate W).

Lemma notify_safe e : safe (W := W) 0 (λ _, True) (kmodify (notify e)).
Proof. apply safe_modify. intros s. repeat split. cbn. lia. Qed.
Lemma set_ioac_safe g : safe (W := W) 0 (λ _, True) (kmodify (set_ioac g)).
Proof. apply safe_modify. intros s. repeat split. cbn. lia. Qed.
#[local] Hint Resolve notify_safe set_ioac_safe : safe.
#[local] Hint Unfold add_rchar add_wchar inc_syscr inc_syscw : safe.
#[local] Hint Extern 0 True => exact Logic.I : safe core.

Lemma notify_if_safe b e : safe (W := W) 0 (λ _, True) (notify_if b e).
Proof. unfold notify_if. repeat safe_step; done. Qed.
Lemma account_read_safe r : safe (W := W) 0 (λ _, True) (account_read r).
Proof.
  unfold account_read. apply safe_bind0 with (λ _, True); [|intros; apply set_ioac_safe].
  apply safe_if; intros _; [apply set_ioac_safe | by apply safe_ret].
Qed.
Lemma account_write_safe r : safe (W := W) 0 (λ _, True) (account_write r).
Proof.
  unfold account_write. apply safe_bind0 with (λ _, True); [|intros; apply set_ioac_safe].
  apply safe_if; intros _; [apply set_ioac_safe | by apply safe_ret].
Qed.
Lemma end_read_safe fid r : safe (W := W) 0 (λ _, True) (end_read fid r).
Proof.
  unfold end_read. apply safe_bind0 with (λ _, True); [|intros; apply set_ioac_safe].
  apply safe_if; intros _; [|by apply safe_ret].
  apply safe_bind0 with (λ _, True); [apply notify_safe | intros; apply set_ioac_safe].
Qed.
Lemma end_write_safe fid r : safe (W := W) 0 (λ _, True) (end_write fid r).
Proof.
  unfold end_write. apply safe_bind0 with (λ _, True); [|intros; apply set_ioac_safe].
  apply safe_if; intros _; [|by apply safe_ret].
  apply safe_bind0 with (λ _, True); [apply notify_safe | intros; apply set_ioac_safe].
Qed.
#[local] Hint Resolve notify_if_safe account_read_safe account_write_safe
  end_read_safe end_write_safe : safe.

(** A transfer of at most [n] bytes at [ppos]: the result and the position. *)
Definition xfer_ok f (n : Z) (r : Z * option Z) : Prop := r.1 ≤ n ∧ pos_ok f r.2.

Lemma call_plain_safe op m f buf len ppos :
  op_read op = Some m ∨ op_write op = Some m → 0 ≤ len → pos_ok f ppos →
  safe 0 (xfer_ok f len) (call_plain (W := W) (Some m) f buf len ppos).
Proof.
  intros Hop Hlen Hpos s. destruct (plain_law op m Hop f buf len ppos (outer_of s) Hlen Hpos)
    as (Hp & _ & Hr).
  cbn. destruct (m f buf len ppos (outer_of s)) as [[r p] o] eqn:Hm.
  exists (r, p), (set_outer o s). split; [done|]. split; [repeat split; cbn; lia|]. done.
Qed.

Lemma call_iter_safe op m f k i :
  op_read_iter op = Some m ∨ op_write_iter op = Some m →
  0 ≤ iov_iter_count i → pos_ok f (Some (ki_pos k)) →
  safe 0 (λ r, r.1.1 ≤ iov_iter_count i ∧ r.1.1 ≠ - EIOCBQUEUED ∧ pos_ok f (Some r.1.2))
    (call_iter (W := W) (Some m) f k i).
Proof.
  intros Hop Hlen Hpos s. destruct (iter_law op m Hop f k i (outer_of s) Hlen Hpos)
    as (Hp & Hq & Hr).
  cbn. destruct (m f k i (outer_of s)) as [[[r p] i'] o] eqn:Hm.
  exists (r, p, i'), (set_outer o s). split; [done|]. split; [repeat split; cbn; lia|]. done.
Qed.

Lemma with_pos_ok f k ppos : pos_ok f ppos → pos_ok f (Some (ki_pos (with_pos k ppos))).
Proof.
  destruct ppos as [p|]; [done|]. intros _. unfold pos_ok, file_wf. cbn.
  split; [wrap | lia].
Qed.
Lemma set_pos_ok f ppos p : pos_ok f (Some p) → pos_ok f (set_pos ppos p).
Proof. by destruct ppos. Qed.

Lemma BUG_ON_safe b : b = false → safe (W := W) 0 (λ _, True) (BUG_ON b).
Proof. intros ->. by apply safe_ret. Qed.

Lemma new_sync_read_safe f m buf len ppos :
  op_read_iter (f_op f) = Some m → 0 ≤ len → pos_ok f ppos →
  safe 0 (xfer_ok f len) (new_sync_read (W := W) (I := I) f buf len ppos).
Proof.
  intros Hm Hlen Hpos. unfold new_sync_read, call_read_iter. rewrite Hm.
  eapply safe_bind0.
  { apply (call_iter_safe (f_op f)); [auto | by rewrite iov_iter_ubuf_count | by apply with_pos_ok]. }
  intros [[r p] i'] (Hr & Hq & Hp). cbn in Hr, Hq, Hp. rewrite iov_iter_ubuf_count in Hr by done.
  eapply safe_bind0; [by apply BUG_ON_safe, Z.eqb_neq|]. intros _ _.
  apply safe_ret. split; [done | by apply set_pos_ok].
Qed.

Lemma new_sync_write_safe f m buf len ppos :
  op_write_iter (f_op f) = Some m → 0 ≤ len → pos_ok f ppos →
  safe 0 (xfer_ok f len) (new_sync_write (W := W) (I := I) f buf len ppos).
Proof.
  intros Hm Hlen Hpos. unfold new_sync_write, call_write_iter. rewrite Hm.
  eapply safe_bind0.
  { apply (call_iter_safe (f_op f)); [auto | by rewrite iov_iter_ubuf_count | by apply with_pos_ok]. }
  intros [[r p] i'] (Hr & Hq & Hp). cbn in Hr, Hq, Hp. rewrite iov_iter_ubuf_count in Hr by done.
  eapply safe_bind0; [by apply BUG_ON_safe, Z.eqb_neq|]. intros _ _.
  apply safe_ret. split; [done|]. cbn. destruct (0 <? r); [by apply set_pos_ok | done].
Qed.

Lemma rw_verify_area_nonpos rw w f ppos n : rw_verify_area rw w f ppos n ≤ 0.
Proof.
  unfold rw_verify_area. destruct (s64 n <? 0); [vm_compute; intros [=]|].
  match goal with |- context [nz ?r] => assert (r ≤ 0); [|destruct (nz r); [done|]] end.
  - destruct ppos as [p|]; [|done].
    destruct (p <? 0), (unsigned_offsets f), (u64 (- p) <=? n), (s64 (p + n) <? 0);
      cbn; vm_compute; intros [=].
  - apply security_law.
Qed.

(** A file that may be read or written has a method for it. *)
Definition wired f : Prop :=
  (has (f_mode f) FMODE_CAN_READ = true →
     is_Some (op_read (W := W) (I := I) (f_op f)) ∨ is_Some (op_read_iter (W := W) (I := I) (f_op f))) ∧
  (has (f_mode f) FMODE_CAN_WRITE = true →
     is_Some (op_write (W := W) (I := I) (f_op f)) ∨ is_Some (op_write_iter (W := W) (I := I) (f_op f))).

Lemma refused_ok f e n ppos : 0 ≤ n → e ≤ 0 → pos_ok f ppos → xfer_ok f n (e, ppos).
Proof. intros Hn He Hp. split; cbn; [lia | done]. Qed.
#[local] Hint Extern 1 (- _ ≤ 0) => (vm_compute; intros [=]) : safe.
#[local] Hint Extern 1 (0 ≤ MAX_RW_COUNT) => (vm_compute; intros [=]) : safe.
#[local] Hint Resolve refused_ok rw_verify_area_nonpos : safe.

Lemma cap_range n : 0 ≤ n → 0 ≤ (if MAX_RW_COUNT <? n then MAX_RW_COUNT else n) ≤ MAX_RW_COUNT.
Proof. intros Hn. destruct (Z.ltb_spec MAX_RW_COUNT n); [by vm_compute | lia]. Qed.

Lemma xfer_le f n k r : xfer_ok f n r → n ≤ k → xfer_ok f k r.
Proof. intros [Hr Hp] Hle. split; [lia | done]. Qed.

Lemma vfs_read_safe fid f buf count ppos :
  0 ≤ count → pos_ok f ppos →
  safe 0 (xfer_ok f MAX_RW_COUNT) (vfs_read (W := W) (I := I) fid f buf count ppos).
Proof.
  intros Hc Hp. unfold vfs_read. repeat (safe_step; [by auto with safe|]).
  safe_step. cbn zeta. safe_step; [by auto with safe|].
  pose proof (cap_range count Hc) as [Hlo Hhi].
  apply safe_bind0 with (xfer_ok f MAX_RW_COUNT).
  - destruct (op_read (f_op f)) as [m|] eqn:Hm.
    { eapply safe_weaken; [apply (call_plain_safe (f_op f)); auto|]. eauto using xfer_le. }
    destruct (op_read_iter (f_op f)) as [m|] eqn:Hi; [|auto with safe].
    eapply safe_weaken; [eapply new_sync_read_safe; eauto|]. eauto using xfer_le.
  - intros r Hr. eapply safe_bind0; [apply end_read_safe|]. intros _ _. by apply safe_ret.
Qed.

Lemma vfs_write_safe fid f buf count ppos :
  0 ≤ count → pos_ok f ppos →
  safe 0 (xfer_ok f MAX_RW_COUNT) (vfs_write (W := W) (I := I) fid f buf count ppos).
Proof.
  intros Hc Hp. unfold vfs_write. repeat (safe_step; [by auto with safe|]).
  safe_step. cbn zeta. safe_step; [by auto with safe|].
  pose proof (cap_range count Hc) as [Hlo Hhi].
  apply safe_start, safe_bind_l with (xfer_ok f MAX_RW_COUNT).
  - destruct (op_write (f_op f)) as [m|] eqn:Hm.
    { eapply safe_weaken; [apply (call_plain_safe (f_op f)); auto|]. eauto using xfer_le. }
    destruct (op_write_iter (f_op f)) as [m|] eqn:Hi; [|auto with safe].
    eapply safe_weaken; [eapply new_sync_write_safe; eauto|]. eauto using xfer_le.
  - intros r Hr. eapply safe_bind_l; [apply end_write_safe|]. intros _ _.
    apply safe_end. by apply safe_ret.
Qed.

Lemma do_iter_readv_writev_safe f i ppos type flags :
  (type = READ → is_Some (op_read_iter (W := W) (I := I) (f_op f))) →
  (type ≠ READ → is_Some (op_write_iter (W := W) (I := I) (f_op f))) →
  0 ≤ iov_iter_count i → pos_ok f ppos →
  safe 0 (λ r, xfer_ok f (iov_iter_count i) r.1)
    (do_iter_readv_writev (W := W) f i ppos type flags).
Proof.
  intros Hrd Hwr Hc Hp. unfold do_iter_readv_writev.
  pose proof (rw_flags_law (W := W) (I := I) (init_sync_kiocb f) flags) as Hf.
  destruct (kiocb_set_rw_flags _ _) as [e k]. cbn in Hf.
  safe_step; [apply safe_ret, refused_ok; done|].
  eapply safe_bind0 with (λ r, r.1.1 ≤ iov_iter_count i ∧ r.1.1 ≠ - EIOCBQUEUED ∧ pos_ok f (Some r.1.2)).
  - unfold call_read_iter, call_write_iter. destruct (Z.eqb_spec type READ) as [Ht|Ht].
    + destruct (Hrd Ht) as [m Hm]. rewrite Hm.
      apply (call_iter_safe (f_op f)); [auto | done | by apply with_pos_ok].
    + destruct (Hwr Ht) as [m Hm]. rewrite Hm.
      apply (call_iter_safe (f_op f)); [auto | done | by apply with_pos_ok].
  - intros [[r p] i'] (Hr & Hq & Hp'). cbn in Hr, Hq, Hp'.
    eapply safe_bind0; [by apply BUG_ON_safe, Z.eqb_neq|]. intros _ _.
    apply safe_ret. split; [done | by apply set_pos_ok].
Qed.

(** The loop by hand ends before the segments do: every turn passes one. *)
Lemma readv_writev_loop_safe fuel f type i ppos ret :
  (type = READ → is_Some (op_read (W := W) (I := I) (f_op f))) →
  (type ≠ READ → is_Some (op_write (W := W) (I := I) (f_op f))) →
  (iter_segs i ≤ fuel)%nat → 0 ≤ iov_iter_count i → pos_ok f ppos →
  0 ≤ ret → ret + iov_iter_count i ≤ MAX_RW_COUNT →
  safe 0 (λ r, xfer_ok f (ret + iov_iter_count i) r.1)
    (readv_writev_loop (W := W) fuel f type i ppos ret).
Proof.
  intros Hrd Hwr. revert i ppos ret.
  induction fuel as [|fuel IH]; intros i ppos ret Hfuel Hc Hp Hret Hsum; cbn [readv_writev_loop];
    (destruct (nz (iov_iter_count i)) eqn:Hnz;
      [|apply safe_ret; split; cbn; [lia|done]]);
    (assert (Hpos : 0 < iov_iter_count i)
      by (unfold nz in Hnz; destruct (Z.eqb_spec (iov_iter_count i) 0); [done|lia]));
    pose proof (iov_iter_advance_segs i Hpos) as Hseg; [lia|].
  pose proof (iter_iov_len_range i Hc) as Hlen.
  assert (Hm : ∃ m, (if type =? READ then op_read (W := W) (I := I) (f_op f) else op_write (f_op f))
                    = Some m ∧ (op_read (f_op f) = Some m ∨ op_write (f_op f) = Some m)).
  { destruct (Z.eqb_spec type READ) as [Ht|Ht];
      [destruct (Hrd Ht) as [m Hm] | destruct (Hwr Ht) as [m Hm]]; exists m; auto. }
  destruct Hm as (m & -> & Hm).
  eapply safe_bind0; [apply (call_plain_safe (f_op f) m); [done | lia | done]|].
  intros [nr p'] [Hnr Hp']. cbn in Hnr, Hp'.
  destruct (Z.ltb_spec nr 0) as [Hneg|Hnn].
  { apply safe_ret. split; cbn; [destruct (nz ret); lia | done]. }
  assert (Hs : s64 (ret + nr) = ret + nr) by (unfold MAX_RW_COUNT, PAGE_SIZE in Hsum; wrap).
  rewrite Hs. destruct (Z.eqb_spec nr (iter_iov_len i)) as [->|]; cbn [negb].
  - pose proof (iov_iter_advance_count i (iter_iov_len i) Hlen) as Hadv.
    replace (ret + iov_iter_count i)
      with (ret + iter_iov_len i + iov_iter_count (iov_iter_advance i (iter_iov_len i))) by lia.
    apply IH; [lia | lia | done | lia | lia].
  - apply safe_ret. split; cbn; [lia | done].
Qed.

Lemma do_loop_readv_writev_safe f i ppos type flags :
  (type = READ → is_Some (op_read (W := W) (I := I) (f_op f))) →
  (type ≠ READ → is_Some (op_write (W := W) (I := I) (f_op f))) →
  0 ≤ iov_iter_count i ≤ MAX_RW_COUNT → pos_ok f ppos →
  safe 0 (λ r, xfer_ok f (iov_iter_count i) r.1)
    (do_loop_readv_writev (W := W) f i ppos type flags).
Proof.
  intros Hrd Hwr Hc Hp. unfold do_loop_readv_writev.
  safe_step; [apply safe_ret, refused_ok; [lia | by vm_compute | done]|].
  apply (readv_writev_loop_safe _ f type i ppos 0); auto; lia.
Qed.

Definition xfer3_ok f (r : Z * option Z * I) : Prop := xfer_ok f MAX_RW_COUNT r.1.

Lemma xfer3_le f i r :
  xfer_ok f (iov_iter_count i) r.1 → iov_iter_count i ≤ MAX_RW_COUNT → xfer3_ok f r.
Proof. unfold xfer3_ok. eauto using xfer_le. Qed.
Lemma refused3_ok f e i ppos : e ≤ 0 → pos_ok f ppos → xfer3_ok f (e, ppos, i).
Proof. intros He Hp. apply refused_ok; [by vm_compute | done | done]. Qed.
#[local] Hint Resolve refused3_ok : safe.
#[local] Hint Extern 1 (0 ≤ 0) => reflexivity : safe.

Lemma do_iter_read_safe fid f i ppos flags :
  wired f → 0 ≤ iov_iter_count i ≤ MAX_RW_COUNT → pos_ok f ppos →
  safe 0 (xfer3_ok f) (do_iter_read (W := W) fid f i ppos flags).
Proof.
  intros [Hw _] Hc Hp. unfold do_iter_read.
  safe_step; [auto with safe|]. apply safe_if; intros Hcan; [auto with safe|].
  apply negb_false_iff, Hw in Hcan.
  safe_step.
  { eapply safe_bind0; [apply notify_if_safe|]. auto with safe. }
  safe_step. cbn zeta. safe_step; [auto with safe|].
  apply safe_bind0 with (xfer3_ok f).
  - destruct (op_read_iter (f_op f)) as [m|] eqn:Hm; eapply safe_weaken.
    + apply do_iter_readv_writev_safe; [by rewrite Hm|done|lia|done].
    + intros r Hr. apply (xfer3_le f i); [exact Hr | lia].
    + apply do_loop_readv_writev_safe; [|done|lia|done].
      intros _. destruct Hcan as [?|[? [=]]]. done.
    + intros r Hr. apply (xfer3_le f i); [exact Hr | lia].
  - intros r Hr. eapply safe_bind0; [apply notify_if_safe|]. intros _ _. by apply safe_ret.
Qed.

Lemma do_iter_write_safe fid f i ppos flags :
  wired f → 0 ≤ iov_iter_count i ≤ MAX_RW_COUNT → pos_ok f ppos →
  safe 0 (xfer3_ok f) (do_iter_write (W := W) fid f i ppos flags).
Proof.
  intros [_ Hw] Hc Hp. unfold do_iter_write.
  safe_step; [auto with safe|]. apply safe_if; intros Hcan; [auto with safe|].
  apply negb_false_iff, Hw in Hcan.
  safe_step; [auto with safe|].
  safe_step. cbn zeta. safe_step; [auto with safe|].
  apply safe_bind0 with (xfer3_ok f).
  - destruct (op_write_iter (f_op f)) as [m|] eqn:Hm; eapply safe_weaken.
    + apply do_iter_readv_writev_safe; [done|by rewrite Hm|lia|done].
    + intros r Hr. apply (xfer3_le f i); [exact Hr | lia].
    + apply do_loop_readv_writev_safe; [done| |lia|done].
      intros _. destruct Hcan as [?|[? [=]]]. done.
    + intros r Hr. apply (xfer3_le f i); [exact Hr | lia].
  - intros r Hr. eapply safe_bind0; [apply notify_if_safe|]. intros _ _. by apply safe_ret.
Qed.

Lemma vfs_readv_safe fid f vec vlen ppos flags :
  wired f → pos_ok f ppos →
  safe 0 (xfer_ok f MAX_RW_COUNT) (vfs_readv (W := W) (I := I) fid f vec vlen ppos flags).
Proof.
  intros Hw Hp. unfold vfs_readv. safe_step.
  pose proof (import_law READ (world s) vec vlen) as Himp.
  destruct (import_iovec READ (world s) vec vlen) as [e|i].
  - apply safe_ret, refused_ok; [by vm_compute | lia | done].
  - eapply safe_bind0; [by apply do_iter_read_safe|]. intros r Hr. by apply safe_ret.
Qed.

Lemma vfs_writev_safe fid f vec vlen ppos flags :
  wired f → pos_ok f ppos →
  safe 0 (xfer_ok f MAX_RW_COUNT) (vfs_writev (W := W) (I := I) fid f vec vlen ppos flags).
Proof.
  intros Hw Hp. unfold vfs_writev. safe_step.
  pose proof (import_law WRITE (world s) vec vlen) as Himp.
  destruct (import_iovec WRITE (world s) vec vlen) as [e|i].
  - apply safe_ret, refused_ok; [by vm_compute | lia | done].
  - apply safe_start. eapply safe_bind_l; [by apply do_iter_write_safe|]. intros r Hr.
    apply safe_end. by apply safe_ret.
Qed.
End path_facts.

(** ** The system calls as one family *)

Inductive rw_call :=
  | CRead (fd buf count : Z)
  | CWrite (fd buf count : Z)
  | CPread (fd buf count pos : Z)
  | CPwrite (fd buf count pos : Z)
  | CReadv (fd vec vlen : Z)
  | CWritev (fd vec vlen : Z)
  | CPreadv (fd vec vlen pos_l pos_h : Z)
  | CPwritev (fd vec vlen pos_l pos_h : Z)
  | CPreadv2 (fd vec vlen pos_l pos_h flags : Z)
  | CPwritev2 (fd vec vlen pos_l pos_h flags : Z)
  | CCompatPread (fd buf count pos : Z)
  | CCompatPwrite (fd buf count pos : Z)
  | CCompatPreadv (fd vec vlen pos_low pos_high : Z)
  | CCompatPwritev (fd vec vlen pos_low pos_high : Z)
  | CCompatPreadv2 (fd vec vlen pos_low pos_high flags : Z)
  | CCompatPwritev2 (fd vec vlen pos_low pos_high flags : Z)
  | CCompatPreadv64 (fd vec vlen pos : Z)
  | CCompatPwritev64 (fd vec vlen pos : Z)
  | CCompatPreadv64v2 (fd vec vlen pos flags : Z)
  | CCompatPwritev64v2 (fd vec vlen pos flags : Z).

Definition run_call {W I} `{HI : IovIter I, HF : !FileOps W I} (c : rw_call) : kst (vstate W) Z :=
  match c with
  | CRead fd buf count => sys_read fd buf count
  | CWrite fd buf count => sys_write fd buf count
  | CPread fd buf count pos => sys_pread64 fd buf count pos
  | CPwrite fd buf count pos => sys_pwrite64 fd buf count pos
  | CReadv fd vec vlen => sys_readv fd vec vlen
  | CWritev fd vec vlen => sys_writev fd vec vlen
  | CPreadv fd vec vlen pos_l pos_h => sys_preadv fd vec vlen pos_l pos_h
  | CPwritev fd vec vlen pos_l pos_h => sys_pwritev fd vec vlen pos_l pos_h
  | CPreadv2 fd vec vlen pos_l pos_h flags => sys_preadv2 fd vec vlen pos_l pos_h flags
  | CPwritev2 fd vec vlen pos_l pos_h flags => sys_pwritev2 fd vec vlen pos_l pos_h flags
  | CCompatPread fd buf count pos => compat_pread64 fd buf count pos
  | CCompatPwrite fd buf count pos => compat_pwrite64 fd buf count pos
  | CCompatPreadv fd vec vlen low high => compat_preadv fd vec vlen low high
  | CCompatPwritev fd vec vlen low high => compat_pwritev fd vec vlen low high
  | CCompatPreadv2 fd vec vlen low high flags => compat_preadv2 fd vec vlen low high flags
  | CCompatPwritev2 fd vec vlen low high flags => compat_pwritev2 fd vec vlen low high flags
  | CCompatPreadv64 fd vec vlen pos => compat_preadv64 fd vec vlen pos
  | CCompatPwritev64 fd vec vlen pos => compat_pwritev64 fd vec vlen pos
  | CCompatPreadv64v2 fd vec vlen pos flags => compat_preadv64v2 fd vec vlen pos flags
  | CCompatPwritev64v2 fd vec vlen pos flags => compat_pwritev64v2 fd vec vlen pos flags
  end.

Definition call_fd (c : rw_call) : Z :=
  match c with
  | CRead fd _ _ | CWrite fd _ _ | CPread fd _ _ _ | CPwrite fd _ _ _
  | CReadv fd _ _ | CWritev fd _ _ | CPreadv fd _ _ _ _ | CPwritev fd _ _ _ _
  | CPreadv2 fd _ _ _ _ _ | CPwritev2 fd _ _ _ _ _
  | CCompatPread fd _ _ _ | CCompatPwrite fd _ _ _
  | CCompatPreadv fd _ _ _ _ | CCompatPwritev fd _ _ _ _
  | CCompatPreadv2 fd _ _ _ _ _ | CCompatPwritev2 fd _ _ _ _ _
  | CCompatPreadv64 fd _ _ _ | CCompatPwritev64 fd _ _ _
  | CCompatPreadv64v2 fd _ _ _ _ | CCompatPwritev64v2 fd _ _ _ _ => fd
  end.

(** The calls that name the position of the transfer themselves. *)
Definition positional (c : rw_call) : bool :=
  match c with
  | CRead _ _ _ | CWrite _ _ _ | CReadv _ _ _ | CWritev _ _ _ => false
  | CPreadv2 _ _ _ l h _ | CPwritev2 _ _ _ l h _ => negb (pos_from_hilo h l =? -1)
  | CCompatPreadv2 _ _ _ l h _ | CCompatPwritev2 _ _ _ l h _ => negb (compat_pos h l =? -1)
  | CCompatPreadv64v2 _ _ _ p _ | CCompatPwritev64v2 _ _ _ p _ => negb (p =? -1)
  | _ => true
  end.

(** The arguments are what the types of the calls admit. *)
Definition call_args_ok (c : rw_call) : Prop :=
  match c with
  | CRead _ _ n | CWrite _ _ n => in_u64 n
  | CPread _ _ n p | CPwrite _ _ n p | CCompatPread _ _ n p | CCompatPwrite _ _ n p =>
      in_u64 n ∧ in_s64 p
  | CCompatPreadv64 _ _ _ p | CCompatPwritev64 _ _ _ p
  | CCompatPreadv64v2 _ _ _ p _ | CCompatPwritev64v2 _ _ _ p _ => in_s64 p
  | _ => True
  end.
#[export] Instance call_args_ok_dec c : Decision (call_args_ok c).
Proof. destruct c; cbn; apply _. Defined.

Fixpoint run_calls {W I} `{HI : IovIter I, HF : !FileOps W I} (cs : list rw_call)
    : kst (vstate W) (list Z) :=
  match cs with
  | [] => mret []
  | c :: cs => r ← run_call c; rs ← run_calls cs; mret (r :: rs)
  end.

Section call_facts.
Context {W I : Type} `{HI : IovIter I, HF : !FileOps W I, HL : !FileLaws W I}.
Implicit Types (w : W) (i : I) (f : file) (s : vstate W).

(** Open files between two calls. *)
Definition rw_wf s : Prop :=
  map_Forall (λ _ f, file_wf f ∧ wired (W := W) (I := I) f) (files s).

(** What a call on descriptor [fd] with result [r] may do: at most the
    position of the open file behind [fd] moves, only when the call is not
    positional, did not fail, and the file is no stream. *)
Definition rw_effect (fd : Z) (fixed : bool) (r : Z) s s' : Prop :=
  fdtable s' = fdtable s ∧ rlim_fsize s' = rlim_fsize s ∧
  sb_write_depth s' = sb_write_depth s ∧ r ≤ MAX_RW_COUNT ∧
  (files s' = files s ∨
   ∃ fid f pos, fdget fd s = Some (fid, f) ∧ 0 ≤ r ∧ fixed = false ∧
     has (f_mode f) FMODE_STREAM = false ∧ file_wf (set_f_pos pos f) ∧
     files s' = <[fid := set_f_pos pos f]> (files s)).

Lemma rw_effect_trans fd b r s s1 s2 :
  rw_effect fd b r s s1 → effect 0 s1 s2 → rw_effect fd b r s s2.
Proof.
  intros (A1 & A2 & A3 & A4 & A5) (B1 & B2 & B3 & B4).
  split; [congruence|]. split; [congruence|]. split; [lia|]. split; [done|]. by rewrite B1.
Qed.
Lemma effect_fixed fd b r s s' : effect 0 s s' → r ≤ MAX_RW_COUNT → rw_effect fd b r s s'.
Proof.
  intros (B1 & B2 & B3 & B4) Hr. split; [done|]. split; [done|]. split; [lia|]. auto.
Qed.
Lemma refused_effect fd b e s : e ≤ 0 → rw_effect fd b e s s.
Proof.
  intros He. apply effect_fixed; [apply effect_refl|].
  etrans; [exact He | by vm_compute].
Qed.

(** The run of a computation with such an effect. *)
Definition settles (fd : Z) (fixed : bool) (m : kst (vstate W) Z) s : Prop :=
  ∃ r s', m s = Some (r, s') ∧ rw_effect fd fixed r s s'.

Lemma settles_ret fd b e s : e ≤ 0 → settles fd b (mret e) s.
Proof. intros He. exists e, s. split; [done | by apply refused_effect]. Qed.

Lemma settles_commit fd fid f s (m : kst (vstate W) (Z * option Z)) :
  fdget fd s = Some (fid, f) → safe 0 (xfer_ok f MAX_RW_COUNT) m →
  settles fd false (r ← m; _ ← commit_pos fid f r; mret r.1) s.
Proof.
  intros Hfd Hm. destruct (Hm s) as ([r p] & s1 & Hrun & He & Hr & Hp). cbn in Hr, Hp.
  unfold settles. rewrite (kbind_some _ _ _ _ _ Hrun). unfold commit_pos, file_ppos. cbn [fst snd].
  destruct (has (f_mode f) FMODE_STREAM) eqn:Hst;
    [exists r, s1; split; [done | by apply effect_fixed]|].
  destruct p as [pos|]; [|exists r, s1; split; [done | by apply effect_fixed]].
  destruct (Z.leb_spec 0 r) as [Hpos|Hneg]; [|exists r, s1; split; [done | by apply effect_fixed]].
  rewrite kbind_modify, kret_run. eexists r, _. split; [done|].
  destruct He as (B1 & B2 & B3 & B4).
  split; [done|]. split; [done|]. split; [cbn; lia|]. split; [done|].
  right. exists fid, f, pos. apply fdget_Some in Hfd as Hf. destruct Hf as [_ Hf].
  split_and!; try done. cbn. rewrite B1.
  apply map_eq. intros j. destruct (decide (fid = j)) as [<-|Hne].
  - by rewrite lookup_alter, decide_True, Hf, lookup_insert_eq.
  - by rewrite lookup_alter_ne, lookup_insert_ne.
Qed.

Lemma settles_fixed fd b f s (m : kst (vstate W) (Z * option Z)) :
  safe 0 (xfer_ok f MAX_RW_COUNT) m → settles fd b (r ← m; mret r.1) s.
Proof.
  intros Hm. destruct (Hm s) as (r & s1 & Hrun & He & Hr & _).
  exists r.1, s1. rewrite (kbind_some _ _ _ _ _ Hrun). split; [done | by apply effect_fixed].
Qed.

Lemma settles_account fd b (m : kst (vstate W) Z) (acc : Z → kst (vstate W) unit) s :
  settles fd b m s → (∀ r, safe 0 (λ _, True) (acc r)) →
  settles fd b (ret ← m; _ ← acc ret; mret ret) s.
Proof.
  intros (r & s1 & Hrun & He) Hacc. destruct (Hacc r s1) as ([] & s2 & Hrun2 & He2 & _).
  exists r, s2. rewrite (kbind_some _ _ _ _ _ Hrun), (kbind_some _ _ _ _ _ Hrun2).
  split; [done | by eapply rw_effect_trans].
Qed.

Lemma file_ppos_ok f : file_wf f → pos_ok f (file_ppos f).
Proof. unfold file_ppos. intros [Hr Hu]. by destruct (has _ _). Qed.

Lemma fdget_wf fd s fid f : rw_wf s → fdget fd s = Some (fid, f) → file_wf f ∧ wired (I := I) f.
Proof. intros Hwf [_ Hf]%fdget_Some. apply (Hwf _ _ Hf). Qed.

Lemma offset_pos_ok f pos : in_s64 pos → 0 ≤ pos → pos_ok f (Some pos).
Proof. intros Hr Hp. split; cbn; [done | lia]. Qed.

#[local] Hint Extern 1 (- _ ≤ 0) => (vm_compute; intros [=]) : core.

Lemma do_readv_settles fd b vec vlen flags s :
  rw_wf s → b = false → settles fd b (do_readv (I := I) fd vec vlen flags) s.
Proof.
  intros Hwf ->. unfold do_readv, settles. rewrite kbind_get.
  apply (settles_account fd false); [|apply account_read_safe].
  destruct (fdget fd s) as [[fid f]|] eqn:Hfd; [|by apply settles_ret].
  destruct (fdget_wf _ _ _ _ Hwf Hfd). apply settles_commit; [done|].
  apply vfs_readv_safe; [done | by apply file_ppos_ok].
Qed.
Lemma do_writev_settles fd b vec vlen flags s :
  rw_wf s → b = false → settles fd b (do_writev (I := I) fd vec vlen flags) s.
Proof.
  intros Hwf ->. unfold do_writev, settles. rewrite kbind_get.
  apply (settles_account fd false); [|apply account_write_safe].
  destruct (fdget fd s) as [[fid f]|] eqn:Hfd; [|by apply settles_ret].
  destruct (fdget_wf _ _ _ _ Hwf Hfd). apply settles_commit; [done|].
  apply vfs_writev_safe; [done | by apply file_ppos_ok].
Qed.
Lemma do_preadv_settles fd b vec vlen pos flags s :
  rw_wf s → in_s64 pos → settles fd b (do_preadv (I := I) fd vec vlen pos flags) s.
Proof.
  intros Hwf Hpos. unfold do_preadv.
  destruct (Z.ltb_spec pos 0); [by apply settles_ret|]. unfold settles. rewrite kbind_get.
  apply (settles_account fd b); [|apply account_read_safe].
  destruct (fdget fd s) as [[fid f]|] eqn:Hfd; [|by apply settles_ret].
  destruct (has _ _); [|by apply settles_ret].
  destruct (fdget_wf _ _ _ _ Hwf Hfd). apply (settles_fixed fd b f).
  apply vfs_readv_safe; [done | by apply offset_pos_ok].
Qed.
Lemma do_pwritev_settles fd b vec vlen pos flags s :
  rw_wf s → in_s64 pos → settles fd b (do_pwritev (I := I) fd vec vlen pos flags) s.
Proof.
  intros Hwf Hpos. unfold do_pwritev.
  destruct (Z.ltb_spec pos 0); [by apply settles_ret|]. unfold settles. rewrite kbind_get.
  apply (settles_account fd b); [|apply account_write_safe].
  destruct (fdget fd s) as [[fid f]|] eqn:Hfd; [|by apply settles_ret].
  destruct (has _ _); [|by apply settles_ret].
  destruct (fdget_wf _ _ _ _ Hwf Hfd). apply (settles_fixed fd b f).
  apply vfs_writev_safe; [done | by apply offset_pos_ok].
Qed.

Lemma preadv2_settles fd vec vlen p flags s :
  rw_wf s → in_s64 p →
  settles fd (negb (p =? -1))
    (if p =? -1 then do_readv (I := I) fd vec vlen flags else do_preadv fd vec vlen p flags) s.
Proof. intros Hwf Hp. destruct (p =? -1); [by apply do_readv_settles | by apply do_preadv_settles]. Qed.
Lemma pwritev2_settles fd vec vlen p flags s :
  rw_wf s → in_s64 p →
  settles fd (negb (p =? -1))
    (if p =? -1 then do_writev (I := I) fd vec vlen flags else do_pwritev fd vec vlen p flags) s.
Proof. intros Hwf Hp. destruct (p =? -1); [by apply do_writev_settles | by apply do_pwritev_settles]. Qed.
Lemma pread_settles fd buf count pos s :
  rw_wf s → in_u64 count → in_s64 pos → settles fd true (ksys_pread64 (I := I) fd buf count pos) s.
Proof.
  intros Hwf Hn Hp. unfold ksys_pread64.
  destruct (Z.ltb_spec pos 0); [by apply settles_ret|]. unfold settles. rewrite kbind_get.
  destruct (fdget fd s) as [[fid f]|] eqn:Hfd; [|by apply settles_ret].
  destruct (has _ _); [|by apply settles_ret]. apply (settles_fixed fd true f).
  apply vfs_read_safe; [apply Hn | by apply offset_pos_ok].
Qed.
Lemma pwrite_settles fd buf count pos s :
  rw_wf s → in_u64 count → in_s64 pos → settles fd true (ksys_pwrite64 (I := I) fd buf count pos) s.
Proof.
  intros Hwf Hn Hp. unfold ksys_pwrite64.
  destruct (Z.ltb_spec pos 0); [by apply settles_ret|]. unfold settles. rewrite kbind_get.
  destruct (fdget fd s) as [[fid f]|] eqn:Hfd; [|by apply settles_ret].
  destruct (has _ _); [|by apply settles_ret]. apply (settles_fixed fd true f).
  apply vfs_write_safe; [apply Hn | by apply offset_pos_ok].
Qed.

Lemma run_call_settles c s :
  rw_wf s → call_args_ok c → settles (call_fd c) (positional c) (run_call (I := I) c) s.
Proof.
  intros Hwf Hargs.
  destruct c; cbn [run_call call_fd positional call_args_ok] in *;
    try (match type of Hargs with in_u64 _ ∧ in_s64 _ => destruct Hargs as [Hn Hp] end;
         first [by apply pread_settles | by apply pwrite_settles]);
    try first [by apply do_readv_settles | by apply do_writev_settles];
    try first [apply preadv2_settles; [done | apply s64_range || done]
              | apply pwritev2_settles; [done | apply s64_range || done]
              | apply do_preadv_settles; [done | apply s64_range || done]
              | apply do_pwritev_settles; [done | apply s64_range || done]].
  - unfold sys_read, ksys_read, settles. rewrite kbind_get.
    destruct (fdget fd s) as [[fid f]|] eqn:Hfd; [|by apply settles_ret].
    destruct (fdget_wf _ _ _ _ Hwf Hfd). apply settles_commit; [done|].
    apply vfs_read_safe; [apply Hargs | by apply file_ppos_ok].
  - unfold sys_write, ksys_write, settles. rewrite kbind_get.
    destruct (fdget fd s) as [[fid f]|] eqn:Hfd; [|by apply settles_ret].
    destruct (fdget_wf _ _ _ _ Hwf Hfd). apply settles_commit; [done|].
    apply vfs_write_safe; [apply Hargs | by apply file_ppos_ok].
Qed.

Lemma rw_effect_wf fd b r s s' : rw_wf s → rw_effect fd b r s s' → rw_wf s'.
Proof.
  intros Hwf (_ & _ & _ & _ & [Hf|(fid & f & pos & Hfd & _ & _ & _ & Hp & Hf)]);
    unfold rw_wf; rewrite Hf; [done|].
  apply map_Forall_insert_2; [|done].
  destruct (fdget_wf _ _ _ _ Hwf Hfd) as [_ Hw]. split; [done | exact Hw].
Qed.

(** C7. Every read and write system call, the 32-bit entry points included,
    returns from every state with well-formed open files: no loop runs on, no
    unwired method is called, and no [BUG_ON] fires as long as the methods keep
    to the contract of synchronous requests, which [FileLaws] states and the
    [BUG_ON]s check.  It transfers at most [MAX_RW_COUNT] bytes, leaves the
    write protection balanced, and moves at most the position of the file
    behind its descriptor, and that only when it succeeded, was not given a
    position of its own and the file is not a stream; the new position is one
    the file may have.  (What else a method does, to the world, the accounting
    and the signals of the task, is up to the file system.) *)
Theorem rw_call_spec c s :
  rw_wf s → call_args_ok c →
  ∃ r s', run_call (I := I) c s = Some (r, s') ∧
    rw_effect (call_fd c) (positional c) r s s' ∧ rw_wf s'.
Proof.
  intros Hwf Hargs. destruct (run_call_settles c s Hwf Hargs) as (r & s' & Hrun & He).
  exists r, s'. eauto using rw_effect_wf.
Qed.

Lemma run_calls_wf cs s :
  rw_wf s → Forall call_args_ok cs →
  ∃ rs s', run_calls (I := I) cs s = Some (rs, s') ∧ length rs = length cs ∧ rw_wf s' ∧
    fdtable s' = fdtable s ∧ sb_write_depth s' = sb_write_depth s.
Proof.
  intros Hwf Hall. revert s Hwf. induction Hall as [|c cs Hc Hcs IH]; intros s Hwf.
  - by exists [], s.
  - destruct (run_call_settles c s Hwf Hc) as (r & s1 & Hrun & He).
    assert (Hwf1 : rw_wf s1) by eauto using rw_effect_wf.
    destruct (IH s1 Hwf1) as (rs & s2 & Hrun2 & Hlen & Hwf2 & Ht & Hd).
    destruct He as (Hft & _ & Hdep & _).
    exists (r :: rs), s2. cbn [run_calls].
    rewrite (kbind_some _ _ _ _ _ Hrun), (kbind_some _ _ _ _ _ Hrun2), kret_run.
    split_and!; [done | cbn; lia | done | congruence | congruence].
Qed.
End call_facts.

(** ** What the file system is asked for

    The refusals of a transfer, in the order of the code and in unbounded
    integers.  A file with unsigned offsets reads a position as an unsigned word
    and has offsets up to [2 ^ 64 - 1]. *)
Section requests.
Context {W I : Type} `{HI : IovIter I, HF : !FileOps W I}.
Implicit Types (w : W) (f : file) (s : vstate W).

Definition offset_of f (pos : Z) : Z := if unsigned_offsets f then u64 pos else pos.
Definition last_offset f : Z := if unsigned_offsets f then 2 ^ 64 - 1 else OFFSET_MAX.

Definition area_refusal (read_write : Z) w f (ppos : option Z) (count : Z) : Z :=
  let permission := security_file_permission w f (if read_write =? READ then MAY_READ else MAY_WRITE) in
  if OFFSET_MAX <? count then - EINVAL
  else match ppos with
  | None => permission
  | Some pos =>
      if offset_of f pos <? 0 then - EINVAL
      else if last_offset f <? offset_of f pos + count
      then if unsigned_offsets f then - EOVERFLOW else - EINVAL
      else permission
  end.

Lemma rw_verify_area_refusal rw w f ppos count :
  in_u64 count → match ppos with Some pos => in_s64 pos | None => True end →
  rw_verify_area rw w f ppos count = area_refusal rw w f ppos count.
Proof.
  intros Hc Hp. unfold rw_verify_area, area_refusal, offset_of, last_offset.
  destruct (Z.ltb_spec (s64 count) 0), (Z.ltb_spec OFFSET_MAX count);
    try (unfold OFFSET_MAX in *; wrap); try done.
  destruct ppos as [pos|]; [|done].
  destruct (unsigned_offsets f); cbn [negb].
  - pose proof (u64_range pos). destruct (Z.ltb_spec (u64 pos) 0); [unfold in_u64 in *; lia|].
    assert (Hu : pos < 0 → u64 (- pos) = 2 ^ 64 - u64 pos) by (intros ?; wrap).
    assert (Hs : 0 ≤ pos → u64 pos = pos) by (intros ?; wrap).
    destruct (Z.ltb_spec pos 0) as [Hneg|Hpos].
    + rewrite Hu by done.
      destruct (Z.leb_spec (2 ^ 64 - u64 pos) count), (Z.ltb_spec (2 ^ 64 - 1) (u64 pos + count));
        try lia; done.
    + rewrite Hs by done. unfold OFFSET_MAX, in_s64 in *.
      destruct (Z.ltb_spec (2 ^ 64 - 1) (pos + count)); [lia|]. by destruct (s64 (pos + count) <? 0).
  - destruct (Z.ltb_spec pos 0); [done|].
    destruct (Z.ltb_spec (s64 (pos + count)) 0), (Z.ltb_spec OFFSET_MAX (pos + count));
      try (unfold OFFSET_MAX in *; wrap); done.
Qed.

(** First the checks of the call, then those of the range. *)
Definition transfer_refusal (read_write : Z) w f (buf count : Z) (ppos : option Z) : Z :=
  let '(may, can) := if read_write =? READ then (FMODE_READ, FMODE_CAN_READ)
                     else (FMODE_WRITE, FMODE_CAN_WRITE) in
  if negb (has (f_mode f) may) then - EBADF
  else if negb (has (f_mode f) can) then - EINVAL
  else if negb (access_ok (W := W) (I := I) buf count) then - EFAULT
  else area_refusal read_write w f ppos count.

Definition plain_or_iter_read f (buf n : Z) (ppos : option Z) : kst (vstate W) (Z * option Z) :=
  match op_read (f_op f), op_read_iter (f_op f) with
  | Some op, _ => call_plain (Some op) f buf n ppos
  | None, Some _ => new_sync_read (I := I) f buf n ppos
  | None, None => mret (- EINVAL, ppos)
  end.
Definition plain_or_iter_write f (buf n : Z) (ppos : option Z) : kst (vstate W) (Z * option Z) :=
  match op_write (f_op f), op_write_iter (f_op f) with
  | Some op, _ => call_plain (Some op) f buf n ppos
  | None, Some _ => new_sync_write (I := I) f buf n ppos
  | None, None => mret (- EINVAL, ppos)
  end.

(** The offsets of a request of [n] bytes. *)
Definition in_range f (ppos : option Z) (n : Z) : Prop :=
  0 ≤ n ≤ MAX_RW_COUNT ∧
  match ppos with Some pos => 0 ≤ offset_of f pos ∧ offset_of f pos + n ≤ last_offset f | None => True end.

Lemma area_refusal_none rw w f ppos count :
  in_u64 count → area_refusal rw w f ppos count = 0 → in_range f ppos (Z.min count MAX_RW_COUNT).
Proof.
  intros Hc. unfold area_refusal, in_range.
  assert (0 < MAX_RW_COUNT) by (by vm_compute).
  destruct (Z.ltb_spec OFFSET_MAX count); [intros [=]|].
  assert (0 ≤ count) by apply Hc.
  destruct ppos as [pos|]; [|intros _; split; [lia | done]].
  destruct (Z.ltb_spec (offset_of f pos) 0); [intros [=]|].
  destruct (Z.ltb_spec (last_offset f) (offset_of f pos + count));
    [by destruct (unsigned_offsets f)|]. intros _. lia.
Qed.

Lemma transfer_refusal_area rw w f buf count ppos :
  transfer_refusal rw w f buf count ppos = 0 → area_refusal rw w f ppos count = 0.
Proof.
  unfold transfer_refusal. destruct (if rw =? READ then _ else _) as [may can].
  by destruct (has (f_mode f) may), (has (f_mode f) can), (access_ok buf count).
Qed.

Lemma cap_min n : (if MAX_RW_COUNT <? n then MAX_RW_COUNT else n) = Z.min n MAX_RW_COUNT.
Proof. destruct (Z.ltb_spec MAX_RW_COUNT n); lia. Qed.

(** C27. A read or write is either refused, with the first error that applies
    and no change at all, or it reaches the file system: then the request is
    for at most [MAX_RW_COUNT] bytes and lies within the offsets the file may
    have, signed or unsigned, whatever count and position the program passed (the
    sum is computed without wrapping around). *)
Theorem vfs_rw_request fid f buf count ppos s :
  in_u64 count → match ppos with Some pos => in_s64 pos | None => True end →
  let n := Z.min count MAX_RW_COUNT in
  (let e := transfer_refusal READ (world s) f buf count ppos in
   vfs_read (I := I) fid f buf count ppos s =
     if nz e then Some ((e, ppos), s)
     else (r ← plain_or_iter_read f buf n ppos; _ ← end_read fid r.1; mret r) s) ∧
  (let e := transfer_refusal WRITE (world s) f buf count ppos in
   vfs_write (I := I) fid f buf count ppos s =
     if nz e then Some ((e, ppos), s)
     else (_ ← file_start_write; r ← plain_or_iter_write f buf n ppos;
           _ ← end_write fid r.1; _ ← file_end_write; mret r) s) ∧
  (transfer_refusal READ (world s) f buf count ppos = 0 ∨
   transfer_refusal WRITE (world s) f buf count ppos = 0 → in_range f ppos n).
Proof.
  intros Hc Hp. cbn zeta. split; [|split].
  - unfold vfs_read, transfer_refusal. cbn [Z.eqb READ].
    destruct (has (f_mode f) FMODE_READ); [|done].
    destruct (has (f_mode f) FMODE_CAN_READ); [|done]. cbn [negb].
    destruct (access_ok buf count); [|done]. cbn [negb].
    rewrite kbind_get. cbn zeta. rewrite (rw_verify_area_refusal READ), cap_min by done.
    by destruct (nz _).
  - unfold vfs_write, transfer_refusal. change (WRITE =? READ) with false. cbn iota beta.
    destruct (has (f_mode f) FMODE_WRITE); [|done].
    destruct (has (f_mode f) FMODE_CAN_WRITE); [|done]. cbn [negb].
    destruct (access_ok buf count); [|done]. cbn [negb].
    rewrite kbind_get. cbn zeta. rewrite (rw_verify_area_refusal WRITE), cap_min by done.
    by destruct (nz _).
  - intros [Hr%transfer_refusal_area|Hr%transfer_refusal_area].
    + by apply (area_refusal_none READ (world s) f).
    + by apply (area_refusal_none WRITE (world s) f).
Qed.

(** On a machine with 64-bit words the high half of a position is shifted out
    altogether: the low word is the position. *)
Lemma pos_from_hilo_low high low : pos_from_hilo high low = s64 low.
Proof.
  unfold pos_from_hilo, HALF_LONG_BITS, BITS_PER_LONG. change (64 / 2) with 32.
  assert (Hz : s64 (Z.shiftl (s64 (Z.shiftl (s64 high) 32)) 32) = 0).
  { rewrite !Z.shiftl_mul_pow2 by lia. generalize (s64 high). clear. intros h. wrap. }
  by rewrite Hz, Z.lor_0_l.
Qed.

(** The 32-bit calls join two halves into the offset they were split from. *)
Lemma compat_pos_join o :
  in_s64 o → compat_pos (u64 o / 2 ^ 32) (u64 o mod 2 ^ 32) = o.
Proof.
  intros Ho. unfold compat_pos. rewrite <-(join_halves o Ho) at 3.
  rewrite (s64_small (u64 o / 2 ^ 32)); [done|].
  assert (0 ≤ u64 o / 2 ^ 32 < 2 ^ 32); [|wrap].
  pose proof (u64_range o) as Hr. unfold in_u64 in Hr.
  change (2 ^ 64) with (2 ^ 32 * 2 ^ 32) in Hr.
  split; [apply Z.div_pos; lia | apply Z.div_lt_upper_bound; lia].
Qed.
End requests.

(** ** Segments as a list

    An implementation of the iterators: the segments that are left, each an
    address with a length. *)
Module SegList.
Definition iter := list (Z * nat).

Definition count (i : iter) : Z := sumZ ((λ p, Z.of_nat p.2) <$> i).

Fixpoint advance (i : iter) (n : nat) : iter :=
  match i with
  | [] => []
  | (a, l) :: rest =>
      if decide (l <= n)%nat then advance rest (n - l) else (a + Z.of_nat n, (l - n)%nat) :: rest
  end.

Fixpoint truncate (i : iter) (n : Z) : iter :=
  match i with
  | [] => []
  | (a, l) :: rest =>
      let l := Z.min (Z.of_nat l) n in (a, Z.to_nat l) :: truncate rest (n - l)
  end.

Lemma count_cons a l i : count ((a, l) :: i) = Z.of_nat l + count i.
Proof. done. Qed.
Lemma count_nonneg i : 0 ≤ count i.
Proof. apply sumZ_nonneg, Forall_fmap, Forall_true. intros. cbn. lia. Qed.
Lemma advance_count i n : Z.of_nat n ≤ count i → count (advance i n) = count i - Z.of_nat n.
Proof.
  revert n. induction i as [|[a l] i IH]; intros n Hn; [cbn in *; unfold count, sumZ in *; cbn in *; lia|].
  rewrite count_cons in *. cbn. destruct (decide _); [rewrite IH by lia; lia|].
  rewrite count_cons. lia.
Qed.
Lemma advance_length i n : (length (advance i n) <= length i)%nat.
Proof.
  revert n. induction i as [|[a l] i IH]; intros n; [done|]. cbn.
  destruct (decide _); [etrans; [apply IH | lia] | done].
Qed.
Lemma truncate_count i n : 0 ≤ n → count (truncate i n) = Z.min n (count i).
Proof.
  revert n. induction i as [|[a l] i IH]; intros n Hn; cbn [truncate].
  - unfold count, sumZ. cbn. lia.
  - rewrite !count_cons, IH by lia. pose proof (count_nonneg i). lia.
Qed.
End SegList.

#[export] Instance seg_list_iter : IovIter SegList.iter.
Proof.
  refine {|
    iov_iter_ubuf b n := [(b, Z.to_nat n)];
    iov_iter_kvec b n := [(b, Z.to_nat n)];
    iov_iter_count := SegList.count;
    iter_iov_addr i := default 0 (fst <$> head i);
    iter_iov_len i := Z.of_nat (default 0%nat (snd <$> head i));
    iov_iter_advance i n := SegList.advance i (Z.to_nat n);
    iov_iter_truncate := SegList.truncate;
    iter_segs := length;
  |}.
  - intros b n Hn. rewrite SegList.count_cons. unfold SegList.count, sumZ. cbn. lia.
  - intros [|[a l] i] _; cbn; [split; [done|]; apply SegList.count_nonneg|].
    rewrite SegList.count_cons. pose proof (SegList.count_nonneg i). lia.
  - intros i n Hn. rewrite SegList.advance_count; lia.
  - intros [|[a l] i] Hc; [by vm_compute in Hc|]. cbn. rewrite decide_True by lia.
    pose proof (SegList.advance_length i (Z.to_nat (Z.of_nat l) - l)). lia.
  - apply SegList.truncate_count.
Defined.

(** ** Runs

    Two devices on the small world: table 10 has plain methods (reads give
    zeros, writes are swallowed with a signal), table 11 iterates and gives at most 100
    bytes at a time.  Both move the position by what they transferred. *)
Module RWRuns.
Definition disk : Type := gmap Z Z * gmap Z inode.

Definition moved (pos n : Z) : Z := Z.min (pos + n) OFFSET_MAX.

Definition zero_read (f : file) (buf len : Z) (ppos : option Z) (o : outer disk)
    : Z * option Z * outer disk :=
  let '(rest, w) := copy_to_user (o_world o) buf (replicate (Z.to_nat len) 0) in
  let o := Outer w (o_ioac o) (o_signals o) (o_events o) in
  if nz rest then (- EFAULT, ppos, o)
  else (len, (λ p, moved p len) <$> ppos, o).
(** A device with a reader that is gone: the writer gets a signal. *)
Definition SIGPIPE : Z := 13.
Definition null_write (f : file) (buf len : Z) (ppos : option Z) (o : outer disk)
    : Z * option Z * outer disk :=
  (len, (λ p, moved p len) <$> ppos, Outer (o_world o) (o_ioac o) (SIGPIPE :: o_signals o) (o_events o)).
Definition chunk_iter (f : file) (k : kiocb) (i : SegList.iter) (w : outer disk)
    : Z * Z * SegList.iter * outer disk :=
  let n := Z.min 100 (SegList.count i) in
  (n, moved (ki_pos k) n, SegList.advance i (Z.to_nat n), w).

(** The vector: pairs of 64-bit words in user memory. *)
Fixpoint segments (n : nat) (bs : list Z) : SegList.iter :=
  match n with
  | O => []
  | S n => (le_value (take 8 bs), Z.to_nat (le_value (take 8 (drop 8 bs)))) :: segments n (drop 16 bs)
  end.
Definition import (rw : Z) (w : disk) (vec vlen : Z) : Z + SegList.iter :=
  if (vlen <? 0) || (1024 <? vlen) then inl (- EINVAL)
  else let '(rest, bs) := copy_from_user w vec (16 * vlen) in
    if nz rest then inl (- EFAULT)
    else inr (SegList.truncate (segments (Z.to_nat vlen) bs) MAX_RW_COUNT).

#[export] Instance devices : FileOps disk SegList.iter := {|
  op_read op := if op =? 10 then Some zero_read else None;
  op_write op := if op =? 10 then Some null_write else None;
  op_read_iter op := if op =? 11 then Some chunk_iter else None;
  op_write_iter op := if op =? 11 then Some chunk_iter else None;
  iocb_flags f := 0;
  kiocb_set_rw_flags k flags := if flags =? 0 then (0, k) else (- EOPNOTSUPP, k);
  security_file_permission w f mask := 0;
  access_ok b n := (0 <=? b) && (b + n <=? 2 ^ 47);
  import_iovec := import;
|}.

Lemma moved_ok f p n : 0 ≤ n → pos_ok f (Some p) → pos_ok f (Some (moved p n)).
Proof.
  unfold pos_ok, file_wf, moved, unsigned_offsets, in_s64, OFFSET_MAX. cbn [set_f_pos f_pos f_mode].
  intros Hn [Hr Hu]. split; [lia|]. intros H'. specialize (Hu H'). lia.
Qed.

#[export] Instance devices_laws : FileLaws disk SegList.iter.
Proof.
  split.
  - intros op m Hop. assert (m = zero_read ∨ m = null_write) as [-> | ->].
    { cbn in Hop. destruct (op =? 10), Hop; simplify_eq; auto. }
    + intros f buf len ppos w Hlen Hp. unfold zero_read.
      destruct (copy_to_user (o_world w) buf _) as [rest w']. destruct (nz rest); cbn [fst snd].
      * split; [done|]. split; [done|]. unfold EFAULT. lia.
      * destruct ppos as [p|]; cbn [fmap option_fmap option_map]; [|done].
        split; [by apply moved_ok | done].
    + intros f buf len ppos w Hlen Hp. cbn [null_write fst snd].
      destruct ppos as [p|]; cbn [fmap option_fmap option_map]; [|done].
      split; [by apply moved_ok | done].
  - intros op m Hop. assert (m = chunk_iter) as ->.
    { cbn in Hop. destruct (op =? 11), Hop; by simplify_eq. }
    intros f k i w Hc Hp. cbn [chunk_iter fst snd]. change (iov_iter_count i) with (SegList.count i) in *.
    split; [apply moved_ok; [lia | done]|]. unfold EIOCBQUEUED. lia.
  - intros k flags. cbn. by destruct (flags =? 0).
  - done.
  - intros rw w vec vlen. cbn [import_iovec devices]. unfold import.
    destruct (_ || _); [done|]. destruct (copy_from_user w vec _) as [rest bs].
    destruct (nz rest); [done|]. cbn [iov_iter_count seg_list_iter].
    assert (0 ≤ MAX_RW_COUNT) by (by vm_compute). rewrite SegList.truncate_count by done. pose proof (SegList.count_nonneg (segments (Z.to_nat vlen) bs)).
    lia.
Qed.

(** Two segments of 8 and 3 bytes described at 4096. *)
Definition w0 : disk :=
  ((copy_to_user (zero_page 4096 96) 4096
      ([4160; 8; 4176; 3] ≫= bytes_of_u64)).2,
   {[ 50 := Inode 0x2000 0 1 OFFSET_MAX false false ]}).
Definition rdwr : Z :=
  FMODE_READ + FMODE_WRITE + FMODE_PREAD + FMODE_PWRITE + FMODE_CAN_READ + FMODE_CAN_WRITE.
Definition s0 : vstate disk :=
  VState {[ 1 := File rdwr 0 40 5 10 50 50; 2 := File rdwr 0 7 0 11 50 50 ]}
    {[ 3 := 1; 4 := 2 ]} w0 (TaskIO 0 0 0 0) (2 ^ 64 - 1) [] [] 0.

Definition result {A} (r : option (A * vstate disk)) : option (A * list Z * task_io) :=
  '(a, s) ← r; Some (a, (λ f, f_pos f.2) <$> map_to_list (files s), ioac s).

Example read_moves :
  result (run_call (CRead 3 4160 16) s0) = Some (16, [7; 56], TaskIO 16 0 1 0).
Proof. vm_compute. reflexivity. Qed.
Example pread_stays :
  result (run_call (CPread 3 4160 16 500) s0) = Some (16, [7; 40], TaskIO 16 0 1 0).
Proof. vm_compute. reflexivity. Qed.
Example read_fault :
  result (run_call (CRead 3 100 16) s0) = Some (- EFAULT, [7; 40], TaskIO 0 0 1 0).
Proof. vm_compute. reflexivity. Qed.
Example readv_loops :
  result (run_call (CReadv 3 4096 2) s0) = Some (11, [7; 51], TaskIO 11 0 1 0).
Proof. vm_compute. reflexivity. Qed.
Example readv_iterates :
  result (run_call (CReadv 4 4096 2) s0) = Some (11, [18; 40], TaskIO 11 0 1 0).
Proof. vm_compute. reflexivity. Qed.
Example preadv2_minus_one :
  result (run_call (CPreadv2 3 4096 2 (2 ^ 64 - 1) (2 ^ 64 - 1) 0) s0)
    = result (run_call (CReadv 3 4096 2) s0).
Proof. vm_compute. reflexivity. Qed.

Lemma s0_wf : rw_wf (I := SegList.iter) s0.
Proof.
  intros i f Hf. cbn in Hf.
  apply lookup_insert_Some in Hf as [[_ <-]|[_ [_ <-]%lookup_singleton_Some]];
    (split; [split; [|intros _]; apply (bool_decide_unpack _); by vm_compute|]);
    (split; intros _); [left | left | right | right]; eexists; reflexivity.
Qed.

Lemma rw_call_spec_witness :
  ∃ r s', run_call (I := SegList.iter) (CReadv 3 4096 2) s0 = Some (r, s') ∧
    rw_effect (call_fd (CReadv 3 4096 2)) false r s0 s' ∧ rw_wf (I := SegList.iter) s'.
Proof. exact (rw_call_spec (CReadv 3 4096 2) s0 s0_wf Logic.I). Defined.

Lemma vfs_rw_request_witness :
  vfs_read (I := SegList.iter) 1 (File rdwr 0 40 5 10 50 50) 4160 16 (Some (2 ^ 63 - 9)) s0
    = Some ((- EINVAL, Some (2 ^ 63 - 9)), s0).
Proof.
  rewrite (proj1 (vfs_rw_request 1 (File rdwr 0 40 5 10 50 50) 4160 16 (Some (2 ^ 63 - 9)) s0
                    ltac:(apply (bool_decide_unpack _); by vm_compute)
                    ltac:(apply (bool_decide_unpack _); by vm_compute))).
  vm_compute. reflexivity.
Defined.
End RWRuns.
