(* ===== verification/CopyRange.v ===== *)
(** * CopyRange: write limits, sendfile and copy_file_range

    The last part of [fs/read_write.c]: the checks a file system makes before
    a write ([generic_write_checks]), the checks before a copy
    ([generic_copy_file_checks]) and the two families of system calls that
    copy between open files.  Both may name the same open file twice, so the
    positions are stores to the files of [Vfs].  Splicing and the methods of a
    file system are the class [CopyOps]. *)

From S2P Require Import Prelude UserMem Vfs Seek ReadWrite.

Definition RLIM_INFINITY : Z := 2 ^ 64 - 1.
Definition SIGXFSZ : Z := 25.
Definition IOCB_NOWAIT : Z := 0x8.
Definition IOCB_APPEND : Z := 0x10.
Definition IOCB_DIRECT : Z := 0x20000.
Definition SPLICE_F_NONBLOCK : Z := 2.
Definition COPY_FILE_SPLICE : Z := 1.
Definition REMAP_FILE_CAN_SHORTEN : Z := 2.

(** ** Write checks *)

Section limits.
Context {W : Type} `{HV : VfsWorld W}.
Implicit Types (f : file) (s : vstate W).

(** The result with the count that is left. *)
Definition generic_write_check_limits f (pos count : Z) : kst (vstate W) (Z * Z) :=
  s ← kget;
  let inode := inode_at (world s) (f_mapping_host f) in
  let max_size := s_maxbytes inode in
  let limit := s64 (rlim_fsize s) in
  if negb (u64 limit =? RLIM_INFINITY) && (limit <=? pos) then
    _ ← kmodify (send_sig SIGXFSZ); mret (- EFBIG, count)
  else
    let count := if negb (u64 limit =? RLIM_INFINITY) then Z.min count (s64 (limit - pos)) else count in
    let max_size := if negb (has (f_flags f) O_LARGEFILE) then MAX_NON_LFS else max_size in
    if max_size <=? pos then mret (- EFBIG, count)
    else mret (0, Z.min count (s64 (max_size - pos))).

Definition generic_write_checks_count f (iocb : kiocb) (count : Z)
    : kst (vstate W) (Z * kiocb * Z) :=
  s ← kget;
  let inode := inode_at (world s) (f_mapping_host f) in
  if IS_SWAPFILE inode then mret (- ETXTBSY, iocb, count)
  else if negb (nz count) then mret (0, iocb, count)
  else
    let iocb := if has (ki_flags iocb) IOCB_APPEND then Kiocb (i_size inode) (ki_flags iocb) else iocb in
    if has (ki_flags iocb) IOCB_NOWAIT &&
       negb (has (ki_flags iocb) IOCB_DIRECT || has (f_mode f) FMODE_BUF_WASYNC)
    then mret (- EINVAL, iocb, count)
    else
      r ← generic_write_check_limits f (ki_pos iocb) count;
      mret (r.1, iocb, r.2).

Definition generic_write_checks {I} `{HI : IovIter I} f (iocb : kiocb) (from : I)
    : kst (vstate W) (Z * kiocb * I) :=
  r ← generic_write_checks_count f iocb (s64 (iov_iter_count from));
  let '(ret, iocb, count) := r in
  if nz ret then mret (ret, iocb, from)
  else
    let from := iov_iter_truncate from (u64 count) in
    mret (s64 (iov_iter_count from), iocb, from).

Definition generic_file_rw_checks (w : W) (file_in file_out : file) : Z :=
  let inode_in := inode_at w (file_inode file_in) in
  let inode_out := inode_at w (file_inode file_out) in
  if S_ISDIR (i_mode inode_in) || S_ISDIR (i_mode inode_out) then - EISDIR
  else if negb (S_ISREG (i_mode inode_in)) || negb (S_ISREG (i_mode inode_out)) then - EINVAL
  else if negb (has (f_mode file_in) FMODE_READ) || negb (has (f_mode file_out) FMODE_WRITE)
          || has (f_flags file_out) O_APPEND then - EBADF
  else 0.
End limits.

(** ** The parameters of the copies

    [op_copy_file_range op] is the address of the method in the table at [op]
    (0 when it is not wired up), [call_copy addr] the code at that address. *)
Class CopyOps (W : Type) := {
  op_copy_file_range : Z → Z;
  call_copy : Z → file → Z → file → Z → Z → Z → W → Z * W;
  op_remap_file_range : Z → option (file → Z → file → Z → Z → Z → W → Z * W);
  do_splice_direct : file → Z → file → Z → Z → Z → W → Z * Z * Z * W;
  splice_file_to_pipe : file → Z → Z → Z → Z → W → Z * Z * W;
  get_pipe_info : file → option Z;
}.

Section copy.
Context {W I : Type}
  `{HU : UserAccess W, HV : !VfsWorld W, HI : IovIter I, HF : !FileOps W I, HC : !CopyOps W}.
Implicit Types (f : file) (s : vstate W).

Definition on_world {A} (g : W → A * W) : kst (vstate W) A := λ s,
  let '(a, w) := g (world s) in Some (a, set_world w s).

(** Splicing between two files: the result and both positions. *)
Definition splice_direct file_in pos_in file_out pos_out (len flags : Z)
    : kst (vstate W) (Z * Z * Z) :=
  on_world (do_splice_direct file_in pos_in file_out pos_out len flags).

Definition generic_copy_file_range file_in pos_in file_out pos_out (len flags : Z)
    : kst (vstate W) Z :=
  r ← splice_direct file_in pos_in file_out pos_out
        (if MAX_RW_COUNT <? len then MAX_RW_COUNT else len) 0;
  mret r.1.1.

(** The result with the count that is left. *)
Definition generic_copy_file_checks file_in pos_in file_out pos_out (req_count flags : Z)
    : kst (vstate W) (Z * Z) :=
  s ← kget;
  let inode_in := inode_at (world s) (file_inode file_in) in
  let inode_out := inode_at (world s) (file_inode file_out) in
  let ret := generic_file_rw_checks (world s) file_in file_out in
  if nz ret then mret (ret, req_count)
  else if negb (has flags COPY_FILE_SPLICE) &&
    (if nz (op_copy_file_range (f_op file_out))
     then negb (op_copy_file_range (f_op file_in) =? op_copy_file_range (f_op file_out))
     else negb (i_sb inode_in =? i_sb inode_out))
  then mret (- EXDEV, req_count)
  else if IS_IMMUTABLE inode_out then mret (- EPERM, req_count)
  else if IS_SWAPFILE inode_in || IS_SWAPFILE inode_out then mret (- ETXTBSY, req_count)
  else if (u64 (pos_in + req_count) <? u64 pos_in) || (u64 (pos_out + req_count) <? u64 pos_out)
  then mret (- EOVERFLOW, req_count)
  else
    let size_in := i_size inode_in in
    let count := if size_in <=? pos_in then 0 else Z.min req_count (u64 (size_in - pos_in)) in
    r ← generic_write_check_limits file_out pos_out (s64 count);
    let '(ret, count) := r in
    let count := u64 count in
    if nz ret then mret (ret, req_count)
    else if (file_inode file_in =? file_inode file_out) &&
            (u64 pos_in <? u64 (pos_out + count)) && (u64 pos_out <? u64 (pos_in + count))
    then mret (- EINVAL, req_count)
    else mret (0, count).

(** What carries out a copy that was admitted: the method of the file system,
    a clone, or a splice. *)
Definition copy_by_method file_in pos_in file_out pos_out (len flags : Z) : kst (vstate W) Z :=
  s ← kget;
  let splice := has flags COPY_FILE_SPLICE in
  if negb splice && nz (op_copy_file_range (f_op file_out)) then
    on_world (call_copy (op_copy_file_range (f_op file_out)) file_in pos_in file_out pos_out len flags)
  else
    let same_sb :=
      i_sb (inode_at (world s) (file_inode file_in)) =? i_sb (inode_at (world s) (file_inode file_out)) in
    match op_remap_file_range (f_op file_in) with
    | Some remap =>
        if negb splice && same_sb then
          ret ← on_world (remap file_in pos_in file_out pos_out
                            (Z.min MAX_RW_COUNT (s64 len)) REMAP_FILE_CAN_SHORTEN);
          if 0 <? ret then mret ret
          else generic_copy_file_range file_in pos_in file_out pos_out len flags
        else generic_copy_file_range file_in pos_in file_out pos_out len flags
    | None => generic_copy_file_range file_in pos_in file_out pos_out len flags
    end.

Definition vfs_copy_file_range (in_id : Z) file_in pos_in (out_id : Z) file_out pos_out (len flags : Z)
    : kst (vstate W) Z :=
  if nz (Z.land flags (Z.lnot COPY_FILE_SPLICE)) then mret (- EINVAL)
  else
    r ← generic_copy_file_checks file_in pos_in file_out pos_out len flags;
    let '(ret, len) := r in
    if nz ret then mret ret
    else
      s ← kget;
      let ret := rw_verify_area READ (world s) file_in (Some pos_in) len in
      if nz ret then mret ret
      else
        let ret := rw_verify_area WRITE (world s) file_out (Some pos_out) len in
        if nz ret then mret ret
        else if len =? 0 then mret 0
        else
          _ ← file_start_write;
          ret ← copy_by_method file_in pos_in file_out pos_out len flags;
          _ ← (if 0 <? ret then
                 _ ← kmodify (notify (FsAccess in_id));
                 _ ← kmodify (add_rchar ret);
                 _ ← kmodify (notify (FsModify out_id));
                 kmodify (add_wchar ret)
               else mret tt);
          _ ← kmodify inc_syscr;
          _ ← kmodify inc_syscw;
          _ ← file_end_write;
          mret ret.

(** ** User offsets *)

Definition get_loff (p : Z) (w : W) : option Z :=
  let '(rest, bs) := copy_from_user w p 8 in
  if nz rest then None else Some (s64 (le_value bs)).
Definition put_loff (pos p : Z) : kst (vstate W) bool :=
  on_world (λ w, let '(rest, w) := copy_to_user w p (bytes_of_u64 pos) in (negb (nz rest), w)).

(** The offset of one side of a copy: read from user memory, or the position
    of the file. *)
Definition copy_offset (off : Z) f (w : W) : option Z :=
  if nz off then get_loff off w else Some (f_pos f).
(** The store of the new offset; the result when the store fails. *)
Definition store_offset (off fid pos ret : Z) : kst (vstate W) Z :=
  if nz off then
    ok ← put_loff pos off; mret (if (ok : bool) then ret else - EFAULT)
  else
    _ ← kmodify (store_f_pos fid pos); mret ret.

Definition sys_copy_file_range (fd_in off_in fd_out off_out len flags : Z) : kst (vstate W) Z :=
  s ← kget;
  match fdget fd_in s with
  | None => mret (- EBADF)
  | Some (in_id, file_in) =>
      match fdget fd_out s with
      | None => mret (- EBADF)
      | Some (out_id, file_out) =>
          match copy_offset off_in file_in (world s), copy_offset off_out file_out (world s) with
          | Some pos_in, Some pos_out =>
              if negb (flags =? 0) then mret (- EINVAL)
              else
                ret ← vfs_copy_file_range in_id file_in pos_in out_id file_out pos_out len flags;
                if 0 <? ret then
                  let pos_in := s64 (pos_in + ret) in
                  let pos_out := s64 (pos_out + ret) in
                  ret ← store_offset off_in in_id pos_in ret;
                  store_offset off_out out_id pos_out ret
                else mret ret
          | _, _ => mret (- EFAULT)
          end
      end
  end.

(** ** sendfile *)

(** The transfer itself: into a pipe, or file to file under write
    protection.  An error of the range check ends the call at once. *)
Definition sendfile_transfer file_in (pos : Z) file_out (out_pos count : Z)
    : kst (vstate W) (eres (Z * Z * Z)) :=
  match get_pipe_info file_out with
  | None =>
      s ← kget;
      let retval := rw_verify_area WRITE (world s) file_out (Some out_pos) count in
      if retval <? 0 then mret (inl retval)
      else
        _ ← file_start_write;
        r ← splice_direct file_in pos file_out out_pos count 0;
        _ ← file_end_write;
        mret (inr r)
  | Some opipe =>
      let fl := if has (f_flags file_out) O_NONBLOCK then SPLICE_F_NONBLOCK else 0 in
      r ← on_world (splice_file_to_pipe file_in opipe pos count fl);
      mret (inr (r.1, r.2, out_pos))
  end.

(** After the transfer: accounting, the positions (that of the output first),
    and the final test against the limit.  [ppos] is the caller's position or
    the null pointer. *)
Definition sendfile_commit (in_id out_id : Z) (ppos : option Z) (max : Z) (r : Z * Z * Z)
    : kst (vstate W) (Z * option Z) :=
  let '(retval, pos, out_pos) := r in
  ppos ← (if 0 <? retval then
            _ ← kmodify (add_rchar retval);
            _ ← kmodify (add_wchar retval);
            _ ← kmodify (notify (FsAccess in_id));
            _ ← kmodify (notify (FsModify out_id));
            _ ← kmodify (store_f_pos out_id out_pos);
            match ppos with
            | Some _ => mret (Some pos)
            | None => _ ← kmodify (store_f_pos in_id pos); mret None
            end
          else mret ppos);
  _ ← kmodify inc_syscr;
  _ ← kmodify inc_syscw;
  mret (if max <? pos then - EOVERFLOW else retval, ppos).

Definition do_sendfile (out_fd in_fd : Z) (ppos : option Z) (count max : Z)
    : kst (vstate W) (Z * option Z) :=
  s ← kget;
  match fdget in_fd s with
  | None => mret (- EBADF, ppos)
  | Some (in_id, file_in) =>
      if negb (has (f_mode file_in) FMODE_READ) then mret (- EBADF, ppos)
      else if (if ppos is Some _ then negb (has (f_mode file_in) FMODE_PREAD) else false)
      then mret (- ESPIPE, ppos)
      else
        let pos := default (f_pos file_in) ppos in
        let retval := rw_verify_area READ (world s) file_in (Some pos) count in
        if retval <? 0 then mret (retval, ppos)
        else
          let count := if MAX_RW_COUNT <? count then MAX_RW_COUNT else count in
          match fdget out_fd s with
          | None => mret (- EBADF, ppos)
          | Some (out_id, file_out) =>
              if negb (has (f_mode file_out) FMODE_WRITE) then mret (- EBADF, ppos)
              else
                let in_inode := inode_at (world s) (file_inode file_in) in
                let out_inode := inode_at (world s) (file_inode file_out) in
                let max := if negb (nz max) then Z.min (s_maxbytes in_inode) (s_maxbytes out_inode)
                           else max in
                let over := u64 max <? u64 (pos + count) in
                if over && (max <=? pos) then mret (- EOVERFLOW, ppos)
                else
                  let count := if over then u64 (max - pos) else count in
                  r ← sendfile_transfer file_in pos file_out (f_pos file_out) count;
                  match r with
                  | inl retval => mret (retval, ppos)
                  | inr r => sendfile_commit in_id out_id ppos max r
                  end
          end
  end.

(** The entry with a 64-bit offset in user memory; [max] is 0 for
    [sendfile64], [MAX_NON_LFS] for the old call. *)
Definition sendfile_off64 (out_fd in_fd offset count max : Z) : kst (vstate W) Z :=
  if nz offset then
    s ← kget;
    match get_loff offset (world s) with
    | None => mret (- EFAULT)
    | Some pos =>
        r ← do_sendfile out_fd in_fd (Some pos) count max;
        ok ← put_loff (default pos r.2) offset;
        mret (if (ok : bool) then r.1 else - EFAULT)
    end
  else r ← do_sendfile out_fd in_fd None count 0; mret r.1.

Definition sys_sendfile (out_fd in_fd offset count : Z) : kst (vstate W) Z :=
  sendfile_off64 out_fd in_fd offset count MAX_NON_LFS.
Definition sys_sendfile64 (out_fd in_fd offset count : Z) : kst (vstate W) Z :=
  sendfile_off64 out_fd in_fd offset count 0.

(** The 32-bit entry: a 32-bit offset, stored back truncated. *)
Definition compat_sendfile (out_fd in_fd offset count : Z) : kst (vstate W) Z :=
  if nz offset then
    s ← kget;
    let '(rest, bs) := copy_from_user (world s) offset 4 in
    if nz rest then mret (- EFAULT)
    else
      let pos := s32 (le_value bs) in
      r ← do_sendfile out_fd in_fd (Some pos) count MAX_NON_LFS;
      e ← on_world (put_user_u32 (default pos r.2) offset);
      mret (if nz e then - EFAULT else r.1)
  else r ← do_sendfile out_fd in_fd None count 0; mret r.1.
Definition compat_sendfile64 (out_fd in_fd offset count : Z) : kst (vstate W) Z :=
  sendfile_off64 out_fd in_fd offset count 0.
End copy.

(** ** Where a write has to end

    In unbounded integers: the file size limit of the process (a limit of
    [2^63] or more that is not "unlimited" is negative as a [loff_t], and
    refuses everything), and the limit of the file system, or 2 GiB for a file
    opened without [O_LARGEFILE]. *)
Definition fsize_limit {W} (s : vstate W) : Z :=
  if rlim_fsize s =? RLIM_INFINITY then 2 ^ 64
  else if OFFSET_MAX <? rlim_fsize s then 0 else rlim_fsize s.
Definition size_limit {W} `{VfsWorld W} (f : file) (s : vstate W) : Z :=
  if has (f_flags f) O_LARGEFILE then s_maxbytes (inode_at (world s) (f_mapping_host f))
  else MAX_NON_LFS.
Definition write_top {W} `{VfsWorld W} (f : file) (s : vstate W) : Z :=
  Z.min (fsize_limit s) (size_limit f s).

Ltac zpair_eq :=
  match goal with |- Some ((0, ?a), _) = Some ((0, ?b), _) => replace a with b by lia end.

Section limit_facts.
Context {W : Type} `{HV : VfsWorld W}.
Implicit Types (f : file) (s : vstate W).

Lemma size_limit_range f s : 0 ≤ size_limit f s ≤ OFFSET_MAX.
Proof.
  unfold size_limit. destruct (inode_at_wf (world s) (f_mapping_host f)) as [_ Hm].
  destruct (has _ _); [exact Hm | split; by vm_compute].
Qed.

Lemma write_check_limits_run f pos count s :
  0 ≤ pos ≤ OFFSET_MAX → 0 ≤ count ≤ OFFSET_MAX → in_u64 (rlim_fsize s) →
  ∃ n, generic_write_check_limits f pos count s =
    if fsize_limit s <=? pos then Some ((- EFBIG, n), send_sig SIGXFSZ s)
    else if size_limit f s <=? pos then Some ((- EFBIG, n), s)
    else Some ((0, Z.min count (write_top f s - pos)), s).
Proof.
  intros Hpos Hc Hrl. unfold generic_write_check_limits, write_top, fsize_limit.
  rewrite kbind_get. cbn zeta. rewrite u64_s64, (u64_small (rlim_fsize s)) by done.
  pose proof (size_limit_range f s) as Hsz. unfold size_limit in *.
  set (top := if has (f_flags f) O_LARGEFILE then _ else MAX_NON_LFS) in *.
  assert (Htop : (if negb (has (f_flags f) O_LARGEFILE) then MAX_NON_LFS
                  else s_maxbytes (inode_at (world s) (f_mapping_host f))) = top)
    by (unfold top; by destruct (has _ _)).
  rewrite Htop. clearbody top. clear Htop.
  assert (Hsub : ∀ a, 0 ≤ a ≤ OFFSET_MAX → s64 (a - pos) = a - pos)
    by (intros a Ha; unfold OFFSET_MAX in *; wrap).
  rewrite (Hsub top) by done. unfold OFFSET_MAX in *.
  destruct (Z.eqb_spec (rlim_fsize s) RLIM_INFINITY) as [Hinf|Hfin]; cbn [negb andb].
  - exists count. destruct (Z.leb_spec (2 ^ 64) pos); [lia|].
    destruct (Z.leb_spec top pos); [done|]. rewrite kret_run. by zpair_eq.
  - unfold RLIM_INFINITY, in_u64 in *.
    destruct (Z.ltb_spec (2 ^ 63 - 1) (rlim_fsize s)) as [Hbig|Hsmall].
    + exists count. destruct (Z.leb_spec (s64 (rlim_fsize s)) pos); [|wrap].
      destruct (Z.leb_spec 0 pos); [done | lia].
    + assert (Hl : s64 (rlim_fsize s) = rlim_fsize s) by wrap. rewrite Hl.
      destruct (Z.leb_spec (rlim_fsize s) pos); [by exists count|].
      rewrite (Hsub (rlim_fsize s)) by lia.
      exists (Z.min count (rlim_fsize s - pos)).
      destruct (Z.leb_spec top pos); [done|]. rewrite kret_run. by zpair_eq.
Qed.

(** A limit of [2^63] bytes or more other than "unlimited" refuses every
    write, at whatever position. *)
Lemma huge_fsize_limit_refuses f pos count s :
  0 ≤ pos ≤ OFFSET_MAX → 0 ≤ count ≤ OFFSET_MAX → 2 ^ 63 ≤ rlim_fsize s < RLIM_INFINITY →
  ∃ n, generic_write_check_limits f pos count s = Some ((- EFBIG, n), send_sig SIGXFSZ s).
Proof.
  intros Hpos Hc Hrl. unfold RLIM_INFINITY in Hrl.
  destruct (write_check_limits_run f pos count s Hpos Hc) as [n Hrun]; [unfold in_u64; lia|].
  exists n. rewrite Hrun. unfold fsize_limit, RLIM_INFINITY, OFFSET_MAX.
  destruct (Z.eqb_spec (rlim_fsize s) (2 ^ 64 - 1)); [lia|].
  destruct (Z.ltb_spec (2 ^ 63 - 1) (rlim_fsize s)); [|lia].
  by destruct (Z.leb_spec 0 pos); [|lia].
Qed.

Context {I : Type} `{HI : IovIter I}.

(** The position a write request starts at. *)
Definition write_pos f (iocb : kiocb) s : Z :=
  if has (ki_flags iocb) IOCB_APPEND then i_size (inode_at (world s) (f_mapping_host f))
  else ki_pos iocb.
(** Requests that must not block need direct I/O or a file that supports it. *)
Definition nowait_refused f (iocb : kiocb) : bool :=
  has (ki_flags iocb) IOCB_NOWAIT &&
    negb (has (ki_flags iocb) IOCB_DIRECT || has (f_mode f) FMODE_BUF_WASYNC).

Lemma write_pos_range f iocb s :
  0 ≤ ki_pos iocb ≤ OFFSET_MAX → 0 ≤ write_pos f iocb s ≤ OFFSET_MAX.
Proof.
  intros Hk. unfold write_pos. destruct (has _ _); [|done].
  apply (inode_at_wf (world s) (f_mapping_host f)).
Qed.

(** The check of a request that is not empty. *)
Lemma write_checks_count_run f iocb n s :
  0 ≤ ki_pos iocb ≤ OFFSET_MAX → 0 < n ≤ OFFSET_MAX → in_u64 (rlim_fsize s) →
  ∃ r iocb' n' s', generic_write_checks_count f iocb n s = Some ((r, iocb', n'), s') ∧
    r ≤ 0 ∧
    (r = 0 ↔ IS_SWAPFILE (inode_at (world s) (f_mapping_host f)) = false ∧
       nowait_refused f iocb = false ∧ write_pos f iocb s < write_top f s) ∧
    (r = 0 → n' = Z.min n (write_top f s - write_pos f iocb s) ∧
       ki_pos iocb' = write_pos f iocb s ∧ s' = s) ∧
    (s' = s ∨ r = - EFBIG ∧ fsize_limit s ≤ write_pos f iocb s ∧ s' = send_sig SIGXFSZ s).
Proof.
  intros Hk Hn Hrl. pose proof (write_pos_range f iocb s Hk) as Hpos.
  unfold generic_write_checks_count. rewrite kbind_get. cbn zeta.
  destruct (IS_SWAPFILE _).
  { eexists _, _, _, _. split; [reflexivity|]. split; [done|].
    split; [split; [done | by intros []]|]. split; [done | by left]. }
  assert (Hnz : nz n = true) by (unfold nz; destruct (Z.eqb_spec n 0); [lia | done]).
  rewrite Hnz. cbn [negb].
  set (iocb1 := if has (ki_flags iocb) IOCB_APPEND then _ else iocb).
  assert (Hp1 : ki_pos iocb1 = write_pos f iocb s) by (unfold iocb1, write_pos; by destruct (has _ _)).
  assert (Hf1 : ki_flags iocb1 = ki_flags iocb) by (unfold iocb1; by destruct (has _ _)).
  rewrite Hf1. fold (nowait_refused f iocb).
  destruct (nowait_refused f iocb).
  { eexists _, _, _, _. split; [reflexivity|]. split; [done|].
    split; [split; [done | by intros (_ & [=] & _)]|]. split; [done | by left]. }
  rewrite Hp1. unfold write_top.
  destruct (write_check_limits_run f (write_pos f iocb s) n s Hpos ltac:(lia) Hrl) as [m Hrun].
  unfold write_top in Hrun.
  destruct (Z.leb_spec (fsize_limit s) (write_pos f iocb s));
    [|destruct (Z.leb_spec (size_limit f s) (write_pos f iocb s))];
    rewrite (kbind_some _ _ _ _ _ Hrun), kret_run; cbn [fst snd];
    (eexists _, _, _, _; split; [reflexivity|]); (split; [done|]).
  - split; [split; [done | lia]|]. split; [done | by right].
  - split; [split; [done | lia]|]. split; [done | by left].
  - split; [split; [intros _; split_and!; [done | done | lia] | done]|].
    split; [done | by left].
Qed.

(** C32. A write that passes the checks starts at the end of the file when it
    appends and at its own position otherwise, and what is left of it is the
    largest part of the request that ends within the file size limit of the
    process and the limit of the file system: exactly the non-empty requests
    on a file that is no swap file, that may block if they have to and start
    below both limits pass.  [SIGXFSZ] is sent only to a process at its own
    limit, together with [-EFBIG]. *)
Theorem generic_write_checks_spec f iocb (from : I) s :
  0 ≤ ki_pos iocb ≤ OFFSET_MAX → 0 ≤ iov_iter_count from ≤ OFFSET_MAX →
  in_u64 (rlim_fsize s) →
  let n := iov_iter_count from in
  let pos := write_pos f iocb s in
  ∃ ret iocb' from' s', generic_write_checks f iocb from s = Some ((ret, iocb', from'), s') ∧
    (0 < ret ↔ IS_SWAPFILE (inode_at (world s) (f_mapping_host f)) = false ∧ 0 < n ∧
       nowait_refused f iocb = false ∧ pos < write_top f s) ∧
    (0 < ret → ret = Z.min n (write_top f s - pos) ∧ iov_iter_count from' = ret ∧
       ki_pos iocb' = pos ∧ s' = s) ∧
    (s' = s ∨ ret = - EFBIG ∧ fsize_limit s ≤ pos ∧ s' = send_sig SIGXFSZ s).
Proof.
  intros Hk Hn Hrl. cbn zeta. unfold generic_write_checks.
  assert (Hs : s64 (iov_iter_count from) = iov_iter_count from) by (unfold OFFSET_MAX in Hn; wrap).
  rewrite Hs. destruct (Z.eqb_spec (iov_iter_count from) 0) as [Hz|Hz].
  { pose proof (iov_iter_truncate_count from 0 ltac:(done)) as Ht. rewrite Hz in *.
    unfold generic_write_checks_count. rewrite kbind_assoc, kbind_get. cbn zeta.
    destruct (IS_SWAPFILE _); (eexists _, _, _, _; split; [reflexivity|]).
    - unfold ETXTBSY. split; [split; [lia | by intros []]|]. split; [lia | by left].
    - change (u64 0) with 0. rewrite Ht. change (s64 (0 `min` 0)) with 0.
      split; [split; lia|]. split; [lia | by left]. }
  assert (Hn0 : 0 < iov_iter_count from ≤ OFFSET_MAX) by lia.
  destruct (write_checks_count_run f iocb (iov_iter_count from) s Hk Hn0 Hrl)
    as (r & iocb' & n' & s' & Hrun & Hneg & Hadm & Hok & Hsig).
  rewrite (kbind_some _ _ _ _ _ Hrun).
  destruct (Z.eqb_spec r 0) as [->|Hne].
  - destruct (Hok eq_refl) as (-> & Hp & ->). destruct (proj1 Hadm eq_refl) as (Hsw & Hnw & Htop).
    change (nz 0) with false. cbn iota. rewrite kret_run. eexists _, _, _, _. split; [reflexivity|].
    set (k := Z.min _ (_ - _)). assert (Hk2 : 0 < k ≤ iov_iter_count from) by lia.
    rewrite (u64_small k) by (unfold OFFSET_MAX in Hn; wrap).
    rewrite iov_iter_truncate_count, (Z.min_l k), (s64_small k)
      by (unfold OFFSET_MAX in Hn; lia || wrap).
    split; [split; [intros _; split_and!; try done; lia|]; intros _; lia|]. split; [done | by left].
  - unfold nz. destruct (Z.eqb_spec r 0); [done|]. eexists _, _, _, _. split; [reflexivity|].
    split; [split; [lia|]|]; [|split; [lia | done]].
    intros (Hsw & _ & Hnw & Htop). exfalso. apply Hne, Hadm. done.
Qed.
End limit_facts.

(** ** Copies *)

(** What a copy relies on: no method reports more bytes than it was asked to
    copy, and splicing moves the positions it was given by what it reports. *)
Class CopyLaws (W : Type) `{HC : !CopyOps W} := {
  call_copy_le addr f1 p1 f2 p2 len flags (w : W) :
    0 ≤ len → (call_copy addr f1 p1 f2 p2 len flags w).1 ≤ len;
  remap_le op m : op_remap_file_range (W := W) op = Some m →
    ∀ f1 p1 f2 p2 len flags w, 0 ≤ len → (m f1 p1 f2 p2 len flags w).1 ≤ len;
  splice_le f1 p1 f2 p2 len flags (w : W) :
    0 ≤ len → (do_splice_direct f1 p1 f2 p2 len flags w).1.1.1 ≤ len;
  splice_moves f1 p1 f2 p2 len flags (w : W) :
    let r := do_splice_direct f1 p1 f2 p2 len flags w in
    r.1.1.2 = p1 + Z.max 0 r.1.1.1 ∧ r.1.2 = p2 + Z.max 0 r.1.1.1;
  pipe_le f p1 opipe len flags (w : W) :
    0 ≤ len → (splice_file_to_pipe f opipe p1 len flags w).1.1 ≤ len;
  pipe_moves f p1 opipe len flags (w : W) :
    let r := splice_file_to_pipe f opipe p1 len flags w in r.1.2 = p1 + Z.max 0 r.1.1;
}.

(** Copies that may take place: [n] bytes between regular files that are open
    for it, inside of the source, below the limits of the target, and between
    disjoint ranges when the files are one. *)
Definition copy_admitted {W} `{HV : VfsWorld W}
    (file_in : file) (pos_in : Z) (file_out : file) (pos_out n : Z) (s : vstate W) : Prop :=
  let inode_in := inode_at (world s) (file_inode file_in) in
  let inode_out := inode_at (world s) (file_inode file_out) in
  S_ISREG (i_mode inode_in) = true ∧ S_ISREG (i_mode inode_out) = true ∧
  has (f_mode file_in) FMODE_READ = true ∧ has (f_mode file_out) FMODE_WRITE = true ∧
  has (f_flags file_out) O_APPEND = false ∧ IS_IMMUTABLE inode_out = false ∧
  IS_SWAPFILE inode_in = false ∧ IS_SWAPFILE inode_out = false ∧
  0 ≤ pos_in ∧ 0 ≤ pos_out ∧
  (0 < n → pos_in + n ≤ i_size inode_in) ∧ pos_out + n ≤ write_top file_out s ∧
  (0 < n → file_inode file_in = file_inode file_out →
     pos_in + n ≤ pos_out ∨ pos_out + n ≤ pos_in).

Section copy_facts.
Context {W I : Type}
  `{HU : UserAccess W, HV : !VfsWorld W, HI : IovIter I, HF : !FileOps W I, HC : !CopyOps W}.
Context `{HL : !FileLaws W I, HCL : !CopyLaws W}.
Implicit Types (f : file) (s : vstate W).

Definition same_files s s' : Prop :=
  files s' = files s ∧ fdtable s' = fdtable s ∧ sb_write_depth s' = sb_write_depth s.
Lemma same_files_refl s : same_files s s.
Proof. done. Qed.

Lemma write_check_limits_total f pos count s :
  ∃ r n s', generic_write_check_limits f pos count s = Some ((r, n), s') ∧
    same_files s s' ∧ r ≤ 0 ∧ (r = 0 → s' = s).
Proof.
  unfold generic_write_check_limits. rewrite kbind_get. cbn zeta.
  destruct (_ && _); [by eexists _, _, _|].
  destruct (Z.leb _ pos); by eexists _, _, _.
Qed.

Lemma rw_checks_nonpos (w : W) file_in file_out : generic_file_rw_checks w file_in file_out ≤ 0.
Proof.
  unfold generic_file_rw_checks.
  destruct (S_ISDIR (i_mode (inode_at w (file_inode file_in))) || _); [done|].
  destruct (_ || negb (S_ISREG (i_mode (inode_at w (file_inode file_out))))); [done|].
  by destruct (_ || has (f_flags file_out) O_APPEND).
Qed.

Lemma rw_checks_ok (w : W) file_in file_out :
  generic_file_rw_checks w file_in file_out = 0 →
  S_ISREG (i_mode (inode_at w (file_inode file_in))) = true ∧
  S_ISREG (i_mode (inode_at w (file_inode file_out))) = true ∧
  has (f_mode file_in) FMODE_READ = true ∧ has (f_mode file_out) FMODE_WRITE = true ∧
  has (f_flags file_out) O_APPEND = false.
Proof.
  unfold generic_file_rw_checks.
  destruct (S_ISDIR (i_mode (inode_at w (file_inode file_in))) || _); [discriminate|].
  destruct (S_ISREG (i_mode (inode_at w (file_inode file_in)))); [|discriminate].
  destruct (S_ISREG (i_mode (inode_at w (file_inode file_out)))); [|discriminate].
  destruct (has (f_mode file_in) FMODE_READ); [|discriminate].
  destruct (has (f_mode file_out) FMODE_WRITE); [|discriminate].
  by destruct (has (f_flags file_out) O_APPEND).
Qed.

(** The overlap test of the code, for ranges that do not wrap around. *)
Lemma overlap_test a b n :
  0 ≤ a → 0 ≤ b → a + n ≤ 2 ^ 63 → b + n ≤ 2 ^ 63 → 0 ≤ n →
  (u64 a <? u64 (b + n)) && (u64 b <? u64 (a + n)) = false →
  0 < n → a + n ≤ b ∨ b + n ≤ a.
Proof.
  intros Ha Hb Han Hbn Hn. rewrite !u64_small by (unfold in_u64; lia).
  destruct (Z.ltb_spec a (b + n)), (Z.ltb_spec b (a + n)); cbn; try lia.
Qed.

(** The count after the cut at the end of the source. *)
Lemma eof_cut size pos count :
  0 ≤ size ≤ OFFSET_MAX → 0 ≤ pos → in_u64 count →
  let c := if size <=? pos then 0 else Z.min count (u64 (size - pos)) in
  0 ≤ c ≤ OFFSET_MAX ∧ s64 c = c ∧ c ≤ count ∧ (0 < c → pos + c ≤ size).
Proof.
  intros Hs Hp Hc. cbn zeta. unfold OFFSET_MAX, in_u64 in *.
  destruct (Z.leb_spec size pos); [split_and!; done || lia|].
  rewrite (u64_small (size - pos)) by (unfold in_u64; lia).
  split; [lia|]. split; [apply s64_small; unfold in_s64; lia | lia].
Qed.

Lemma copy_checks_run file_in pos_in file_out pos_out len flags s :
  in_u64 len → in_u64 (rlim_fsize s) → pos_out ≤ OFFSET_MAX →
  ∃ ret n s', generic_copy_file_checks file_in pos_in file_out pos_out len flags s
      = Some ((ret, n), s') ∧
    same_files s s' ∧ ret ≤ 0 ∧
    (ret = 0 → s' = s ∧ (0 ≤ pos_in → 0 ≤ pos_out →
       0 ≤ n ≤ len ∧ copy_admitted file_in pos_in file_out pos_out n s)).
Proof.
  intros Hlen Hrl Hmaxo. unfold generic_copy_file_checks. rewrite kbind_get. cbn zeta.
  destruct (Z.eqb_spec (generic_file_rw_checks (world s) file_in file_out) 0) as [Hrw|Hrw].
  2: { unfold nz at 1. destruct (Z.eqb_spec (generic_file_rw_checks (world s) file_in file_out) 0);
         [done|]. pose proof (rw_checks_nonpos (world s) file_in file_out).
       by eexists _, _, _. }
  apply rw_checks_ok in Hrw as Hchk. rewrite Hrw. change (nz 0) with false. cbn iota.
  match goal with |- context [if ?b then mret (- EXDEV, len) else _] => destruct b end;
    [by eexists _, _, _|].
  destruct (IS_IMMUTABLE _) eqn:Himm; [by eexists _, _, _|].
  destruct (IS_SWAPFILE (inode_at (world s) (file_inode file_in))) eqn:Hsw1; [by eexists _, _, _|].
  destruct (IS_SWAPFILE (inode_at (world s) (file_inode file_out))) eqn:Hsw2; [by eexists _, _, _|].
  cbn [orb]. destruct (_ || (u64 (pos_out + len) <? u64 pos_out)); [by eexists _, _, _|].
  set (size := i_size _). set (c := if size <=? pos_in then 0 else _).
  destruct (write_check_limits_total file_out pos_out (s64 c) s) as (r & n & s1 & Hrun & Hsame & Hr0 & H0).
  rewrite (kbind_some _ _ _ _ _ Hrun).
  destruct (Z.eqb_spec r 0) as [->|Hr].
  2: { unfold nz. destruct (Z.eqb_spec r 0); [done|]. by eexists _, _, _. }
  change (nz 0) with false. cbn iota. rewrite (H0 eq_refl) in *.
  destruct (_ && _) eqn:Hover; (eexists _, _, _; split; [reflexivity|]);
    (split; [done|]); (split; [done|]); [intros [=]|].
  intros _. split; [done|]. intros Hpi Hpo.
  destruct (inode_at_wf (world s) (file_inode file_in)) as [Hsz _].
  pose proof (eof_cut size pos_in len Hsz Hpi Hlen) as Hcut. cbn zeta in Hcut. fold c in Hcut.
  destruct Hcut as (Hc & Hs64 & Hle & Hend).
  rewrite Hs64 in *.
  destruct (write_check_limits_run file_out pos_out c s ltac:(lia) Hc Hrl) as [m Hrun'].
  rewrite Hrun in Hrun'. pose proof (size_limit_range file_out s) as Htop.
  unfold write_top, copy_admitted, write_top in *.
  destruct (Z.leb_spec (fsize_limit s) pos_out); [discriminate Hrun'|].
  destruct (Z.leb_spec (size_limit file_out s) pos_out); [discriminate Hrun'|].
  injection Hrun' as ->. set (n := Z.min c _) in *.
  unfold OFFSET_MAX in *. assert (Hn : 0 ≤ n ≤ c) by lia.
  rewrite (u64_small n) in * by (unfold in_u64; lia).
  split; [lia|]. destruct Hchk as (? & ? & ? & ? & ?).
  split_and!; try done; try lia.
  intros Hpos Heq. apply (overlap_test pos_in pos_out n); lia.
Qed.

Lemma copy_admitted_le file_in pos_in file_out pos_out n k s :
  copy_admitted file_in pos_in file_out pos_out n s → 0 < k ≤ n →
  copy_admitted file_in pos_in file_out pos_out k s.
Proof.
  unfold copy_admitted. cbn zeta. intros (?&?&?&?&?&?&?&?&?&?& Hend & Htop & Hdis) Hk.
  split_and!; try done; try lia.
Qed.

Lemma on_world_run {A} (g : W → A * W) s :
  on_world g s = Some ((g (world s)).1, set_world (g (world s)).2 s).
Proof. unfold on_world. by destruct (g (world s)). Qed.

Lemma generic_copy_run file_in pos_in file_out pos_out len flags s :
  0 ≤ len → ∃ ret w, generic_copy_file_range file_in pos_in file_out pos_out len flags s
    = Some (ret, set_world w s) ∧ ret ≤ len.
Proof.
  intros Hlen. unfold generic_copy_file_range, splice_direct.
  rewrite (kbind_some _ _ _ _ _ (on_world_run _ s)), kret_run, cap_min.
  eexists _, _. split; [reflexivity|].
  assert (Hn : 0 ≤ Z.min len MAX_RW_COUNT) by (assert (0 ≤ MAX_RW_COUNT) by (by vm_compute); lia).
  pose proof (splice_le file_in pos_in file_out pos_out (Z.min len MAX_RW_COUNT) 0 (world s) Hn).
  lia.
Qed.

Lemma copy_by_method_run file_in pos_in file_out pos_out len flags s :
  0 ≤ len ≤ OFFSET_MAX →
  ∃ ret w, copy_by_method file_in pos_in file_out pos_out len flags s
    = Some (ret, set_world w s) ∧ ret ≤ len.
Proof.
  intros Hlen. unfold copy_by_method. rewrite kbind_get. cbn zeta.
  destruct (negb _ && nz _).
  { rewrite on_world_run. eexists _, _. split; [reflexivity|]. apply call_copy_le. lia. }
  destruct (op_remap_file_range (f_op file_in)) as [m|] eqn:Hm; [|apply generic_copy_run; lia].
  destruct (negb _ && _); [|apply generic_copy_run; lia].
  rewrite (kbind_some _ _ _ _ _ (on_world_run _ s)).
  assert (Hs : s64 len = len) by (unfold OFFSET_MAX in Hlen; wrap). rewrite Hs.
  assert (Hmin : 0 ≤ Z.min MAX_RW_COUNT len) by (assert (0 ≤ MAX_RW_COUNT) by (by vm_compute); lia).
  pose proof (remap_le _ _ Hm file_in pos_in file_out pos_out (Z.min MAX_RW_COUNT len)
                REMAP_FILE_CAN_SHORTEN (world s) Hmin) as Hle.
  destruct (m _ _ _ _ _ _ (world s)) as [r w]. cbn [fst snd] in *.
  destruct (0 <? r).
  - rewrite kret_run. exists r, w. split; [done | lia].
  - destruct (generic_copy_run file_in pos_in file_out pos_out len flags (set_world w s))
      as (ret & w' & Hrun & Hret); [lia|]. rewrite Hrun.
    exists ret, w'. done.
Qed.

Lemma area_pos rw (w : W) f pos n :
  unsigned_offsets f = false → rw_verify_area (I := I) rw w f (Some pos) n = 0 → 0 ≤ pos.
Proof.
  intros Hu. unfold rw_verify_area. rewrite Hu. destruct (s64 n <? 0); [discriminate|].
  destruct (Z.ltb_spec pos 0); [discriminate | done].
Qed.

Lemma vfs_copy_run in_id file_in pos_in out_id file_out pos_out len flags s :
  unsigned_offsets file_in = false → unsigned_offsets file_out = false →
  in_u64 len → in_u64 (rlim_fsize s) → pos_out ≤ OFFSET_MAX →
  ∃ ret s', vfs_copy_file_range (I := I) in_id file_in pos_in out_id file_out pos_out len flags s
      = Some (ret, s') ∧
    same_files s s' ∧
    (0 < ret → ret ≤ len ∧ copy_admitted file_in pos_in file_out pos_out ret s).
Proof.
  intros Hu1 Hu2 Hlen Hrl Hpo. unfold vfs_copy_file_range.
  destruct (nz (Z.land flags _)); [by eexists _, _|].
  destruct (copy_checks_run file_in pos_in file_out pos_out len flags s Hlen Hrl Hpo)
    as (ret & n & s1 & Hrun & Hsame & Hneg & Hok).
  rewrite (kbind_some _ _ _ _ _ Hrun).
  destruct (Z.eqb_spec ret 0) as [->|Hne].
  2: { unfold nz. destruct (Z.eqb_spec ret 0); [done|].
       eexists _, _. split; [reflexivity|]. split; [done | lia]. }
  destruct (Hok eq_refl) as [-> Hadm]. change (nz 0) with false. cbn iota. rewrite kbind_get. cbn zeta.
  pose proof (rw_verify_area_nonpos READ (world s) file_in (Some pos_in) n) as Hv1.
  pose proof (rw_verify_area_nonpos WRITE (world s) file_out (Some pos_out) n) as Hv2.
  pose proof (area_pos READ (world s) file_in pos_in n Hu1) as Hp1.
  pose proof (area_pos WRITE (world s) file_out pos_out n Hu2) as Hp2.
  destruct (Z.eqb_spec (rw_verify_area READ (world s) file_in (Some pos_in) n) 0) as [E1|E1];
    [rewrite E1; change (nz 0) with false; cbn iota|
     unfold nz; destruct (Z.eqb_spec (rw_verify_area READ (world s) file_in (Some pos_in) n) 0);
     [done|]; eexists _, _; split; [reflexivity|]; split; [done | lia]].
  destruct (Z.eqb_spec (rw_verify_area WRITE (world s) file_out (Some pos_out) n) 0) as [E2|E2];
    [rewrite E2; change (nz 0) with false; cbn iota|
     unfold nz; destruct (Z.eqb_spec (rw_verify_area WRITE (world s) file_out (Some pos_out) n) 0);
     [done|]; eexists _, _; split; [reflexivity|]; split; [done | lia]].
  destruct (Hadm (Hp1 E1) (Hp2 E2)) as [Hn Hcopy].
  destruct (Z.eqb_spec n 0); [by eexists _, _|].
  assert (Hnmax : 0 ≤ n ≤ OFFSET_MAX).
  { destruct Hcopy as (_&_&_&_&_&_&_&_& ? &_& Hend & _).
    destruct (inode_at_wf (world s) (file_inode file_in)) as [Hsz _]. lia. }
  unfold file_start_write. rewrite kbind_modify.
  destruct (copy_by_method_run file_in pos_in file_out pos_out n flags
              (set_depth (sb_write_depth s + 1) s) Hnmax) as (ret & w & Hm & Hret).
  rewrite (kbind_some _ _ _ _ _ Hm).
  assert (Hdone : 0 < ret → ret ≤ len ∧ copy_admitted file_in pos_in file_out pos_out ret s).
  { intros Hpos. split; [lia|]. eapply copy_admitted_le; [done | lia]. }
  destruct (0 <? ret); rewrite ?kbind_assoc; repeat (krun; rewrite ?kbind_assoc);
    unfold file_end_write; rewrite kbind_modify, kret_run; eexists _, _;
    (split; [reflexivity|]); (split; [|done]); repeat split; cbn; lia.
Qed.

Lemma store_offset_run off fid pos ret s :
  store_offset off fid pos ret s =
    if nz off then
      Some (if nz (copy_to_user (world s) off (bytes_of_u64 pos)).1 then - EFAULT else ret,
            set_world (copy_to_user (world s) off (bytes_of_u64 pos)).2 s)
    else Some (ret, store_f_pos fid pos s).
Proof.
  unfold store_offset, put_loff. destruct (nz off); [|by krun].
  rewrite (kbind_some _ _ _ _ _ (on_world_run _ s)).
  destruct (copy_to_user (world s) off (bytes_of_u64 pos)) as [rest w]. cbn [fst snd].
  by destruct (nz rest).
Qed.

(** The open files after a copy of [n] bytes: a side without an offset of its
    own has its position moved. *)
Definition moved_files (off_in in_id pos_in off_out out_id pos_out n : Z) (m : gmap Z file)
    : gmap Z file :=
  let m := if nz off_in then m else alter (set_f_pos (pos_in + n)) in_id m in
  if nz off_out then m else alter (set_f_pos (pos_out + n)) out_id m.

Lemma copy_stores_run off_in in_id pos_in off_out out_id pos_out n s :
  0 < n → in_u64 (pos_in + n) → in_u64 (pos_out + n) →
  ∃ r s', (ret ← store_offset off_in in_id (pos_in + n) n;
           store_offset off_out out_id (pos_out + n) ret) s = Some (r, s') ∧
    fdtable s' = fdtable s ∧ sb_write_depth s' = sb_write_depth s ∧
    files s' = moved_files off_in in_id pos_in off_out out_id pos_out n (files s) ∧
    (r = n ∨ r = - EFAULT ∧ (nz off_in = true ∨ nz off_out = true)) ∧
    (r = n → nz off_out = true → uread_u64 (world s') off_out = Some (pos_out + n)) ∧
    (r = n → nz off_in = true → nz off_out = false ∨ off_in + 8 ≤ off_out ∨ off_out + 8 ≤ off_in →
       uread_u64 (world s') off_in = Some (pos_in + n)).
Proof.
  intros Hn Hpi Hpo. unfold moved_files.
  assert (Hne : n ≠ - EFAULT) by (unfold EFAULT; lia).
  unfold mbind at 1, kst_bind at 1. rewrite store_offset_run.
  destruct (nz off_in) eqn:Hoi; rewrite store_offset_run; destruct (nz off_out) eqn:Hoo.
  - set (w1 := copy_to_user (world s) off_in _). cbn [world set_world].
    set (w2 := copy_to_user w1.2 off_out _). eexists _, _. split; [reflexivity|].
    split; [done|]. split; [done|]. split; [done|].
    destruct (Z.eqb_spec w1.1 0) as [E1|E1], (Z.eqb_spec w2.1 0) as [E2|E2]; unfold nz;
      destruct (Z.eqb_spec w1.1 0), (Z.eqb_spec w2.1 0); try done; cbn [negb];
      (split; [by auto|]); (split; [intros Hr|intros Hr]); try done.
    + intros _. cbn [world set_world]. unfold w2.
      rewrite copy_to_user_u64 by done. by rewrite u64_small.
    + intros _ [[=]|Hdis]. cbn [world set_world]. unfold w2, uread_u64.
      rewrite (copy_to_user_range_frame _ _ _ off_in 8) by (rewrite bytes_of_u64_length; lia).
      change (uread_u64 w1.2 off_in = Some (pos_in + n)). unfold w1.
      rewrite copy_to_user_u64 by done. by rewrite u64_small.
  - set (w1 := copy_to_user (world s) off_in _). eexists _, _. split; [reflexivity|].
    split; [done|]. split; [done|]. split; [done|].
    destruct (Z.eqb_spec w1.1 0) as [E1|E1]; unfold nz; destruct (Z.eqb_spec w1.1 0); try done;
      cbn [negb]; (split; [by auto|]); (split; [done|]); intros Hr; try done.
    intros _ _. cbn [world set_world store_f_pos set_files]. unfold w1.
    rewrite copy_to_user_u64 by done. by rewrite u64_small.
  - cbn [world store_f_pos set_files]. set (w2 := copy_to_user (world s) off_out _).
    eexists _, _. split; [reflexivity|].
    split; [done|]. split; [done|]. split; [done|].
    destruct (Z.eqb_spec w2.1 0) as [E1|E1]; unfold nz; destruct (Z.eqb_spec w2.1 0); try done;
      cbn [negb]; (split; [by auto|]); (split; [|done]); intros Hr; try done.
    intros _. cbn [world set_world]. unfold w2.
    rewrite copy_to_user_u64 by done. by rewrite u64_small.
  - eexists _, _. split; [reflexivity|]. split; [done|]. split; [done|]. split; [done|].
    split; [by left|]. done.
Qed.

Lemma get_loff_range (p : Z) (w : W) pos : get_loff p w = Some pos → in_s64 pos.
Proof.
  unfold get_loff. destruct (copy_from_user w p 8) as [rest bs].
  destruct (nz rest); [done|]. intros [= <-]. apply s64_range.
Qed.
Lemma copy_offset_range off f (w : W) pos :
  file_wf f → copy_offset off f w = Some pos → in_s64 pos.
Proof.
  intros [Hf _]. unfold copy_offset. destruct (nz off); [apply get_loff_range | by intros [= <-]].
Qed.

(** What a copy may come to: nothing, with an error or 0 and no position moved;
    or [n] bytes. *)
Definition copied_or_not off_in in_id file_in pos_in off_out out_id file_out pos_out len s r s' : Prop :=
  (r ≤ 0 ∧ files s' = files s) ∨
  ∃ n, 0 < n ≤ len ∧ copy_admitted file_in pos_in file_out pos_out n s ∧
    (r = n ∨ r = - EFAULT ∧ (nz off_in = true ∨ nz off_out = true)) ∧
    files s' = moved_files off_in in_id pos_in off_out out_id pos_out n (files s) ∧
    (r = n → nz off_out = true → uread_u64 (world s') off_out = Some (pos_out + n)) ∧
    (r = n → nz off_in = true →
       nz off_out = false ∨ off_in + 8 ≤ off_out ∨ off_out + 8 ≤ off_in →
       uread_u64 (world s') off_in = Some (pos_in + n)).

(** C20. [copy_file_range] returns from every state in which the open files have
    signed offsets.  A bad descriptor, an offset
    that cannot be read and any flag are refused, in this order, and change
    nothing.  Otherwise, when the call does not give the number of bytes copied,
    its result is 0 or an error and no position moved, or it is [-EFAULT]
    because an offset could not be stored back after a copy.  When [n] bytes
    were copied, both files are regular and open for it, the source range lies
    inside of the source, the target range below the limits, and the ranges are
    disjoint when the two files are one; each side has advanced by exactly [n]:
    the offset read back from user memory when one was given, the position of
    the open file when not (also when both descriptors share one open file). *)
Theorem copy_file_range_spec fd_in off_in fd_out off_out len flags s :
  map_Forall (λ _ f, file_wf f ∧ unsigned_offsets f = false) (files s) →
  in_u64 len → in_u64 (rlim_fsize s) →
  ∃ r s', sys_copy_file_range (I := I) fd_in off_in fd_out off_out len flags s = Some (r, s') ∧
    fdtable s' = fdtable s ∧ sb_write_depth s' = sb_write_depth s ∧
    match fdget fd_in s, fdget fd_out s with
    | Some (in_id, file_in), Some (out_id, file_out) =>
        match copy_offset off_in file_in (world s), copy_offset off_out file_out (world s) with
        | Some pos_in, Some pos_out =>
            if flags =? 0 then
              copied_or_not off_in in_id file_in pos_in off_out out_id file_out pos_out len s r s'
            else r = - EINVAL ∧ s' = s
        | _, _ => r = - EFAULT ∧ s' = s
        end
    | _, _ => r = - EBADF ∧ s' = s
    end.
Proof.
  intros Hall Hlen Hrl. unfold sys_copy_file_range. rewrite kbind_get.
  destruct (fdget fd_in s) as [[in_id file_in]|] eqn:Hin; [|by eexists _, _].
  destruct (fdget fd_out s) as [[out_id file_out]|] eqn:Hout; [|by eexists _, _].
  apply fdget_Some in Hin as [_ Hfi]. apply fdget_Some in Hout as [_ Hfo].
  destruct (Hall _ _ Hfi) as [Hwi Hui]. destruct (Hall _ _ Hfo) as [Hwo Huo].
  destruct (copy_offset off_in file_in (world s)) as [pos_in|] eqn:Hpi; [|by eexists _, _].
  destruct (copy_offset off_out file_out (world s)) as [pos_out|] eqn:Hpo; [|by eexists _, _].
  destruct (flags =? 0); cbn [negb]; [|by eexists _, _].
  pose proof (copy_offset_range _ _ _ _ Hwo Hpo) as Hro.
  destruct (vfs_copy_run in_id file_in pos_in out_id file_out pos_out len flags s Hui Huo Hlen Hrl)
    as (n & s1 & Hrun & (Hf1 & Ht1 & Hd1) & Hcopy); [unfold OFFSET_MAX; wrap|].
  rewrite (kbind_some _ _ _ _ _ Hrun).
  destruct (Z.ltb_spec 0 n) as [Hn|Hn];
    [|rewrite kret_run; eexists _, _; split_and!; [done..|]; left; split; [lia | done]].
  destruct (Hcopy Hn) as [Hle Hadm]. pose proof Hadm as (_&_&_&_&_&_&_&_& Hi0 & Ho0 & Hend & Htop & _).
  destruct (inode_at_wf (world s) (file_inode file_in)) as [Hsz _].
  pose proof (size_limit_range file_out s) as Hlim. unfold write_top, OFFSET_MAX in *.
  specialize (Hend Hn). cbn zeta.
  rewrite (s64_small (pos_in + n)), (s64_small (pos_out + n)) by (unfold in_s64; lia).
  destruct (copy_stores_run off_in in_id pos_in off_out out_id pos_out n s1 Hn)
    as (r & s2 & Hst & Ht2 & Hd2 & Hf2 & Hr & Hw1 & Hw2); [unfold in_u64; lia..|].
  exists r, s2. split; [done|]. split; [congruence|]. split; [congruence|]. right.
  exists n. rewrite Hf2, Hf1. split_and!; auto.
Qed.

(** The transfer of sendfile: an error before anything happened, or a result
    with the positions it leads to. *)
Lemma sendfile_transfer_run file_in pos file_out out_pos count s :
  0 ≤ count →
  ∃ r s', sendfile_transfer (I := I) file_in pos file_out out_pos count s = Some (r, s') ∧
    same_files s s' ∧
    match r with
    | inl e => e < 0
    | inr (n, pos', out_pos') =>
        n ≤ count ∧ pos' = pos + Z.max 0 n ∧
        out_pos' = (if get_pipe_info (W := W) file_out is Some _ then out_pos
                    else out_pos + Z.max 0 n)
    end.
Proof.
  intros Hc. unfold sendfile_transfer. destruct (get_pipe_info file_out) as [pipe|].
  - cbn zeta. rewrite (kbind_some _ _ _ _ _ (on_world_run _ s)), kret_run.
    eexists _, _. split; [reflexivity|]. split; [done|].
    pose proof (pipe_le file_in pos pipe count
      (if has (f_flags file_out) O_NONBLOCK then SPLICE_F_NONBLOCK else 0) (world s) Hc).
    pose proof (pipe_moves file_in pos pipe count
      (if has (f_flags file_out) O_NONBLOCK then SPLICE_F_NONBLOCK else 0) (world s)). done.
  - rewrite kbind_get. cbn zeta.
    destruct (Z.ltb_spec (rw_verify_area WRITE (world s) file_out (Some out_pos) count) 0);
      [by eexists _, _|].
    unfold file_start_write, splice_direct. rewrite kbind_modify.
    rewrite (kbind_some _ _ _ _ _ (on_world_run _ _)). cbn [world set_depth].
    pose proof (splice_le file_in pos file_out out_pos count 0 (world s) Hc).
    pose proof (splice_moves file_in pos file_out out_pos count 0 (world s)) as Hm. cbn zeta in Hm.
    destruct (do_splice_direct file_in pos file_out out_pos count 0 (world s)) as [[[n p] q] w].
    cbn [fst snd] in *. unfold file_end_write. rewrite kbind_modify, kret_run.
    destruct Hm as [-> ->]. eexists _, _. split; [reflexivity|]. split; [|done].
    repeat split; cbn; lia.
Qed.

(** Where sendfile has to stop. *)
Definition sendfile_top (file_in file_out : file) (max : Z) s : Z :=
  if max =? 0 then
    Z.min (s_maxbytes (inode_at (world s) (file_inode file_in)))
          (s_maxbytes (inode_at (world s) (file_inode file_out)))
  else max.

Lemma sendfile_top_range file_in file_out max s :
  0 ≤ max ≤ OFFSET_MAX → 0 ≤ sendfile_top file_in file_out max s ≤ OFFSET_MAX.
Proof.
  intros Hm. unfold sendfile_top. destruct (max =? 0); [|done].
  destruct (inode_at_wf (world s) (file_inode file_in)) as [_ H1].
  destruct (inode_at_wf (world s) (file_inode file_out)) as [_ H2']. lia.
Qed.

(** The count that is left of a request at [pos] below [top]. *)
Lemma sendfile_cut pos count top :
  0 ≤ pos ≤ OFFSET_MAX → 0 ≤ count ≤ MAX_RW_COUNT → 0 ≤ top ≤ OFFSET_MAX →
  let over := u64 top <? u64 (pos + count) in
  over && (top <=? pos) = false →
  let c := if over then u64 (top - pos) else count in
  0 ≤ c ≤ count ∧ (0 < c → pos + c ≤ top).
Proof.
  intros Hp Hc Ht. cbn zeta. unfold OFFSET_MAX, MAX_RW_COUNT, PAGE_SIZE in *.
  rewrite (u64_small top), (u64_small (pos + count)) by (unfold in_u64; lia).
  destruct (Z.ltb_spec top (pos + count)); cbn [andb]; [|lia].
  destruct (Z.leb_spec top pos); [done|]. intros _.
  rewrite u64_small by (unfold in_u64; lia). lia.
Qed.

(** The end of a sendfile whose transfer stayed below [max]. *)
Lemma sendfile_commit_run in_id out_id ppos max n pos out_pos s :
  (0 < n → pos ≤ max) →
  ∃ r ppos' s', sendfile_commit in_id out_id ppos max (n, pos, out_pos) s = Some ((r, ppos'), s') ∧
    fdtable s' = fdtable s ∧ sb_write_depth s' = sb_write_depth s ∧
    if 0 <? n then
      r = n ∧
      match ppos with
      | Some _ => ppos' = Some pos ∧ files s' = alter (set_f_pos out_pos) out_id (files s)
      | None => ppos' = None ∧
          files s' = alter (set_f_pos pos) in_id (alter (set_f_pos out_pos) out_id (files s))
      end
    else files s' = files s ∧ ppos' = ppos ∧ r ≤ 0.
Proof.
  intros Hpos. unfold sendfile_commit. destruct (Z.ltb_spec 0 n) as [Hn|Hn].
  - specialize (Hpos Hn). destruct (Z.ltb_spec max pos); [lia|].
    destruct ppos; repeat (krun; rewrite ?kbind_assoc);
      (eexists _, _, _; split; [reflexivity|]); done.
  - rewrite kbind_ret, !kbind_modify, kret_run. eexists _, _, _. split; [reflexivity|].
    split; [done|]. split; [done|]. split; [done|]. split; [done|].
    destruct (max <? pos); [done | lia].
Qed.

Ltac sendfile_refused :=
  eexists _, _, _; split; [reflexivity|]; split; [done|]; split; [done|];
  left; split; [done|]; split; [done|]; first [done | lia].

(** C33. [sendfile] returns from every state.  Without a transfer no position
    moves and the caller's is untouched.  A transfer of [n] bytes stays below
    the limit (that of both file systems, or 2 GiB for the old call), so the
    position after it never exceeds it; the reading side advances by [n], in
    the caller's position when one was given and in the open file otherwise,
    the writing side by [n] as well unless it is a pipe. *)
Theorem do_sendfile_spec out_fd in_fd ppos count max s :
  map_Forall (λ _ f, file_wf f ∧ unsigned_offsets f = false) (files s) →
  in_u64 count → 0 ≤ max ≤ OFFSET_MAX →
  match ppos with Some pos => in_s64 pos | None => True end →
  ∃ r ppos' s', do_sendfile (I := I) out_fd in_fd ppos count max s = Some ((r, ppos'), s') ∧
    fdtable s' = fdtable s ∧ sb_write_depth s' = sb_write_depth s ∧
    (files s' = files s ∧ ppos' = ppos ∧ r ≤ 0 ∨
     ∃ in_id file_in out_id file_out out_pos',
       fdget in_fd s = Some (in_id, file_in) ∧ fdget out_fd s = Some (out_id, file_out) ∧
       0 < r ≤ Z.min count MAX_RW_COUNT ∧
       let pos := default (f_pos file_in) ppos in
       0 ≤ pos ∧ pos + r ≤ sendfile_top file_in file_out max s ∧
       out_pos' = (if get_pipe_info (W := W) file_out is Some _ then f_pos file_out
                   else f_pos file_out + r) ∧
       match ppos with
       | Some _ => ppos' = Some (pos + r) ∧ files s' = alter (set_f_pos out_pos') out_id (files s)
       | None => ppos' = None ∧
           files s' = alter (set_f_pos (pos + r)) in_id
                        (alter (set_f_pos out_pos') out_id (files s))
       end).
Proof.
  intros Hall Hcount Hmax Hppos. unfold do_sendfile. rewrite kbind_get.
  destruct (fdget in_fd s) as [[in_id file_in]|] eqn:Hin; [|by sendfile_refused].
  destruct (negb (has (f_mode file_in) FMODE_READ)); [by sendfile_refused|].
  destruct (if ppos is Some _ then _ else false); [by sendfile_refused|].
  cbn zeta. set (pos := default (f_pos file_in) ppos).
  apply fdget_Some in Hin as Hfi. destruct Hfi as [_ Hfi].
  destruct (Hall _ _ Hfi) as [[Hwi _] Hui].
  assert (Hpos : in_s64 pos) by (unfold pos; by destruct ppos).
  pose proof (rw_verify_area_nonpos READ (world s) file_in (Some pos) count) as Hv1.
  destruct (Z.ltb_spec (rw_verify_area READ (world s) file_in (Some pos) count) 0) as [Hv|Hv];
    [by sendfile_refused|].
  assert (Hp0 : 0 ≤ pos) by (apply (area_pos READ (world s) file_in pos count Hui); lia).
  pose proof (cap_range count ltac:(apply Hcount)) as Hcap. rewrite cap_min in *.
  destruct (fdget out_fd s) as [[out_id file_out]|] eqn:Hout; [|by sendfile_refused].
  destruct (negb (has (f_mode file_out) FMODE_WRITE)); [by sendfile_refused|].
  assert (Htop : (if negb (nz max)
      then Z.min (s_maxbytes (inode_at (world s) (file_inode file_in)))
                 (s_maxbytes (inode_at (world s) (file_inode file_out)))
      else max) = sendfile_top file_in file_out max s)
    by (unfold sendfile_top, nz; by destruct (max =? 0)).
  rewrite Htop. pose proof (sendfile_top_range file_in file_out max s Hmax) as Htr.
  set (top := sendfile_top _ _ _ _) in *.
  destruct (_ && (top <=? pos)) eqn:Hover; [by sendfile_refused|].
  assert (Hpm : 0 ≤ pos ≤ OFFSET_MAX) by (unfold OFFSET_MAX; wrap).
  destruct (sendfile_cut pos (Z.min count MAX_RW_COUNT) top Hpm Hcap Htr Hover) as [Hc Hend].
  set (c := if _ <? _ then _ else _) in *.
  destruct (sendfile_transfer_run file_in pos file_out (f_pos file_out) c s) as
    (r & s1 & Hrun & (Hf1 & Ht1 & Hd1) & Hr); [lia|].
  rewrite (kbind_some _ _ _ _ _ Hrun).
  destruct r as [e|[[n pos'] out_pos']].
  { rewrite kret_run. eexists _, _, _. split; [reflexivity|]. split; [done|]. split; [done|].
    left. split; [done|]. split; [done | lia]. }
  destruct Hr as (Hn & -> & ->).
  destruct (sendfile_commit_run in_id out_id ppos top n (pos + Z.max 0 n)
      (if get_pipe_info (W := W) file_out is Some _ then f_pos file_out
       else f_pos file_out + Z.max 0 n) s1) as (r & ppos' & s2 & -> & Ht2 & Hd2 & Hend2); [lia|].
  exists r, ppos', s2. split; [done|]. split; [congruence|]. split; [congruence|].
  rewrite <-Hf1. destruct (Z.ltb_spec 0 n); [|by left]. right.
  destruct Hend2 as [-> Hend2]. rewrite (Z.max_r 0 n) in Hend2 by lia.
  eexists in_id, file_in, out_id, file_out, _. split; [done|]. split; [done|].
  split; [lia|]. cbn zeta. split; [done|]. split; [lia|]. split; [reflexivity|]. exact Hend2.
Qed.
End copy_facts.

(** ** Runs *)
Module CopyRuns.
Import RWRuns.

(** Splicing that copies everything; table 12 belongs to pipes, which take
    4096 bytes at a time; table 20 has a method that copies at most 7. *)
#[export] Instance splicer : CopyOps disk := {|
  op_copy_file_range op := if op =? 20 then 77 else 0;
  call_copy addr f1 p1 f2 p2 len flags w := (Z.min len 7, w);
  op_remap_file_range op := None;
  do_splice_direct f1 p1 f2 p2 len flags w := (len, p1 + Z.max 0 len, p2 + Z.max 0 len, w);
  splice_file_to_pipe f pipe pos len flags w :=
    (Z.min len 4096, pos + Z.max 0 (Z.min len 4096), w);
  get_pipe_info f := if f_op f =? 12 then Some 1 else None;
|}.

#[export] Instance splicer_laws : CopyLaws disk.
Proof. split; intros; cbn in *; try done; lia. Qed.

(** A file of 1000 bytes read through 3 (and its dup 5), written through 4. *)
Definition big : inode := Inode 0x8000 1000 1 OFFSET_MAX false false.
Definition disk0 : disk := (zero_page 4096 64, {[ 50 := big; 51 := Inode 0x8000 10 1 OFFSET_MAX false false ]}).
Definition f_in : file := File (rdwr + FMODE_LSEEK) O_LARGEFILE 990 5 10 50 50.
Definition f_out : file := File (rdwr + FMODE_LSEEK) O_LARGEFILE 4 0 10 51 51.
Definition c0 : vstate disk :=
  VState {[ 1 := f_in; 2 := f_out ]} {[ 3 := 1; 5 := 1; 4 := 2 ]} disk0
    (TaskIO 0 0 0 0) RLIM_INFINITY [] [] 0.
Definition with_limit (l : Z) (s : vstate disk) : vstate disk :=
  VState (files s) (fdtable s) (world s) (ioac s) l (signals s) (events s) (sb_write_depth s).

(** The copy stops at the end of the source. *)
Example copy_to_eof :
  result (sys_copy_file_range (I := SegList.iter) 3 0 4 0 100 0 c0)
    = Some (10, [14; 1000], TaskIO 10 10 1 1).
Proof. vm_compute. reflexivity. Qed.
(** One open file on both sides: the ranges overlap. *)
Example copy_same_file :
  result (sys_copy_file_range (I := SegList.iter) 3 0 5 0 5 0 c0)
    = Some (- EINVAL, [4; 990], TaskIO 0 0 0 0).
Proof. vm_compute. reflexivity. Qed.
Example copy_limited :
  result (sys_copy_file_range (I := SegList.iter) 3 0 4 0 100 0 (with_limit 6 c0))
    = Some (2, [6; 992], TaskIO 2 2 1 1).
Proof. vm_compute. reflexivity. Qed.
Example sendfile_moves_both :
  result (sys_sendfile (I := SegList.iter) 4 3 0 100 c0) = Some (100, [104; 1090], TaskIO 100 100 1 1).
Proof. vm_compute. reflexivity. Qed.

Lemma c0_wf : map_Forall (λ _ f, file_wf f ∧ unsigned_offsets f = false) (files c0).
Proof.
  intros i f Hf. cbn in Hf.
  apply lookup_insert_Some in Hf as [[_ <-]|[_ [_ <-]%lookup_singleton_Some]];
    (split; [split; [|intros _]; apply (bool_decide_unpack _); by vm_compute | reflexivity]).
Qed.

Lemma generic_write_checks_spec_witness :
  ∃ ret iocb' from' s',
    generic_write_checks f_out (Kiocb 4 0) [(4096, 100%nat)] (with_limit 50 c0)
      = Some ((ret, iocb', from'), s') ∧ ret = 46 ∧ s' = with_limit 50 c0.
Proof.
  destruct (generic_write_checks_spec f_out (Kiocb 4 0) [(4096, 100%nat)] (with_limit 50 c0))
    as (ret & iocb' & from' & s' & Hrun & Hadm & Hpos & _);
    [apply (bool_decide_unpack _); by vm_compute..|].
  assert (Hp : 0 < ret).
  { apply Hadm. split; [by vm_compute|]. split; [by vm_compute|]. split; by vm_compute. }
  destruct (Hpos Hp) as (Hret & _ & _ & Hs).
  exists ret, iocb', from', s'. split; [exact Hrun|]. split; [|exact Hs].
  rewrite Hret. vm_compute. reflexivity.
Defined.

Lemma copy_file_range_spec_witness :
  ∃ r s', sys_copy_file_range (I := SegList.iter) 3 0 4 0 100 0 c0 = Some (r, s') ∧
    fdtable s' = fdtable c0 ∧ sb_write_depth s' = sb_write_depth c0.
Proof.
  destruct (copy_file_range_spec (I := SegList.iter) 3 0 4 0 100 0 c0 c0_wf)
    as (r & s' & Hrun & Ht & Hd & _); [apply (bool_decide_unpack _); by vm_compute..|].
  exists r, s'. split; [exact Hrun|]. split; [exact Ht | exact Hd].
Defined.

Lemma do_sendfile_spec_witness :
  ∃ r ppos' s', do_sendfile (I := SegList.iter) 4 3 (Some 10) 100 0 c0 = Some ((r, ppos'), s') ∧
    fdtable s' = fdtable c0.
Proof.
  destruct (do_sendfile_spec (I := SegList.iter) 4 3 (Some 10) 100 0 c0 c0_wf)
    as (r & ppos' & s' & Hrun & Ht & _); [apply (bool_decide_unpack _); by vm_compute..|].
  exists r, ppos', s'. split; [exact Hrun | exact Ht].
Defined.
End CopyRuns.
