(* ===== verification/SyscallDecls.v ===== *)
(** * SyscallDecls: what the kernel says about its system calls

    Three tables: the prototypes of [include/linux/syscalls.h], in the order of
    the header and with the conditions they stand under; the system calls that
    this repository defines, with the types and names given to [SYSCALL_DEFINE];
    and the numbers of [arch/x86/entry/syscalls/syscall_64.tbl].  Types are kept
    as they are written. *)

From S2P Require Import Prelude.
#[local] Open Scope string_scope.

(** Preprocessor conditions. *)
Inductive cond := Always | Macro (name : string) | Not (c : cond) | Both (c d : cond) | Either (c d : cond).
#[export] Instance cond_eq_dec : EqDecision cond.
Proof. solve_decision. Defined.

Record prototype := Proto { proto_guard : cond; proto_name : string; proto_args : list string }.
Abbreviation P := (Proto Always) (only parsing).

(** ** The prototypes *)

(** From [sys_io_setup] to [sys_getdents64]. *)
Definition prototypes_1 : list prototype :=
  [P "io_setup" ["unsigned"; "aio_context_t __user *"]; P "io_destroy" ["aio_context_t"];
   P "io_submit" ["aio_context_t"; "long"; "struct iocb __user * __user *"];
   P "io_cancel" ["aio_context_t"; "struct iocb __user *"; "struct io_event __user *"];
   P "io_getevents" ["aio_context_t"; "long"; "long"; "struct io_event __user *";
     "struct __kernel_timespec __user *"]; P "io_getevents_time32" ["__u32"; "__s32"; "__s32";
     "struct io_event __user *"; "struct old_timespec32 __user *"]; P "io_pgetevents" ["aio_context_t";
     "long"; "long"; "struct io_event __user *"; "struct __kernel_timespec __user *";
     "const struct __aio_sigset *"]; P "io_pgetevents_time32" ["aio_context_t"; "long"; "long";
     "struct io_event __user *"; "struct old_timespec32 __user *"; "const struct __aio_sigset *"];
   P "io_uring_setup" ["u32"; "struct io_uring_params __user *"]; P "io_uring_enter" ["unsigned int";
     "u32"; "u32"; "u32"; "const void __user *"; "size_t"]; P "io_uring_register" ["unsigned int";
     "unsigned int"; "void __user *"; "unsigned int"]; P "setxattr" ["const char __user *";
     "const char __user *"; "const void __user *"; "size_t"; "int"];
   P "lsetxattr" ["const char __user *"; "const char __user *"; "const void __user *"; "size_t";
     "int"]; P "fsetxattr" ["int"; "const char __user *"; "const void __user *"; "size_t"; "int"];
   P "getxattr" ["const char __user *"; "const char __user *"; "void __user *"; "size_t"];
   P "lgetxattr" ["const char __user *"; "const char __user *"; "void __user *"; "size_t"];
   P "fgetxattr" ["int"; "const char __user *"; "void __user *"; "size_t"];
   P "listxattr" ["const char __user *"; "char __user *"; "size_t"];
   P "llistxattr" ["const char __user *"; "char __user *"; "size_t"]; P "flistxattr" ["int";
     "char __user *"; "size_t"]; P "removexattr" ["const char __user *"; "const char __user *"];
   P "lremovexattr" ["const char __user *"; "const char __user *"]; P "fremovexattr" ["int";
     "const char __user *"]; P "getcwd" ["char __user *"; "unsigned long"]; P "lookup_dcookie" ["u64";
     "char __user *"; "size_t"]; P "eventfd2" ["unsigned int"; "int"]; P "epoll_create1" ["int"];
   P "epoll_ctl" ["int"; "int"; "int"; "struct epoll_event __user *"]; P "epoll_pwait" ["int";
     "struct epoll_event __user *"; "int"; "int"; "const sigset_t __user *"; "size_t"];
   P "epoll_pwait2" ["int"; "struct epoll_event __user *"; "int";
     "const struct __kernel_timespec __user *"; "const sigset_t __user *"; "size_t"];
   P "dup" ["unsigned int"]; P "dup3" ["unsigned int"; "unsigned int"; "int"];
   P "fcntl" ["unsigned int"; "unsigned int"; "unsigned long"];
   Proto (Macro "BITS_PER_LONG == 32") "fcntl64" ["unsigned int"; "unsigned int"; "unsigned long"];
   P "inotify_init1" ["int"]; P "inotify_add_watch" ["int"; "const char __user *"; "u32"];
   P "inotify_rm_watch" ["int"; "__s32"]; P "ioctl" ["unsigned int"; "unsigned int"; "unsigned long"];
   P "ioprio_set" ["int"; "int"; "int"]; P "ioprio_get" ["int"; "int"]; P "flock" ["unsigned int";
     "unsigned int"]; P "mknodat" ["int"; "const char __user *"; "umode_t"; "unsigned"];
   P "mkdirat" ["int"; "const char __user *"; "umode_t"]; P "unlinkat" ["int"; "const char __user *";
     "int"]; P "symlinkat" ["const char __user *"; "int"; "const char __user *"]; P "linkat" ["int";
     "const char __user *"; "int"; "const char __user *"; "int"]; P "renameat" ["int";
     "const char __user *"; "int"; "const char __user *"]; P "umount" ["char __user *"; "int"];
   P "mount" ["char __user *"; "char __user *"; "char __user *"; "unsigned long"; "void __user *"];
   P "pivot_root" ["const char __user *"; "const char __user *"]; P "statfs" ["const char __user *";
     "struct statfs __user *"]; P "statfs64" ["const char __user *"; "size_t";
     "struct statfs64 __user *"]; P "fstatfs" ["unsigned int"; "struct statfs __user *"];
   P "fstatfs64" ["unsigned int"; "size_t"; "struct statfs64 __user *"];
   P "truncate" ["const char __user *"; "long"]; P "ftruncate" ["unsigned int"; "unsigned long"];
   Proto (Macro "BITS_PER_LONG == 32") "truncate64" ["const char __user *"; "loff_t"];
   Proto (Macro "BITS_PER_LONG == 32") "ftruncate64" ["unsigned int"; "loff_t"]; P "fallocate" ["int";
     "int"; "loff_t"; "loff_t"]; P "faccessat" ["int"; "const char __user *"; "int"];
   P "faccessat2" ["int"; "const char __user *"; "int"; "int"]; P "chdir" ["const char __user *"];
   P "fchdir" ["unsigned int"]; P "chroot" ["const char __user *"]; P "fchmod" ["unsigned int";
     "umode_t"]; P "fchmodat" ["int"; "const char __user *"; "umode_t"]; P "fchownat" ["int";
     "const char __user *"; "uid_t"; "gid_t"; "int"]; P "fchown" ["unsigned int"; "uid_t"; "gid_t"];
   P "openat" ["int"; "const char __user *"; "int"; "umode_t"]; P "openat2" ["int";
     "const char __user *"; "struct open_how *"; "size_t"]; P "close" ["unsigned int"];
   P "close_range" ["unsigned int"; "unsigned int"; "unsigned int"]; P "vhangup" [];
   P "pipe2" ["int __user *"; "int"]; P "quotactl" ["unsigned int"; "const char __user *"; "qid_t";
     "void __user *"]; P "quotactl_fd" ["unsigned int"; "unsigned int"; "qid_t"; "void __user *"];
   P "getdents64" ["unsigned int"; "struct linux_dirent64 __user *"; "unsigned int"]].

(** From [sys_llseek] to [sys_clock_settime32]. *)
Definition prototypes_2 : list prototype :=
  [P "llseek" ["unsigned int"; "unsigned long"; "unsigned long"; "loff_t __user *"; "unsigned int"];
   P "lseek" ["unsigned int"; "off_t"; "unsigned int"]; P "read" ["unsigned int"; "char __user *";
     "size_t"]; P "write" ["unsigned int"; "const char __user *"; "size_t"];
   P "readv" ["unsigned long"; "const struct iovec __user *"; "unsigned long"];
   P "writev" ["unsigned long"; "const struct iovec __user *"; "unsigned long"];
   P "pread64" ["unsigned int"; "char __user *"; "size_t"; "loff_t"]; P "pwrite64" ["unsigned int";
     "const char __user *"; "size_t"; "loff_t"]; P "preadv" ["unsigned long";
     "const struct iovec __user *"; "unsigned long"; "unsigned long"; "unsigned long"];
   P "pwritev" ["unsigned long"; "const struct iovec __user *"; "unsigned long"; "unsigned long";
     "unsigned long"]; P "sendfile64" ["int"; "int"; "loff_t __user *"; "size_t"]; P "pselect6" ["int";
     "fd_set __user *"; "fd_set __user *"; "fd_set __user *"; "struct __kernel_timespec __user *";
     "void __user *"]; P "pselect6_time32" ["int"; "fd_set __user *"; "fd_set __user *";
     "fd_set __user *"; "struct old_timespec32 __user *"; "void __user *"];
   P "ppoll" ["struct pollfd __user *"; "unsigned int"; "struct __kernel_timespec __user *";
     "const sigset_t __user *"; "size_t"]; P "ppoll_time32" ["struct pollfd __user *"; "unsigned int";
     "struct old_timespec32 __user *"; "const sigset_t __user *"; "size_t"]; P "signalfd4" ["int";
     "sigset_t __user *"; "size_t"; "int"]; P "vmsplice" ["int"; "const struct iovec __user *";
     "unsigned long"; "unsigned int"]; P "splice" ["int"; "loff_t __user *"; "int"; "loff_t __user *";
     "size_t"; "unsigned int"]; P "tee" ["int"; "int"; "size_t"; "unsigned int"];
   P "readlinkat" ["int"; "const char __user *"; "char __user *"; "int"]; P "newfstatat" ["int";
     "const char __user *"; "struct stat __user *"; "int"]; P "newfstat" ["unsigned int";
     "struct stat __user *"];
   Proto (Either (Macro "__ARCH_WANT_STAT64") (Macro "__ARCH_WANT_COMPAT_STAT64")) "fstat64" ["unsigned long";
     "struct stat64 __user *"];
   Proto (Either (Macro "__ARCH_WANT_STAT64") (Macro "__ARCH_WANT_COMPAT_STAT64")) "fstatat64" ["int";
     "const char __user *"; "struct stat64 __user *"; "int"]; P "sync" []; P "fsync" ["unsigned int"];
   P "fdatasync" ["unsigned int"]; P "sync_file_range2" ["int"; "unsigned int"; "loff_t"; "loff_t"];
   P "sync_file_range" ["int"; "loff_t"; "loff_t"; "unsigned int"]; P "timerfd_create" ["int"; "int"];
   P "timerfd_settime" ["int"; "int"; "const struct __kernel_itimerspec __user *";
     "struct __kernel_itimerspec __user *"]; P "timerfd_gettime" ["int";
     "struct __kernel_itimerspec __user *"]; P "timerfd_gettime32" ["int";
     "struct old_itimerspec32 __user *"]; P "timerfd_settime32" ["int"; "int";
     "const struct old_itimerspec32 __user *"; "struct old_itimerspec32 __user *"];
   P "utimensat" ["int"; "const char __user *"; "struct __kernel_timespec __user *"; "int"];
   P "utimensat_time32" ["unsigned int"; "const char __user *"; "struct old_timespec32 __user *";
     "int"]; P "acct" ["const char __user *"]; P "capget" ["cap_user_header_t"; "cap_user_data_t"];
   P "capset" ["cap_user_header_t"; "const cap_user_data_t"]; P "personality" ["unsigned int"];
   P "exit" ["int"]; P "exit_group" ["int"]; P "waitid" ["int"; "pid_t"; "struct siginfo __user *";
     "int"; "struct rusage __user *"]; P "set_tid_address" ["int __user *"];
   P "unshare" ["unsigned long"]; P "futex" ["u32 __user *"; "int"; "u32";
     "const struct __kernel_timespec __user *"; "u32 __user *"; "u32"];
   P "futex_time32" ["u32 __user *"; "int"; "u32"; "const struct old_timespec32 __user *";
     "u32 __user *"; "u32"]; P "get_robust_list" ["int"; "struct robust_list_head __user * __user *";
     "size_t __user *"]; P "set_robust_list" ["struct robust_list_head __user *"; "size_t"];
   P "futex_waitv" ["struct futex_waitv *"; "unsigned int"; "unsigned int";
     "struct __kernel_timespec __user *"; "clockid_t"];
   P "nanosleep" ["struct __kernel_timespec __user *"; "struct __kernel_timespec __user *"];
   P "nanosleep_time32" ["struct old_timespec32 __user *"; "struct old_timespec32 __user *"];
   P "getitimer" ["int"; "struct __kernel_old_itimerval __user *"]; P "setitimer" ["int";
     "struct __kernel_old_itimerval __user *"; "struct __kernel_old_itimerval __user *"];
   P "kexec_load" ["unsigned long"; "unsigned long"; "struct kexec_segment __user *";
     "unsigned long"]; P "init_module" ["void __user *"; "unsigned long"; "const char __user *"];
   P "delete_module" ["const char __user *"; "unsigned int"]; P "timer_create" ["clockid_t";
     "struct sigevent __user *"; "timer_t __user *"]; P "timer_gettime" ["timer_t";
     "struct __kernel_itimerspec __user *"]; P "timer_getoverrun" ["timer_t"];
   P "timer_settime" ["timer_t"; "int"; "const struct __kernel_itimerspec __user *";
     "struct __kernel_itimerspec __user *"]; P "timer_delete" ["timer_t"];
   P "clock_settime" ["clockid_t"; "const struct __kernel_timespec __user *"];
   P "clock_gettime" ["clockid_t"; "struct __kernel_timespec __user *"];
   P "clock_getres" ["clockid_t"; "struct __kernel_timespec __user *"];
   P "clock_nanosleep" ["clockid_t"; "int"; "const struct __kernel_timespec __user *";
     "struct __kernel_timespec __user *"]; P "timer_gettime32" ["timer_t";
     "struct old_itimerspec32 __user *"]; P "timer_settime32" ["timer_t"; "int";
     "struct old_itimerspec32 __user *"; "struct old_itimerspec32 __user *"];
   P "clock_settime32" ["clockid_t"; "struct old_timespec32 __user *"]].

(** From [sys_clock_gettime32] to [sys_getsockname]. *)
Definition prototypes_3 : list prototype :=
  [P "clock_gettime32" ["clockid_t"; "struct old_timespec32 __user *"];
   P "clock_getres_time32" ["clockid_t"; "struct old_timespec32 __user *"];
   P "clock_nanosleep_time32" ["clockid_t"; "int"; "struct old_timespec32 __user *";
     "struct old_timespec32 __user *"]; P "syslog" ["int"; "char __user *"; "int"]; P "ptrace" ["long";
     "long"; "unsigned long"; "unsigned long"]; P "sched_setparam" ["pid_t";
     "struct sched_param __user *"]; P "sched_setscheduler" ["pid_t"; "int";
     "struct sched_param __user *"]; P "sched_getscheduler" ["pid_t"]; P "sched_getparam" ["pid_t";
     "struct sched_param __user *"]; P "sched_setaffinity" ["pid_t"; "unsigned int";
     "unsigned long __user *"]; P "sched_getaffinity" ["pid_t"; "unsigned int";
     "unsigned long __user *"]; P "sched_yield" []; P "sched_get_priority_max" ["int"];
   P "sched_get_priority_min" ["int"]; P "sched_rr_get_interval" ["pid_t";
     "struct __kernel_timespec __user *"]; P "sched_rr_get_interval_time32" ["pid_t";
     "struct old_timespec32 __user *"]; P "restart_syscall" []; P "kill" ["pid_t"; "int"];
   P "tkill" ["pid_t"; "int"]; P "tgkill" ["pid_t"; "pid_t"; "int"];
   P "sigaltstack" ["const struct sigaltstack __user *"; "struct sigaltstack __user *"];
   P "rt_sigsuspend" ["sigset_t __user *"; "size_t"];
   Proto (Not (Macro "CONFIG_ODD_RT_SIGACTION")) "rt_sigaction" ["int";
     "const struct sigaction __user *"; "struct sigaction __user *"; "size_t"];
   P "rt_sigprocmask" ["int"; "sigset_t __user *"; "sigset_t __user *"; "size_t"];
   P "rt_sigpending" ["sigset_t __user *"; "size_t"]; P "rt_sigtimedwait" ["const sigset_t __user *";
     "siginfo_t __user *"; "const struct __kernel_timespec __user *"; "size_t"];
   P "rt_sigtimedwait_time32" ["const sigset_t __user *"; "siginfo_t __user *";
     "const struct old_timespec32 __user *"; "size_t"]; P "rt_sigqueueinfo" ["pid_t"; "int";
     "siginfo_t __user *"]; P "setpriority" ["int"; "int"; "int"]; P "getpriority" ["int"; "int"];
   P "reboot" ["int"; "int"; "unsigned int"; "void __user *"]; P "setregid" ["gid_t"; "gid_t"];
   P "setgid" ["gid_t"]; P "setreuid" ["uid_t"; "uid_t"]; P "setuid" ["uid_t"];
   P "setresuid" ["uid_t"; "uid_t"; "uid_t"]; P "getresuid" ["uid_t __user *"; "uid_t __user *";
     "uid_t __user *"]; P "setresgid" ["gid_t"; "gid_t"; "gid_t"]; P "getresgid" ["gid_t __user *";
     "gid_t __user *"; "gid_t __user *"]; P "setfsuid" ["uid_t"]; P "setfsgid" ["gid_t"];
   P "times" ["struct tms __user *"]; P "setpgid" ["pid_t"; "pid_t"]; P "getpgid" ["pid_t"];
   P "getsid" ["pid_t"]; P "setsid" []; P "getgroups" ["int"; "gid_t __user *"]; P "setgroups" ["int";
     "gid_t __user *"]; P "newuname" ["struct new_utsname __user *"]; P "sethostname" ["char __user *";
     "int"]; P "setdomainname" ["char __user *"; "int"]; P "getrlimit" ["unsigned int";
     "struct rlimit __user *"]; P "setrlimit" ["unsigned int"; "struct rlimit __user *"];
   P "getrusage" ["int"; "struct rusage __user *"]; P "umask" ["int"]; P "prctl" ["int";
     "unsigned long"; "unsigned long"; "unsigned long"; "unsigned long"];
   P "getcpu" ["unsigned __user *"; "unsigned __user *"; "struct getcpu_cache __user *"];
   P "gettimeofday" ["struct __kernel_old_timeval __user *"; "struct timezone __user *"];
   P "settimeofday" ["struct __kernel_old_timeval __user *"; "struct timezone __user *"];
   P "adjtimex" ["struct __kernel_timex __user *"];
   P "adjtimex_time32" ["struct old_timex32 __user *"]; P "getpid" []; P "getppid" []; P "getuid" [];
   P "geteuid" []; P "getgid" []; P "getegid" []; P "gettid" [];
   P "sysinfo" ["struct sysinfo __user *"]; P "mq_open" ["const char __user *"; "int"; "umode_t";
     "struct mq_attr __user *"]; P "mq_unlink" ["const char __user *"]; P "mq_timedsend" ["mqd_t";
     "const char __user *"; "size_t"; "unsigned int"; "const struct __kernel_timespec __user *"];
   P "mq_timedreceive" ["mqd_t"; "char __user *"; "size_t"; "unsigned int __user *";
     "const struct __kernel_timespec __user *"]; P "mq_notify" ["mqd_t";
     "const struct sigevent __user *"]; P "mq_getsetattr" ["mqd_t"; "const struct mq_attr __user *";
     "struct mq_attr __user *"]; P "mq_timedreceive_time32" ["mqd_t"; "char __user *"; "unsigned int";
     "unsigned int __user *"; "const struct old_timespec32 __user *"];
   P "mq_timedsend_time32" ["mqd_t"; "const char __user *"; "unsigned int"; "unsigned int";
     "const struct old_timespec32 __user *"]; P "msgget" ["key_t"; "int"]; P "old_msgctl" ["int";
     "int"; "struct msqid_ds __user *"]; P "msgctl" ["int"; "int"; "struct msqid_ds __user *"];
   P "msgrcv" ["int"; "struct msgbuf __user *"; "size_t"; "long"; "int"]; P "msgsnd" ["int";
     "struct msgbuf __user *"; "size_t"; "int"]; P "semget" ["key_t"; "int"; "int"]; P "semctl" ["int";
     "int"; "int"; "unsigned long"]; P "old_semctl" ["int"; "int"; "int"; "unsigned long"];
   P "semtimedop" ["int"; "struct sembuf __user *"; "unsigned";
     "const struct __kernel_timespec __user *"]; P "semtimedop_time32" ["int";
     "struct sembuf __user *"; "unsigned"; "const struct old_timespec32 __user *"]; P "semop" ["int";
     "struct sembuf __user *"; "unsigned"]; P "shmget" ["key_t"; "size_t"; "int"];
   P "old_shmctl" ["int"; "int"; "struct shmid_ds __user *"]; P "shmctl" ["int"; "int";
     "struct shmid_ds __user *"]; P "shmat" ["int"; "char __user *"; "int"];
   P "shmdt" ["char __user *"]; P "socket" ["int"; "int"; "int"]; P "socketpair" ["int"; "int"; "int";
     "int __user *"]; P "bind" ["int"; "struct sockaddr __user *"; "int"]; P "listen" ["int"; "int"];
   P "accept" ["int"; "struct sockaddr __user *"; "int __user *"]; P "connect" ["int";
     "struct sockaddr __user *"; "int"]; P "getsockname" ["int"; "struct sockaddr __user *";
     "int __user *"]].

(** From [sys_getpeername] to [sys_sched_getattr]. *)
Definition prototypes_4 : list prototype :=
  [P "getpeername" ["int"; "struct sockaddr __user *"; "int __user *"]; P "sendto" ["int";
     "void __user *"; "size_t"; "unsigned"; "struct sockaddr __user *"; "int"]; P "recvfrom" ["int";
     "void __user *"; "size_t"; "unsigned"; "struct sockaddr __user *"; "int __user *"];
   P "setsockopt" ["int"; "int"; "int"; "char __user *"; "int"]; P "getsockopt" ["int"; "int"; "int";
     "char __user *"; "int __user *"]; P "shutdown" ["int"; "int"]; P "sendmsg" ["int";
     "struct user_msghdr __user *"; "unsigned"]; P "recvmsg" ["int"; "struct user_msghdr __user *";
     "unsigned"]; P "readahead" ["int"; "loff_t"; "size_t"]; P "brk" ["unsigned long"];
   P "munmap" ["unsigned long"; "size_t"]; P "mremap" ["unsigned long"; "unsigned long";
     "unsigned long"; "unsigned long"; "unsigned long"]; P "add_key" ["const char __user *";
     "const char __user *"; "const void __user *"; "size_t"; "key_serial_t"];
   P "request_key" ["const char __user *"; "const char __user *"; "const char __user *";
     "key_serial_t"]; P "keyctl" ["int"; "unsigned long"; "unsigned long"; "unsigned long";
     "unsigned long"]; Proto (Macro "CONFIG_CLONE_BACKWARDS") "clone" ["unsigned long";
     "unsigned long"; "int __user *"; "unsigned long"; "int __user *"];
   Proto (Both (Not (Macro "CONFIG_CLONE_BACKWARDS")) (Macro "CONFIG_CLONE_BACKWARDS3")) "clone" ["unsigned long";
     "unsigned long"; "int"; "int __user *"; "int __user *"; "unsigned long"];
   Proto (Both (Not (Macro "CONFIG_CLONE_BACKWARDS")) (Not (Macro "CONFIG_CLONE_BACKWARDS3"))) "clone" ["unsigned long";
     "unsigned long"; "int __user *"; "int __user *"; "unsigned long"];
   P "clone3" ["struct clone_args __user *"; "size_t"]; P "execve" ["const char __user *";
     "const char __user * const __user *"; "const char __user * const __user *"];
   P "fadvise64_64" ["int"; "loff_t"; "loff_t"; "int"]; P "swapon" ["const char __user *"; "int"];
   P "swapoff" ["const char __user *"]; P "mprotect" ["unsigned long"; "size_t"; "unsigned long"];
   P "msync" ["unsigned long"; "size_t"; "int"]; P "mlock" ["unsigned long"; "size_t"];
   P "munlock" ["unsigned long"; "size_t"]; P "mlockall" ["int"]; P "munlockall" [];
   P "mincore" ["unsigned long"; "size_t"; "unsigned char __user *"]; P "madvise" ["unsigned long";
     "size_t"; "int"]; P "process_madvise" ["int"; "const struct iovec __user *"; "size_t"; "int";
     "unsigned int"]; P "process_mrelease" ["int"; "unsigned int"];
   P "remap_file_pages" ["unsigned long"; "unsigned long"; "unsigned long"; "unsigned long";
     "unsigned long"]; P "mbind" ["unsigned long"; "unsigned long"; "unsigned long";
     "const unsigned long __user *"; "unsigned long"; "unsigned"]; P "get_mempolicy" ["int __user *";
     "unsigned long __user *"; "unsigned long"; "unsigned long"; "unsigned long"];
   P "set_mempolicy" ["int"; "const unsigned long __user *"; "unsigned long"];
   P "migrate_pages" ["pid_t"; "unsigned long"; "const unsigned long __user *";
     "const unsigned long __user *"]; P "move_pages" ["pid_t"; "unsigned long";
     "const void __user * __user *"; "const int __user *"; "int __user *"; "int"];
   P "rt_tgsigqueueinfo" ["pid_t"; "pid_t"; "int"; "siginfo_t __user *"];
   P "perf_event_open" ["struct perf_event_attr __user *"; "pid_t"; "int"; "int"; "unsigned long"];
   P "accept4" ["int"; "struct sockaddr __user *"; "int __user *"; "int"]; P "recvmmsg" ["int";
     "struct mmsghdr __user *"; "unsigned int"; "unsigned"; "struct __kernel_timespec __user *"];
   P "recvmmsg_time32" ["int"; "struct mmsghdr __user *"; "unsigned int"; "unsigned";
     "struct old_timespec32 __user *"]; P "wait4" ["pid_t"; "int __user *"; "int";
     "struct rusage __user *"]; P "prlimit64" ["pid_t"; "unsigned int";
     "const struct rlimit64 __user *"; "struct rlimit64 __user *"]; P "fanotify_init" ["unsigned int";
     "unsigned int"]; P "fanotify_mark" ["int"; "unsigned int"; "u64"; "int"; "const char __user *"];
   P "name_to_handle_at" ["int"; "const char __user *"; "struct file_handle __user *"; "int __user *";
     "int"]; P "open_by_handle_at" ["int"; "struct file_handle __user *"; "int"];
   P "clock_adjtime" ["clockid_t"; "struct __kernel_timex __user *"];
   P "clock_adjtime32" ["clockid_t"; "struct old_timex32 __user *"]; P "syncfs" ["int"];
   P "setns" ["int"; "int"]; P "pidfd_open" ["pid_t"; "unsigned int"]; P "sendmmsg" ["int";
     "struct mmsghdr __user *"; "unsigned int"; "unsigned"]; P "process_vm_readv" ["pid_t";
     "const struct iovec __user *"; "unsigned long"; "const struct iovec __user *"; "unsigned long";
     "unsigned long"]; P "process_vm_writev" ["pid_t"; "const struct iovec __user *"; "unsigned long";
     "const struct iovec __user *"; "unsigned long"; "unsigned long"]; P "kcmp" ["pid_t"; "pid_t";
     "int"; "unsigned long"; "unsigned long"]; P "finit_module" ["int"; "const char __user *"; "int"];
   P "sched_setattr" ["pid_t"; "struct sched_attr __user *"; "unsigned int"];
   P "sched_getattr" ["pid_t"; "struct sched_attr __user *"; "unsigned int"; "unsigned int"]].

(** From [sys_renameat2] to [sys_futimesat]. *)
Definition prototypes_5 : list prototype :=
  [P "renameat2" ["int"; "const char __user *"; "int"; "const char __user *"; "unsigned int"];
   P "seccomp" ["unsigned int"; "unsigned int"; "void __user *"]; P "getrandom" ["char __user *";
     "size_t"; "unsigned int"]; P "memfd_create" ["const char __user *"; "unsigned int"];
   P "bpf" ["int"; "union bpf_attr *"; "unsigned int"]; P "execveat" ["int"; "const char __user *";
     "const char __user * const __user *"; "const char __user * const __user *"; "int"];
   P "userfaultfd" ["int"]; P "membarrier" ["int"; "unsigned int"; "int"];
   P "mlock2" ["unsigned long"; "size_t"; "int"]; P "copy_file_range" ["int"; "loff_t __user *";
     "int"; "loff_t __user *"; "size_t"; "unsigned int"]; P "preadv2" ["unsigned long";
     "const struct iovec __user *"; "unsigned long"; "unsigned long"; "unsigned long"; "rwf_t"];
   P "pwritev2" ["unsigned long"; "const struct iovec __user *"; "unsigned long"; "unsigned long";
     "unsigned long"; "rwf_t"]; P "pkey_mprotect" ["unsigned long"; "size_t"; "unsigned long"; "int"];
   P "pkey_alloc" ["unsigned long"; "unsigned long"]; P "pkey_free" ["int"]; P "statx" ["int";
     "const char __user *"; "unsigned"; "unsigned"; "struct statx __user *"];
   P "rseq" ["struct rseq __user *"; "uint32_t"; "int"; "uint32_t"]; P "open_tree" ["int";
     "const char __user *"; "unsigned"]; P "move_mount" ["int"; "const char __user *"; "int";
     "const char __user *"; "unsigned int"]; P "mount_setattr" ["int"; "const char __user *";
     "unsigned int"; "struct mount_attr __user *"; "size_t"]; P "fsopen" ["const char __user *";
     "unsigned int"]; P "fsconfig" ["int"; "unsigned int"; "const char __user *";
     "const void __user *"; "int"]; P "fsmount" ["int"; "unsigned int"; "unsigned int"];
   P "fspick" ["int"; "const char __user *"; "unsigned int"]; P "pidfd_send_signal" ["int"; "int";
     "siginfo_t __user *"; "unsigned int"]; P "pidfd_getfd" ["int"; "int"; "unsigned int"];
   P "landlock_create_ruleset" ["const struct landlock_ruleset_attr __user *"; "size_t"; "__u32"];
   P "landlock_add_rule" ["int"; "enum landlock_rule_type"; "const void __user *"; "__u32"];
   P "landlock_restrict_self" ["int"; "__u32"]; P "memfd_secret" ["unsigned int"];
   P "set_mempolicy_home_node" ["unsigned long"; "unsigned long"; "unsigned long"; "unsigned long"];
   P "cachestat" ["unsigned int"; "struct cachestat_range __user *"; "struct cachestat __user *";
     "unsigned int"]; P "ioperm" ["unsigned long"; "unsigned long"; "int"];
   P "pciconfig_read" ["unsigned long"; "unsigned long"; "unsigned long"; "unsigned long";
     "void __user *"]; P "pciconfig_write" ["unsigned long"; "unsigned long"; "unsigned long";
     "unsigned long"; "void __user *"]; P "pciconfig_iobase" ["long"; "unsigned long";
     "unsigned long"]; P "spu_run" ["int"; "__u32 __user *"; "__u32 __user *"];
   P "spu_create" ["const char __user *"; "unsigned int"; "umode_t"; "int"];
   P "open" ["const char __user *"; "int"; "umode_t"]; P "link" ["const char __user *";
     "const char __user *"]; P "unlink" ["const char __user *"]; P "mknod" ["const char __user *";
     "umode_t"; "unsigned"]; P "chmod" ["const char __user *"; "umode_t"];
   P "chown" ["const char __user *"; "uid_t"; "gid_t"]; P "mkdir" ["const char __user *"; "umode_t"];
   P "rmdir" ["const char __user *"]; P "lchown" ["const char __user *"; "uid_t"; "gid_t"];
   P "access" ["const char __user *"; "int"]; P "rename" ["const char __user *";
     "const char __user *"]; P "symlink" ["const char __user *"; "const char __user *"];
   Proto (Either (Macro "__ARCH_WANT_STAT64") (Macro "__ARCH_WANT_COMPAT_STAT64")) "stat64" ["const char __user *";
     "struct stat64 __user *"];
   Proto (Either (Macro "__ARCH_WANT_STAT64") (Macro "__ARCH_WANT_COMPAT_STAT64")) "lstat64" ["const char __user *";
     "struct stat64 __user *"]; P "pipe" ["int __user *"]; P "dup2" ["unsigned int"; "unsigned int"];
   P "epoll_create" ["int"]; P "inotify_init" []; P "eventfd" ["unsigned int"]; P "signalfd" ["int";
     "sigset_t __user *"; "size_t"]; P "sendfile" ["int"; "int"; "off_t __user *"; "size_t"];
   P "newstat" ["const char __user *"; "struct stat __user *"]; P "newlstat" ["const char __user *";
     "struct stat __user *"]; P "fadvise64" ["int"; "loff_t"; "size_t"; "int"];
   P "alarm" ["unsigned int"]; P "getpgrp" []; P "pause" [];
   P "time" ["__kernel_old_time_t __user *"]; P "time32" ["old_time32_t __user *"];
   Proto (Macro "__ARCH_WANT_SYS_UTIME") "utime" ["char __user *"; "struct utimbuf __user *"];
   Proto (Macro "__ARCH_WANT_SYS_UTIME") "utimes" ["char __user *";
     "struct __kernel_old_timeval __user *"]; Proto (Macro "__ARCH_WANT_SYS_UTIME") "futimesat" ["int";
     "const char __user *"; "struct __kernel_old_timeval __user *"]].

(** From [sys_futimesat_time32] to [sys_ni_syscall]. *)
Definition prototypes_6 : list prototype :=
  [P "futimesat_time32" ["unsigned int"; "const char __user *"; "struct old_timeval32 __user *"];
   P "utime32" ["const char __user *"; "struct old_utimbuf32 __user *"];
   P "utimes_time32" ["const char __user *"; "struct old_timeval32 __user *"];
   P "creat" ["const char __user *"; "umode_t"]; P "getdents" ["unsigned int";
     "struct linux_dirent __user *"; "unsigned int"]; P "select" ["int"; "fd_set __user *";
     "fd_set __user *"; "fd_set __user *"; "struct __kernel_old_timeval __user *"];
   P "poll" ["struct pollfd __user *"; "unsigned int"; "int"]; P "epoll_wait" ["int";
     "struct epoll_event __user *"; "int"; "int"]; P "ustat" ["unsigned"; "struct ustat __user *"];
   P "vfork" []; P "recv" ["int"; "void __user *"; "size_t"; "unsigned"]; P "send" ["int";
     "void __user *"; "size_t"; "unsigned"]; P "oldumount" ["char __user *"];
   P "uselib" ["const char __user *"]; P "sysfs" ["int"; "unsigned long"; "unsigned long"];
   P "fork" []; P "stime" ["__kernel_old_time_t __user *"]; P "stime32" ["old_time32_t __user *"];
   P "sigpending" ["old_sigset_t __user *"]; P "sigprocmask" ["int"; "old_sigset_t __user *";
     "old_sigset_t __user *"]; Proto (Macro "CONFIG_OLD_SIGSUSPEND") "sigsuspend" ["old_sigset_t"];
   Proto (Macro "CONFIG_OLD_SIGSUSPEND3") "sigsuspend" ["int"; "int"; "old_sigset_t"];
   Proto (Macro "CONFIG_OLD_SIGACTION") "sigaction" ["int"; "const struct old_sigaction __user *";
     "struct old_sigaction __user *"]; P "sgetmask" []; P "ssetmask" ["int"]; P "signal" ["int";
     "__sighandler_t"]; P "nice" ["int"]; P "kexec_file_load" ["int"; "int"; "unsigned long";
     "const char __user *"; "unsigned long"]; P "waitpid" ["pid_t"; "int __user *"; "int"];
   Proto (Macro "CONFIG_HAVE_UID16") "chown16" ["const char __user *"; "old_uid_t"; "old_gid_t"];
   Proto (Macro "CONFIG_HAVE_UID16") "lchown16" ["const char __user *"; "old_uid_t"; "old_gid_t"];
   Proto (Macro "CONFIG_HAVE_UID16") "fchown16" ["unsigned int"; "old_uid_t"; "old_gid_t"];
   Proto (Macro "CONFIG_HAVE_UID16") "setregid16" ["old_gid_t"; "old_gid_t"];
   Proto (Macro "CONFIG_HAVE_UID16") "setgid16" ["old_gid_t"];
   Proto (Macro "CONFIG_HAVE_UID16") "setreuid16" ["old_uid_t"; "old_uid_t"];
   Proto (Macro "CONFIG_HAVE_UID16") "setuid16" ["old_uid_t"];
   Proto (Macro "CONFIG_HAVE_UID16") "setresuid16" ["old_uid_t"; "old_uid_t"; "old_uid_t"];
   Proto (Macro "CONFIG_HAVE_UID16") "getresuid16" ["old_uid_t __user *"; "old_uid_t __user *";
     "old_uid_t __user *"]; Proto (Macro "CONFIG_HAVE_UID16") "setresgid16" ["old_gid_t"; "old_gid_t";
     "old_gid_t"]; Proto (Macro "CONFIG_HAVE_UID16") "getresgid16" ["old_gid_t __user *";
     "old_gid_t __user *"; "old_gid_t __user *"];
   Proto (Macro "CONFIG_HAVE_UID16") "setfsuid16" ["old_uid_t"];
   Proto (Macro "CONFIG_HAVE_UID16") "setfsgid16" ["old_gid_t"];
   Proto (Macro "CONFIG_HAVE_UID16") "getgroups16" ["int"; "old_gid_t __user *"];
   Proto (Macro "CONFIG_HAVE_UID16") "setgroups16" ["int"; "old_gid_t __user *"];
   Proto (Macro "CONFIG_HAVE_UID16") "getuid16" []; Proto (Macro "CONFIG_HAVE_UID16") "geteuid16" [];
   Proto (Macro "CONFIG_HAVE_UID16") "getgid16" []; Proto (Macro "CONFIG_HAVE_UID16") "getegid16" [];
   P "socketcall" ["int"; "unsigned long __user *"]; P "stat" ["const char __user *";
     "struct __old_kernel_stat __user *"]; P "lstat" ["const char __user *";
     "struct __old_kernel_stat __user *"]; P "fstat" ["unsigned int";
     "struct __old_kernel_stat __user *"]; P "readlink" ["const char __user *"; "char __user *";
     "int"]; P "old_select" ["struct sel_arg_struct __user *"]; P "old_readdir" ["unsigned int";
     "struct old_linux_dirent __user *"; "unsigned int"]; P "gethostname" ["char __user *"; "int"];
   P "uname" ["struct old_utsname __user *"]; P "olduname" ["struct oldold_utsname __user *"];
   Proto (Macro "__ARCH_WANT_SYS_OLD_GETRLIMIT") "old_getrlimit" ["unsigned int";
     "struct rlimit __user *"]; P "ipc" ["unsigned int"; "int"; "unsigned long"; "unsigned long";
     "void __user *"; "long"]; P "mmap_pgoff" ["unsigned long"; "unsigned long"; "unsigned long";
     "unsigned long"; "unsigned long"; "unsigned long"];
   P "old_mmap" ["struct mmap_arg_struct __user *"]; P "ni_syscall" []].

Definition prototypes : list prototype :=
  prototypes_1 ++ prototypes_2 ++ prototypes_3 ++ prototypes_4 ++ prototypes_5 ++ prototypes_6.

(** ** The system calls of this repository *)

(** [SYSCALL_DEFINEn(name, t1, a1, ..., tn, an)]; the number [n] is written in
    the name of the macro. *)
Record sysdef := Sysdef { def_count : nat; def_name : string; def_args : list (string * string) }.
#[export] Instance sysdef_eq_dec : EqDecision sysdef.
Proof. solve_decision. Defined.
(** [kernel/sys.c]. *)
Definition sys_c_calls : list sysdef :=
  [Sysdef 3 "setpriority" [("int", "which"); ("int", "who"); ("int", "niceval")];
   Sysdef 2 "getpriority" [("int", "which"); ("int", "who")]; Sysdef 2 "setregid" [("gid_t", "rgid");
     ("gid_t", "egid")]; Sysdef 1 "setgid" [("gid_t", "gid")]; Sysdef 2 "setreuid" [("uid_t", "ruid");
     ("uid_t", "euid")]; Sysdef 1 "setuid" [("uid_t", "uid")]; Sysdef 3 "setresuid" [("uid_t", "ruid");
     ("uid_t", "euid"); ("uid_t", "suid")]; Sysdef 3 "getresuid" [("uid_t __user *", "ruidp");
     ("uid_t __user *", "euidp"); ("uid_t __user *", "suidp")];
   Sysdef 3 "setresgid" [("gid_t", "rgid"); ("gid_t", "egid"); ("gid_t", "sgid")];
   Sysdef 3 "getresgid" [("gid_t __user *", "rgidp"); ("gid_t __user *", "egidp");
     ("gid_t __user *", "sgidp")]; Sysdef 1 "setfsuid" [("uid_t", "uid")];
   Sysdef 1 "setfsgid" [("gid_t", "gid")]; Sysdef 0 "getpid" []; Sysdef 0 "gettid" [];
   Sysdef 0 "getppid" []; Sysdef 0 "getuid" []; Sysdef 0 "geteuid" []; Sysdef 0 "getgid" [];
   Sysdef 0 "getegid" []; Sysdef 1 "times" [("struct tms __user *", "tbuf")];
   Sysdef 2 "setpgid" [("pid_t", "pid"); ("pid_t", "pgid")]; Sysdef 1 "getpgid" [("pid_t", "pid")];
   Sysdef 0 "getpgrp" []; Sysdef 1 "getsid" [("pid_t", "pid")]; Sysdef 0 "setsid" [];
   Sysdef 1 "newuname" [("struct new_utsname __user *", "name")];
   Sysdef 1 "uname" [("struct old_utsname __user *", "name")];
   Sysdef 1 "olduname" [("struct oldold_utsname __user *", "name")];
   Sysdef 2 "sethostname" [("char __user *", "name"); ("int", "len")];
   Sysdef 2 "gethostname" [("char __user *", "name"); ("int", "len")];
   Sysdef 2 "setdomainname" [("char __user *", "name"); ("int", "len")];
   Sysdef 2 "getrlimit" [("unsigned int", "resource"); ("struct rlimit __user *", "rlim")];
   Sysdef 2 "old_getrlimit" [("unsigned int", "resource"); ("struct rlimit __user *", "rlim")];
   Sysdef 4 "prlimit64" [("pid_t", "pid"); ("unsigned int", "resource");
     ("const struct rlimit64 __user *", "new_rlim"); ("struct rlimit64 __user *", "old_rlim")];
   Sysdef 2 "setrlimit" [("unsigned int", "resource"); ("struct rlimit __user *", "rlim")];
   Sysdef 2 "getrusage" [("int", "who"); ("struct rusage __user *", "ru")];
   Sysdef 1 "umask" [("int", "mask")]; Sysdef 5 "prctl" [("int", "option"); ("unsigned long", "arg2");
     ("unsigned long", "arg3"); ("unsigned long", "arg4"); ("unsigned long", "arg5")];
   Sysdef 3 "getcpu" [("unsigned __user *", "cpup"); ("unsigned __user *", "nodep");
     ("struct getcpu_cache __user *", "unused")];
   Sysdef 1 "sysinfo" [("struct sysinfo __user *", "info")]].

(** [fs/read_write.c]. *)
Definition read_write_calls : list sysdef :=
  [Sysdef 3 "lseek" [("unsigned int", "fd"); ("off_t", "offset"); ("unsigned int", "whence")];
   Sysdef 5 "llseek" [("unsigned int", "fd"); ("unsigned long", "offset_high");
     ("unsigned long", "offset_low"); ("loff_t __user *", "result"); ("unsigned int", "whence")];
   Sysdef 3 "read" [("unsigned int", "fd"); ("char __user *", "buf"); ("size_t", "count")];
   Sysdef 3 "write" [("unsigned int", "fd"); ("const char __user *", "buf"); ("size_t", "count")];
   Sysdef 4 "pread64" [("unsigned int", "fd"); ("char __user *", "buf"); ("size_t", "count");
     ("loff_t", "pos")]; Sysdef 4 "pwrite64" [("unsigned int", "fd"); ("const char __user *", "buf");
     ("size_t", "count"); ("loff_t", "pos")]; Sysdef 3 "readv" [("unsigned long", "fd");
     ("const struct iovec __user *", "vec"); ("unsigned long", "vlen")];
   Sysdef 3 "writev" [("unsigned long", "fd"); ("const struct iovec __user *", "vec");
     ("unsigned long", "vlen")]; Sysdef 5 "preadv" [("unsigned long", "fd");
     ("const struct iovec __user *", "vec"); ("unsigned long", "vlen"); ("unsigned long", "pos_l");
     ("unsigned long", "pos_h")]; Sysdef 6 "preadv2" [("unsigned long", "fd");
     ("const struct iovec __user *", "vec"); ("unsigned long", "vlen"); ("unsigned long", "pos_l");
     ("unsigned long", "pos_h"); ("rwf_t", "flags")]; Sysdef 5 "pwritev" [("unsigned long", "fd");
     ("const struct iovec __user *", "vec"); ("unsigned long", "vlen"); ("unsigned long", "pos_l");
     ("unsigned long", "pos_h")]; Sysdef 6 "pwritev2" [("unsigned long", "fd");
     ("const struct iovec __user *", "vec"); ("unsigned long", "vlen"); ("unsigned long", "pos_l");
     ("unsigned long", "pos_h"); ("rwf_t", "flags")]; Sysdef 4 "sendfile" [("int", "out_fd");
     ("int", "in_fd"); ("off_t __user *", "offset"); ("size_t", "count")];
   Sysdef 4 "sendfile64" [("int", "out_fd"); ("int", "in_fd"); ("loff_t __user *", "offset");
     ("size_t", "count")]; Sysdef 6 "copy_file_range" [("int", "fd_in"); ("loff_t __user *", "off_in");
     ("int", "fd_out"); ("loff_t __user *", "off_out"); ("size_t", "len"); ("unsigned int", "flags")]].

(** [kernel/usac]. *)
Definition usac_calls : list sysdef :=
  [Sysdef 1 "_202000173_capture_memory_snapshot" [("struct memory_snapshot __user *", "user_snap")];
   Sysdef 2 "_202000173_get_io_throttle" [("int", "pid");
     ("struct io_stats_user __user *", "user_stats")];
   Sysdef 1 "_202000173_tamalloc" [("struct tamalloc_global_info __user *", "info")];
   Sysdef 2 "_202000173_memory_allocation_statistics" [("pid_t", "pid");
     ("struct tamalloc_proc_info __user *", "info")];
   Sysdef 1 "_202000173_tamalloc_stats" [("size_t", "size")];
   Sysdef 3 "_202000173_get_memory_limits" [("struct memory_limitation __user *", "u_processes_buffer");
     ("size_t", "max_entries"); ("int __user *", "processes_returned")];
   Sysdef 1 "_202000173_remove_memory_limit" [("pid_t", "process_pid")];
   Sysdef 2 "_202000173_add_memory_limit" [("pid_t", "process_pid"); ("size_t", "memory_limit")];
   Sysdef 2 "_202000173_update_memory_limit" [("pid_t", "process_pid"); ("size_t", "memory_limit")]].

Definition repo_calls : list sysdef := sys_c_calls ++ read_write_calls ++ usac_calls.

(** ** The numbers *)

Inductive abi := Common | Only64 | X32.
#[export] Instance abi_eq_dec : EqDecision abi.
Proof. solve_decision. Defined.

Record tblent := Entry { ent_nr : Z; ent_abi : abi; ent_name : string; ent_point : option string }.
#[export] Instance tblent_eq_dec : EqDecision tblent.
Proof. solve_decision. Defined.

(** Entries whose entry point is [sys_] and the name, and entries without one. *)
Definition E (nr : Z) (a : abi) (name : string) : tblent := Entry nr a name (Some ("sys_" ++ name)).
Definition N (nr : Z) (a : abi) (name : string) : tblent := Entry nr a name None.

Definition syscall_64_1 : list tblent :=
  [E 0 Common "read"; E 1 Common "write"; E 2 Common "open"; E 3 Common "close";
   Entry 4 Common "stat" (Some "sys_newstat"); Entry 5 Common "fstat" (Some "sys_newfstat");
   Entry 6 Common "lstat" (Some "sys_newlstat"); E 7 Common "poll"; E 8 Common "lseek";
   E 9 Common "mmap"; E 10 Common "mprotect"; E 11 Common "munmap"; E 12 Common "brk";
   E 13 Only64 "rt_sigaction"; E 14 Common "rt_sigprocmask"; E 15 Only64 "rt_sigreturn";
   E 16 Only64 "ioctl"; E 17 Common "pread64"; E 18 Common "pwrite64"; E 19 Only64 "readv";
   E 20 Only64 "writev"; E 21 Common "access"; E 22 Common "pipe"; E 23 Common "select";
   E 24 Common "sched_yield"; E 25 Common "mremap"; E 26 Common "msync"; E 27 Common "mincore";
   E 28 Common "madvise"; E 29 Common "shmget"; E 30 Common "shmat"; E 31 Common "shmctl";
   E 32 Common "dup"; E 33 Common "dup2"; E 34 Common "pause"; E 35 Common "nanosleep";
   E 36 Common "getitimer"; E 37 Common "alarm"; E 38 Common "setitimer"; E 39 Common "getpid";
   Entry 40 Common "sendfile" (Some "sys_sendfile64"); E 41 Common "socket"; E 42 Common "connect";
   E 43 Common "accept"; E 44 Common "sendto"; E 45 Only64 "recvfrom"; E 46 Only64 "sendmsg";
   E 47 Only64 "recvmsg"; E 48 Common "shutdown"; E 49 Common "bind"; E 50 Common "listen";
   E 51 Common "getsockname"; E 52 Common "getpeername"; E 53 Common "socketpair";
   E 54 Only64 "setsockopt"; E 55 Only64 "getsockopt"; E 56 Common "clone"; E 57 Common "fork";
   E 58 Common "vfork"; E 59 Only64 "execve"; E 60 Common "exit"; E 61 Common "wait4";
   E 62 Common "kill"; Entry 63 Common "uname" (Some "sys_newuname"); E 64 Common "semget";
   E 65 Common "semop"; E 66 Common "semctl"; E 67 Common "shmdt"; E 68 Common "msgget";
   E 69 Common "msgsnd"; E 70 Common "msgrcv"; E 71 Common "msgctl"; E 72 Common "fcntl";
   E 73 Common "flock"; E 74 Common "fsync"; E 75 Common "fdatasync"; E 76 Common "truncate";
   E 77 Common "ftruncate"; E 78 Common "getdents"; E 79 Common "getcwd"; E 80 Common "chdir";
   E 81 Common "fchdir"; E 82 Common "rename"; E 83 Common "mkdir"; E 84 Common "rmdir";
   E 85 Common "creat"; E 86 Common "link"; E 87 Common "unlink"; E 88 Common "symlink";
   E 89 Common "readlink"; E 90 Common "chmod"; E 91 Common "fchmod"; E 92 Common "chown";
   E 93 Common "fchown"; E 94 Common "lchown"; E 95 Common "umask"; E 96 Common "gettimeofday";
   E 97 Common "getrlimit"; E 98 Common "getrusage"; E 99 Common "sysinfo"; E 100 Common "times";
   E 101 Only64 "ptrace"; E 102 Common "getuid"; E 103 Common "syslog"; E 104 Common "getgid";
   E 105 Common "setuid"; E 106 Common "setgid"; E 107 Common "geteuid"; E 108 Common "getegid";
   E 109 Common "setpgid"; E 110 Common "getppid"; E 111 Common "getpgrp"; E 112 Common "setsid";
   E 113 Common "setreuid"; E 114 Common "setregid"; E 115 Common "getgroups";
   E 116 Common "setgroups"; E 117 Common "setresuid"; E 118 Common "getresuid";
   E 119 Common "setresgid"; E 120 Common "getresgid"; E 121 Common "getpgid";
   E 122 Common "setfsuid"; E 123 Common "setfsgid"; E 124 Common "getsid"; E 125 Common "capget";
   E 126 Common "capset"; E 127 Only64 "rt_sigpending"; E 128 Only64 "rt_sigtimedwait";
   E 129 Only64 "rt_sigqueueinfo"; E 130 Common "rt_sigsuspend"; E 131 Only64 "sigaltstack";
   E 132 Common "utime"; E 133 Common "mknod"; N 134 Only64 "uselib"; E 135 Common "personality";
   E 136 Common "ustat"; E 137 Common "statfs"; E 138 Common "fstatfs"; E 139 Common "sysfs";
   E 140 Common "getpriority"; E 141 Common "setpriority"; E 142 Common "sched_setparam";
   E 143 Common "sched_getparam"; E 144 Common "sched_setscheduler"; E 145 Common "sched_getscheduler"].
Definition syscall_64_2 : list tblent :=
  [E 146 Common "sched_get_priority_max"; E 147 Common "sched_get_priority_min";
   E 148 Common "sched_rr_get_interval"; E 149 Common "mlock"; E 150 Common "munlock";
   E 151 Common "mlockall"; E 152 Common "munlockall"; E 153 Common "vhangup";
   E 154 Common "modify_ldt"; E 155 Common "pivot_root";
   Entry 156 Only64 "_sysctl" (Some "sys_ni_syscall"); E 157 Common "prctl";
   E 158 Common "arch_prctl"; E 159 Common "adjtimex"; E 160 Common "setrlimit";
   E 161 Common "chroot"; E 162 Common "sync"; E 163 Common "acct"; E 164 Common "settimeofday";
   E 165 Common "mount"; Entry 166 Common "umount2" (Some "sys_umount"); E 167 Common "swapon";
   E 168 Common "swapoff"; E 169 Common "reboot"; E 170 Common "sethostname";
   E 171 Common "setdomainname"; E 172 Common "iopl"; E 173 Common "ioperm";
   N 174 Only64 "create_module"; E 175 Common "init_module"; E 176 Common "delete_module";
   N 177 Only64 "get_kernel_syms"; N 178 Only64 "query_module"; E 179 Common "quotactl";
   N 180 Only64 "nfsservctl"; N 181 Common "getpmsg"; N 182 Common "putpmsg";
   N 183 Common "afs_syscall"; N 184 Common "tuxcall"; N 185 Common "security"; E 186 Common "gettid";
   E 187 Common "readahead"; E 188 Common "setxattr"; E 189 Common "lsetxattr";
   E 190 Common "fsetxattr"; E 191 Common "getxattr"; E 192 Common "lgetxattr";
   E 193 Common "fgetxattr"; E 194 Common "listxattr"; E 195 Common "llistxattr";
   E 196 Common "flistxattr"; E 197 Common "removexattr"; E 198 Common "lremovexattr";
   E 199 Common "fremovexattr"; E 200 Common "tkill"; E 201 Common "time"; E 202 Common "futex";
   E 203 Common "sched_setaffinity"; E 204 Common "sched_getaffinity"; N 205 Only64 "set_thread_area";
   E 206 Only64 "io_setup"; E 207 Common "io_destroy"; E 208 Common "io_getevents";
   E 209 Only64 "io_submit"; E 210 Common "io_cancel"; N 211 Only64 "get_thread_area";
   E 212 Common "lookup_dcookie"; E 213 Common "epoll_create"; N 214 Only64 "epoll_ctl_old";
   N 215 Only64 "epoll_wait_old"; E 216 Common "remap_file_pages"; E 217 Common "getdents64";
   E 218 Common "set_tid_address"; E 219 Common "restart_syscall"; E 220 Common "semtimedop";
   E 221 Common "fadvise64"; E 222 Only64 "timer_create"; E 223 Common "timer_settime";
   E 224 Common "timer_gettime"; E 225 Common "timer_getoverrun"; E 226 Common "timer_delete";
   E 227 Common "clock_settime"; E 228 Common "clock_gettime"; E 229 Common "clock_getres";
   E 230 Common "clock_nanosleep"; E 231 Common "exit_group"; E 232 Common "epoll_wait";
   E 233 Common "epoll_ctl"; E 234 Common "tgkill"; E 235 Common "utimes"; N 236 Only64 "vserver";
   E 237 Common "mbind"; E 238 Common "set_mempolicy"; E 239 Common "get_mempolicy";
   E 240 Common "mq_open"; E 241 Common "mq_unlink"; E 242 Common "mq_timedsend";
   E 243 Common "mq_timedreceive"; E 244 Only64 "mq_notify"; E 245 Common "mq_getsetattr";
   E 246 Only64 "kexec_load"; E 247 Only64 "waitid"; E 248 Common "add_key";
   E 249 Common "request_key"; E 250 Common "keyctl"; E 251 Common "ioprio_set";
   E 252 Common "ioprio_get"; E 253 Common "inotify_init"; E 254 Common "inotify_add_watch";
   E 255 Common "inotify_rm_watch"; E 256 Common "migrate_pages"; E 257 Common "openat";
   E 258 Common "mkdirat"; E 259 Common "mknodat"; E 260 Common "fchownat"; E 261 Common "futimesat";
   E 262 Common "newfstatat"; E 263 Common "unlinkat"; E 264 Common "renameat"; E 265 Common "linkat";
   E 266 Common "symlinkat"; E 267 Common "readlinkat"; E 268 Common "fchmodat";
   E 269 Common "faccessat"; E 270 Common "pselect6"; E 271 Common "ppoll"; E 272 Common "unshare";
   E 273 Only64 "set_robust_list"; E 274 Only64 "get_robust_list"; E 275 Common "splice";
   E 276 Common "tee"; E 277 Common "sync_file_range"; E 278 Only64 "vmsplice";
   E 279 Only64 "move_pages"; E 280 Common "utimensat"; E 281 Common "epoll_pwait";
   E 282 Common "signalfd"; E 283 Common "timerfd_create"; E 284 Common "eventfd";
   E 285 Common "fallocate"; E 286 Common "timerfd_settime"; E 287 Common "timerfd_gettime";
   E 288 Common "accept4"; E 289 Common "signalfd4"; E 290 Common "eventfd2";
   E 291 Common "epoll_create1"].
Definition syscall_64_3 : list tblent :=
  [E 292 Common "dup3"; E 293 Common "pipe2"; E 294 Common "inotify_init1"; E 295 Only64 "preadv";
   E 296 Only64 "pwritev"; E 297 Only64 "rt_tgsigqueueinfo"; E 298 Common "perf_event_open";
   E 299 Only64 "recvmmsg"; E 300 Common "fanotify_init"; E 301 Common "fanotify_mark";
   E 302 Common "prlimit64"; E 303 Common "name_to_handle_at"; E 304 Common "open_by_handle_at";
   E 305 Common "clock_adjtime"; E 306 Common "syncfs"; E 307 Only64 "sendmmsg"; E 308 Common "setns";
   E 309 Common "getcpu"; E 310 Only64 "process_vm_readv"; E 311 Only64 "process_vm_writev";
   E 312 Common "kcmp"; E 313 Common "finit_module"; E 314 Common "sched_setattr";
   E 315 Common "sched_getattr"; E 316 Common "renameat2"; E 317 Common "seccomp";
   E 318 Common "getrandom"; E 319 Common "memfd_create"; E 320 Common "kexec_file_load";
   E 321 Common "bpf"; E 322 Only64 "execveat"; E 323 Common "userfaultfd"; E 324 Common "membarrier";
   E 325 Common "mlock2"; E 326 Common "copy_file_range"; E 327 Only64 "preadv2";
   E 328 Only64 "pwritev2"; E 329 Common "pkey_mprotect"; E 330 Common "pkey_alloc";
   E 331 Common "pkey_free"; E 332 Common "statx"; E 333 Common "io_pgetevents"; E 334 Common "rseq";
   E 424 Common "pidfd_send_signal"; E 425 Common "io_uring_setup"; E 426 Common "io_uring_enter";
   E 427 Common "io_uring_register"; E 428 Common "open_tree"; E 429 Common "move_mount";
   E 430 Common "fsopen"; E 431 Common "fsconfig"; E 432 Common "fsmount"; E 433 Common "fspick";
   E 434 Common "pidfd_open"; E 435 Common "clone3"; E 436 Common "close_range";
   E 437 Common "openat2"; E 438 Common "pidfd_getfd"; E 439 Common "faccessat2";
   E 440 Common "process_madvise"; E 441 Common "epoll_pwait2"; E 442 Common "mount_setattr";
   E 443 Common "quotactl_fd"; E 444 Common "landlock_create_ruleset";
   E 445 Common "landlock_add_rule"; E 446 Common "landlock_restrict_self";
   E 447 Common "memfd_secret"; E 448 Common "process_mrelease"; E 449 Common "futex_waitv";
   E 450 Common "set_mempolicy_home_node"; E 451 Common "cachestat";
   Entry 512 X32 "rt_sigaction" (Some "compat_sys_rt_sigaction");
   Entry 513 X32 "rt_sigreturn" (Some "compat_sys_x32_rt_sigreturn");
   Entry 514 X32 "ioctl" (Some "compat_sys_ioctl"); E 515 X32 "readv"; E 516 X32 "writev";
   Entry 517 X32 "recvfrom" (Some "compat_sys_recvfrom");
   Entry 518 X32 "sendmsg" (Some "compat_sys_sendmsg");
   Entry 519 X32 "recvmsg" (Some "compat_sys_recvmsg");
   Entry 520 X32 "execve" (Some "compat_sys_execve");
   Entry 521 X32 "ptrace" (Some "compat_sys_ptrace");
   Entry 522 X32 "rt_sigpending" (Some "compat_sys_rt_sigpending");
   Entry 523 X32 "rt_sigtimedwait" (Some "compat_sys_rt_sigtimedwait_time64");
   Entry 524 X32 "rt_sigqueueinfo" (Some "compat_sys_rt_sigqueueinfo");
   Entry 525 X32 "sigaltstack" (Some "compat_sys_sigaltstack");
   Entry 526 X32 "timer_create" (Some "compat_sys_timer_create");
   Entry 527 X32 "mq_notify" (Some "compat_sys_mq_notify");
   Entry 528 X32 "kexec_load" (Some "compat_sys_kexec_load");
   Entry 529 X32 "waitid" (Some "compat_sys_waitid");
   Entry 530 X32 "set_robust_list" (Some "compat_sys_set_robust_list");
   Entry 531 X32 "get_robust_list" (Some "compat_sys_get_robust_list"); E 532 X32 "vmsplice";
   E 533 X32 "move_pages"; Entry 534 X32 "preadv" (Some "compat_sys_preadv64");
   Entry 535 X32 "pwritev" (Some "compat_sys_pwritev64");
   Entry 536 X32 "rt_tgsigqueueinfo" (Some "compat_sys_rt_tgsigqueueinfo");
   Entry 537 X32 "recvmmsg" (Some "compat_sys_recvmmsg_time64");
   Entry 538 X32 "sendmmsg" (Some "compat_sys_sendmmsg"); E 539 X32 "process_vm_readv";
   E 540 X32 "process_vm_writev"; E 541 X32 "setsockopt"; E 542 X32 "getsockopt";
   Entry 543 X32 "io_setup" (Some "compat_sys_io_setup");
   Entry 544 X32 "io_submit" (Some "compat_sys_io_submit");
   Entry 545 X32 "execveat" (Some "compat_sys_execveat");
   Entry 546 X32 "preadv2" (Some "compat_sys_preadv64v2");
   Entry 547 X32 "pwritev2" (Some "compat_sys_pwritev64v2");
   E 548 Common "_202000173_capture_memory_snapshot"; E 549 Common "_202000173_get_io_throttle";
   E 550 Common "_202000173_tamalloc"; E 551 Common "_202000173_memory_allocation_statistics";
   E 552 Common "_202000173_tamalloc_stats"; E 557 Common "_202000173_add_memory_limit";
   E 558 Common "_202000173_get_memory_limits"; E 559 Common "_202000173_update_memory_limit";
   E 560 Common "_202000173_remove_memory_limit"].
Definition syscall_64_tbl : list tblent := syscall_64_1 ++ syscall_64_2 ++ syscall_64_3.
