(* ===== verification/Syscalls.v ===== *)
(** * Syscalls: the macros and the tables of the system call interface

    [include/linux/syscalls.h]: [__MAP] and the macros of one argument, the
    metadata of a call, [SYSCALL_DEFINEn] and the wrapper [__se_sys] that it
    puts around a body, the split 64-bit arguments, the inline functions of the
    end of the file.  The lists the macros are applied to are in
    [SyscallDecls].

    The types [size_t], [pid_t], ... are typedefs of other headers: the class
    [Typedefs] has them as a parameter with the definitions that
    [include/linux/types.h] and its like document for x86-64. *)

From Stdlib Require Import Ascii.
From S2P Require Import Prelude SyscallDecls.

(** ** Types of arguments *)

Inductive rank := Char | Short | Int | Long | LongLong.
#[export] Instance rank_eq_dec : EqDecision rank.
Proof. solve_decision. Defined.

Inductive ctype := Integer (signed : bool) (r : rank) | Pointer.
#[export] Instance ctype_eq_dec : EqDecision ctype.
Proof. solve_decision. Defined.

(** [sizeof] with words of [word] bytes. *)
Definition sizeof (word : Z) (t : ctype) : Z :=
  match t with
  | Integer _ Char => 1
  | Integer _ Short => 2
  | Integer _ Int => 4
  | Integer _ Long | Pointer => word
  | Integer _ LongLong => 8
  end.

Definition signed (t : ctype) : bool := match t with Integer s _ => s | Pointer => false end.

(** The conversion of an integer to a type of [bits] bits. *)
Definition to_bits (sg : bool) (bits x : Z) : Z :=
  if sg then (x + 2 ^ (bits - 1)) mod 2 ^ bits - 2 ^ (bits - 1) else x mod 2 ^ bits.
Definition convert (word : Z) (t : ctype) (x : Z) : Z := to_bits (signed t) (8 * sizeof word t) x.

Definition value_of (word : Z) (t : ctype) (x : Z) : Prop :=
  let bits := 8 * sizeof word t in
  if signed t then - 2 ^ (bits - 1) ≤ x < 2 ^ (bits - 1) else 0 ≤ x < 2 ^ bits.
#[export] Instance value_of_dec word t x : Decision (value_of word t x).
Proof. unfold value_of. destruct (signed t); apply _. Defined.

(** *** The names of types *)

Definition is_pointer (s : string) : bool :=
  existsb (Ascii.eqb "*"%char) (String.list_ascii_of_string s).

Definition without_const (s : string) : string :=
  if String.prefix "const " s then String.substring 6 (String.length s - 6) s else s.

Definition assoc {A} (s : string) (l : list (string * A)) : option A :=
  snd <$> find (λ x, String.eqb s x.1) l.

Definition integer_types : list (string * ctype) :=
  [("char", Integer true Char); ("int", Integer true Int); ("long", Integer true Long);
   ("unsigned", Integer false Int); ("unsigned int", Integer false Int);
   ("unsigned long", Integer false Long)]%string.

(** What a parameter's type is; an enumeration is an [unsigned int]. *)
Definition c_type (typedef : string → option ctype) (s : string) : option ctype :=
  if is_pointer s then Some Pointer else
  let s := without_const s in
  match assoc s integer_types with
  | Some t => Some t
  | None => if String.prefix "enum " s then Some (Integer false Int) else typedef s
  end.

(** The typedefs of x86-64 that the prototypes use. *)
Definition x86_64_typedefs : list (string * ctype) :=
  [("size_t", Integer false Long); ("aio_context_t", Integer false Long);
   ("off_t", Integer true Long); ("old_sigset_t", Integer false Long);
   ("loff_t", Integer true LongLong); ("u64", Integer false LongLong);
   ("u32", Integer false Int); ("__u32", Integer false Int); ("uint32_t", Integer false Int);
   ("uid_t", Integer false Int); ("gid_t", Integer false Int); ("qid_t", Integer false Int);
   ("__s32", Integer true Int); ("pid_t", Integer true Int); ("clockid_t", Integer true Int);
   ("timer_t", Integer true Int); ("mqd_t", Integer true Int); ("key_t", Integer true Int);
   ("key_serial_t", Integer true Int); ("rwf_t", Integer true Int);
   ("umode_t", Integer false Short); ("old_uid_t", Integer false Short);
   ("old_gid_t", Integer false Short);
   ("cap_user_header_t", Pointer); ("cap_user_data_t", Pointer); ("__sighandler_t", Pointer)]%string.

Class Typedefs := {
  typedef : string → option ctype;
  typedef_documented n t : assoc n x86_64_typedefs = Some t → typedef n = Some t;
}.
#[export] Instance documented_typedefs : Typedefs := {|
  typedef := λ n, assoc n x86_64_typedefs;
  typedef_documented := λ n t H, H;
|}.

(** ** The macros of one argument *)

Definition TYPE_IS_L (t : ctype) : bool := bool_decide (t = Integer true Long).
Definition TYPE_IS_UL (t : ctype) : bool := bool_decide (t = Integer false Long).
Definition TYPE_IS_LL (t : ctype) : bool :=
  bool_decide (t = Integer true LongLong) || bool_decide (t = Integer false LongLong).

(** [__typeof(__builtin_choose_expr(__TYPE_IS_LL(t), 0LL, 0L))] *)
Definition SC_LONG (t : ctype) : ctype :=
  if TYPE_IS_LL t then Integer true LongLong else Integer true Long.
Definition SC_CAST (word : Z) (t : ctype) (x : Z) : Z := convert word t x.
(** The build fails when this is false. *)
Definition SC_TEST (word : Z) (t : ctype) : bool :=
  negb (negb (TYPE_IS_LL t) && (sizeof word (Integer true Long) <? sizeof word t)).

(** [__MAP(n, m, t1, a1, ..., tn, an)]: the pairs after the [n]-th are dropped,
    and with fewer the expansion is not C. *)
Fixpoint MAP {A B} (n : nat) (m : A → B) (args : list A) : option (list B) :=
  match n with
  | O => Some []
  | S n =>
      match args with
      | [] => None
      | a :: rest => (m a ::.) <$> MAP n m rest
      end
  end.

(** ** The metadata of a call ([CONFIG_FTRACE_SYSCALLS]) *)

Inductive event_class := event_class_syscall_enter | event_class_syscall_exit | other_class.
#[export] Instance event_class_eq_dec : EqDecision event_class.
Proof. solve_decision. Defined.

Record trace_event_call := TraceEvent { tp_class : event_class; tp_name : string; tp_data : string }.

Record syscall_metadata := Metadata {
  meta_name : string;
  syscall_nr : Z;
  nb_args : nat;
  meta_types : option (list string);   (* NULL without arguments *)
  meta_args : option (list string);
  enter_event : trace_event_call;
  exit_event : trace_event_call;
}.

Definition SYSCALL_TRACE_ENTER_EVENT (sname : string) : trace_event_call :=
  TraceEvent event_class_syscall_enter ("sys_enter" ++ sname) ("__syscall_meta_" ++ sname).
Definition SYSCALL_TRACE_EXIT_EVENT (sname : string) : trace_event_call :=
  TraceEvent event_class_syscall_exit ("sys_exit" ++ sname) ("__syscall_meta_" ++ sname).

Definition SYSCALL_METADATA (sname : string) (nb : nat) (args : list (string * string))
    : option syscall_metadata :=
  types ← MAP nb fst args;
  names ← MAP nb snd args;
  mret (Metadata ("sys" ++ sname) (-1) nb
          (if bool_decide (nb = O) then None else Some types)
          (if bool_decide (nb = O) then None else Some names)
          (SYSCALL_TRACE_ENTER_EVENT sname) (SYSCALL_TRACE_EXIT_EVENT sname)).

Definition is_syscall_trace_event (tp_event : trace_event_call) : bool :=
  bool_decide (tp_class tp_event = event_class_syscall_enter) ||
  bool_decide (tp_class tp_event = event_class_syscall_exit).

(** ** The definition of a call *)

Record syscall := Syscall {
  sys_symbol : string;          (* the entry point, an alias of [__se_sys] *)
  do_params : list ctype;       (* the parameters of [__do_sys] *)
  se_params : list ctype;       (* the parameters of [__se_sys] *)
  sys_meta : syscall_metadata;
}.

Definition SYSCALL_DEFINE_MAXARGS : nat := 6.
(** Its arguments are passed in as many words, on 32-bit machines too. *)
Definition SYSCALL_ARG_WORDS : Z := Z.of_nat SYSCALL_DEFINE_MAXARGS.

Section define.
Context (word : Z) `{Typedefs}.

(** [__SYSCALL_DEFINEx], which [__SC_TEST] can stop. *)
Definition SYSCALL_DEFINEx (x : nat) (sname : string) (args : list (string * string))
    : option syscall :=
  meta ← SYSCALL_METADATA sname x args;
  decls ← MAP x (λ a, c_type typedef a.1) args;
  ts ← mapM id decls;
  if forallb (SC_TEST word) ts then
    mret (Syscall ("sys" ++ sname) ts (SC_LONG <$> ts) meta)
  else None.

Definition SYSCALL_DEFINE0 (sname : string) : option syscall :=
  meta ← SYSCALL_METADATA ("_" ++ sname) 0 [];
  mret (Syscall ("sys_" ++ sname) [] [] meta).

(** [SYSCALL_DEFINE1] to [SYSCALL_DEFINE6]; there is no macro of a higher number. *)
Definition SYSCALL_DEFINE (d : sysdef) : option syscall :=
  match def_count d with
  | O => SYSCALL_DEFINE0 (def_name d)
  | S _ => if (def_count d <=? SYSCALL_DEFINE_MAXARGS)%nat
           then SYSCALL_DEFINEx (def_count d) ("_" ++ def_name d) (def_args d) else None
  end.

(** [__se_sys]: the caller leaves a machine word per argument; the parameters
    of the wrapper are [long], and the body gets them cast to its own types. *)
Definition se_sys {R} (c : syscall) (do_sys : list Z → R) (registers : list Z) : R :=
  let params := zip_with (convert word) (se_params c) registers in
  do_sys (zip_with (SC_CAST word) (do_params c) params).
End define.

(** *** Split arguments *)

Definition SC_ARG64 (little_endian : bool) (x : Z) : Z * Z :=
  let lo := u32 x in
  let hi := u32 (x / 2 ^ 32) in
  if little_endian then (lo, hi) else (hi, lo).
(** [((type) name##_hi << 32 | name##_lo)] for a 64-bit [type]. *)
Definition SC_VAL64 (little_endian : bool) (t : ctype) (halves : Z * Z) : Z :=
  let '(lo, hi) := if little_endian then halves else (halves.2, halves.1) in
  convert 8 t (Z.lor (Z.shiftl (convert 8 t hi) 32) lo).

(** ** The prototypes *)

(** The macros that are defined: the preprocessor takes a guarded prototype
    when its condition holds. *)
Fixpoint holds (config : string → bool) (c : cond) : bool :=
  match c with
  | Always => true
  | Macro m => config m
  | Not c => negb (holds config c)
  | Both c d => holds config c && holds config d
  | Either c d => holds config c || holds config d
  end.

Definition declared (config : string → bool) : list prototype :=
  filter (λ p, holds config (proto_guard p) = true) prototypes.

(** x86-64 defines its utime calls and the common rt_sigaction. *)
Definition x86_64_like (config : string → bool) : Prop :=
  config "__ARCH_WANT_SYS_UTIME" = true ∧ config "CONFIG_ODD_RT_SIGACTION" = false.
Definition x86_64_config (m : string) : bool :=
  bool_decide (m ∈ ["__ARCH_WANT_SYS_UTIME"; "__ARCH_WANT_SYS_OLD_GETRLIMIT"; "CONFIG_HAVE_UID16"]%string).

Definition entry_point_name (p : prototype) : string := "sys_" ++ proto_name p.

(** ** The inline functions of the header *)

(** Whether [TIF_FSCHECK] exists, and then the flag of the thread. *)
Definition addr_limit_user_check (tif_fscheck : option bool) : option bool :=
  match tif_fscheck with
  | None => None
  | Some flag => if negb flag then Some flag else Some false
  end.

Definition AT_FDCWD : Z := -100.
Definition AT_SYMLINK_NOFOLLOW : Z := 256.

Section inline_functions.
Context {W R : Type}.
Context (do_fchownat : Z → Z → Z → Z → Z → W → R).
Context (do_sys_ftruncate : Z → Z → Z → W → R).
Context (do_sys_truncate : Z → Z → W → R).
Context (set_personality : Z → W → W) (current_personality : W → Z).

Definition ksys_chown (filename user group : Z) : W → R :=
  do_fchownat AT_FDCWD filename user group 0.
Definition ksys_lchown (filename user group : Z) : W → R :=
  do_fchownat AT_FDCWD filename user group AT_SYMLINK_NOFOLLOW.
Definition ksys_ftruncate (fd length : Z) : W → R := do_sys_ftruncate fd length 1.
Definition ksys_truncate (pathname length : Z) : W → R := do_sys_truncate pathname length.

(** Without [CONFIG_ADVISE_SYSCALLS]. *)
Definition ksys_fadvise64_64 (fd offset len advice : Z) : Z := - EINVAL.

Definition ksys_personality (personality : Z) (w : W) : Z * W :=
  let old := current_personality w in
  (old, if personality =? 4294967295 then w else set_personality personality w).
End inline_functions.

(** ** The numbers *)

(** The table of a 64-bit kernel takes the entries for [common] and [64]. *)
Definition in_64_table (e : tblent) : bool :=
  match ent_abi e with Common | Only64 => true | X32 => false end.
Definition sys_call_table (nr : Z) : option tblent :=
  find (λ e, (ent_nr e =? nr) && in_64_table e) syscall_64_tbl.

(** The entry point of a number; [sys_ni_syscall] for the others. *)
Definition entry_point (nr : Z) : string :=
  match sys_call_table nr with
  | Some (Entry _ _ _ (Some point)) => point
  | _ => "sys_ni_syscall"
  end.

(** ** Conversions *)

Lemma to_bits_mod sg bits x : 0 < bits → to_bits sg bits x mod 2 ^ bits = x mod 2 ^ bits.
Proof.
  intros Hb. unfold to_bits. destruct sg; [|by rewrite Z.mod_mod by lia].
  rewrite <-Zminus_mod_idemp_l, Z.mod_mod, Zminus_mod_idemp_l by lia. f_equal. lia.
Qed.

(** A narrow conversion sees only the low bits. *)
Lemma to_bits_low sg bits x y :
  x mod 2 ^ bits = y mod 2 ^ bits → to_bits sg bits x = to_bits sg bits y.
Proof.
  intros Hxy. unfold to_bits. destruct sg; [|done].
  by rewrite <-Zplus_mod_idemp_l, Hxy, Zplus_mod_idemp_l.
Qed.

Lemma mod_narrow a b x y :
  0 ≤ a ≤ b → x mod 2 ^ b = y mod 2 ^ b → x mod 2 ^ a = y mod 2 ^ a.
Proof.
  intros Hab Hxy. replace b with (a + (b - a)) in Hxy by lia.
  rewrite Z.pow_add_r in Hxy by lia.
  assert (Hpa : 0 < 2 ^ a) by (apply Z.pow_pos_nonneg; lia).
  assert (Hpb : 0 < 2 ^ (b - a)) by (apply Z.pow_pos_nonneg; lia).
  rewrite !Z.rem_mul_r in Hxy by lia.
  apply (f_equal (λ z, z mod 2 ^ a)) in Hxy.
  by rewrite !(Z.mul_comm (2 ^ a)), !Z.mod_add, !Z.mod_mod in Hxy by lia.
Qed.

Lemma sizeof_pos word t : 0 < word → 0 < sizeof word t.
Proof. destruct t as [? []|]; simpl; lia. Qed.

Lemma convert_value word t x : 0 < word → value_of word t (convert word t x).
Proof.
  intros Hw. pose proof (sizeof_pos word t Hw). unfold value_of, convert, to_bits.
  set (n := 8 * sizeof word t). cbn zeta.
  assert (Hp : 2 ^ n = 2 * 2 ^ (n - 1)) by (rewrite <-Z.pow_succ_r by lia; f_equal; lia).
  assert (0 < 2 ^ (n - 1)) by (apply Z.pow_pos_nonneg; lia).
  pose proof (Z.mod_pos_bound x (2 ^ n)). pose proof (Z.mod_pos_bound (x + 2 ^ (n - 1)) (2 ^ n)).
  destruct (signed t); lia.
Qed.

Lemma convert_id word t x : 0 < word → value_of word t x → convert word t x = x.
Proof.
  intros Hw. pose proof (sizeof_pos word t Hw). unfold value_of, convert, to_bits.
  set (n := 8 * sizeof word t). cbn zeta.
  assert (Hp : 2 ^ n = 2 * 2 ^ (n - 1)) by (rewrite <-Z.pow_succ_r by lia; f_equal; lia).
  destruct (signed t); intros Hx; [|by apply Z.mod_small].
  rewrite Z.mod_small by lia. lia.
Qed.

Lemma convert_mod word t x : 0 < word →
  convert word t x mod 2 ^ (8 * sizeof word t) = x mod 2 ^ (8 * sizeof word t).
Proof. intros Hw. apply to_bits_mod. pose proof (sizeof_pos word t Hw). lia. Qed.

(** A cast through a type at least as wide changes nothing. *)
Lemma convert_through word t u x :
  0 < word → sizeof word t ≤ sizeof word u →
  convert word t (convert word u x) = convert word t x.
Proof.
  intros Hw Htu. pose proof (sizeof_pos word t Hw). apply to_bits_low.
  apply (mod_narrow _ (8 * sizeof word u)); [lia|]. by apply convert_mod.
Qed.

(** What [__SC_TEST] buys. *)
Lemma SC_TEST_wide word t : SC_TEST word t = true → sizeof word t ≤ sizeof word (SC_LONG t).
Proof.
  unfold SC_TEST, SC_LONG. destruct (TYPE_IS_LL t) eqn:Hll; [|simpl; zcases; done].
  intros _. unfold TYPE_IS_LL in Hll.
  apply orb_true_iff in Hll as [Hb|Hb]; by apply bool_decide_eq_true in Hb as ->.
Qed.

Lemma SC_CAST_LONG word t x :
  0 < word → SC_TEST word t = true →
  SC_CAST word t (convert word (SC_LONG t) x) = convert word t x.
Proof. intros Hw Ht%SC_TEST_wide. by apply convert_through. Qed.

(** ** The macros *)

Lemma MAP_spec {A B} n (m : A → B) args :
  MAP n m args = if bool_decide (n ≤ length args)%nat then Some (m <$> take n args) else None.
Proof.
  revert args. induction n as [|n IH]; intros [|a args]; csimpl; [done..|].
  rewrite IH. repeat case_bool_decide; try lia; done.
Qed.
Lemma MAP_Some {A B} n (m : A → B) args l :
  MAP n m args = Some l ↔ (n ≤ length args)%nat ∧ l = m <$> take n args.
Proof.
  rewrite MAP_spec. case_bool_decide as Hn.
  - split; [intros [= <-]; done | by intros [_ ->]].
  - by split; [|intros [? _]].
Qed.

Section define_facts.
Context (word : Z) `{Typedefs}.

Record expansion (x : nat) (sname : string) (args : list (string * string)) (c : syscall) : Prop := {
  exp_args : (x ≤ length args)%nat;
  exp_meta : SYSCALL_METADATA sname x args = Some (sys_meta c);
  exp_symbol : sys_symbol c = ("sys" ++ sname)%string;
  exp_types : Forall2 (λ a t, c_type typedef a.1 = Some t) (take x args) (do_params c);
  exp_se : se_params c = SC_LONG <$> do_params c;
  exp_test : Forall (λ t, SC_TEST word t = true) (do_params c);
}.

Lemma SYSCALL_DEFINEx_inv x sname args c :
  SYSCALL_DEFINEx word x sname args = Some c → expansion x sname args c.
Proof.
  unfold SYSCALL_DEFINEx. intros Hc.
  apply bind_Some in Hc as (meta & Hmeta & Hc).
  apply bind_Some in Hc as (decls & [Hlen ->]%MAP_Some & Hc).
  apply bind_Some in Hc as (ts & Hts & Hc).
  destruct (forallb (SC_TEST word) ts) eqn:Htest; [|done].
  injection Hc as <-. split; simpl; [done..| |done|].
  - apply mapM_Some in Hts. by rewrite Forall2_fmap_l in Hts.
  - apply Forall_forall. intros t Ht. eapply forallb_forall in Htest; [done|].
    by apply list_elem_of_In.
Qed.

Lemma expansion_params x sname args c : expansion x sname args c → length (do_params c) = x.
Proof.
  intros [Hlen _ _ Ht _ _]. apply Forall2_length in Ht. rewrite <-Ht, length_take. lia.
Qed.

Lemma SYSCALL_DEFINE_inv d c :
  SYSCALL_DEFINE word d = Some c →
  (def_count d ≤ SYSCALL_DEFINE_MAXARGS)%nat ∧
  expansion (def_count d) ("_" ++ def_name d)%string (def_args d) c.
Proof.
  unfold SYSCALL_DEFINE. destruct (def_count d) as [|n] eqn:Hn.
  - intros Hc. split; [lia|]. apply bind_Some in Hc as (meta & Hmeta & Hc).
    injection Hc as <-. split; simpl; [lia | exact Hmeta | done | constructor | done | constructor].
  - destruct (S n <=? SYSCALL_DEFINE_MAXARGS)%nat eqn:Hmax; [|done].
    intros Hc%SYSCALL_DEFINEx_inv. apply Nat.leb_le in Hmax. by split.
Qed.

(** [__se_sys] converts each word to the type of its parameter. *)
Lemma se_sys_converts {R} c (do_sys : list Z → R) registers :
  0 < word → se_params c = SC_LONG <$> do_params c →
  Forall (λ t, SC_TEST word t = true) (do_params c) →
  se_sys word c do_sys registers = do_sys (zip_with (convert word) (do_params c) registers).
Proof.
  intros Hw Hse Htest. unfold se_sys. f_equal. rewrite Hse. clear Hse.
  revert registers. induction Htest as [|t ts Ht _ IH]; intros [|r rs]; csimpl; [done..|].
  by rewrite SC_CAST_LONG, IH.
Qed.
End define_facts.

(** ** Checking the lists

    The lists are closed terms: a boolean check over them is evaluated, with
    the documented typedefs, and carried over to any [Typedefs]. *)

Lemma forallb_elem {A} (f : A → bool) l x : forallb f l = true → x ∈ l → f x = true.
Proof. intros Hf Hx. eapply forallb_forall in Hf; [done|]. by apply list_elem_of_In. Qed.

Section any_typedefs.
Context `{Typedefs}.

Lemma c_type_documented s t :
  c_type (λ n, assoc n x86_64_typedefs) s = Some t → c_type typedef s = Some t.
Proof.
  unfold c_type. destruct (is_pointer s); [done|].
  destruct (assoc (without_const s) integer_types); [done|].
  destruct (String.prefix _ _); [done|]. apply typedef_documented.
Qed.

Lemma c_types_documented ss ts :
  mapM (c_type (λ n, assoc n x86_64_typedefs)) ss = Some ts → mapM (c_type typedef) ss = Some ts.
Proof. rewrite !mapM_Some. induction 1; constructor; auto using c_type_documented. Qed.

Lemma SYSCALL_DEFINE_documented word d c :
  SYSCALL_DEFINE (H := documented_typedefs) word d = Some c → SYSCALL_DEFINE word d = Some c.
Proof.
  unfold SYSCALL_DEFINE. destruct (def_count d); [done|]. destruct (_ <=? _)%nat; [|done].
  unfold SYSCALL_DEFINEx. intros Hc.
  apply bind_Some in Hc as (meta & -> & Hc).
  apply bind_Some in Hc as (decls & [Hlen ->]%MAP_Some & Hc).
  apply bind_Some in Hc as (ts & Hts & Hc).
  rewrite MAP_spec, bool_decide_eq_true_2 by done. simpl.
  assert (mapM id ((λ a, c_type typedef a.1) <$> take (S n) (def_args d)) = Some ts) as ->; [|done].
  rewrite mapM_Some in Hts |- *. rewrite Forall2_fmap_l in Hts |- *.
  eapply Forall2_impl; [exact Hts|]. intros a t. apply c_type_documented.
Qed.
End any_typedefs.

(** *** Guards that exclude each other *)

Fixpoint literals (c : cond) : list (bool * string) :=
  match c with
  | Macro m => [(true, m)]
  | Not (Macro m) => [(false, m)]
  | Both c d => literals c ++ literals d
  | _ => []
  end.
Definition exclusive (c d : cond) : bool :=
  existsb (λ x, existsb (λ y, bool_decide (y = (negb x.1, x.2))) (literals d)) (literals c).

Lemma literals_hold config c b m : holds config c = true → (b, m) ∈ literals c → config m = b.
Proof.
  revert b m. induction c as [|m'|c IH|c IHc d IHd|c IHc d IHd]; intros b m Hc Hin; simpl in *.
  - by apply elem_of_nil in Hin.
  - apply list_elem_of_singleton in Hin. by simplify_eq.
  - destruct c; try by apply elem_of_nil in Hin.
    apply list_elem_of_singleton in Hin. simplify_eq. by apply negb_true_iff.
  - apply andb_true_iff in Hc as [Hc Hd]. apply elem_of_app in Hin as [Hin|Hin]; eauto.
  - by apply elem_of_nil in Hin.
Qed.

Lemma exclusive_spec config c d :
  exclusive c d = true → holds config c = true → holds config d = true → False.
Proof.
  intros He Hc Hd.
  apply existsb_exists in He as ([b m] & Hx%list_elem_of_In & He).
  apply existsb_exists in He as ([b' m'] & Hy%list_elem_of_In & He).
  apply bool_decide_eq_true in He. simplify_eq/=.
  pose proof (literals_hold _ _ _ _ Hc Hx) as Hm. pose proof (literals_hold _ _ _ _ Hd Hy) as Hm'.
  rewrite Hm in Hm'. by destruct b.
Qed.

(** *** The checks *)

(** The words of [word] bytes that arguments take. *)
Definition argument_words (word : Z) (ts : list ctype) : Z :=
  sumZ ((λ t, (sizeof word t + word - 1) / word) <$> ts).

Definition prototype_ok (p : prototype) : bool :=
  match mapM (c_type (λ n, assoc n x86_64_typedefs)) (proto_args p) with
  | Some ts => (argument_words 4 ts <=? SYSCALL_ARG_WORDS) && (argument_words 8 ts <=? SYSCALL_ARG_WORDS)
  | None => false
  end.
Lemma prototypes_ok : forallb prototype_ok prototypes = true.
Proof. vm_compute. reflexivity. Qed.

(** Two forms of the old sigsuspend: only Kconfig keeps an architecture from
    selecting both. *)
Definition sigsuspend_forms (p q : prototype) : bool :=
  bool_decide (proto_name p = "sigsuspend"%string) &&
  bool_decide ((proto_guard p, proto_guard q) ∈
    [(Macro "CONFIG_OLD_SIGSUSPEND", Macro "CONFIG_OLD_SIGSUSPEND3");
     (Macro "CONFIG_OLD_SIGSUSPEND3", Macro "CONFIG_OLD_SIGSUSPEND")]%string).
Definition compatible (p q : prototype) : bool :=
  negb (String.eqb (proto_name p) (proto_name q)) ||
  bool_decide (proto_args p = proto_args q) || exclusive (proto_guard p) (proto_guard q) ||
  sigsuspend_forms p q.
Lemma prototypes_compatible : forallb (λ p, forallb (compatible p) prototypes) prototypes = true.
Proof. vm_compute. reflexivity. Qed.

(** The six calls of this repository that the 64-bit table does not number:
    they are built for other machines, or for 32-bit programs. *)
Definition unnumbered : list string :=
  ["uname"; "olduname"; "gethostname"; "old_getrlimit"; "llseek"; "sendfile"]%string.

(** The entry points that the architecture defines outside the repository. *)
Definition arch_entry_points : list string :=
  ["sys_mmap"; "sys_rt_sigreturn"; "sys_modify_ldt"; "sys_arch_prctl"; "sys_iopl"]%string.

Definition numbers_of (point : string) : list Z :=
  ent_nr <$> filter (λ e, in_64_table e = true ∧ ent_point e = Some point) syscall_64_tbl.

(** The condition in front of the prototype of a call of this repository. *)
Definition guard_of (name : string) : cond :=
  if bool_decide (name = "old_getrlimit"%string) then Macro "__ARCH_WANT_SYS_OLD_GETRLIMIT"
  else Always.

Definition prototypes_of (name : string) : list prototype :=
  filter (λ p, proto_name p = name) prototypes.

Definition declared_ok (d : sysdef) (c : syscall) : bool :=
  if bool_decide (d ∈ usac_calls) then bool_decide (prototypes_of (def_name d) = [])
  else match prototypes_of (def_name d) with
       | [p] => bool_decide (proto_guard p = guard_of (def_name d)) &&
           bool_decide (mapM (c_type (λ n, assoc n x86_64_typedefs)) (proto_args p) = Some (do_params c))
       | _ => false
       end.

Definition repo_call_ok (d : sysdef) : bool :=
  match SYSCALL_DEFINE (H := documented_typedefs) 8 d with
  | Some c =>
      (length (def_args d) =? def_count d)%nat && declared_ok d c &&
      bool_decide (length (numbers_of (sys_symbol c)) =
        if bool_decide (def_name d ∈ unnumbered) then 0 else 1)%nat
  | None => false
  end.
Lemma repo_calls_ok : forallb repo_call_ok repo_calls = true.
Proof. vm_compute. reflexivity. Qed.

Lemma sigsuspend_forms_spec config p q :
  sigsuspend_forms p q = true →
  holds config (proto_guard p) = true → holds config (proto_guard q) = true →
  proto_name p = "sigsuspend"%string ∧ config "CONFIG_OLD_SIGSUSPEND"%string = true ∧
  config "CONFIG_OLD_SIGSUSPEND3"%string = true.
Proof.
  unfold sigsuspend_forms. intros [Hn%bool_decide_eq_true Hg%bool_decide_eq_true]%andb_true_iff Hp Hq.
  split; [done|]. apply elem_of_cons in Hg as [Hg|Hg%list_elem_of_singleton];
    injection Hg as Hgp Hgq; rewrite Hgp in Hp; rewrite Hgq in Hq; done.
Qed.

(** The only prototype of a call. *)
Lemma declared_once `{Typedefs} name ts :
  match prototypes_of name with
  | [p] => bool_decide (proto_guard p = guard_of name) &&
      bool_decide (mapM (c_type (λ n, assoc n x86_64_typedefs)) (proto_args p) = Some ts)
  | _ => false
  end = true →
  ∃ args, prototypes_of name = [Proto (guard_of name) name args] ∧
    mapM (c_type typedef) args = Some ts.
Proof.
  intros Hok. destruct (prototypes_of name) as [|p [|]] eqn:Hps; [done| |done].
  apply andb_true_iff in Hok as [Hg%bool_decide_eq_true Hts%bool_decide_eq_true].
  assert (Hp : p ∈ prototypes_of name) by (rewrite Hps; by apply list_elem_of_here).
  apply list_elem_of_filter in Hp as [Hname _].
  exists (proto_args p). split; [|by apply c_types_documented].
  rewrite <-Hg, <-Hname. by destruct p.
Qed.

Definition reserved_number (nr : Z) : bool := (387 <=? nr) && (nr <=? 423).
Definition x32_number (nr : Z) : bool := (512 <=? nr) && (nr <=? 547).

Definition entry_placed (e : tblent) : bool :=
  negb (reserved_number (ent_nr e)) && Bool.eqb (in_64_table e) (negb (x32_number (ent_nr e))).
Lemma entries_placed : forallb entry_placed syscall_64_tbl = true.
Proof. vm_compute. reflexivity. Qed.

Definition entry_found (e : tblent) : bool :=
  negb (in_64_table e) || bool_decide (sys_call_table (ent_nr e) = Some e).
Lemma entries_found : forallb entry_found syscall_64_tbl = true.
Proof. vm_compute. reflexivity. Qed.

Definition sure_on_x86_64 (c : cond) : bool :=
  match c with
  | Always | Macro "__ARCH_WANT_SYS_UTIME" | Not (Macro "CONFIG_ODD_RT_SIGACTION") => true
  | _ => false
  end%string.
Definition entry_linked (e : tblent) : bool :=
  match ent_point e with
  | Some point =>
      negb (in_64_table e) || bool_decide (point ∈ arch_entry_points) ||
      bool_decide (point ∈ (λ d, "sys_" ++ def_name d) <$> usac_calls) ||
      bool_decide (point = "sys_clone") ||
      existsb (λ p, String.eqb (entry_point_name p) point && sure_on_x86_64 (proto_guard p)) prototypes
  | None => true
  end%string.
Lemma entries_linked : forallb entry_linked syscall_64_tbl = true.
Proof. vm_compute. reflexivity. Qed.

Lemma sure_holds config c : x86_64_like config → sure_on_x86_64 c = true → holds config c = true.
Proof.
  intros [Hu Ho] Hs. destruct c as [|m|c| |]; try done; simpl in *.
  - by repeat (case_match; simplify_eq).
  - destruct c; try done; simpl. by repeat (case_match; simplify_eq; rewrite ?Ho).
Qed.

(** Some form of clone is declared in every configuration. *)
Lemma clone_declared config : ∃ p, p ∈ declared config ∧ entry_point_name p = "sys_clone"%string.
Proof.
  assert (Hp : ∀ p, p ∈ filter (λ p, proto_name p = "clone"%string) prototypes →
    p ∈ prototypes ∧ entry_point_name p = "sys_clone"%string).
  { intros p [Hn Hp]%list_elem_of_filter. split; [done|]. unfold entry_point_name. by rewrite Hn. }
  assert (∃ p, p ∈ filter (λ p, proto_name p = "clone"%string) prototypes ∧
    holds config (proto_guard p) = true) as (p & Hin & Hh).
  { set (l := filter _ _). vm_compute in l. subst l. simpl.
    destruct (config "CONFIG_CLONE_BACKWARDS"%string) eqn:H1;
      [|destruct (config "CONFIG_CLONE_BACKWARDS3"%string) eqn:H2].
    - eexists. split; [apply list_elem_of_here|]. done.
    - eexists. split; [do 1 apply list_elem_of_further; apply list_elem_of_here|]. simpl. by rewrite H1, H2.
    - eexists. split; [do 2 apply list_elem_of_further; apply list_elem_of_here|]. simpl. by rewrite H1, H2. }
  destruct (Hp p Hin) as [Hpr Hn]. exists p. split; [|done]. by apply list_elem_of_filter.
Qed.

(** ** Properties *)

(** What a body gets of the words it is called with: values of the parameters'
    types, with the low bits of the words. *)
Definition delivered (word : Z) (ts : list ctype) (registers args : list Z) : Prop :=
  Forall3 (λ t r a, value_of word t a ∧
    a mod 2 ^ (8 * sizeof word t) = r mod 2 ^ (8 * sizeof word t)) ts registers args.

Lemma value_low word t a b :
  0 < word → value_of word t a → a mod 2 ^ (8 * sizeof word t) = b mod 2 ^ (8 * sizeof word t) →
  convert word t b = a.
Proof.
  intros Hw Ha Hab. rewrite <-(convert_id word t a) by done. unfold convert. by apply to_bits_low.
Qed.

Lemma delivered_convert word ts registers args :
  0 < word → delivered word ts registers args → zip_with (convert word) ts registers = args.
Proof.
  intros Hw. induction 1 as [|t r a ts rs args [Ha Hr] _ IH]; simpl; [done|].
  by rewrite (value_low word t a r), IH.
Qed.

Lemma convert_delivered word ts registers :
  0 < word → length registers = length ts →
  delivered word ts registers (zip_with (convert word) ts registers).
Proof.
  intros Hw. revert registers. induction ts as [|t ts IH]; intros [|r rs] Hl; simplify_eq/=; constructor.
  - split; [by apply convert_value | by apply convert_mod].
  - by apply IH.
Qed.

(** C10. The wrapper that [SYSCALL_DEFINEn] puts around a body, on 32-bit and on
    64-bit machines: whatever the words it is called with hold, the body is
    called once, with values of the types it declares, and which ones depends
    on the low bits of the words alone. *)
Theorem wrapper_delivers `{Typedefs} word d c registers :
  word = 4 ∨ word = 8 →
  SYSCALL_DEFINE word d = Some c → length registers = def_count d →
  length (do_params c) = def_count d ∧
  (∃ args, delivered word (do_params c) registers args) ∧
  (∀ args, delivered word (do_params c) registers args →
    ∀ R (do_sys : list Z → R), se_sys word c do_sys registers = do_sys args).
Proof.
  intros Hw [_ Hc]%SYSCALL_DEFINE_inv Hl. assert (0 < word) by lia.
  pose proof (expansion_params _ _ _ _ _ Hc) as Hlen. split; [done|]. split.
  - eexists. apply convert_delivered; [done|]. by rewrite Hlen.
  - intros args Hargs R do_sys.
    rewrite (se_sys_converts word) by (done || apply Hc). f_equal. by apply delivered_convert.
Qed.

(** C40. The prototypes of the header can be called, and agree: the
    parameters are of known types and fit the six words of a system call, on
    64-bit machines and on 32-bit ones, where a [long long] takes two; and two
    prototypes that one configuration declares under one name have the same
    parameters, but for the two forms of sigsuspend, which the header declares
    both when both of their options are set. *)
Theorem prototypes_well_formed `{Typedefs} config :
  (∀ p, p ∈ declared config → ∃ ts, mapM (c_type typedef) (proto_args p) = Some ts ∧
    argument_words 4 ts ≤ SYSCALL_ARG_WORDS ∧ argument_words 8 ts ≤ SYSCALL_ARG_WORDS) ∧
  (∀ p q, p ∈ declared config → q ∈ declared config → proto_name p = proto_name q →
    proto_args p = proto_args q ∨
    (proto_name p = "sigsuspend" ∧ config "CONFIG_OLD_SIGSUSPEND" = true ∧
     config "CONFIG_OLD_SIGSUSPEND3" = true)%string).
Proof.
  split.
  - intros p [_ Hp]%list_elem_of_filter.
    pose proof (forallb_elem _ _ _ prototypes_ok Hp) as Hok. unfold prototype_ok in Hok.
    destruct (mapM _ (proto_args p)) as [ts|] eqn:Hts; [|done].
    apply andb_true_iff in Hok as [H4%Z.leb_le H8%Z.leb_le].
    exists ts. split; [by apply c_types_documented | done].
  - intros p q [Hp Hpin]%list_elem_of_filter [Hq Hqin]%list_elem_of_filter Hname.
    pose proof (forallb_elem _ _ _ prototypes_compatible Hpin) as Hpq.
    apply (forallb_elem _ _ _ Hpq) in Hqin as Hc. unfold compatible in Hc.
    rewrite (proj2 (String.eqb_eq _ _) Hname), !orb_true_iff in Hc. destruct Hc as [[[Hc|Hc]|Hc]|Hc]; [done|..].
    + left. by apply bool_decide_eq_true in Hc.
    + by destruct (exclusive_spec config _ _ Hc Hp Hq).
    + right. by apply (sigsuspend_forms_spec config p q).
Qed.


(** The table of x86-64 numbers each call once, outside the numbers that its
    comments reserve, and every entry point it names is declared in the header,
    defined in this repository, or one of five of the architecture. *)
Theorem table_links config e :
  x86_64_like config → e ∈ syscall_64_tbl → in_64_table e = true →
  sys_call_table (ent_nr e) = Some e ∧
  ¬ 387 ≤ ent_nr e ≤ 423 ∧ ¬ 512 ≤ ent_nr e ≤ 547 ∧
  ∀ point, ent_point e = Some point →
    (∃ p, p ∈ declared config ∧ entry_point_name p = point) ∨
    (∃ d, d ∈ usac_calls ∧ point = "sys_" ++ def_name d)%string ∨ point ∈ arch_entry_points.
Proof.
  intros Hx He H64. split.
  { pose proof (forallb_elem _ _ _ entries_found He) as Hf. unfold entry_found in Hf.
    rewrite H64 in Hf. by apply bool_decide_eq_true in Hf. }
  pose proof (forallb_elem _ _ _ entries_placed He) as Hpl. unfold entry_placed in Hpl.
  rewrite H64 in Hpl. apply andb_true_iff in Hpl as [Hr%negb_true_iff Hx32].
  unfold reserved_number, x32_number in *. split; [lia|]. split; [lia|].
  intros point Hpoint. pose proof (forallb_elem _ _ _ entries_linked He) as Hl.
  unfold entry_linked in Hl. rewrite Hpoint, H64 in Hl. cbn [negb orb] in Hl.
  apply orb_true_iff in Hl as [[[Hl|Hl]%orb_true_iff|Hl]%orb_true_iff|Hl].
  - right. right. by apply bool_decide_eq_true in Hl.
  - right. left. apply bool_decide_eq_true, list_elem_of_fmap in Hl as (d & -> & Hd). by exists d.
  - left. apply bool_decide_eq_true in Hl as ->. apply clone_declared.
  - left. apply existsb_exists in Hl as (p & Hp%list_elem_of_In & Hl).
    apply andb_true_iff in Hl as [Hl%String.eqb_eq Hs]. exists p. split; [|done].
    apply list_elem_of_filter. by split; [apply sure_holds|].
Qed.

(** A 64-bit argument that a 32-bit machine passes in two words, in the order
    of its endianness, arrives whole. *)
Theorem split_argument_roundtrip little_endian t x :
  sizeof 8 t = 8 → value_of 8 t x → SC_VAL64 little_endian t (SC_ARG64 little_endian x) = x.
Proof.
  intros Ht Hx.
  assert (Hhi : ∀ h, in_u32 h → convert 8 t h = h).
  { intros h Hh. apply convert_id; [lia|]. unfold value_of. rewrite Ht. destruct (signed t); wrap. }
  assert (convert 8 t (Z.lor (Z.shiftl (convert 8 t (u32 (x / 2 ^ 32))) 32) (u32 x)) = x).
  { rewrite (Hhi (u32 (x / 2 ^ 32))), lor_shift32 by apply u32_range.
    apply value_low; [lia | done |]. rewrite Ht. change (8 * 8) with 64. wrap. }
  by destruct little_endian.
Qed.

(** The metadata of a call names its parameters, and its two events are the
    ones that [is_syscall_trace_event] recognises. *)
Lemma metadata_spec sname nb args m :
  SYSCALL_METADATA sname nb args = Some m →
  nb_args m = nb ∧ syscall_nr m = -1 ∧ tp_data (enter_event m) = tp_data (exit_event m) ∧
  (0 < nb → meta_types m = Some (take nb args).*1 ∧ meta_args m = Some (take nb args).*2)%nat ∧
  is_syscall_trace_event (enter_event m) = true ∧ is_syscall_trace_event (exit_event m) = true.
Proof.
  intros Hm. apply bind_Some in Hm as (types & [_ ->]%MAP_Some & Hm).
  apply bind_Some in Hm as (names & [_ ->]%MAP_Some & Hm). injection Hm as <-. cbn.
  do 3 (split; [done|]). split; [|done]. intros Hnb. by rewrite bool_decide_eq_false_2 by lia.
Qed.

(** Asking for the personality is a query; a change returns the old one. *)
Lemma ksys_personality_spec {W} (set_personality : Z → W → W) current_personality p w :
  let r := ksys_personality set_personality current_personality p w in
  r.1 = current_personality w ∧ r.2 = if decide (p = 2 ^ 32 - 1) then w else set_personality p w.
Proof.
  unfold ksys_personality. simpl. split; [done|].
  destruct (Z.eqb_spec p 4294967295) as [->|Hp]; [done|]. by rewrite decide_False.
Qed.

(** ** Concrete runs *)
Module SyscallRuns.
Definition setpriority : sysdef :=
  Sysdef 3 "setpriority" [("int", "which"); ("int", "who"); ("int", "niceval")]%string.
Definition setpriority_call : syscall :=
  Syscall "sys_setpriority" [Integer true Int; Integer true Int; Integer true Int]
    [Integer true Long; Integer true Long; Integer true Long]
    (Metadata "sys_setpriority" (-1) 3 (Some ["int"; "int"; "int"])
      (Some ["which"; "who"; "niceval"])
      (TraceEvent event_class_syscall_enter "sys_enter_setpriority" "__syscall_meta__setpriority")
      (TraceEvent event_class_syscall_exit "sys_exit_setpriority" "__syscall_meta__setpriority"))%string.

Example setpriority_expands : SYSCALL_DEFINE 8 setpriority = Some setpriority_call.
Proof. vm_compute. reflexivity. Qed.

(** A 64-bit parameter does not pass the test on a 32-bit machine unless it is
    a [long long]; nor does a call with seven parameters build. *)
Example loff_t_splits :
  SC_TEST 4 (Integer true LongLong) = true ∧
  SYSCALL_DEFINE 8 (Sysdef 7 "seven" (replicate 7 ("int", "x")))%string = None.
Proof. vm_compute. by split. Qed.

Example tamalloc_stats_number : entry_point 552 = "sys__202000173_tamalloc_stats"%string.
Proof. vm_compute. reflexivity. Qed.
Example no_such_call : entry_point 553 = "sys_ni_syscall"%string ∧ entry_point 600 = "sys_ni_syscall"%string.
Proof. vm_compute. by split. Qed.

Definition dirty_words : list Z := [2 ^ 32 + 1; 2 ^ 40 + 7; 2 ^ 64 - 20].
Lemma wrapper_delivers_witness :
  ∃ c, SYSCALL_DEFINE 8 setpriority = Some c ∧
    ∀ R (do_sys : list Z → R), se_sys 8 c do_sys dirty_words = do_sys [1; 7; -20].
Proof.
  exists setpriority_call. split; [vm_compute; reflexivity|].
  destruct (wrapper_delivers 8 setpriority setpriority_call dirty_words) as (_ & _ & Hrun);
    [by right | vm_compute; reflexivity | reflexivity |].
  apply Hrun. repeat constructor; vm_compute; done.
Defined.

Lemma prototypes_well_formed_witness :
  ∃ ts, mapM (c_type typedef) ["int"; "int"; "int"]%string = Some ts ∧
    argument_words 4 ts ≤ SYSCALL_ARG_WORDS ∧ argument_words 8 ts ≤ SYSCALL_ARG_WORDS.
Proof.
  destruct (prototypes_well_formed x86_64_config) as [Hp _].
  apply (Hp (Proto Always "setpriority" ["int"; "int"; "int"]%string)).
  apply list_elem_of_filter. split; [reflexivity|].
  apply (list_elem_of_lookup_2 _ 174). vm_compute. reflexivity.
Defined.

(** Two [loff_t]s fill four of the words of a 32-bit machine. *)
Example fallocate_words :
  argument_words 4 [Integer true Int; Integer true Int; Integer true LongLong; Integer true LongLong] = 6.
Proof. reflexivity. Qed.


Lemma table_links_witness :
  x86_64_like x86_64_config ∧
  sys_call_table 552 = Some (E 552 Common "_202000173_tamalloc_stats"%string).
Proof.
  split; [by split|].
  destruct (table_links x86_64_config (E 552 Common "_202000173_tamalloc_stats"%string)) as [Ht _];
    [by split | apply (list_elem_of_lookup_2 _ 403); vm_compute; reflexivity | reflexivity | exact Ht].
Defined.

Lemma split_argument_roundtrip_witness :
  SC_ARG64 true (-5) = (2 ^ 32 - 5, 2 ^ 32 - 1) ∧
  SC_VAL64 true (Integer true LongLong) (SC_ARG64 true (-5)) = -5.
Proof.
  split; [vm_compute; reflexivity|].
  apply (split_argument_roundtrip true (Integer true LongLong) (-5)); [reflexivity | vm_compute; done].
Defined.
End SyscallRuns.
