(* ===== verification/ProjectCalls.v ===== *)
(** * ProjectCalls: the system calls of [kernel/usac] from the registers

    The nine calls as a user program reaches them: the number selects an entry
    of the table, the entry point is the one [SYSCALL_DEFINEn] made, its
    wrapper converts the argument registers, and the body is the handler of
    [MemoryLimits], [Tamalloc] or [Project1].  Their states are put together:
    the lists of limits, the counters of RCU and of mm references, the log, and
    one user memory that all of them write. *)

From S2P Require Import Prelude UserMem KernelObj SyscallDecls Syscalls.
From S2P Require Import MemoryLimits Tamalloc SysInfo Project1.

Record machine (M L : Type) := Machine {
  k_limits : limits_state M L;   (* with user memory *)
  k_rcu_depth : Z;
  k_mm_users : gmap Z Z;
  k_log : nat;
}.
Arguments Machine {M L}.
Arguments k_limits {M L}.
Arguments k_rcu_depth {M L}.
Arguments k_mm_users {M L}.
Arguments k_log {M L}.

(** What a call finds around it and on its stack. *)
Record call_world (M : Type) := World {
  w_limits : callenv;
  w_pid_task : Z → option task_struct;
  w_get_task_mm : task_struct → option mm_struct;
  w_processes : list task_struct;
  w_meminfo : MemInfo;
  w_pages : node_stat_item → Z;
  w_sysinfo_stack : sysinfo;
  w_io_stack : io_stats_user;
  w_vm_mmap : Z → Z → Z → Z → Z → Z → M → Z * M;
}.
Arguments World {M}.
Arguments w_limits {M}.
Arguments w_pid_task {M}.
Arguments w_get_task_mm {M}.
Arguments w_processes {M}.
Arguments w_meminfo {M}.
Arguments w_pages {M}.
Arguments w_sysinfo_stack {M}.
Arguments w_io_stack {M}.
Arguments w_vm_mmap {M}.

Section project_calls.
Context {M : Type} `{UserAccess M}.
Context {L : Type} `{ListHead L}.
Context `{Slab memory_limitation_entry}.
Context `{Typedefs}.
Abbreviation st := (machine M L).
Implicit Types (s : st) (w : call_world M).

(** ** Handlers on the whole state *)

Definition on_limits (c : kst (limits_state M L) Z) : kst st Z := λ s,
  match c (k_limits s) with
  | Some (r, l) => Some (r, Machine l (k_rcu_depth s) (k_mm_users s) (k_log s))
  | None => None
  end.
Definition on_counters (c : kst (kernel_state M) Z) : kst st Z := λ s,
  match c (mk_kernel (k_rcu_depth s) (k_mm_users s) (user (k_limits s))) with
  | Some (r, k) => Some (r, Machine (set_user (kuser k) (k_limits s)) (rcu_depth k) (mm_users k) (k_log s))
  | None => None
  end.
Definition on_user (c : M → Z * M) : kst st Z := λ s,
  let '(r, m) := c (user (k_limits s)) in
  Some (r, Machine (set_user m (k_limits s)) (k_rcu_depth s) (k_mm_users s) (k_log s)).
Definition on_space (c : M → nat → Z * M * nat) : kst st Z := λ s,
  let '(r, m, log) := c (user (k_limits s)) (k_log s) in
  Some (r, Machine (set_user m (k_limits s)) (k_rcu_depth s) (k_mm_users s) log).

(** A body called with another number of arguments is not C. *)
Definition fun1 (f : Z → kst st Z) (args : list Z) : kst st Z :=
  match args with [a] => f a | _ => koops end.
Definition fun2 (f : Z → Z → kst st Z) (args : list Z) : kst st Z :=
  match args with [a; b] => f a b | _ => koops end.
Definition fun3 (f : Z → Z → Z → kst st Z) (args : list Z) : kst st Z :=
  match args with [a; b; c] => f a b c | _ => koops end.

(** The bodies under the names of their [SYSCALL_DEFINEn]. *)
Definition usac_bodies w : list (string * (list Z → kst st Z)) :=
  [("_202000173_capture_memory_snapshot", fun1 (λ user_snap,
      on_user (sys_capture_memory_snapshot (H := w_meminfo w) (w_pages w) (w_sysinfo_stack w) user_snap)));
   ("_202000173_get_io_throttle", fun2 (λ pid user_stats,
      on_counters (sys_get_io_throttle (w_pid_task w) (w_io_stack w) pid user_stats)));
   ("_202000173_tamalloc", fun1 (λ info,
      on_counters (sys_tamalloc (w_get_task_mm w) (w_processes w) info)));
   ("_202000173_memory_allocation_statistics", fun2 (λ pid info,
      on_counters (sys_memory_allocation_statistics (w_pid_task w) (w_get_task_mm w) pid info)));
   ("_202000173_tamalloc_stats", fun1 (λ size, on_space (sys_tamalloc_stats (w_vm_mmap w) size)));
   ("_202000173_add_memory_limit", fun2 (λ process_pid memory_limit,
      on_limits (sys_add_memory_limit (w_limits w) process_pid memory_limit)));
   ("_202000173_get_memory_limits", fun3 (λ u_processes_buffer max_entries processes_returned,
      on_limits (sys_get_memory_limits (w_limits w) u_processes_buffer max_entries processes_returned)));
   ("_202000173_update_memory_limit", fun2 (λ process_pid memory_limit,
      on_limits (sys_update_memory_limit (w_limits w) process_pid memory_limit)));
   ("_202000173_remove_memory_limit", fun1 (λ process_pid,
      on_limits (sys_remove_memory_limit (w_limits w) process_pid)))]%string.

(** The call with number [nr] and the argument registers; [None] when the
    number is not one of the nine. *)
Definition usac_syscall w (nr : Z) (registers : list Z) : option (kst st Z) :=
  d ← find (λ d, String.eqb ("sys_" ++ def_name d) (entry_point nr)) usac_calls;
  c ← SYSCALL_DEFINE 8 d;
  body ← assoc (def_name d) (usac_bodies w);
  mret (se_sys 8 c body (take (def_count d) registers)).

(** The numbers that the user programs of [modules/project2] define. *)
Definition NR_tamalloc : Z := 550.
Definition NR_memory_allocation_statistics : Z := 551.
Definition NR_tamalloc_stats : Z := 552.
Definition SYS_TAMALLOC : Z := 552.

(** ** Runs *)

Definition machine_init (m : M) (mms : gmap Z Z) : st := Machine (limits_init m) 0 mms 0.

Inductive machine_step : st → st → Prop :=
  | step_syscall w nr registers run s r s' :
      length registers = 6%nat → usac_syscall w nr registers = Some run →
      run s = Some (r, s') → machine_step s s'
  | step_program m s :
      machine_step s (Machine (set_user m (k_limits s)) (k_rcu_depth s) (k_mm_users s) (k_log s)).

Inductive machine_reachable (mms : gmap Z Z) : st → Prop :=
  | machine_boot m : machine_reachable mms (machine_init m mms)
  | machine_goes s s' : machine_reachable mms s → machine_step s s' → machine_reachable mms s'.

(** The lists are well formed, and no call holds RCU, a task or an mm. *)
Record machine_ok (mms : gmap Z Z) s : Prop := {
  ok_limits : limits_wf (k_limits s);
  ok_rcu : k_rcu_depth s = 0;
  ok_tasks : ∀ a, ref_get (task_usage (k_limits s)) a = 0;
  ok_mms : ∀ a, ref_get (k_mm_users s) a = ref_get mms a;
}.

(** ** From numbers to handlers *)

Definition project_numbers : list Z := [548; 549; 550; 551; 552; 557; 558; 559; 560].

Lemma usac_syscall_run w nr registers d c body :
  find (λ d, String.eqb ("sys_" ++ def_name d) (entry_point nr)) usac_calls = Some d →
  SYSCALL_DEFINE (H := documented_typedefs) 8 d = Some c →
  assoc (def_name d) (usac_bodies w) = Some body →
  usac_syscall w nr registers =
    Some (body (zip_with (convert 8) (do_params c) (take (def_count d) registers))).
Proof.
  intros Hd Hc%SYSCALL_DEFINE_documented Hb. unfold usac_syscall. rewrite Hd. simpl.
  rewrite Hc. simpl. rewrite Hb. simpl.
  apply SYSCALL_DEFINE_inv in Hc as [_ Hc]. by rewrite (se_sys_converts 8) by (done || apply Hc).
Qed.

Definition usac_entries_ok : bool :=
  forallb (λ e, negb (existsb (λ d, bool_decide (ent_point e = Some ("sys_" ++ def_name d)%string)) usac_calls)
    || bool_decide (ent_nr e ∈ project_numbers)) syscall_64_tbl.
Lemma usac_entries : usac_entries_ok = true.
Proof. vm_compute. reflexivity. Qed.

Lemma usac_not_ni d : d ∈ usac_calls → ("sys_" ++ def_name d)%string ≠ "sys_ni_syscall"%string.
Proof.
  assert (Hni : forallb (λ d, negb (String.eqb ("sys_" ++ def_name d) "sys_ni_syscall")) usac_calls = true)
    by (vm_compute; reflexivity).
  intros Hd. by apply (forallb_elem _ _ d), negb_true_iff, String.eqb_neq in Hni.
Qed.

Lemma usac_entry_number e d :
  e ∈ syscall_64_tbl → d ∈ usac_calls → ent_point e = Some ("sys_" ++ def_name d)%string →
  ent_nr e ∈ project_numbers.
Proof.
  intros He Hd Hp. pose proof (forallb_elem _ _ _ usac_entries He) as Hok. cbn beta in Hok.
  apply orb_true_iff in Hok as [Hok|Hok]; [|by apply bool_decide_eq_true in Hok].
  apply negb_true_iff in Hok.
  rewrite (proj2 (existsb_exists _ _)) in Hok; [done|]. exists d.
  split; [by apply list_elem_of_In | by apply bool_decide_eq_true].
Qed.

Lemma usac_syscall_number w nr registers run :
  usac_syscall w nr registers = Some run → nr ∈ project_numbers.
Proof.
  unfold usac_syscall. intros Hrun. apply bind_Some in Hrun as (d & Hd & _).
  apply find_some in Hd as [Hd%list_elem_of_In Hp%String.eqb_eq]. symmetry in Hp.
  unfold entry_point in Hp. destruct (sys_call_table nr) as [e|] eqn:He.
  2: { by destruct (usac_not_ni d Hd). }
  apply find_some in He as [He%list_elem_of_In Hnr]. apply andb_true_iff in Hnr as [Hnr%Z.eqb_eq _].
  rewrite <-Hnr. apply (usac_entry_number e d He Hd).
  destruct e as [nr' abi' name [point|]]; cbn [ent_point]; [by rewrite Hp|].
  by destruct (usac_not_ni d Hd).
Qed.

(** The handlers with arguments that fit their types. *)
Inductive usac_call w : Z → list Z → kst st Z → Prop :=
  | call_snapshot a rest : usac_call w 548 (a :: rest) (on_user
      (sys_capture_memory_snapshot (H := w_meminfo w) (w_pages w) (w_sysinfo_stack w) (u64 a)))
  | call_io a b rest : usac_call w 549 (a :: b :: rest) (on_counters
      (sys_get_io_throttle (w_pid_task w) (w_io_stack w) (s32 a) (u64 b)))
  | call_tamalloc a rest : usac_call w 550 (a :: rest) (on_counters
      (sys_tamalloc (w_get_task_mm w) (w_processes w) (u64 a)))
  | call_statistics a b rest : usac_call w 551 (a :: b :: rest) (on_counters
      (sys_memory_allocation_statistics (w_pid_task w) (w_get_task_mm w) (s32 a) (u64 b)))
  | call_alloc a rest : usac_call w 552 (a :: rest) (on_space (sys_tamalloc_stats (w_vm_mmap w) (u64 a)))
  | call_add a b rest : usac_call w 557 (a :: b :: rest) (on_limits
      (sys_add_memory_limit (w_limits w) (s32 a) (u64 b)))
  | call_get a b c rest : usac_call w 558 (a :: b :: c :: rest) (on_limits
      (sys_get_memory_limits (w_limits w) (u64 a) (u64 b) (u64 c)))
  | call_update a b rest : usac_call w 559 (a :: b :: rest) (on_limits
      (sys_update_memory_limit (w_limits w) (s32 a) (u64 b)))
  | call_remove a rest : usac_call w 560 (a :: rest) (on_limits
      (sys_remove_memory_limit (w_limits w) (s32 a))).

Ltac run_number := eapply usac_syscall_run; [vm_compute; reflexivity | vm_compute; reflexivity | reflexivity].

Lemma usac_call_run w nr registers run :
  usac_call w nr registers run → usac_syscall w nr registers = Some run.
Proof.
  destruct 1; (etransitivity; [run_number | reflexivity]).
Qed.

Lemma usac_call_inv w nr registers run :
  length registers = 6%nat → usac_syscall w nr registers = Some run → usac_call w nr registers run.
Proof.
  intros Hl Hrun. pose proof (usac_syscall_number _ _ _ _ Hrun) as Hn.
  destruct registers as [|a [|b [|c rest]]]; try done.
  assert (∃ run', usac_call w nr (a :: b :: c :: rest) run') as [run' Hc].
  { unfold project_numbers in Hn.
    repeat (apply elem_of_cons in Hn as [->|Hn]; [eexists; constructor|]). by apply elem_of_nil in Hn. }
  apply usac_call_run in Hc as Hc'. by simplify_eq.
Qed.

Lemma user_program_numbers :
  entry_point NR_tamalloc = "sys__202000173_tamalloc"%string ∧
  entry_point NR_memory_allocation_statistics = "sys__202000173_memory_allocation_statistics"%string ∧
  entry_point NR_tamalloc_stats = "sys__202000173_tamalloc_stats"%string ∧
  entry_point SYS_TAMALLOC = "sys__202000173_tamalloc_stats"%string.
Proof. vm_compute. done. Qed.

(** ** What the handlers keep *)

Lemma machine_ok_user mms m s :
  machine_ok mms s →
  machine_ok mms (Machine (set_user m (k_limits s)) (k_rcu_depth s) (k_mm_users s) (k_log s)).
Proof. intros []. split; try done. by apply limits_wf_user. Qed.

Definition keeps_ok mms (run : kst st Z) : Prop :=
  ∀ s, machine_ok mms s → ∃ r s', run s = Some (r, s') ∧ in_s64 r ∧ machine_ok mms s'.

Lemma on_limits_ok mms c :
  (∀ l, limits_wf l → ∃ r l', c l = Some (r, l') ∧ in_s64 r ∧ limits_wf l' ∧
    ∀ a, ref_get (task_usage l') a = ref_get (task_usage l) a) →
  keeps_ok mms (on_limits c).
Proof.
  intros Hc s [Hl Hr Ht Hm]. destruct (Hc _ Hl) as (r & l' & Hrun & Hin & Hwf & Hu).
  unfold on_limits. rewrite Hrun. eexists _, _. split; [done|]. split; [done|].
  split; simpl; try done. intros a. by rewrite Hu.
Qed.

Lemma on_counters_ok mms c :
  (∀ k, ∃ r k', c k = Some (r, k') ∧ in_s64 r ∧ balanced k k') → keeps_ok mms (on_counters c).
Proof.
  intros Hc s [Hl Hr Ht Hm]. unfold on_counters.
  destruct (Hc (mk_kernel (k_rcu_depth s) (k_mm_users s) (user (k_limits s))))
    as (r & k' & -> & Hin & Hd & Hu).
  eexists _, _. split; [done|]. split; [done|]. simpl in Hd, Hu.
  split; simpl; [by apply limits_wf_user | by rewrite Hd | done |].
  intros a. by rewrite Hu.
Qed.

Lemma on_user_ok mms c : (∀ m, in_s64 (c m).1) → keeps_ok mms (on_user c).
Proof.
  intros Hc s Hs. unfold on_user. specialize (Hc (user (k_limits s))).
  destruct (c _) as [r m]. eexists _, _. split; [done|]. split; [done|]. by apply machine_ok_user.
Qed.

Lemma on_space_ok mms c : (∀ m log, in_s64 (c m log).1.1) → keeps_ok mms (on_space c).
Proof.
  intros Hc [l d u log] Hs. unfold on_space. specialize (Hc (user l) log). simpl.
  destruct (c _ _) as [[r m] log']. eexists _, _. split; [done|]. split; [done|].
  apply (machine_ok_user _ m) in Hs as []. by split.
Qed.

Lemma spec_add_result env pid limit oom t : in_s64 (spec_add env pid limit oom t).1.
Proof. unfold spec_add. by repeat case_match. Qed.

Lemma usac_call_ok mms w nr registers run : usac_call w nr registers run → keeps_ok mms run.
Proof.
  destruct 1.
  - apply on_user_ok. intros m. unfold sys_capture_memory_snapshot.
    destruct (copy_to_user _ _ _). by case_match.
  - apply on_counters_ok. intros k.
    destruct (io_throttle_run (w_pid_task w) (w_io_stack w) (s32 a) (u64 b) k) as (r & k' & Hr & Hb & Hc).
    exists r, k'. split; [done|]. split; [|done].
    destruct (w_pid_task w (s32 a)); [destruct (user_wr _ _ _)|];
      [destruct Hc as [-> _] | rewrite Hc | destruct Hc as [-> _]]; done.
  - apply on_counters_ok. intros k.
    destruct (tamalloc_copy (w_get_task_mm w) (w_processes w) (u64 a) k)
      as (r & k' & Hr & Hb & _ & [[_ ->] | [_ ->]]);
      by eexists _, _.
  - apply on_counters_ok. intros k.
    destruct (memory_statistics_run (w_pid_task w) (w_get_task_mm w) (s32 a) (u64 b) k)
      as (r & k' & Hr & Hb & Hc).
    exists r, k'. split; [done|]. split; [|done].
    repeat case_match; [destruct Hc as [_ [[_ ->]|[_ ->]]] | destruct Hc as [-> _] ..]; done.
  - apply on_space_ok. intros m log. unfold sys_tamalloc_stats.
    repeat case_match; try done. apply s64_range.
  - apply on_limits_ok. intros l Hl.
    destruct (add_spec l (w_limits w) (s32 a) (u64 b) Hl (s32_range a) (u64_range b))
      as (l' & Hr & _ & Hwf & _ & Hu).
    eexists _, l'. split; [exact Hr|]. split; [apply spec_add_result | done].
  - apply on_limits_ok. intros l Hl.
    destruct (get_total l (w_limits w) (u64 a) (u64 b) (u64 c) (wf_live _ Hl)) as (r & m & Hr).
    eexists _, _. split; [exact Hr|]. split; [by eapply get_result | by split; [apply limits_wf_user|]].
  - apply on_limits_ok. intros l Hl.
    destruct (update_empty l (w_limits w) (s32 a) (u64 b) (wf_update _ Hl)) as (r & Hr & Hb & _).
    exists r, l. split; [done|]. split; [unfold MAX_ERRNO in Hb; wrap | done].
  - apply on_limits_ok. intros l Hl.
    destruct (remove_empty l (w_limits w) (s32 a) (wf_remove _ Hl)) as (r & Hr & Hb & _).
    exists r, l. split; [done|]. split; [unfold MAX_ERRNO in Hb; wrap | done].
Qed.

Lemma machine_step_ok mms s s' : machine_ok mms s → machine_step s s' → machine_ok mms s'.
Proof.
  intros Hs Hstep. inversion Hstep as [w nr registers run ? r ? Hl Hrun Hr|m ?]; subst.
  - apply usac_call_inv in Hrun; [|done].
    destruct (usac_call_ok mms _ _ _ _ Hrun s Hs) as (r1 & s1 & Hr1 & _ & Hok). by simplify_eq.
  - by apply machine_ok_user.
Qed.

Lemma machine_reachable_ok mms s : machine_reachable mms s → machine_ok mms s.
Proof.
  induction 1 as [m|s s' _ IH Hstep]; [|by eapply machine_step_ok].
  split; simpl; [apply limits_init_wf | done..].
Qed.

(** ** Properties *)

(** C25. The nine numbers of the table, and no others, reach the nine handlers,
    each with the argument registers it declares, converted to the types it
    declares them with. *)
Theorem usac_calls_by_number w nr registers run :
  length registers = 6%nat →
  usac_syscall w nr registers = Some run ↔ usac_call w nr registers run.
Proof. split; [by apply usac_call_inv | apply usac_call_run]. Qed.

(** C5. Whatever numbers and registers programs call with, in any order and with
    anything done to user memory in between, the nine calls together keep the
    lists of limits well formed and leave no RCU section, task reference or mm
    reference behind; and from every state reached, each call returns a long,
    without an oops. *)
Theorem usac_calls_safe mms s :
  machine_reachable mms s →
  machine_ok mms s ∧
  ∀ w nr registers run, length registers = 6%nat → usac_syscall w nr registers = Some run →
    ∃ r s', run s = Some (r, s') ∧ in_s64 r ∧ machine_ok mms s'.
Proof.
  intros Hs%machine_reachable_ok. split; [done|].
  intros w nr registers run Hl Hrun%usac_call_inv; [|done]. by apply (usac_call_ok mms w nr registers).
Qed.
End project_calls.

(** ** Concrete runs *)
Module ProjectRuns.
Definition world : call_world (gmap Z Z) :=
  World LimitsRuns.env (λ pid, if pid =? 7 then Some LimitsRuns.task else None) task_mm
    [LimitsRuns.task] SysInfoRuns.small Project1Runs.pages Project1Runs.stack
    (mk_io_stats 1 2 3 4 5 6) (λ _ _ _ _ _ _ m, (65536, m)).

Definition m0 : gmap Z Z := zero_page 4096 128.
Definition booted : machine (gmap Z Z) (list Z) := machine_init m0 ∅.

(** A call of number [nr]; a number that is not served returns [-ENOSYS]. *)
Definition call (nr : Z) (registers : list Z) (s : machine (gmap Z Z) (list Z))
    : option (Z * machine (gmap Z Z) (list Z)) :=
  match usac_syscall world nr registers with
  | Some run => run s
  | None => Some (- ENOSYS, s)
  end.

(** The upper half of the register of a [pid_t] is ignored. *)
Definition add_registers : list Z := [2 ^ 32 + 7; 1048576; 5; 6; 7; 8].
Definition get_registers : list Z := [4096; 10; 4160; 0; 0; 0].

Example add_then_get :
  (r ← call 557 add_registers booted; fst <$> call 558 get_registers r.2) = Some 1.
Proof. vm_compute. reflexivity. Qed.

(** [test.c] asks for memory under 552; 553 is no call. *)
Example alloc_then_nothing :
  fst <$> call 552 [8192; 0; 0; 0; 0; 0] booted = Some 65536 ∧
  fst <$> call 553 [8192; 0; 0; 0; 0; 0] booted = Some (- ENOSYS).
Proof. vm_compute. by split. Qed.

Definition added : machine (gmap Z Z) (list Z) :=
  from_option snd booted (call 557 add_registers booted).

Lemma added_reachable : machine_reachable (L := list Z) ∅ added.
Proof.
  apply (machine_goes _ booted); [constructor|].
  apply (step_syscall world 557 add_registers
    (on_limits (sys_add_memory_limit (w_limits world) (s32 (2 ^ 32 + 7)) (u64 1048576))) _ 0);
    [reflexivity | apply usac_call_run; constructor | vm_compute; reflexivity].
Qed.

Lemma usac_calls_by_number_witness :
  ∃ run, usac_syscall (L := list Z) world 557 add_registers = Some run ∧
    run = on_limits (sys_add_memory_limit (w_limits world) 7 1048576).
Proof.
  exists (on_limits (sys_add_memory_limit (w_limits world) 7 1048576)). split; [|reflexivity].
  apply (usac_calls_by_number (L := list Z) world 557 add_registers); [reflexivity|].
  apply (call_add world (2 ^ 32 + 7) 1048576).
Defined.

Lemma usac_calls_safe_witness :
  limits_table (k_limits added) !! 7 = Some 1048576 ∧ machine_ok ∅ added ∧
  ∃ r s', call 558 get_registers added = Some (r, s') ∧ in_s64 r.
Proof.
  split; [vm_compute; reflexivity|].
  destruct (usac_calls_safe ∅ added added_reachable) as [Hok Hcall]. split; [exact Hok|].
  destruct (Hcall world 558 get_registers (on_limits
    (sys_get_memory_limits (w_limits world) (u64 4096) (u64 10) (u64 4160))) eq_refl)
    as (r & s' & Hr & Hin & _); [apply usac_call_run; constructor|].
  exists r, s'. split; [|exact Hin]. unfold call.
  rewrite (usac_call_run world 558 get_registers _ (call_get world 4096 10 4160 [0; 0; 0])). exact Hr.
Defined.
End ProjectRuns.
